(** * GE dump playback (GPU/Debugger/Playback.cpp): a shallow embedding

    The replay engine of the PSP emulator re-executes a recorded GE frame
    dump.  This development embeds the parts of [Playback.cpp] that decide
    the behaviour of

    - the buffer mapper [BufMapping] (slabs under LRU, extras round-robin),
    - the replay executor [DumpExecute] (one handler per recorded command),
    - the loader [LoadReplay] and the entry point [RunMountedReplay],
    - the single-slot mailbox between the replay thread and the main thread,
    - the stub [WriteRunDumpCode] writes for the emulated program, with the
      instruction macros of [Core/MIPS/MIPSCodeUtils.h],

    and proves properties of them.

    Conventions.  A [u32] is a [Z] reduced modulo [2^32] where the source
    computes one; an [int] is reduced to the signed 32-bit range.  Emulated
    memory is a finite map from addresses to bytes.  Everything the source
    asks of a collaborator that is not part of the file (the user memory
    allocator, the GPU, the file system, the decompressors, the constants of
    [ge_constants.h] and [RecordFormat.h]) is a parameter. *)

From Stdlib Require Import ZArith Lia Bool String.
From stdpp Require Import base option list zmap.

Local Open Scope Z_scope.

(** ** Machine integers *)

Definition u32 (z : Z) : Z := z mod 2 ^ 32.

(** [int]: two's complement wrap-around of a 32-bit signed value. *)
Definition s32 (z : Z) : Z := (z + 2 ^ 31) mod 2 ^ 32 - 2 ^ 31.

(** [u16]: the type of [lastBufw_]. *)
Definition u16 (z : Z) : Z := z mod 2 ^ 16.

Definition INT_MAX : Z := 2 ^ 31 - 1.

(** ** Operations handed to the main thread

    [OpType::None] and [OpType::Done] are [OpNone] and [OpDone] here. *)

Inductive OpType :=
| OpNone
| UpdateStallAddr
| EnqueueList
| ListSync
| ReapplyGfxState
| OpDone.

Record Operation := mkOp {
  op_type : OpType;
  op_listID : Z;   (* also listPC in EnqueueList *)
  op_param : Z     (* stallAddr generally *)
}.

Definition OpType_eqb (a b : OpType) : bool :=
  match a, b with
  | OpNone, OpNone | UpdateStallAddr, UpdateStallAddr | EnqueueList, EnqueueList
  | ListSync, ListSync | ReapplyGfxState, ReapplyGfxState | OpDone, OpDone => true
  | _, _ => false
  end.

Inductive ReplayResult := Done | Break | Error.

(** ** What the replay thread does to the outside: the event log *)

Inductive Event :=
| EvExecuteOnMain (op : Operation)
| EvAlloc (size : Z) (fromTop : bool) (tag : string) (ret : Z)
| EvFree (addr : Z)
| EvMemcpy (dst : Z) (data : list Z)
| EvWrite_U32 (val addr : Z)
| EvNotifyMemInfo (addr sz : Z) (tag : string)
| EvErrorLog (msg : string)
| EvGstateRestore (ptr : Z)
| EvEnableInterrupts (enable : bool)
| EvPerformMemorySet (dest value sz : Z)
| EvPerformWriteColorFromMemory (dest sz : Z)
| EvDisplaySetFramebuf (topaddr linesize pixelFormat sync : Z)
| EvSetAddrTranslation (value : Z).

(** ** The world the replay thread runs in

    [userMemory] is the emulator's block allocator; it is not part of the
    file, so its state and its two operations are parameters.  [Alloc]
    returns the address, or [-1] as a [u32] on failure. *)

Record Allocator := {
  Heap : Type;
  userMemory_Alloc : Heap -> Z -> bool -> string -> Z * Heap;
  userMemory_Free : Heap -> Z -> Heap
}.

(** ** Constants and collaborators that live outside the file *)

(** The GE command numbers of [GPU/ge_constants.h] used by the executor. *)
Record GeConstants := {
  GE_CMD_NOP : Z;
  GE_CMD_VADDR : Z;
  GE_CMD_IADDR : Z;
  GE_CMD_JUMP : Z;
  GE_CMD_END : Z;
  GE_CMD_SIGNAL : Z;
  GE_CMD_FINISH : Z;
  GE_CMD_BASE : Z;
  GE_CMD_TEXADDR0 : Z;
  GE_CMD_TEXADDR7 : Z;
  GE_CMD_TEXBUFWIDTH0 : Z;
  GE_CMD_TEXBUFWIDTH7 : Z;
  GE_CMD_CLUTADDR : Z;
  GE_CMD_CLUTADDRUPPER : Z;
  GE_CMD_TRANSFERSRC : Z
}.

(** What the replay thread reads from its surroundings.  A value that
    another thread or the GPU may change is a function of the events so
    far. *)
Record Env := {
  (* g_retVal as ExecuteOnMain reads it when its wait is over *)
  observe_g_retVal : list Event -> Z;
  (* g_cancelled as the replay thread reads it *)
  observe_g_cancelled : list Event -> bool;
  gpu_GetListTicks : list Event -> Z -> Z;
  CoreTiming_GetTicks : list Event -> Z;
  gstate_transfersrcw : list Event -> Z;
  Memory_IsValidRange : Z -> Z -> bool;
  Memory_IsVRAMAddress : Z -> bool;
  g_Config_bSoftwareRendering : list Event -> bool;
  (* [if (gpu)] *)
  gpu : bool
}.

(** The recorded commands.  [RecordFormat.h] is not part of the sources;
    the enumerators are the ones [DumpExecute::Run] dispatches on, and
    [CommandType_other] stands for every other value of the type field. *)
Inductive CommandType :=
| INIT | REGISTERS | VERTICES | INDICES | CLUTADDR | CLUT | TRANSFERSRC
| MEMSET | MEMCPYDEST | MEMCPYDATA | EDRAMTRANS
| TEXTURE0 | TEXTURE1 | TEXTURE2 | TEXTURE3 | TEXTURE4 | TEXTURE5 | TEXTURE6 | TEXTURE7
| FRAMEBUF0 | FRAMEBUF1 | FRAMEBUF2 | FRAMEBUF3 | FRAMEBUF4 | FRAMEBUF5 | FRAMEBUF6 | FRAMEBUF7
| DISPLAY
| CommandType_other (raw : Z).

Record Command := mkCommand {
  cmd_type : CommandType;
  cmd_ptr : Z;
  cmd_sz : Z
}.

(** [(int)cmd.type - (int)CommandType::TEXTURE0] and the same for
    [FRAMEBUF0]; the eight enumerators are consecutive. *)
Definition texture_level (t : CommandType) : option nat :=
  match t with
  | TEXTURE0 => Some 0%nat | TEXTURE1 => Some 1%nat | TEXTURE2 => Some 2%nat
  | TEXTURE3 => Some 3%nat | TEXTURE4 => Some 4%nat | TEXTURE5 => Some 5%nat
  | TEXTURE6 => Some 6%nat | TEXTURE7 => Some 7%nat
  | _ => None
  end.

Definition framebuf_level (t : CommandType) : option nat :=
  match t with
  | FRAMEBUF0 => Some 0%nat | FRAMEBUF1 => Some 1%nat | FRAMEBUF2 => Some 2%nat
  | FRAMEBUF3 => Some 3%nat | FRAMEBUF4 => Some 4%nat | FRAMEBUF5 => Some 5%nat
  | FRAMEBUF6 => Some 6%nat | FRAMEBUF7 => Some 7%nat
  | _ => None
  end.

(** ** The capture file and the loader's collaborators

    [RecordFormat.h] is not part of the sources.  The header is read as
    [sizeof(Header)] bytes holding [magic], [version] and [gameID] in this
    order; the sizes, the magic bytes, the two version bounds and the
    layout of a [Command] are parameters. *)
Record RecordFormat := {
  HEADER_MAGIC : list Z;
  sizeof_magic : nat;
  sizeof_gameID : nat;
  sizeof_Header : nat;
  VERSION : Z;
  MIN_VERSION : Z;
  sizeof_Command : Z;
  (* the vector of commands as read from its storage *)
  decode_commands : list Z -> list Command
}.

(** The two decompressors: from the compressed bytes and the capacity of
    the destination to the bytes written and the length reported.  For
    [snappy_uncompress] the length is the value its last argument holds
    after the call, for [ZSTD_decompress] it is the value returned. *)
Record Codecs := {
  snappy_uncompress : list Z -> Z -> list Z * Z;
  ZSTD_decompress : list Z -> Z -> list Z * Z
}.

(** What the main thread asks of the GPU when it serves an operation. *)
Record MainEnv := {
  (* the content of a file of [pspFileSystem] *)
  file_content : string -> list Z;
  gpu_EnqueueList : Z -> Z -> Z;
  (* the [runList] flag that UpdateStall and EnqueueList hand back *)
  gpu_runList : Operation -> bool
}.

Inductive MainEvent :=
| MErrorLog (msg : string)
| MSetDiscID (gameID : list Z)
| MSetWindowTitle (hasDiscID : bool)
| MThreadStart (version : Z)
| MThreadJoin
| MhleEatCycles (cycles : Z)
| MhleCoreTimingForceCheck
| MhleSplitSyscallOverGe
| MUpdateStall (listID param : Z)
| MEnqueueList (listPC stall : Z)
| MReapplyGfxState
| MListSync (listID mode : Z).

(** An open file of [pspFileSystem]: the bytes and the read position. *)
Record File := mkFile {
  file_bytes : list Z;
  file_pos : nat
}.

(** [ReadFile(fp, buf, n)]: the bytes delivered and the file advanced. *)
Definition ReadFile (f : File) (n : Z) : list Z * File :=
  let got := take (Z.to_nat n) (drop (file_pos f) (file_bytes f)) in
  (got, mkFile (file_bytes f) (file_pos f + length got)).

(** [SeekFile(fp, pos, FILEMOVE_BEGIN)] *)
Definition SeekFile (f : File) (pos : nat) : File := mkFile (file_bytes f) pos.

(** A read into a buffer replaces its first bytes and keeps the rest. *)
Definition overlay (got buf : list Z) : list Z := got ++ drop (length got) buf.

Definition le32 (bs : list Z) : Z :=
  default 0 (bs !! 0%nat) + 2 ^ 8 * default 0 (bs !! 1%nat)
  + 2 ^ 16 * default 0 (bs !! 2%nat) + 2 ^ 24 * default 0 (bs !! 3%nat).

(** [std::vector::resize] on a vector of bytes. *)
Definition resize_bytes (n : Z) (v : list Z) : list Z :=
  take (Z.to_nat n) v ++ replicate (Z.to_nat n - length v) 0.

Fixpoint list_Z_eqb (a b : list Z) : bool :=
  match a, b with
  | [], [] => true
  | x :: a', y :: b' => (x =? y) && list_Z_eqb a' b'
  | _, _ => false
  end.

Record Header := mkHeader {
  magic : list Z;
  version : Z;
  gameID : list Z
}.

(** ** BufMapping *)

Definition SLAB_SIZE : Z := 1 * 1024 * 1024.
Definition SLAB_COUNT : nat := 10.
Definition EXTRA_COUNT : nat := 10.

Module SlabInfo.
Record t := mk {
  psp_pointer_ : Z;
  buf_pointer_ : Z;
  last_used_ : Z
}.

Definition init : t := mk 0 0 0.

Definition Matches (s : t) (bufpos : Z) : bool :=
  (buf_pointer_ s =? bufpos) && negb (psp_pointer_ s =? 0).

(** [slabGeneration_] is a static member: it is passed in. *)
Definition Ptr (slabGeneration_ : Z) (s : t) (bufpos : Z) : Z * t :=
  (u32 (psp_pointer_ s + (bufpos - buf_pointer_ s)),
   mk (psp_pointer_ s) (buf_pointer_ s) slabGeneration_).

Definition Age (slabGeneration_ : Z) (s : t) : Z :=
  if psp_pointer_ s =? 0 then INT_MAX
  else s32 (slabGeneration_ - last_used_ s).
End SlabInfo.

Module ExtraInfo.
Record t := mk {
  psp_pointer_ : Z;
  buf_pointer_ : Z;
  size_ : Z
}.

Definition init : t := mk 0 0 0.

Definition Matches (e : t) (bufpos sz : Z) : bool :=
  (buf_pointer_ e =? bufpos) && negb (psp_pointer_ e =? 0) && (size_ e >=? sz).

Definition Ptr (e : t) : Z := psp_pointer_ e.
End ExtraInfo.

Section Playback.

Context {A : Allocator} (E : Env) (K : GeConstants).
Context (F : RecordFormat) (C : Codecs) (M : MainEnv).

Record World := mkWorld {
  heap : Heap A;           (* userMemory *)
  mem : Zmap Z;            (* emulated memory, byte-addressed *)
  trace : list Event;      (* newest event first *)
  downcount : Z            (* currentMIPS->downcount *)
}.

Definition log (e : Event) (w : World) : World :=
  mkWorld (heap w) (mem w) (e :: trace w) (downcount w).

Definition Alloc (size : Z) (fromTop : bool) (tag : string) (w : World) : Z * World :=
  let '(p, h) := userMemory_Alloc A (heap w) size fromTop tag in
  (u32 p, mkWorld h (mem w) (EvAlloc size fromTop tag (u32 p) :: trace w) (downcount w)).

Definition Free (addr : Z) (w : World) : World :=
  mkWorld (userMemory_Free A (heap w) addr) (mem w) (EvFree addr :: trace w) (downcount w).

(** Bytes of a host buffer from offset [off]; the source reads them without
    a bounds check, the model reads 0 past the end. *)
Definition read_bytes (buf : list Z) (off : Z) (len : Z) : list Z :=
  let avail := take (Z.to_nat len) (drop (Z.to_nat off) buf) in
  avail ++ replicate (Z.to_nat len - length avail) 0.

Fixpoint store_bytes (addr : Z) (data : list Z) (m : Zmap Z) : Zmap Z :=
  match data with
  | [] => m
  | b :: data' => store_bytes (addr + 1) data' (<[addr := b]> m)
  end.

Definition load_byte (m : Zmap Z) (addr : Z) : Z := default 0 (m !! addr).

(** [Memory::MemcpyUnchecked(dst, src, len)] with the source bytes given. *)
Definition MemcpyUnchecked (dst : Z) (data : list Z) (w : World) : World :=
  mkWorld (heap w) (store_bytes dst data (mem w)) (EvMemcpy dst data :: trace w) (downcount w).

Definition le32_bytes (v : Z) : list Z :=
  [v mod 256; (v / 2 ^ 8) mod 256; (v / 2 ^ 16) mod 256; (v / 2 ^ 24) mod 256].

Definition load_u32 (m : Zmap Z) (addr : Z) : Z :=
  load_byte m addr + 2 ^ 8 * load_byte m (addr + 1)
  + 2 ^ 16 * load_byte m (addr + 2) + 2 ^ 24 * load_byte m (addr + 3).

Definition Write_U32 (val addr : Z) (w : World) : World :=
  mkWorld (heap w) (store_bytes addr (le32_bytes val) (mem w))
          (EvWrite_U32 val addr :: trace w) (downcount w).

Definition SlabInfo_Alloc (s : SlabInfo.t) (w : World) : bool * SlabInfo.t * World :=
  let sz := SLAB_SIZE in
  let '(p, w1) := Alloc sz false "Slab" w in
  let p := if p =? u32 (-1) then 0 else p in
  (negb (p =? 0), SlabInfo.mk p (SlabInfo.buf_pointer_ s) (SlabInfo.last_used_ s), w1).

Definition SlabInfo_Free (s : SlabInfo.t) (w : World) : SlabInfo.t * World :=
  if SlabInfo.psp_pointer_ s =? 0 then (s, w)
  else (SlabInfo.mk 0 0 0, Free (SlabInfo.psp_pointer_ s) w).

Definition ExtraInfo_Free (e : ExtraInfo.t) (w : World) : ExtraInfo.t * World :=
  if ExtraInfo.psp_pointer_ e =? 0 then (e, w)
  else (ExtraInfo.mk 0 0 (ExtraInfo.size_ e), Free (ExtraInfo.psp_pointer_ e) w).

Definition ExtraInfo_Alloc (pushbuf_ : list Z) (e : ExtraInfo.t) (w : World) (bufpos sz : Z)
  : bool * ExtraInfo.t * World :=
  (* Make sure we've freed any previous allocation first. *)
  let '(e1, w1) := ExtraInfo_Free e w in
  let allocSize := sz in
  let '(p, w2) := Alloc allocSize false "Straddle extra" w1 in
  let p := if p =? u32 (-1) then 0 else p in
  if p =? 0 then
    (false, ExtraInfo.mk 0 (ExtraInfo.buf_pointer_ e1) (ExtraInfo.size_ e1), w2)
  else
    (true, ExtraInfo.mk p bufpos sz,
     MemcpyUnchecked p (read_bytes pushbuf_ bufpos sz) w2).

(** [Setup] returns the new value of the static [slabGeneration_] as well. *)
Definition SlabInfo_Setup (pushbuf_ : list Z) (slabGeneration_ : Z) (s : SlabInfo.t) (w : World)
    (bufpos : Z) : bool * SlabInfo.t * Z * World :=
  (* If it already has RAM, we're simply taking it over. *)
  let '(ok, s1, w1) :=
    if SlabInfo.psp_pointer_ s =? 0 then SlabInfo_Alloc s w else (true, s, w) in
  if negb ok then (false, s1, slabGeneration_, w1)
  else
    let sz := Z.min (u32 SLAB_SIZE) (u32 (u32 (Z.of_nat (length pushbuf_)) - bufpos)) in
    let w2 := MemcpyUnchecked (SlabInfo.psp_pointer_ s1) (read_bytes pushbuf_ bufpos sz) w1 in
    let gen := s32 (slabGeneration_ + 1) in
    (true, SlabInfo.mk (SlabInfo.psp_pointer_ s1) bufpos gen, gen, w2).

Record BufMapping := mkBufMapping {
  slabGeneration_ : Z;
  slabs_ : list SlabInfo.t;
  lastSlab_ : nat;
  extraOffset_ : nat;
  extra_ : list ExtraInfo.t
}.

Definition BufMapping_init : BufMapping :=
  mkBufMapping 0 (replicate SLAB_COUNT SlabInfo.init) 0 0 (replicate EXTRA_COUNT ExtraInfo.init).

Definition slab_at (m : BufMapping) (i : nat) : SlabInfo.t :=
  default SlabInfo.init (slabs_ m !! i).

Definition extra_at (l : list ExtraInfo.t) (i : nat) : ExtraInfo.t :=
  default ExtraInfo.init (l !! i).

Definition set_slab (m : BufMapping) (i : nat) (s : SlabInfo.t) : BufMapping :=
  mkBufMapping (slabGeneration_ m) (<[i := s]> (slabs_ m)) (lastSlab_ m) (extraOffset_ m) (extra_ m).

(** The scan of [MapSlab]: [inl i] when slab [i] matches, else [inr best]. *)
Fixpoint MapSlab_scan (m : BufMapping) (slab_pos : Z) (idx : list nat) (best : nat) : nat + nat :=
  match idx with
  | [] => inr best
  | i :: idx' =>
      if SlabInfo.Matches (slab_at m i) slab_pos then inl i
      else
        let best' :=
          if SlabInfo.Age (slabGeneration_ m) (slab_at m i)
             >? SlabInfo.Age (slabGeneration_ m) (slab_at m best)
          then i else best in
        MapSlab_scan m slab_pos idx' best'
  end.

Definition slab_Ptr (m : BufMapping) (i : nat) (bufpos : Z) : Z * BufMapping :=
  let '(p, s) := SlabInfo.Ptr (slabGeneration_ m) (slab_at m i) bufpos in
  (p, set_slab m i s).

Definition MapSlab (pushbuf_ : list Z) (m : BufMapping) (w : World) (bufpos : Z)
    (flush : World -> World) : Z * BufMapping * World :=
  let slab_pos := u32 (u32 bufpos / SLAB_SIZE * SLAB_SIZE) in
  match MapSlab_scan m slab_pos (seq 0 SLAB_COUNT) 0 with
  | inl i => let '(p, m1) := slab_Ptr m i bufpos in (p, m1, w)
  | inr best =>
      (* Stall before mapping a new slab. *)
      let w1 := flush w in
      (* Okay, we need to allocate. *)
      let '(ok, s, gen, w2) :=
        SlabInfo_Setup pushbuf_ (slabGeneration_ m) (slab_at m best) w1 slab_pos in
      let m1 := mkBufMapping gen (<[best := s]> (slabs_ m)) (lastSlab_ m)
                             (extraOffset_ m) (extra_ m) in
      if negb ok then (0, m1, w2)
      else
        let m2 := mkBufMapping gen (slabs_ m1) best (extraOffset_ m1) (extra_ m1) in
        let '(p, m3) := slab_Ptr m2 best bufpos in
        (p, m3, w2)
  end.

(** The first scan of [MapExtra]. *)
Fixpoint MapExtra_scan (l : list ExtraInfo.t) (bufpos sz : Z) (idx : list nat) : option nat :=
  match idx with
  | [] => None
  | i :: idx' =>
      if ExtraInfo.Matches (extra_at l i) bufpos sz then Some i
      else MapExtra_scan l bufpos sz idx'
  end.

(** [for (i = 0; i < EXTRA_COUNT; ++i) extra_[i].Free();] *)
Fixpoint free_extras (l : list ExtraInfo.t) (idx : list nat) (w : World)
  : list ExtraInfo.t * World :=
  match idx with
  | [] => (l, w)
  | i :: idx' =>
      let '(e, w1) := ExtraInfo_Free (extra_at l i) w in
      free_extras (<[i := e]> l) idx' w1
  end.

Definition MapExtra (pushbuf_ : list Z) (m : BufMapping) (w : World) (bufpos sz : Z)
    (flush : World -> World) : Z * BufMapping * World :=
  match MapExtra_scan (extra_ m) bufpos sz (seq 0 EXTRA_COUNT) with
  | Some i => (ExtraInfo.Ptr (extra_at (extra_ m) i), m, w)
  | None =>
      (* Stall first, so we don't stomp existing RAM. *)
      let w1 := flush w in
      let i := extraOffset_ m in
      let off := ((extraOffset_ m + 1) mod EXTRA_COUNT)%nat in
      let '(ok, e, w2) := ExtraInfo_Alloc pushbuf_ (extra_at (extra_ m) i) w1 bufpos sz in
      let l1 := <[i := e]> (extra_ m) in
      if ok then
        (ExtraInfo.Ptr (extra_at l1 i),
         mkBufMapping (slabGeneration_ m) (slabs_ m) (lastSlab_ m) off l1, w2)
      else
        (* Let's try to power on - hopefully none of these are still in use. *)
        let '(l2, w3) := free_extras l1 (seq 0 EXTRA_COUNT) w2 in
        let '(ok2, e2, w4) := ExtraInfo_Alloc pushbuf_ (extra_at l2 i) w3 bufpos sz in
        let l3 := <[i := e2]> l2 in
        let m' := mkBufMapping (slabGeneration_ m) (slabs_ m) (lastSlab_ m) off l3 in
        if ok2 then (ExtraInfo.Ptr (extra_at l3 i), m', w4)
        else (0, m', w4)
  end.

Definition Map (pushbuf_ : list Z) (m : BufMapping) (w : World) (bufpos sz : Z)
    (flush : World -> World) : Z * BufMapping * World :=
  let slab1 := u32 bufpos / SLAB_SIZE in
  let slab2 := u32 (bufpos + sz - 1) / SLAB_SIZE in
  if slab1 =? slab2 then
    (* Shortcut in case it's simply the most recent slab. *)
    if SlabInfo.Matches (slab_at m (lastSlab_ m)) (u32 (slab1 * SLAB_SIZE)) then
      let '(p, m1) := slab_Ptr m (lastSlab_ m) bufpos in (p, m1, w)
    else
      (* Doesn't straddle, so we can just map to a slab. *)
      MapSlab pushbuf_ m w bufpos flush
  else
    (* We need contiguous, so we'll just allocate separately. *)
    MapExtra pushbuf_ m w bufpos sz flush.

(** ** DumpExecute *)

Definition LIST_BUF_SIZE : Z := 256 * 1024.

Record DumpExecute := mkDumpExecute {
  execMemcpyDest : Z;
  execClutAddr : Z;
  execClutFlags : Z;
  execListBuf : Z;
  execListPos : Z;
  execListID : Z;
  execListQueue : list Z;
  lastBufw_ : list Z;
  lastTex_ : list Z;
  lastBase_ : Z;
  mapping_ : BufMapping;
  version_ : Z;
  resumeIndex_ : Z
}.

(** The object as its constructor and member initialisers leave it. *)
Definition DumpExecute_new (version : Z) : DumpExecute :=
  mkDumpExecute 0 0 0 0 0 0 [] (replicate 8%nat 0) (replicate 8%nat 0) 0
                BufMapping_init version (-1).

Definition with_execMemcpyDest (v : Z) (d : DumpExecute) : DumpExecute :=
  mkDumpExecute v (execClutAddr d) (execClutFlags d) (execListBuf d) (execListPos d)
    (execListID d) (execListQueue d) (lastBufw_ d) (lastTex_ d) (lastBase_ d)
    (mapping_ d) (version_ d) (resumeIndex_ d).

Definition with_execClut (addr flags : Z) (d : DumpExecute) : DumpExecute :=
  mkDumpExecute (execMemcpyDest d) addr flags (execListBuf d) (execListPos d)
    (execListID d) (execListQueue d) (lastBufw_ d) (lastTex_ d) (lastBase_ d)
    (mapping_ d) (version_ d) (resumeIndex_ d).

Definition with_execList (buf pos id : Z) (d : DumpExecute) : DumpExecute :=
  mkDumpExecute (execMemcpyDest d) (execClutAddr d) (execClutFlags d) buf pos id
    (execListQueue d) (lastBufw_ d) (lastTex_ d) (lastBase_ d)
    (mapping_ d) (version_ d) (resumeIndex_ d).

Definition with_execListPos (pos : Z) (d : DumpExecute) : DumpExecute :=
  with_execList (execListBuf d) pos (execListID d) d.

Definition with_execListQueue (q : list Z) (d : DumpExecute) : DumpExecute :=
  mkDumpExecute (execMemcpyDest d) (execClutAddr d) (execClutFlags d) (execListBuf d)
    (execListPos d) (execListID d) q (lastBufw_ d) (lastTex_ d) (lastBase_ d)
    (mapping_ d) (version_ d) (resumeIndex_ d).

Definition with_last (bufw tex : list Z) (base : Z) (d : DumpExecute) : DumpExecute :=
  mkDumpExecute (execMemcpyDest d) (execClutAddr d) (execClutFlags d) (execListBuf d)
    (execListPos d) (execListID d) (execListQueue d) bufw tex base
    (mapping_ d) (version_ d) (resumeIndex_ d).

Definition with_lastBase (base : Z) (d : DumpExecute) : DumpExecute :=
  with_last (lastBufw_ d) (lastTex_ d) base d.

Definition with_mapping (m : BufMapping) (d : DumpExecute) : DumpExecute :=
  mkDumpExecute (execMemcpyDest d) (execClutAddr d) (execClutFlags d) (execListBuf d)
    (execListPos d) (execListID d) (execListQueue d) (lastBufw_ d) (lastTex_ d)
    (lastBase_ d) m (version_ d) (resumeIndex_ d).

(** [execListQueue.push_back(word)] *)
Definition push_back (word : Z) (d : DumpExecute) : DumpExecute :=
  with_execListQueue (execListQueue d ++ [word]) d.

(** An element of [lastBufw_] or [lastTex_]. *)
Definition at8 (l : list Z) (level : nat) : Z := default 0 (l !! level).

(** A little-endian [u32] field of the pushbuffer at a byte offset. *)
Definition pushbuf_u32 (pushbuf_ : list Z) (off : Z) : Z :=
  let b := fun k => default 0 (pushbuf_ !! Z.to_nat (off + k)) in
  b 0 + 2 ^ 8 * b 1 + 2 ^ 16 * b 2 + 2 ^ 24 * b 3.

(** A direct store through a host pointer into emulated memory
    ([ops[i] = ...]); no collaborator is called. *)
Definition poke_u32 (addr val : Z) (m : Zmap Z) : Zmap Z :=
  store_bytes addr (le32_bytes val) m.

(** The replay thread's side of [ExecuteOnMain]: the operation is posted
    and the value of [g_retVal] found after the wait is returned. *)
Definition ExecuteOnMain (op : Operation) (w : World) : Z * World :=
  let w1 := log (EvExecuteOnMain op) w in
  (observe_g_retVal E (trace w1), w1).

Definition SyncStall (d : DumpExecute) (w : World) : World :=
  if execListBuf d =? 0 then w
  else
    let '(_, w1) := ExecuteOnMain (mkOp UpdateStallAddr (execListID d) (execListPos d)) w in
    let listTicks := gpu_GetListTicks E (trace w1) (execListID d) in
    if listTicks =? -1 then w1
    else
      let nowTicks := CoreTiming_GetTicks E (trace w1) in
      if listTicks >? nowTicks then
        mkWorld (heap w1) (mem w1) (trace w1) (s32 (downcount w1 - (listTicks - nowTicks)))
      else w1.

(** The words the handlers queue. *)
Definition base_word (psp : Z) : Z :=
  u32 (Z.lor (Z.shiftl (GE_CMD_BASE K) 24) (Z.land (Z.shiftr psp 8) 0x00FF0000)).

Definition addr_word (cmd psp : Z) : Z :=
  u32 (Z.lor (Z.shiftl cmd 24) (Z.land psp 0x00FFFFFF)).

Definition nop_word : Z := u32 (Z.shiftl (GE_CMD_NOP K) 24).

(** One round of the loop over the freshly written words in [Registers]. *)
Definition Registers_fixup (lastTexHigh : nat -> Z) (writePos : Z)
    (st : Zmap Z * list Z * Z) (i : nat) : Zmap Z * list Z * Z :=
  let '(m, bufws, base) := st in
  let addr := writePos + 4 * Z.of_nat i in
  let op := load_u32 m addr in
  let cmd := Z.shiftr op 24 in
  let '(m1, bufws1) :=
    if (GE_CMD_TEXBUFWIDTH0 K <=? cmd) && (cmd <=? GE_CMD_TEXBUFWIDTH7 K) then
      let level := Z.to_nat (cmd - GE_CMD_TEXBUFWIDTH0 K) in
      let bufw := Z.land op 0xFFFF in
      (* NOP the address part of the command to avoid a flush too. *)
      let v := if bufw =? at8 bufws level then nop_word
               else Z.lor (lastTexHigh level) bufw in
      (poke_u32 addr v m, <[level := bufw]> bufws)
    else (m, bufws) in
  (* Since we're here anyway, also NOP out texture addresses. *)
  let m2 :=
    if (GE_CMD_TEXADDR0 K <=? cmd) && (cmd <=? GE_CMD_TEXADDR7 K)
    then poke_u32 addr nop_word m1 else m1 in
  let base1 :=
    if (cmd =? GE_CMD_SIGNAL K) || (cmd =? GE_CMD_BASE K) then 0xFFFFFFFF else base in
  (m2, bufws1, base1).

(** The first part of [Registers]: the list buffer is allocated and
    enqueued on first use.  [false] is the early return. *)
Definition Registers_ensure_list (d : DumpExecute) (w : World) : bool * DumpExecute * World :=
  if execListBuf d =? 0 then
    let allocSize := LIST_BUF_SIZE in
    let '(p, w1) := Alloc allocSize true "List buf" w in
    let p := if p =? u32 (-1) then 0 else p in
    if p =? 0 then
      (false, with_execList 0 (execListPos d) (execListID d) d,
       log (EvErrorLog "Unable to allocate for display list") w1)
    else
      let w2 := Write_U32 nop_word p w1 in
      let pos := u32 (p + 4) in
      (* TODO: Why do we disable interrupts here? *)
      let w3 := log (EvEnableInterrupts false) w2 in
      let '(id, w4) := ExecuteOnMain (mkOp EnqueueList p pos) w3 in
      let w5 := log (EvEnableInterrupts true) w4 in
      (true, with_execList p pos id d, w5)
  else (true, d, w).

(** The second part: the jump back to the start of the buffer when the
    pending words, the payload and 8 more bytes do not fit. *)
Definition Registers_wrap (d : DumpExecute) (w : World) (sz : Z) : DumpExecute * World :=
  let pendingSize := u32 (Z.of_nat (length (execListQueue d)) * 4) in
  (* Validate space for jump. *)
  let allocSize := u32 (pendingSize + sz + 8) in
  if u32 (execListPos d + allocSize) >=? u32 (execListBuf d + LIST_BUF_SIZE) then
    let w1 := Write_U32 (base_word (execListBuf d)) (execListPos d) w in
    let w2 := Write_U32 (addr_word (GE_CMD_JUMP K) (execListBuf d)) (u32 (execListPos d + 4)) w1 in
    let d1 := with_lastBase (Z.land (execListBuf d) 0xFF000000)
                (with_execListPos (execListBuf d) d) in
    (* Don't continue until we've stalled. *)
    (d1, SyncStall d1 w2)
  else (d, w).

Definition Registers (pushbuf_ : list Z) (d : DumpExecute) (w : World) (ptr sz : Z)
  : DumpExecute * World :=
  let '(ok, d1, w1) := Registers_ensure_list d w in
  if negb ok then (d1, w1)
  else
    let pendingSize := u32 (Z.of_nat (length (execListQueue d1)) * 4) in
    let '(d2, w2) := Registers_wrap d1 w1 sz in
    let w3 := MemcpyUnchecked (execListPos d2) (flat_map le32_bytes (execListQueue d2)) w2 in
    let writePos := u32 (execListPos d2 + pendingSize) in
    let w4 := MemcpyUnchecked writePos (read_bytes pushbuf_ ptr sz) w3 in
    let pos := u32 (writePos + sz) in
    let lastTexHigh := fun i : nat =>
      u32 (Z.lor (Z.shiftr (Z.land (at8 (lastTex_ d2) i) 0xFF000000) 8)
                 (Z.shiftl (GE_CMD_TEXBUFWIDTH0 K + Z.of_nat i) 24)) in
    let '(m, bufws, base) :=
      fold_left (Registers_fixup lastTexHigh writePos) (seq 0 (Z.to_nat (sz / 4)))
                (mem w4, lastBufw_ d2, lastBase_ d2) in
    (with_execListQueue [] (with_last bufws (lastTex_ d2) base (with_execListPos pos d2)),
     mkWorld (heap w4) m (trace w4) (downcount w4)).

Definition SubmitListEnd (d : DumpExecute) (w : World) : DumpExecute * World :=
  if (execListPos d =? 0) || observe_g_cancelled E (trace w) then (d, w)
  else
    (* There's always space for the end, same size as a jump. *)
    let w1 := Write_U32 (u32 (Z.shiftl (GE_CMD_FINISH K) 24)) (execListPos d) w in
    let w2 := Write_U32 (u32 (Z.shiftl (GE_CMD_END K) 24)) (u32 (execListPos d + 4)) w1 in
    let d1 := with_execListPos (u32 (execListPos d + 8)) d in
    let d2 := with_last (lastBufw_ d1) (replicate 8%nat 0) 0xFFFFFFFF d1 in
    let w3 := SyncStall d2 w2 in
    let '(_, w4) := ExecuteOnMain (mkOp ListSync (execListID d2) 0) w3 in
    (d2, w4).

Definition Init (d : DumpExecute) (w : World) (ptr sz : Z) : DumpExecute * World :=
  let w1 := log (EvGstateRestore ptr) w in
  let '(_, w2) := ExecuteOnMain (mkOp ReapplyGfxState 0 0) w1 in
  (with_last (replicate 8%nat 0) (replicate 8%nat 0) 0xFFFFFFFF d, w2).

(** [mapping_.Map(ptr, sz, std::bind(&DumpExecute::SyncStall, this))] *)
Definition map_payload (pushbuf_ : list Z) (d : DumpExecute) (w : World) (ptr sz : Z)
  : Z * DumpExecute * World :=
  let '(psp, m, w1) := Map pushbuf_ (mapping_ d) w ptr sz (SyncStall d) in
  (psp, with_mapping m d, w1).

Definition Vertices (pushbuf_ : list Z) (d : DumpExecute) (w : World) (ptr sz : Z)
  : DumpExecute * World :=
  let '(psp, d1, w1) := map_payload pushbuf_ d w ptr sz in
  if psp =? 0 then (d1, log (EvErrorLog "Unable to allocate for vertices") w1)
  else
    let d2 :=
      if negb (lastBase_ d1 =? Z.land psp 0xFF000000)
      then with_lastBase (Z.land psp 0xFF000000) (push_back (base_word psp) d1)
      else d1 in
    (push_back (addr_word (GE_CMD_VADDR K) psp) d2, w1).

Definition Indices (pushbuf_ : list Z) (d : DumpExecute) (w : World) (ptr sz : Z)
  : DumpExecute * World :=
  let '(psp, d1, w1) := map_payload pushbuf_ d w ptr sz in
  if psp =? 0 then (d1, log (EvErrorLog "Unable to allocate for indices") w1)
  else
    let d2 :=
      if negb (lastBase_ d1 =? Z.land psp 0xFF000000)
      then with_lastBase (Z.land psp 0xFF000000) (push_back (base_word psp) d1)
      else d1 in
    (push_back (addr_word (GE_CMD_IADDR K) psp) d2, w1).

Definition ClutAddr (pushbuf_ : list Z) (d : DumpExecute) (w : World) (ptr sz : Z)
  : DumpExecute * World :=
  (with_execClut (pushbuf_u32 pushbuf_ ptr) (pushbuf_u32 pushbuf_ (ptr + 4)) d, w).

Definition Clut (pushbuf_ : list Z) (d : DumpExecute) (w : World) (ptr sz : Z)
  : DumpExecute * World :=
  (* This is always run when we have the actual address set. *)
  if negb (execClutAddr d =? 0) then
    let isTarget := negb (Z.land (execClutFlags d) 1 =? 0) in
    let w1 :=
      if Memory_IsValidRange E (execClutAddr d) sz
         && (negb isTarget || negb (g_Config_bSoftwareRendering E (trace w)))
      then
        (* Intentionally don't trigger an upload here. *)
        log (EvNotifyMemInfo (execClutAddr d) sz "ReplayClut")
            (MemcpyUnchecked (execClutAddr d) (read_bytes pushbuf_ ptr sz) w)
      else w in
    (with_execClut 0 (execClutFlags d) d, w1)
  else
    let '(psp, d1, w1) := map_payload pushbuf_ d w ptr sz in
    if psp =? 0 then (d1, log (EvErrorLog "Unable to allocate for clut") w1)
    else
      let upper := u32 (Z.lor (Z.shiftl (GE_CMD_CLUTADDRUPPER K) 24)
                              (Z.land (Z.shiftr psp 8) 0x00FF0000)) in
      (push_back (addr_word (GE_CMD_CLUTADDR K) psp) (push_back upper d1), w1).

Definition TransferSrc (pushbuf_ : list Z) (d : DumpExecute) (w : World) (ptr sz : Z)
  : DumpExecute * World :=
  let '(psp, d1, w1) := map_payload pushbuf_ d w ptr sz in
  if psp =? 0 then (d1, log (EvErrorLog "Unable to allocate for transfer") w1)
  else
    (* Need to sync in order to access gstate.transfersrcw. *)
    let w2 := SyncStall d1 w1 in
    let srcw := u32 (Z.lor (Z.land (gstate_transfersrcw E (trace w2)) 0xFF00FFFF)
                           (Z.land (Z.shiftr psp 8) 0x00FF0000)) in
    (push_back (addr_word (GE_CMD_TRANSFERSRC K) psp) (push_back srcw d1), w2).

Definition Memset (pushbuf_ : list Z) (d : DumpExecute) (w : World) (ptr sz : Z)
  : DumpExecute * World :=
  let dest := pushbuf_u32 pushbuf_ ptr in
  let value := pushbuf_u32 pushbuf_ (ptr + 4) in
  let data_sz := pushbuf_u32 pushbuf_ (ptr + 8) in
  if Memory_IsVRAMAddress E dest then
    let w1 := SyncStall d w in
    (* TODO: should probably do this as an operation. *)
    (d, log (EvPerformMemorySet dest (value mod 256) data_sz) w1)
  else (d, w).

Definition MemcpyDest (pushbuf_ : list Z) (d : DumpExecute) (w : World) (ptr sz : Z)
  : DumpExecute * World :=
  (with_execMemcpyDest (pushbuf_u32 pushbuf_ ptr) d, w).

Definition Memcpy (pushbuf_ : list Z) (d : DumpExecute) (w : World) (ptr sz : Z)
  : DumpExecute * World :=
  if Memory_IsVRAMAddress E (execMemcpyDest d) then
    let w1 := SyncStall d w in
    let w2 := MemcpyUnchecked (execMemcpyDest d) (read_bytes pushbuf_ ptr sz) w1 in
    let w3 := log (EvNotifyMemInfo (execMemcpyDest d) sz "ReplayMemcpy") w2 in
    (d, log (EvPerformWriteColorFromMemory (execMemcpyDest d) sz) w3)
  else (d, w).

Definition Texture (pushbuf_ : list Z) (level : nat) (d : DumpExecute) (w : World) (ptr sz : Z)
  : DumpExecute * World :=
  let '(psp, d1, w1) := map_payload pushbuf_ d w ptr sz in
  if psp =? 0 then (d1, log (EvErrorLog "Unable to allocate for texture") w1)
  else if negb (at8 (lastTex_ d1) level =? psp) then
    let bufwCmd := GE_CMD_TEXBUFWIDTH0 K + Z.of_nat level in
    let addrCmd := GE_CMD_TEXADDR0 K + Z.of_nat level in
    let bufw_word := u32 (Z.lor (Z.lor (Z.shiftl bufwCmd 24)
                                       (Z.land (Z.shiftr psp 8) 0x00FF0000))
                                (at8 (lastBufw_ d1) level)) in
    let d2 := push_back (addr_word addrCmd psp) (push_back bufw_word d1) in
    (with_last (lastBufw_ d2) (<[level := psp]> (lastTex_ d2)) (lastBase_ d2) d2, w1)
  else (d1, w1).

(** [sizeof(FramebufData)]: four 32-bit fields. *)
Definition FramebufData_size : Z := 16.

Definition Framebuf (pushbuf_ : list Z) (level : nat) (d : DumpExecute) (w : World) (ptr sz : Z)
  : DumpExecute * World :=
  let addr := pushbuf_u32 pushbuf_ ptr in
  let bufw := s32 (pushbuf_u32 pushbuf_ (ptr + 4)) in
  let flags := pushbuf_u32 pushbuf_ (ptr + 8) in
  let d1 :=
    if negb (at8 (lastTex_ d) level =? addr) || negb (at8 (lastBufw_ d) level =? bufw) then
      let bufwCmd := GE_CMD_TEXBUFWIDTH0 K + Z.of_nat level in
      let addrCmd := GE_CMD_TEXADDR0 K + Z.of_nat level in
      let bufw_word := u32 (Z.lor (Z.lor (Z.shiftl bufwCmd 24)
                                         (Z.land (Z.shiftr addr 8) 0x00FF0000))
                                  bufw) in
      let d' := push_back (addr_word addrCmd addr) (push_back bufw_word d) in
      with_last (<[level := u16 bufw]> (lastBufw_ d')) (<[level := addr]> (lastTex_ d'))
                (lastBase_ d') d'
    else d in
  (* And now also copy the data into VRAM (in case it wasn't actually rendered.) *)
  let headerSize := FramebufData_size in
  let pspSize := u32 (sz - headerSize) in
  let isTarget := negb (Z.land flags 1 =? 0) in
  let unchangedVRAM := (version_ d >=? 6) && negb (Z.land flags 2 =? 0) in
  if Memory_IsValidRange E addr pspSize && negb unchangedVRAM
     && (negb isTarget || negb (g_Config_bSoftwareRendering E (trace w)))
  then
    (* Intentionally don't trigger an upload here. *)
    let w1 := MemcpyUnchecked addr (read_bytes pushbuf_ (ptr + headerSize) pspSize) w in
    (d1, log (EvNotifyMemInfo addr pspSize "ReplayTex") w1)
  else (d1, w).

Definition Display (pushbuf_ : list Z) (d : DumpExecute) (w : World) (ptr sz : Z)
    (allowFlip : bool) : DumpExecute * World :=
  let topaddr := pushbuf_u32 pushbuf_ ptr in
  let linesize := s32 (pushbuf_u32 pushbuf_ (ptr + 4)) in
  let pixelFormat := s32 (pushbuf_u32 pushbuf_ (ptr + 8)) in
  (* Sync up drawing. *)
  let w1 := SyncStall d w in
  let w2 := log (EvDisplaySetFramebuf topaddr linesize pixelFormat 1) w1 in
  if allowFlip then (d, log (EvDisplaySetFramebuf topaddr linesize pixelFormat 0) w2)
  else (d, w2).

Definition EdramTrans (pushbuf_ : list Z) (d : DumpExecute) (w : World) (ptr sz : Z)
  : DumpExecute * World :=
  let value := pushbuf_u32 pushbuf_ ptr in
  (* Sync up drawing. *)
  let w1 := SyncStall d w in
  if gpu E then (d, log (EvSetAddrTranslation value) w1) else (d, w1).

(** The [switch] of [Run]; [None] is the [default:] case. *)
Definition dispatch (pushbuf_ : list Z) (d : DumpExecute) (w : World) (cmd : Command)
    (isLast : bool) : option (DumpExecute * World) :=
  let ptr := cmd_ptr cmd in
  let sz := cmd_sz cmd in
  match cmd_type cmd with
  | INIT => Some (Init d w ptr sz)
  | REGISTERS => Some (Registers pushbuf_ d w ptr sz)
  | VERTICES => Some (Vertices pushbuf_ d w ptr sz)
  | INDICES => Some (Indices pushbuf_ d w ptr sz)
  | CLUTADDR => Some (ClutAddr pushbuf_ d w ptr sz)
  | CLUT => Some (Clut pushbuf_ d w ptr sz)
  | TRANSFERSRC => Some (TransferSrc pushbuf_ d w ptr sz)
  | MEMSET => Some (Memset pushbuf_ d w ptr sz)
  | MEMCPYDEST => Some (MemcpyDest pushbuf_ d w ptr sz)
  | MEMCPYDATA => Some (Memcpy pushbuf_ d w ptr sz)
  | EDRAMTRANS => Some (EdramTrans pushbuf_ d w ptr sz)
  | DISPLAY => Some (Display pushbuf_ d w ptr sz isLast)
  | t =>
      match texture_level t, framebuf_level t with
      | Some level, _ => Some (Texture pushbuf_ level d w ptr sz)
      | None, Some level => Some (Framebuf pushbuf_ level d w ptr sz)
      | None, None => None
      end
  end.

(** How the [for] loop of [Run] is left: at its end or by [break]
    ([LoopEnd]), or by the [return] of the [default:] case. *)
Inductive LoopExit := LoopEnd | LoopReturnError.

Fixpoint Run_loop (pushbuf_ : list Z) (size i : nat) (cmds : list Command)
    (d : DumpExecute) (w : World) : LoopExit * DumpExecute * World :=
  match cmds with
  | [] => (LoopEnd, d, w)
  | cmd :: rest =>
      if observe_g_cancelled E (trace w) then (LoopEnd, d, w)
      else
        match dispatch pushbuf_ d w cmd (S i =? size)%nat with
        | Some (d1, w1) => Run_loop pushbuf_ size (S i) rest d1 w1
        | None => (LoopReturnError, d, log (EvErrorLog "Unsupported GE dump command") w)
        end
  end.

Definition Run (pushbuf_ : list Z) (commands_ : list Command) (d : DumpExecute) (w : World)
  : ReplayResult * DumpExecute * World :=
  (* Start with the default value. *)
  let w0 := if gpu E then log (EvSetAddrTranslation 0x400) w else w in
  let w1 := if resumeIndex_ d >=? 0 then SyncStall d w0 else w0 in
  let start := Z.to_nat (if resumeIndex_ d >=? 0 then resumeIndex_ d else 0) in
  match Run_loop pushbuf_ (length commands_) start (drop start commands_) d w1 with
  | (LoopReturnError, d2, w2) => (Error, d2, w2)
  | (LoopEnd, d2, w2) =>
      let '(d3, w3) := SubmitListEnd d2 w2 in (Done, d3, w3)
  end.

(** [BufMapping::Reset] *)
Fixpoint free_slabs (l : list SlabInfo.t) (idx : list nat) (w : World)
  : list SlabInfo.t * World :=
  match idx with
  | [] => (l, w)
  | i :: idx' =>
      let '(s, w1) := SlabInfo_Free (default SlabInfo.init (l !! i)) w in
      free_slabs (<[i := s]> l) idx' w1
  end.

Definition Reset (m : BufMapping) (w : World) : BufMapping * World :=
  let '(sl, w1) := free_slabs (slabs_ m) (seq 0 SLAB_COUNT) w in
  let '(ex, w2) := free_extras (extra_ m) (seq 0 EXTRA_COUNT) w1 in
  (mkBufMapping 0 sl (lastSlab_ m) 0 ex, w2).

(** [DumpExecute::~DumpExecute] *)
Definition DumpExecute_destroy (d : DumpExecute) (w : World) : DumpExecute * World :=
  let d1 := with_execMemcpyDest 0 d in
  let '(d2, w1) :=
    if negb (execListBuf d1 =? 0)
    then (with_execList 0 (execListPos d1) (execListID d1) d1, Free (execListBuf d1) w)
    else (d1, w) in
  let d3 := with_execListPos 0 d2 in
  let '(m, w2) := Reset (mapping_ d3) w1 in
  (with_mapping m d3, w2).

(** The body of the replay thread started by [RunMountedReplay]: the
    executor runs, its result is stored in a local that is not read, the
    terminal operation is posted, and the executor is destroyed when the
    closure is left. *)
Definition replayThread_body (lastExecPushbuf : list Z) (lastExecCommands : list Command)
    (version : Z) (w : World) : World :=
  let executor := DumpExecute_new version in
  let '(retval, executor1, w1) := Run lastExecPushbuf lastExecCommands executor w in
  (* Finish up *)
  let '(_, w2) := ExecuteOnMain (mkOp OpDone 0 0) w1 in
  snd (DumpExecute_destroy executor1 w2).

(** ** The process-wide state: the cached capture, the thread, the mailbox

    [replayThread] is [None] when the thread is not joinable; a running
    thread is the list of operations it has still to post, one per call of
    [ExecuteOnMain].  [lastExecCommands] is the storage of the vector. *)
Record Process := mkProcess {
  lastExecFilename : string;
  lastExecVersion : Z;
  lastExecCommands : list Z;
  lastExecPushbuf : list Z;
  replayThread : option (list Operation);
  g_opToExec : Operation;
  g_retVal : Z;
  g_opDone : bool;
  g_cancelled : bool;
  main_trace : list MainEvent
}.

(** The statics as their initialisers leave them. *)
Definition Process_init : Process :=
  mkProcess "" 0 [] [] None (mkOp OpNone 0 0) 0 true false [].

Definition with_lastExec (filename : string) (ver : Z) (p : Process) : Process :=
  mkProcess filename ver (lastExecCommands p) (lastExecPushbuf p) (replayThread p)
    (g_opToExec p) (g_retVal p) (g_opDone p) (g_cancelled p) (main_trace p).

Definition with_lastExecData (cmds pushbuf : list Z) (p : Process) : Process :=
  mkProcess (lastExecFilename p) (lastExecVersion p) cmds pushbuf (replayThread p)
    (g_opToExec p) (g_retVal p) (g_opDone p) (g_cancelled p) (main_trace p).

Definition with_replayThread (t : option (list Operation)) (p : Process) : Process :=
  mkProcess (lastExecFilename p) (lastExecVersion p) (lastExecCommands p) (lastExecPushbuf p)
    t (g_opToExec p) (g_retVal p) (g_opDone p) (g_cancelled p) (main_trace p).

Definition with_mailbox (op : Operation) (ret : Z) (done : bool) (p : Process) : Process :=
  mkProcess (lastExecFilename p) (lastExecVersion p) (lastExecCommands p) (lastExecPushbuf p)
    (replayThread p) op ret done (g_cancelled p) (main_trace p).

Definition with_g_cancelled (c : bool) (p : Process) : Process :=
  mkProcess (lastExecFilename p) (lastExecVersion p) (lastExecCommands p) (lastExecPushbuf p)
    (replayThread p) (g_opToExec p) (g_retVal p) (g_opDone p) c (main_trace p).

Definition mlog (e : MainEvent) (p : Process) : Process :=
  mkProcess (lastExecFilename p) (lastExecVersion p) (lastExecCommands p) (lastExecPushbuf p)
    (replayThread p) (g_opToExec p) (g_retVal p) (g_opDone p) (g_cancelled p)
    (e :: main_trace p).

(** *** The mailbox as the replay thread uses it ([ExecuteOnMain])

    The first block of [ExecuteOnMain], under [opStartLock]. *)
Definition ExecuteOnMain_post (op : Operation) (p : Process) : Process :=
  with_mailbox op 0 false p.

(** The predicate of [opFinishWait.wait(lock, ...)]. *)
Definition opFinishWait_pred (p : Process) : bool := g_opDone p || g_cancelled p.

(** The second block: the wait is over when the predicate holds at a wake-up,
    and [ExecuteOnMain] returns [g_retVal]; [None] is a thread that stays
    blocked. *)
Definition ExecuteOnMain_wait (p : Process) : option Z :=
  if opFinishWait_pred p then Some (g_retVal p) else None.

(** The block of [Replay_Unload] that tells the thread to stop: the flag is
    set and the finish condition is notified. *)
Definition Replay_Unload_cancel (p : Process) : Process := with_g_cancelled true p.

(** [replayThread.join()]: the thread comes to its end when it is cancelled,
    or when its last operation has been served and nothing is left to post;
    otherwise it waits for the main thread, and the join does not return.
    A cancelled thread that has not posted everything yet still runs to the
    end of its closure: its waits return at once, and the last thing it
    does is [ExecuteOnMain(Operation{ OpType::Done })], whose first block
    is what the mailbox holds when the join returns. *)
Definition join (p : Process) : option Process :=
  match replayThread p with
  | None => Some p
  | Some pending =>
      if g_cancelled p || (g_opDone p && match pending with [] => true | _ => false end)
      then
        let p1 := match pending with
                  | [] => p
                  | _ :: _ => ExecuteOnMain_post (mkOp OpDone 0 0) p
                  end in
        Some (mlog MThreadJoin (with_replayThread None p1))
      else None
  end.

Definition joinable (p : Process) : bool :=
  match replayThread p with Some _ => true | None => false end.

Definition Replay_Unload (p : Process) : option Process :=
  (* We might be paused inside a replay - in this case, the thread is still
     running and we need to tell it to stop. *)
  p1 ← (if joinable p then join (Replay_Unload_cancel p) else Some p);
  Some (with_mailbox (g_opToExec p1) 0 true
          (with_lastExecData [] [] (with_lastExec "" 0 p1))).

(** *** The loader *)

Definition Header_of_bytes (bs : list Z) : Header :=
  mkHeader (take (sizeof_magic F) bs)
           (le32 (drop (sizeof_magic F) bs))
           (take (sizeof_gameID F) (drop (sizeof_magic F + 4) bs)).

(** [strnlen] *)
Fixpoint strnlen (bs : list Z) (n : nat) : nat :=
  match n, bs with
  | S n', b :: bs' => if b =? 0 then 0%nat else S (strnlen bs' n')
  | _, _ => 0%nat
  end.

Definition ReadCompressed (fp : File) (dest : list Z) (sz : Z) (version : Z)
  : bool * list Z * File :=
  let '(got, fp1) := ReadFile fp 4 in
  if negb (length got =? 4)%nat then (false, dest, fp1)
  else
    let compressed_size := le32 got in
    let '(compressed, fp2) := ReadFile fp1 compressed_size in
    if negb (Z.of_nat (length compressed) =? compressed_size) then (false, dest, fp2)
    else
      let '(written, real_size) :=
        if version <? 5 then snappy_uncompress C compressed sz
        else ZSTD_decompress C compressed sz in
      (real_size =? sz, overlay written dest, fp2).

Definition LoadReplay (p : Process) (filename : string) : Z * Process :=
  let p := with_g_cancelled false p in
  let fp := mkFile (file_content M filename) 0 in
  let '(got, fp) := ReadFile fp (Z.of_nat (sizeof_Header F)) in
  let header := Header_of_bytes (overlay got (replicate (sizeof_Header F) 0)) in
  let version := version header in
  if negb (list_Z_eqb (magic header) (take (sizeof_magic F) (HEADER_MAGIC F)))
     || (version >? VERSION F) || (version <? MIN_VERSION F)
  then (0, mlog (MErrorLog "Invalid GE dump or unsupported version") p)
  else
    let '(fp, gameID) :=
      if version <=? 3 then (SeekFile fp 12, replicate (sizeof_gameID F) 0)
      else (fp, gameID header) in
    let gameIDLength := strnlen gameID (sizeof_gameID F) in
    let p :=
      if negb (gameIDLength =? 0)%nat
      then mlog (MSetWindowTitle true) (mlog (MSetDiscID (take gameIDLength gameID)) p)
      else mlog (MSetWindowTitle false) p in
    let '(got, fp) := ReadFile fp 4 in
    let sz := le32 (overlay got [0; 0; 0; 0]) in
    let '(got, fp) := ReadFile fp 4 in
    let bufsz := le32 (overlay got [0; 0; 0; 0]) in
    let cmds := resize_bytes (sizeof_Command F * sz) (lastExecCommands p) in
    let pushbuf := resize_bytes bufsz (lastExecPushbuf p) in
    let '(ok1, cmds, fp) := ReadCompressed fp cmds (sizeof_Command F * sz) version in
    let truncated := negb ok1 in
    let '(ok2, pushbuf, fp) :=
      if truncated then (true, pushbuf, fp) else ReadCompressed fp pushbuf bufsz version in
    let truncated := truncated || negb ok2 in
    let p := with_lastExecData cmds pushbuf p in
    if truncated then
      (0, mlog (MErrorLog "Truncated GE dump detected - can't replay") p)
    else (version, with_lastExec filename version p).

(** *** The entry point *)

(** The operations a run of the thread posts, oldest first. *)
Definition posted_ops (tr : list Event) : list Operation :=
  omap (fun e => match e with EvExecuteOnMain op => Some op | _ => None end) (rev tr).

(** The [switch] at the end of [RunMountedReplay]. *)
Definition serve (p : Process) : option (ReplayResult * Process) :=
  let op := g_opToExec p in
  match op_type op with
  | UpdateStallAddr =>
      let p1 := mlog (MUpdateStall (op_listID op) (op_param op))
                  (mlog MhleCoreTimingForceCheck (mlog (MhleEatCycles 190) p)) in
      let p2 := if gpu_runList M op then mlog MhleSplitSyscallOverGe p1 else p1 in
      (* We're not done yet, request another go. *)
      Some (Break, p2)
  | EnqueueList =>
      let listPC := op_listID op in
      let execListPos := op_param op in
      let p1 := mlog (MEnqueueList listPC execListPos)
                  (with_mailbox op (gpu_EnqueueList M listPC execListPos) (g_opDone p) p) in
      let p2 := if gpu_runList M op then mlog MhleSplitSyscallOverGe p1 else p1 in
      (* We're not done yet, request another go. *)
      Some (Break, mlog MhleCoreTimingForceCheck (mlog (MhleEatCycles 490) p2))
  | ReapplyGfxState =>
      Some (Break, mlog MReapplyGfxState p)
  | ListSync =>
      Some (Break, mlog (MListSync (op_listID op) (op_param op)) (mlog (MhleEatCycles 220) p))
  | OpDone =>
      p1 ← join (with_mailbox op (g_retVal p) true p);
      Some (Done, with_mailbox (mkOp OpNone 0 0) (g_retVal p1) (g_opDone p1) p1)
  | OpNone => Some (Done, p)
  end.

(** [w0] is the emulator's memory and allocator when the thread starts; the
    log of a new thread is empty.
    [None]: the call does not return (a join or a wait that never ends). *)
Definition RunMountedReplay (w0 : World) (p : Process) (filename : string)
  : option (ReplayResult * Process) :=
  let version := lastExecVersion p in
  '(version, p1, failed) ←
    (if negb (String.eqb (lastExecFilename p) filename) then
       (* Does this ever happen? *)
       p' ← (if joinable p then join p else Some p);
       let '(version, p'') := LoadReplay p' filename in
       Some (version, p'', version =? 0)
     else Some (version, p, false));
  if (failed : bool) then Some (Error, mlog (MErrorLog "bad version") p1)
  else
    let p2 :=
      if negb (OpType_eqb (op_type (g_opToExec p1)) OpNone)
      then with_mailbox (mkOp OpNone 0 0) (g_retVal p1) true p1
      else p1 in
    let p3 :=
      if negb (joinable p2) then
        let body := replayThread_body (lastExecPushbuf p2)
                      (decode_commands F (lastExecCommands p2)) version
                      (mkWorld (heap w0) (mem w0) [] (downcount w0)) in
        mlog (MThreadStart version)
          (with_replayThread (Some (posted_ops (trace body)))
             (with_mailbox (mkOp OpNone 0 0) (g_retVal p2) (g_opDone p2) p2))
      else p2 in
    (* OK, now wait for and perform the desired action. *)
    match replayThread p3 with
    | Some (op :: rest) =>
        if OpType_eqb (op_type op) OpNone then None
        else serve (with_replayThread (Some rest) (ExecuteOnMain_post op p3))
    | _ => None
    end.

(** The emulated program calls the entry point again as long as it returns
    [Break] (the loop that [WriteRunDumpCode] emits); [fuel] bounds the
    number of calls. *)
Fixpoint drive (fuel : nat) (w0 : World) (p : Process) (filename : string)
  : option (ReplayResult * Process) :=
  match fuel with
  | O => None
  | S fuel' =>
      match RunMountedReplay w0 p filename with
      | Some (Break, p') => drive fuel' w0 p' filename
      | r => r
      end
  end.

End Playback.

(** ** The stub the emulated program runs

    The instruction encoders and the field decoders are the macros of
    [Core/MIPS/MIPSCodeUtils.h], on the [u32] operands [WriteRunDumpCode]
    gives them.  [GetSyscallOp] and [GetNibByName] (Core/HLE) and the
    register numbers of [MIPSGPReg] (Core/MIPS/MIPS.h) are not part of the
    sources: they are parameters. *)

Definition MIPS_MAKE_B (offs : Z) : Z := Z.lor 0x10000000 (Z.land offs 0xFFFF).
Definition MIPS_MAKE_J (addr : Z) : Z := Z.lor 0x08000000 (Z.shiftr addr 2).
Definition MIPS_MAKE_JAL (addr : Z) : Z := Z.lor 0x0C000000 (Z.shiftr addr 2).
Definition MIPS_MAKE_JR_RA : Z := 0x03e00008.
Definition MIPS_MAKE_NOP : Z := 0.

(** [(int)(addr - (pc + 4)) >> 2] is an arithmetic shift of the signed
    distance; the result of the macro is a [u32]. *)
Definition MIPS_MAKE_BNEZ (pc addr rs : Z) : Z :=
  u32 (Z.lor (Z.lor 0x14000000 (Z.shiftl rs 21))
             (u32 (Z.land (Z.shiftr (s32 (u32 (addr - u32 (pc + 4)))) 2) 0xFFFF))).

Definition MIPS_MAKE_ADDIU (dreg sreg immval : Z) : Z :=
  Z.lor (Z.lor (Z.lor (Z.shiftl 9 26) (Z.shiftl dreg 16)) (Z.shiftl sreg 21)) immval.
Definition MIPS_MAKE_LUI (reg immval : Z) : Z :=
  Z.lor (Z.lor 0x3c000000 (Z.shiftl reg 16)) immval.
Definition MIPS_MAKE_ORI (rt rs immval : Z) : Z :=
  Z.lor (Z.lor (Z.lor 0x34000000 (Z.shiftl rs 21)) (Z.shiftl rt 16)) immval.
Definition MIPS_MAKE_LW (rt rs immval : Z) : Z :=
  Z.lor (Z.lor (Z.lor 0x8c000000 (Z.shiftl rs 21)) (Z.shiftl rt 16)) immval.
Definition MIPS_MAKE_BREAK (n : Z) : Z := Z.lor (Z.shiftl n 6) 13.

Definition MIPS_GET_OP (op : Z) : Z := Z.land (Z.shiftr op 26) 0x3F.
Definition MIPS_GET_FUNC (op : Z) : Z := Z.land op 0x3F.
Definition MIPS_GET_SA (op : Z) : Z := Z.land (Z.shiftr op 6) 0x1F.
Definition MIPS_GET_RS (op : Z) : Z := Z.land (Z.shiftr op 21) 0x1F.
Definition MIPS_GET_RT (op : Z) : Z := Z.land (Z.shiftr op 16) 0x1F.
Definition MIPS_GET_RD (op : Z) : Z := Z.land (Z.shiftr op 11) 0x1F.

Record SyscallTable := {
  GetNibByName : string -> string -> Z;
  GetSyscallOp : string -> Z -> Z
}.

Definition MIPS_MAKE_SYSCALL (Sys : SyscallTable) (moduleName function : string) : Z :=
  GetSyscallOp Sys moduleName (GetNibByName Sys moduleName function).

(** The enumerators of [MIPSGPReg] the stub names. *)
Record MIPSGPReg := {
  MIPS_REG_V0 : Z;
  MIPS_REG_A0 : Z;
  MIPS_REG_A1 : Z;
  MIPS_REG_S0 : Z;
  MIPS_REG_S1 : Z
}.

(** The array [runDumpCode] of [WriteRunDumpCode]; its elements are [u32]. *)
Definition runDumpCode (Sys : SyscallTable) (R : MIPSGPReg) (codeStart : Z) : list Z :=
  map u32
    [ (* Save the filename. *)
      MIPS_MAKE_ORI (MIPS_REG_S0 R) (MIPS_REG_A0 R) 0;
      MIPS_MAKE_ORI (MIPS_REG_S1 R) (MIPS_REG_A1 R) 0;
      (* Call the actual render. Jump here to start over. *)
      MIPS_MAKE_SYSCALL Sys "FakeSysCalls" "__KernelGPUReplay";
      MIPS_MAKE_NOP;
      (* Re-run immediately if requested by the return value from __KernelGPUReplay *)
      MIPS_MAKE_BNEZ (u32 (codeStart + 4 * 4)) (u32 (codeStart + 8)) (MIPS_REG_V0 R);
      MIPS_MAKE_NOP;
      (* When done (__KernelGPUReplay returned 0), make sure we don't get out of sync *)
      MIPS_MAKE_LUI (MIPS_REG_A0 R) 0;
      MIPS_MAKE_SYSCALL Sys "sceGe_user" "sceGeDrawSync";
      MIPS_MAKE_NOP;
      (* Wait for the next vblank to render again, then (through the delay
         slot) jump right back up to __KernelGPUReplay. *)
      MIPS_MAKE_SYSCALL Sys "sceDisplay" "sceDisplayWaitVblankStart";
      MIPS_MAKE_NOP;
      MIPS_MAKE_J (u32 (codeStart + 8));
      MIPS_MAKE_NOP;
      (* This never gets reached, just here to be safe. *)
      MIPS_MAKE_BREAK 0 ].

(** [Memory::WriteUnchecked_U32(data, address)] on the emulated memory. *)
Definition Memory_WriteUnchecked_U32 (data address : Z) (m : Zmap Z) : Zmap Z :=
  store_bytes address (le32_bytes data) m.

(** One round of the loop of [WriteRunDumpCode], and the loop over an
    array of words. *)
Definition write_word (code : list Z) (start : Z) (m : Zmap Z) (i : nat) : Zmap Z :=
  Memory_WriteUnchecked_U32 (default 0 (code !! i)) (u32 (start + u32 (Z.of_nat i) * 4)) m.

Definition write_words (code : list Z) (start : Z) (m : Zmap Z) : Zmap Z :=
  fold_left (write_word code start) (seq 0 (length code)) m.

Definition WriteRunDumpCode (Sys : SyscallTable) (R : MIPSGPReg) (codeStart : Z) (m : Zmap Z)
  : Zmap Z :=
  write_words (runDumpCode Sys R codeStart) codeStart m.


(** ** Collaborators for the examples

    A block allocator over a range of addresses: its state is the next
    free address and the end of the range; it hands out consecutive blocks
    and returns -1 when a block does not fit; freeing does not give room
    back. *)
Definition user_memory : Allocator :=
  {| Heap := Z * Z;
     userMemory_Alloc := fun h size _ _ =>
       if h.1 + size <=? h.2 then (h.1, (h.1 + size, h.2)) else (-1, h);
     userMemory_Free := fun h _ => h |}.

(** 24 MB of user memory from 0x08800000. *)
Definition world0 : World (A:=user_memory) :=
  mkWorld (A:=user_memory) (0x08800000, 0x0A000000) ∅ [] 0.

(** User memory with nothing left. *)
Definition world_exhausted : World (A:=user_memory) :=
  mkWorld (A:=user_memory) (0x0A000000, 0x0A000000) ∅ [] 0.

(** The numbers of the GE commands on the PSP. *)
Definition psp_ge : GeConstants :=
  {| GE_CMD_NOP := 0x00; GE_CMD_VADDR := 0x01; GE_CMD_IADDR := 0x02;
     GE_CMD_JUMP := 0x08; GE_CMD_END := 0x0C; GE_CMD_SIGNAL := 0x0E;
     GE_CMD_FINISH := 0x0F; GE_CMD_BASE := 0x10;
     GE_CMD_TEXADDR0 := 0xA0; GE_CMD_TEXADDR7 := 0xA7;
     GE_CMD_TEXBUFWIDTH0 := 0xA8; GE_CMD_TEXBUFWIDTH7 := 0xAF;
     GE_CMD_CLUTADDR := 0xB0; GE_CMD_CLUTADDRUPPER := 0xB1;
     GE_CMD_TRANSFERSRC := 0xB2 |}.

(** Surroundings in which nothing happens behind the thread's back: no
    cancellation, list id 1, the GPU reports no pending ticks, hardware
    rendering. *)
Definition quiet_env : Env :=
  {| observe_g_retVal := fun _ => 1;
     observe_g_cancelled := fun _ => false;
     gpu_GetListTicks := fun _ _ => -1;
     CoreTiming_GetTicks := fun _ => 0;
     gstate_transfersrcw := fun _ => 0xB3000200;
     Memory_IsValidRange := fun a sz =>
       (0x04000000 <=? a) && (a + sz <=? 0x04200000)
       || (0x08000000 <=? a) && (a + sz <=? 0x0A000000);
     Memory_IsVRAMAddress := fun a => Z.land a 0x3F800000 =? 0x04000000;
     g_Config_bSoftwareRendering := fun _ => false;
     gpu := true |}.



(** A pushbuffer of eleven windows. *)
Definition pushbuf_11MB : list Z := replicate (Z.to_nat (11 * SLAB_SIZE)) 0.

(** Sixty-four bytes of payload: 0, 1, 2, ... *)
Definition pushbuf64 : list Z := map Z.of_nat (seq 0 64).

(** A framebuffer record for video memory at 0x04000000, 512 pixels wide,
    with the flags given, followed by sixteen bytes of pixels. *)
Definition framebuf_record (flags : Z) : list Z :=
  [0; 0; 0; 4] ++ [0; 2; 0; 0] ++ [flags; 0; 0; 0] ++ [0; 0; 0; 0]
  ++ map Z.of_nat (seq 1 16).

(** A payload of register words that is as large as the list buffer. *)
Definition pushbuf_256K : list Z := replicate (Z.to_nat LIST_BUF_SIZE) 0.

(** Modelled from the spec: [RecordFormat.h] is not part of the sources.  A
    format for the examples, with the command record of the spec ("fixed-size
    {type:u32 enum, ptr:u32, sz:u32}") and its enumerators numbered in the
    order the spec lists them. *)
Definition example_CommandType (n : Z) : CommandType :=
  match n with
  | 0 => INIT | 1 => REGISTERS | 2 => VERTICES | 3 => INDICES
  | 4 => CLUTADDR | 5 => CLUT | 6 => TRANSFERSRC | 7 => MEMSET
  | 8 => MEMCPYDEST | 9 => MEMCPYDATA | 10 => EDRAMTRANS
  | 11 => TEXTURE0 | 12 => TEXTURE1 | 13 => TEXTURE2 | 14 => TEXTURE3
  | 15 => TEXTURE4 | 16 => TEXTURE5 | 17 => TEXTURE6 | 18 => TEXTURE7
  | 19 => FRAMEBUF0 | 20 => FRAMEBUF1 | 21 => FRAMEBUF2 | 22 => FRAMEBUF3
  | 23 => FRAMEBUF4 | 24 => FRAMEBUF5 | 25 => FRAMEBUF6 | 26 => FRAMEBUF7
  | 27 => DISPLAY
  | _ => CommandType_other n
  end.

Fixpoint example_decode (count : nat) (raw : list Z) : list Command :=
  match count with
  | O => []
  | S count' =>
      mkCommand (example_CommandType (le32 raw)) (le32 (drop 4 raw)) (le32 (drop 8 raw))
      :: example_decode count' (drop 12 raw)
  end.

Definition example_format : RecordFormat :=
  {| HEADER_MAGIC := [80; 80; 83; 83; 80; 80; 71; 69];
     sizeof_magic := 8;
     sizeof_gameID := 9;
     sizeof_Header := 24;
     VERSION := 6;
     MIN_VERSION := 2;
     sizeof_Command := 12;
     decode_commands := fun raw => example_decode (length raw / 12) raw |}.

(** Decompressors for the examples: the streams hold the data as it is.  A
    stream that does not fit leaves the length of the legacy decompressor
    untouched and makes the other return an error code. *)
Definition stored_codecs : Codecs :=
  {| snappy_uncompress := fun s capacity =>
       if Z.of_nat (length s) <=? capacity then (s, Z.of_nat (length s)) else ([], capacity);
     ZSTD_decompress := fun s capacity =>
       if Z.of_nat (length s) <=? capacity then (s, Z.of_nat (length s))
       else ([], 2 ^ 64 - 70) |}.

(** A capture of version 6 for game "ULUS10000" that declares one command
    (12 bytes) and 4 bytes of pushbuffer, but whose command stream holds 8
    bytes only. *)
Definition truncated_capture : list Z :=
  [80; 80; 83; 83; 80; 80; 71; 69] ++ [6; 0; 0; 0]
  ++ [85; 76; 85; 83; 49; 48; 48; 48; 48] ++ [0; 0; 0]
  ++ [1; 0; 0; 0] ++ [4; 0; 0; 0]
  ++ [8; 0; 0; 0] ++ [1; 0; 0; 0; 0; 0; 0; 0]
  ++ [4; 0; 0; 0] ++ [0; 0; 0; 0].

(** The main thread's collaborators for the examples. *)
Definition example_main : MainEnv :=
  {| file_content := fun name =>
       if String.eqb name "truncated.ppdmp" then truncated_capture else [];
     gpu_EnqueueList := fun _ _ => 1;
     gpu_runList := fun _ => false |}.

(** A cached capture of version 6 in the example format: sixteen bytes of
    register words, then a command of type 99, which [Run] has no case for. *)
Definition process_unsupported : Process :=
  mkProcess "unsupported.ppdmp" 6
    ([1; 0; 0; 0] ++ [0; 0; 0; 0] ++ [16; 0; 0; 0]
     ++ [99; 0; 0; 0] ++ [0; 0; 0; 0] ++ [0; 0; 0; 0])
    (map Z.of_nat (seq 0 64))
    None (mkOp OpNone 0 0) 0 true false [].

(** A sequence of calls of [Map], each given as [(bufpos, sz)], with the
    same flush. *)
Fixpoint Map_calls {A : Allocator} (pushbuf_ : list Z) (flush : World (A:=A) -> World (A:=A))
    (calls : list (Z * Z)) (m : BufMapping) (w : World (A:=A)) : BufMapping * World (A:=A) :=
  match calls with
  | [] => (m, w)
  | (bufpos, sz) :: calls' =>
      let '(_, m1, w1) := Map pushbuf_ m w bufpos sz flush in
      Map_calls pushbuf_ flush calls' m1 w1
  end.

(** The numbers of the registers the stub names, as the MIPS calling
    convention has them: v0 = 2, a0 = 4, a1 = 5, s0 = 16, s1 = 17. *)
Definition mips_regs : MIPSGPReg :=
  {| MIPS_REG_V0 := 2; MIPS_REG_A0 := 4; MIPS_REG_A1 := 5;
     MIPS_REG_S0 := 16; MIPS_REG_S1 := 17 |}.

(** A syscall table for the examples: the function is numbered by the
    length of its name, and the instruction is a SYSCALL (function field 12)
    with the number in its code field. *)
Definition example_syscalls : SyscallTable :=
  {| GetNibByName := fun _ function => Z.of_nat (String.length function);
     GetSyscallOp := fun _ nib => Z.lor 0x0000000C (Z.shiftl nib 6) |}.

(** A pushbuffer that reaches four bytes into the second window. *)
Definition pushbuf_straddle : list Z := replicate (Z.to_nat (SLAB_SIZE + 4)) 7.

(** A pushbuffer of four words: a texture address command of level 0, a
    vertex type command (0x12), a texture buffer width command of level 0
    and a NOP. *)
Definition pushbuf_words : list Z :=
  [0x00; 0x00; 0x88; 0xA0] ++ [0x07; 0x00; 0x00; 0x12]
  ++ [0x00; 0x02; 0x08; 0xA8] ++ [0x00; 0x00; 0x00; 0x00].

(** An executor of version 6 whose list lives at 0x08800000 and holds one
    word so far. *)
Definition executor_with_list : DumpExecute :=
  with_execList 0x08800000 0x08800004 1 (DumpExecute_new 6).

(** A capture of version 6 for game "ULUS10000" with one command
    (REGISTERS, offset 0, 4 bytes) and a pushbuffer of 4 bytes, complete. *)
Definition complete_capture : list Z :=
  [80; 80; 83; 83; 80; 80; 71; 69] ++ [6; 0; 0; 0]
  ++ [85; 76; 85; 83; 49; 48; 48; 48; 48] ++ [0; 0; 0]
  ++ [1; 0; 0; 0] ++ [4; 0; 0; 0]
  ++ [12; 0; 0; 0] ++ [1; 0; 0; 0; 0; 0; 0; 0; 4; 0; 0; 0]
  ++ [4; 0; 0; 0] ++ [0; 0; 0; 0].

(** A capture whose magic bytes are wrong. *)
Definition foreign_file : list Z :=
  [82; 73; 70; 70; 0; 0; 0; 0] ++ [6; 0; 0; 0] ++ replicate 12%nat 0.

Definition capture_files : MainEnv :=
  {| file_content := fun name =>
       if String.eqb name "frame.ppdmp" then complete_capture
       else if String.eqb name "truncated.ppdmp" then truncated_capture
       else if String.eqb name "foreign.bin" then foreign_file
       else [];
     gpu_EnqueueList := fun _ _ => 1;
     gpu_runList := fun _ => false |}.

(** A mapper with one slab in use, for the first window, and nine free. *)
Definition one_slab : BufMapping :=
  mkBufMapping 1
    (SlabInfo.mk 0x08800000 0 1 :: replicate 9%nat SlabInfo.init)
    0 0 (replicate EXTRA_COUNT ExtraInfo.init).


(** A capture for game "ULUS10000" that declares one command (12 bytes) and
    4 bytes of pushbuffer, but whose command stream holds 16 bytes; the
    version is that of the header. *)
Definition overlong_capture (version : Z) : list Z :=
  [80; 80; 83; 83; 80; 80; 71; 69] ++ [version; 0; 0; 0]
  ++ [85; 76; 85; 83; 49; 48; 48; 48; 48] ++ [0; 0; 0]
  ++ [1; 0; 0; 0] ++ [4; 0; 0; 0]
  ++ [16; 0; 0; 0] ++ [1; 0; 0; 0; 0; 0; 0; 0; 4; 0; 0; 0; 0; 0; 0; 0]
  ++ [4; 0; 0; 0] ++ [0; 0; 0; 0].

(** The same bytes as a capture of version 4 and as one of version 6. *)
Definition overlong_files : MainEnv :=
  {| file_content := fun name =>
       if String.eqb name "legacy.ppdmp" then overlong_capture 4
       else if String.eqb name "current.ppdmp" then overlong_capture 6
       else [];
     gpu_EnqueueList := fun _ _ => 1;
     gpu_runList := fun _ => false |}.



(** ** Predicates used in the statements *)

Definition BufMapping_wf (m : BufMapping) : Prop :=
  length (slabs_ m) = SLAB_COUNT /\ length (extra_ m) = EXTRA_COUNT
  /\ (extraOffset_ m < EXTRA_COUNT)%nat.

(** The age [MapSlab] compares: [slabs_[i].Age()]. *)
Definition Age_at (m : BufMapping) (i : nat) : Z :=
  SlabInfo.Age (slabGeneration_ m) (slab_at m i).

(** An extra entry after [ExtraInfo::Free]. *)
Definition freed (e : ExtraInfo.t) : ExtraInfo.t :=
  if ExtraInfo.psp_pointer_ e =? 0 then e else ExtraInfo.mk 0 0 (ExtraInfo.size_ e).

(** The calls of [userMemory.Free] that release the allocated entries of a
    list of extras, in the order of the list; newest first as in a trace. *)
Definition free_events (l : list ExtraInfo.t) : list Event :=
  rev (omap (fun e => if ExtraInfo.psp_pointer_ e =? 0 then None
                      else Some (EvFree (ExtraInfo.psp_pointer_ e))) l).

(** An address returned by [userMemory.Alloc] that is neither 0 nor -1. *)
Definition ptr_valid (r : Z) : bool := negb (r =? 0) && negb (r =? u32 (-1)).

(** The command types [Run] has a case for. *)
Definition supported (t : CommandType) : bool :=
  match t with CommandType_other _ => false | _ => true end.

(** Events of list finalization: the request to sync the list, and a
    write of a given word. *)
Definition is_ListSync (e : Event) : bool :=
  match e with EvExecuteOnMain op => OpType_eqb (op_type op) ListSync | _ => false end.

Definition writes_word (v : Z) (e : Event) : bool :=
  match e with EvWrite_U32 val _ => val =? v | _ => false end.

(** The length a decompressor reports for a stream, given the capacity. *)
Definition decompressed_size (C : Codecs) (version : Z) (stream : list Z) (capacity : Z) : Z :=
  (if version <? 5 then snappy_uncompress C stream capacity
   else ZSTD_decompress C stream capacity).2.

(** The layout behind the header: the two declared sizes, then the two
    streams, each behind its compressed length. *)
Definition capture_streams (body : list Z) (sz bufsz : Z) (cstream pstream : list Z) : Prop :=
  exists rest,
    body = le32_bytes sz ++ le32_bytes bufsz
           ++ le32_bytes (Z.of_nat (length cstream)) ++ cstream
           ++ le32_bytes (Z.of_nat (length pstream)) ++ pstream ++ rest.

(** How many times a replay thread was started. *)
Fixpoint thread_starts (tr : list MainEvent) : nat :=
  match tr with
  | [] => 0%nat
  | MThreadStart _ :: tr' => S (thread_starts tr')
  | _ :: tr' => thread_starts tr'
  end.

(** The operations the entry point serves with [Break]. *)
Definition breaks (op : Operation) : bool :=
  match op_type op with
  | UpdateStallAddr | EnqueueList | ListSync | ReapplyGfxState => true
  | OpNone | OpDone => false
  end.

(** An event of the executor: any event but a post of [Done] or [None]. *)
Definition run_event (e : Event) : Prop :=
  match e with EvExecuteOnMain op => breaks op = true | _ => True end.

(** [w'] is [w] after some events of the executor. *)
Definition extends {A : Allocator} (w w' : World (A:=A)) : Prop :=
  exists evs, trace w' = evs ++ trace w /\ Forall run_event evs.

(** A call of [userMemory.Free]. *)
Definition is_free (e : Event) : Prop :=
  match e with EvFree _ => True | _ => False end.

(** [w'] is [w] after some calls of [userMemory.Free]. *)
Definition frees_only {A : Allocator} (w w' : World (A:=A)) : Prop :=
  exists evs, trace w' = evs ++ trace w /\ Forall is_free evs.

(** The terminal operation the thread posts. *)
Definition done_op : Operation := mkOp OpDone 0 0.

(** No two allocated slabs mirror the same window of the pushbuffer. *)
Definition slabs_distinct (m : BufMapping) : Prop :=
  forall i j, i <> j ->
    SlabInfo.psp_pointer_ (slab_at m i) <> 0 ->
    SlabInfo.psp_pointer_ (slab_at m j) <> 0 ->
    SlabInfo.buf_pointer_ (slab_at m i) <> SlabInfo.buf_pointer_ (slab_at m j).

(** The stamps of the slabs lie between 0 and the current generation. *)
Definition stamps_ok (m : BufMapping) : Prop :=
  0 <= slabGeneration_ m
  /\ forall i, 0 <= SlabInfo.last_used_ (slab_at m i) <= slabGeneration_ m.

(** The calls of [userMemory.Free] that release the allocated slabs of a
    list, in the order of the list; newest first as in a trace. *)
Definition slab_free_events (l : list SlabInfo.t) : list Event :=
  rev (omap (fun s => if SlabInfo.psp_pointer_ s =? 0 then None
                      else Some (EvFree (SlabInfo.psp_pointer_ s))) l).


(** The bytes a decompressor writes for a stream, given the capacity. *)
Definition decompressed (C : Codecs) (version : Z) (stream : list Z) (capacity : Z) : list Z :=
  (if version <? 5 then snappy_uncompress C stream capacity
   else ZSTD_decompress C stream capacity).1.


(** Bookkeeping of user memory, address by address: how often an address
    was returned by [userMemory.Alloc] and how often it was given to
    [userMemory.Free] in a trace, and how often the executor holds it (as
    its list buffer, in a slab or in an extra entry). *)
Definition is_addr (a x : Z) : Z := if x =? a then 1 else 0.

Fixpoint n_alloc (a : Z) (tr : list Event) : Z :=
  match tr with
  | [] => 0
  | EvAlloc _ _ _ r :: tr' => is_addr a r + n_alloc a tr'
  | _ :: tr' => n_alloc a tr'
  end.

Fixpoint n_free (a : Z) (tr : list Event) : Z :=
  match tr with
  | [] => 0
  | EvFree p :: tr' => is_addr a p + n_free a tr'
  | _ :: tr' => n_free a tr'
  end.

(** Allocations of an address that have not been freed. *)
Definition outstanding (a : Z) (tr : list Event) : Z := n_alloc a tr - n_free a tr.

Fixpoint slabs_at (a : Z) (l : list SlabInfo.t) : Z :=
  match l with
  | [] => 0
  | s :: l' => is_addr a (SlabInfo.psp_pointer_ s) + slabs_at a l'
  end.

Fixpoint extras_at (a : Z) (l : list ExtraInfo.t) : Z :=
  match l with
  | [] => 0
  | e :: l' => is_addr a (ExtraInfo.psp_pointer_ e) + extras_at a l'
  end.

Definition n_mapped (a : Z) (m : BufMapping) : Z :=
  slabs_at a (slabs_ m) + extras_at a (extra_ m).

Definition n_held (a : Z) (d : DumpExecute) : Z :=
  is_addr a (execListBuf d) + n_mapped a (mapping_ d).


(** A step from [(d, w)] to [r] keeps the shape of the mapper and, for the
    address [a], the difference between what is outstanding and what the
    executor holds. *)
Definition keeps_balance {A : Allocator} (a : Z) (d : DumpExecute) (w : World (A:=A))
    (r : DumpExecute * World (A:=A)) : Prop :=
  BufMapping_wf (mapping_ r.1)
  /\ outstanding a (trace r.2) - n_held a r.1 = outstanding a (trace w) - n_held a d.


(** * Properties *)

Section Properties.

Context {A : Allocator} (E : Env) (K : GeConstants).
Context (F : RecordFormat) (C : Codecs) (M : MainEnv).

Implicit Types (m : BufMapping) (w : World (A:=A)) (d : DumpExecute).

(** ** Array reads after an update *)

Lemma slab_at_insert (l : list SlabInfo.t) (i j : nat) (s : SlabInfo.t) :
  default SlabInfo.init (<[i := s]> l !! j)
  = if decide (i = j /\ (i < length l)%nat) then s else default SlabInfo.init (l !! j).
Proof.
  rewrite list_lookup_insert. destruct (decide (i = j /\ (i < length l)%nat)); reflexivity.
Qed.

Lemma extra_at_insert (l : list ExtraInfo.t) (i j : nat) (e : ExtraInfo.t) :
  extra_at (<[i := e]> l) j
  = if decide (i = j /\ (i < length l)%nat) then e else extra_at l j.
Proof.
  unfold extra_at. rewrite list_lookup_insert.
  destruct (decide (i = j /\ (i < length l)%nat)); reflexivity.
Qed.

Lemma extra_at_ge (l : list ExtraInfo.t) (i : nat) :
  (length l <= i)%nat -> extra_at l i = ExtraInfo.init.
Proof. intros H. unfold extra_at. rewrite lookup_ge_None_2; [reflexivity | lia]. Qed.

(** ** The scan of [MapSlab] *)

Lemma MapSlab_scan_inl m pos idx b i :
  MapSlab_scan m pos idx b = inl i ->
  In i idx /\ SlabInfo.Matches (slab_at m i) pos = true.
Proof.
  revert b. induction idx as [|j idx IH]; intros b; simpl; [discriminate|].
  destruct (SlabInfo.Matches (slab_at m j) pos) eqn:Hm.
  - intros [= <-]. auto.
  - intros H. apply IH in H as [H1 H2]. auto.
Qed.

Lemma MapSlab_scan_inr m pos idx b best :
  MapSlab_scan m pos idx b = inr best ->
  (best = b \/ In best idx)
  /\ Age_at m b <= Age_at m best
  /\ (forall i, In i idx -> Age_at m i <= Age_at m best).
Proof.
  revert b. induction idx as [|j idx IH]; intros b; simpl.
  - intros [= <-]. split; [auto|]. split; [lia|]. intros i [].
  - destruct (SlabInfo.Matches (slab_at m j) pos); [discriminate|].
    fold (Age_at m j). fold (Age_at m b).
    destruct (Age_at m j >? Age_at m b) eqn:Hgt; intros H; apply IH in H as (H1 & H2 & H3).
    + split; [destruct H1; auto|]. split; [lia|].
      intros i [<- | Hi]; [lia | auto].
    + split; [destruct H1; auto|]. split; [lia|].
      intros i [<- | Hi]; [lia | auto].
Qed.

Lemma MapSlab_scan_miss m pos idx b :
  (forall i, In i idx -> SlabInfo.Matches (slab_at m i) pos = false) ->
  exists best, MapSlab_scan m pos idx b = inr best.
Proof.
  revert b. induction idx as [|j idx IH]; intros b Hmiss; simpl; [eauto|].
  rewrite Hmiss by (left; reflexivity). apply IH. intros i Hi. apply Hmiss. right; exact Hi.
Qed.

(** A hit is the first matching slab, whatever the ages are. *)
Lemma MapSlab_scan_inl_ext m m' pos idx b b' i :
  (forall j, In j idx ->
     SlabInfo.Matches (slab_at m' j) pos = SlabInfo.Matches (slab_at m j) pos) ->
  MapSlab_scan m pos idx b = inl i -> MapSlab_scan m' pos idx b' = inl i.
Proof.
  revert b b'. induction idx as [|j idx IH]; intros b b' Hext; simpl; [discriminate|].
  rewrite Hext by (left; reflexivity).
  destruct (SlabInfo.Matches (slab_at m j) pos); [auto|].
  apply IH. intros k Hk. apply Hext. right; exact Hk.
Qed.

(** ** The shape of the mapper's state *)

Lemma BufMapping_init_wf : BufMapping_wf BufMapping_init.
Proof. unfold BufMapping_wf. simpl. unfold EXTRA_COUNT. repeat split; lia. Qed.

Lemma free_extras_length idx : forall (l : list ExtraInfo.t) w,
  length (free_extras l idx w).1 = length l.
Proof.
  induction idx as [|i idx IH]; intros l w; simpl; [reflexivity|].
  destruct (ExtraInfo_Free (extra_at l i) w) as [e w1].
  rewrite IH, length_insert. reflexivity.
Qed.

(** [Map] keeps the two arrays at their size and [extraOffset_] in range. *)
Lemma Map_wf (pushbuf_ : list Z) m w (bufpos sz : Z) (flush : World -> World) :
  BufMapping_wf m -> BufMapping_wf (Map pushbuf_ m w bufpos sz flush).1.2.
Proof.
  intros (Hls & Hle & Hoff). unfold Map, BufMapping_wf.
  assert (Hmod : ((extraOffset_ m + 1) mod EXTRA_COUNT < EXTRA_COUNT)%nat).
  { apply Nat.mod_upper_bound. unfold EXTRA_COUNT. lia. }
  destruct (_ =? _).
  - destruct (SlabInfo.Matches _ _).
    + unfold slab_Ptr, set_slab, SlabInfo.Ptr. cbn [fst snd slabs_ extra_ extraOffset_].
      rewrite length_insert. auto.
    + unfold MapSlab. destruct (MapSlab_scan _ _ _ _) as [i | best].
      * unfold slab_Ptr, set_slab, SlabInfo.Ptr. cbn [fst snd slabs_ extra_ extraOffset_].
        rewrite length_insert. auto.
      * destruct (SlabInfo_Setup _ _ _ _ _) as [[[ok s] gen] w2].
        destruct ok; cbn [negb]; unfold slab_Ptr, set_slab, SlabInfo.Ptr;
          cbn [fst snd slabs_ extra_ extraOffset_]; rewrite ?length_insert; auto.
  - unfold MapExtra. destruct (MapExtra_scan _ _ _ _); [cbn [fst snd]; auto|].
    destruct (ExtraInfo_Alloc _ _ _ _ _) as [[ok e] w2].
    destruct ok.
    { cbn [fst snd slabs_ extra_ extraOffset_]. rewrite length_insert. auto. }
    pose proof (free_extras_length (seq 0 EXTRA_COUNT)
                  (<[extraOffset_ m := e]> (extra_ m)) w2) as Hlen.
    destruct (free_extras _ _ _) as [l2 w3]. cbn [fst] in Hlen.
    match goal with |- context [ExtraInfo_Alloc ?a ?b ?c ?d ?e'] =>
      destruct (ExtraInfo_Alloc a b c d e') as [[ok2 e2] w4] end.
    rewrite length_insert in Hlen.
    destruct ok2; cbn [fst snd slabs_ extra_ extraOffset_];
      rewrite length_insert, Hlen; auto.
Qed.

(** Every state the mapper can reach from its initial one has this shape. *)
Lemma Map_calls_wf (pushbuf_ : list Z) (flush : World -> World) (calls : list (Z * Z)) :
  forall m w, BufMapping_wf m -> BufMapping_wf (Map_calls pushbuf_ flush calls m w).1.
Proof.
  induction calls as [|[bufpos sz] calls IH]; intros m w Hwf; [exact Hwf|].
  cbn [Map_calls].
  pose proof (Map_wf pushbuf_ m w bufpos sz flush Hwf) as H.
  destruct (Map pushbuf_ m w bufpos sz flush) as [[p m1] w1]. apply IH. exact H.
Qed.

(** ** Eviction of slabs *)

Lemma SlabInfo_Setup_ok (pushbuf_ : list Z) gen s w pos ok s' gen' w' :
  SlabInfo_Setup pushbuf_ gen s w pos = (ok, s', gen', w') ->
  if ok then
    SlabInfo.psp_pointer_ s' <> 0 /\ SlabInfo.buf_pointer_ s' = pos
    /\ SlabInfo.last_used_ s' = gen'
  else
    SlabInfo.psp_pointer_ s = 0 /\ s' = s /\ gen' = gen.
Proof.
  unfold SlabInfo_Setup, SlabInfo_Alloc.
  destruct (SlabInfo.psp_pointer_ s =? 0) eqn:Hp.
  - destruct (Alloc SLAB_SIZE false "Slab" w) as [p w1].
    destruct (negb ((if p =? u32 (-1) then 0 else p) =? 0)) eqn:Hok; simpl.
    + intros [= <- <- <- <-]. simpl. repeat split.
      apply negb_true_iff in Hok. lia.
    + intros [= <- <- <- <-]. apply negb_false_iff in Hok.
      apply Z.eqb_eq in Hok, Hp. repeat split; [exact Hp|].
      destruct s as [a b c]; simpl in *. rewrite Hok. congruence.
  - simpl. intros [= <- <- <- <-]. simpl. repeat split. lia.
Qed.


(** ** Repeated calls of [Map] *)

Lemma Matches_lt_length m i pos :
  SlabInfo.Matches (slab_at m i) pos = true -> (i < length (slabs_ m))%nat.
Proof.
  unfold slab_at. intros H.
  destruct (slabs_ m !! i) eqn:Hl.
  - apply lookup_lt_Some in Hl. exact Hl.
  - simpl in H. unfold SlabInfo.Matches in H. simpl in H.
    rewrite andb_false_r in H. discriminate.
Qed.

Lemma slab_Ptr_twice m i bufpos p m1 :
  (i < length (slabs_ m))%nat ->
  slab_Ptr m i bufpos = (p, m1) -> slab_Ptr m1 i bufpos = (p, m1).
Proof.
  unfold slab_Ptr, SlabInfo.Ptr, set_slab, slab_at. intros Hi [= <- <-]. simpl.
  rewrite list_lookup_insert_eq by exact Hi. simpl.
  rewrite list_insert_insert_eq. reflexivity.
Qed.

Lemma slab_Ptr_Matches m i bufpos j pos :
  SlabInfo.Matches (slab_at (slab_Ptr m i bufpos).2 j) pos
  = SlabInfo.Matches (slab_at m j) pos.
Proof.
  unfold slab_Ptr, SlabInfo.Ptr, set_slab, slab_at. simpl.
  rewrite slab_at_insert.
  destruct (decide (i = j /\ (i < length (slabs_ m))%nat)) as [[-> _]|]; reflexivity.
Qed.

Lemma ExtraInfo_Alloc_ok (pushbuf_ : list Z) e w bufpos sz ok e' w' :
  ExtraInfo_Alloc pushbuf_ e w bufpos sz = (ok, e', w') ->
  if ok then
    ExtraInfo.psp_pointer_ e' <> 0 /\ ExtraInfo.buf_pointer_ e' = bufpos
    /\ ExtraInfo.size_ e' = sz
  else ExtraInfo.psp_pointer_ e' = 0.
Proof.
  unfold ExtraInfo_Alloc.
  destruct (ExtraInfo_Free e w) as [e1 w1].
  destruct (Alloc sz false "Straddle extra" w1) as [p w2].
  destruct ((if p =? u32 (-1) then 0 else p) =? 0) eqn:Hp.
  - intros [= <- <- <-]. reflexivity.
  - intros [= <- <- <-]. simpl. repeat split. lia.
Qed.

Lemma MapExtra_scan_None l bufpos sz idx :
  MapExtra_scan l bufpos sz idx = None ->
  forall i, In i idx -> ExtraInfo.Matches (extra_at l i) bufpos sz = false.
Proof.
  induction idx as [|j idx IH]; simpl; [intros _ i []|].
  destruct (ExtraInfo.Matches (extra_at l j) bufpos sz) eqn:Hm; [discriminate|].
  intros H i [<- | Hi]; auto.
Qed.

Lemma MapExtra_scan_unique_inv l bufpos sz idx i :
  MapExtra_scan l bufpos sz idx = Some i ->
  ExtraInfo.Matches (extra_at l i) bufpos sz = true.
Proof.
  induction idx as [|j idx IH]; simpl; [discriminate|].
  destruct (ExtraInfo.Matches (extra_at l j) bufpos sz) eqn:Hm; [|exact IH].
  intros [= <-]. exact Hm.
Qed.

Lemma MapExtra_scan_unique l bufpos sz idx i0 :
  In i0 idx ->
  ExtraInfo.Matches (extra_at l i0) bufpos sz = true ->
  (forall j, In j idx -> j <> i0 -> ExtraInfo.Matches (extra_at l j) bufpos sz = false) ->
  MapExtra_scan l bufpos sz idx = Some i0.
Proof.
  induction idx as [|j idx IH]; simpl; [intros []|].
  intros Hin Hm Hothers.
  destruct (decide (j = i0)) as [-> | Hne].
  - rewrite Hm. reflexivity.
  - rewrite (Hothers j) by auto.
    apply IH; [destruct Hin; congruence | exact Hm |].
    intros k Hk. apply Hothers. right; exact Hk.
Qed.

Lemma ExtraInfo_Free_psp e w : ExtraInfo.psp_pointer_ (ExtraInfo_Free e w).1 = 0.
Proof.
  unfold ExtraInfo_Free. destruct (ExtraInfo.psp_pointer_ e =? 0) eqn:Hp; simpl; lia.
Qed.

Lemma free_extras_psp idx : forall l w j,
  In j idx \/ ExtraInfo.psp_pointer_ (extra_at l j) = 0 ->
  ExtraInfo.psp_pointer_ (extra_at (free_extras l idx w).1 j) = 0.
Proof.
  induction idx as [|i idx IH]; intros l w j H; simpl.
  - destruct H as [[] | H]; exact H.
  - pose proof (ExtraInfo_Free_psp (extra_at l i) w) as Hf.
    destruct (ExtraInfo_Free (extra_at l i) w) as [e w1]. simpl in Hf.
    apply IH. rewrite extra_at_insert.
    destruct (decide (i = j /\ (i < length l)%nat)) as [[-> Hlt] | Hn]; [right; exact Hf|].
    destruct H as [[-> | H] | H]; [|left; exact H | right; exact H].
    right. rewrite extra_at_ge; [reflexivity|]. destruct (decide (j < length l)%nat); [|lia].
    exfalso. apply Hn. auto.
Qed.

Lemma Matches_psp0 e bufpos sz :
  ExtraInfo.psp_pointer_ e = 0 -> ExtraInfo.Matches e bufpos sz = false.
Proof.
  unfold ExtraInfo.Matches. intros ->. simpl. rewrite andb_false_r. reflexivity.
Qed.

Lemma Matches_fresh p bufpos sz :
  p <> 0 -> ExtraInfo.Matches (ExtraInfo.mk p bufpos sz) bufpos sz = true.
Proof.
  intros Hp. unfold ExtraInfo.Matches. simpl.
  rewrite Z.eqb_refl. replace (p =? 0) with false by lia.
  simpl. lia.
Qed.

(** C5 (as amended).  When a call of [Map] returns an address, the next
    call with the same arguments returns the same address and changes
    nothing: no slab or extra entry, no byte of memory, not the allocator,
    and it adds no event (no flush, no allocation, no copy). *)
Theorem Map_again_is_a_hit (pushbuf_ : list Z) m w (bufpos sz : Z)
    (flush flush' : World -> World) p m1 w1 :
  BufMapping_wf m ->
  Map pushbuf_ m w bufpos sz flush = (p, m1, w1) ->
  p <> 0 ->
  Map pushbuf_ m1 w1 bufpos sz flush' = (p, m1, w1).
Proof.
  intros (Hls & Hle & Hoff). unfold Map.
  destruct (u32 bufpos / SLAB_SIZE =? u32 (bufpos + sz - 1) / SLAB_SIZE) eqn:Hsingle.
  - (* one slab *)
    destruct (SlabInfo.Matches (slab_at m (lastSlab_ m))
                (u32 (u32 bufpos / SLAB_SIZE * SLAB_SIZE))) eqn:Hshort.
    + (* the most recent slab *)
      destruct (slab_Ptr m (lastSlab_ m) bufpos) as [p' m'] eqn:HP.
      intros [= -> -> ->] Hp.
      pose proof (slab_Ptr_Matches m (lastSlab_ m) bufpos (lastSlab_ m)
                    (u32 (u32 bufpos / SLAB_SIZE * SLAB_SIZE))) as Hm.
      rewrite HP in Hm. simpl in Hm.
      assert (Hlast : lastSlab_ m1 = lastSlab_ m).
      { unfold slab_Ptr in HP. simpl in HP. injection HP as _ <-. reflexivity. }
      rewrite Hlast, Hm, Hshort.
      rewrite (slab_Ptr_twice m (lastSlab_ m) bufpos p m1); auto.
      eapply Matches_lt_length; eauto.
    + unfold MapSlab.
      destruct (MapSlab_scan m (u32 (u32 bufpos / SLAB_SIZE * SLAB_SIZE))
                  (seq 0 SLAB_COUNT) 0%nat) as [i | best] eqn:Hscan.
      * (* another slab matches *)
        destruct (slab_Ptr m i bufpos) as [p' m'] eqn:HP.
        intros [= -> -> ->] Hp.
        assert (Hlast : lastSlab_ m1 = lastSlab_ m).
        { unfold slab_Ptr in HP. simpl in HP. injection HP as _ <-. reflexivity. }
        pose proof (fun j => slab_Ptr_Matches m i bufpos j
                      (u32 (u32 bufpos / SLAB_SIZE * SLAB_SIZE))) as Hm.
        rewrite HP in Hm. simpl in Hm.
        rewrite Hlast, Hm, Hshort.
        rewrite (MapSlab_scan_inl_ext m m1 _ _ 0%nat 0%nat i (fun j _ => Hm j) Hscan).
        apply MapSlab_scan_inl in Hscan as [_ Hmi].
        rewrite (slab_Ptr_twice m i bufpos p m1); auto.
        eapply Matches_lt_length; eauto.
      * (* a slab is set up *)
        pose proof (MapSlab_scan_inr _ _ _ _ _ Hscan) as (Hin & _).
        assert (Hbest : (best < length (slabs_ m))%nat).
        { rewrite Hls. destruct Hin as [-> | Hin]; [unfold SLAB_COUNT; lia|].
          apply in_seq in Hin. lia. }
        destruct (SlabInfo_Setup pushbuf_ (slabGeneration_ m) (slab_at m best) (flush w)
                    (u32 (u32 bufpos / SLAB_SIZE * SLAB_SIZE)))
          as [[[ok s] gen] w2] eqn:Hsetup.
        apply SlabInfo_Setup_ok in Hsetup.
        destruct ok; cbn [negb]; [|intros [= <- <- <-] Hp; congruence].
        destruct Hsetup as (Hpsp & Hbuf & Hused).
        set (m2 := mkBufMapping gen (<[best:=s]> (slabs_ m)) best (extraOffset_ m) (extra_ m)).
        cbn [slabs_ extraOffset_ extra_]. fold m2.
        assert (Hs : slab_at m2 best = s).
        { unfold slab_at, m2. simpl. rewrite list_lookup_insert_eq by exact Hbest.
          reflexivity. }
        destruct (slab_Ptr m2 best bufpos) as [p' m'] eqn:HP.
        intros [= -> -> ->] Hp.
        assert (Hlast : lastSlab_ m1 = best).
        { unfold slab_Ptr in HP. simpl in HP. injection HP as _ <-. reflexivity. }
        pose proof (slab_Ptr_Matches m2 best bufpos best
                      (u32 (u32 bufpos / SLAB_SIZE * SLAB_SIZE))) as Hm.
        rewrite HP, Hs in Hm. simpl in Hm.
        rewrite Hlast, Hm. unfold SlabInfo.Matches at 1.
        rewrite Hbuf, Z.eqb_refl.
        replace (SlabInfo.psp_pointer_ s =? 0) with false by lia. cbn [andb negb].
        rewrite (slab_Ptr_twice m2 best bufpos p m1); auto.
        unfold m2. simpl. rewrite length_insert. exact Hbest.
  - (* an extra *)
    unfold MapExtra.
    destruct (MapExtra_scan (extra_ m) bufpos sz (seq 0 EXTRA_COUNT)) as [i|] eqn:Hscan.
    + intros [= <- <- <-] Hp. rewrite Hscan. reflexivity.
    + pose proof (MapExtra_scan_None _ _ _ _ Hscan) as Hmiss.
      assert (Hin : In (extraOffset_ m) (seq 0 EXTRA_COUNT)) by (apply in_seq; lia).
      destruct (ExtraInfo_Alloc pushbuf_ (extra_at (extra_ m) (extraOffset_ m)) (flush w)
                  bufpos sz) as [[ok e] w2] eqn:Halloc.
      apply ExtraInfo_Alloc_ok in Halloc.
      destruct ok.
      * destruct Halloc as (Hpsp & Hbuf & Hsz).
        intros [= <- <- <-] Hp. cbn [extra_ slabs_ lastSlab_ extraOffset_ slabGeneration_].
        rewrite (MapExtra_scan_unique _ _ _ _ (extraOffset_ m)); [reflexivity | exact Hin | |].
        -- rewrite extra_at_insert.
           destruct (decide (extraOffset_ m = extraOffset_ m
                             /\ (extraOffset_ m < length (extra_ m))%nat)) as [_|Hn];
             [|exfalso; apply Hn; split; [reflexivity | lia]].
           destruct e as [ep eb es]; simpl in *. subst eb es. apply Matches_fresh; exact Hpsp.
        -- intros j Hj Hne. rewrite extra_at_insert.
           destruct (decide (extraOffset_ m = j
                             /\ (extraOffset_ m < length (extra_ m))%nat)) as [[Heq _]|_];
             [congruence | auto].
      * destruct (free_extras (<[extraOffset_ m := e]> (extra_ m)) (seq 0 EXTRA_COUNT) w2)
          as [l2 w3] eqn:Hfree.
        destruct (ExtraInfo_Alloc pushbuf_ (extra_at l2 (extraOffset_ m)) w3 bufpos sz)
          as [[ok2 e2] w4] eqn:Halloc2.
        apply ExtraInfo_Alloc_ok in Halloc2.
        destruct ok2; [|intros [= <- <- <-] Hp; congruence].
        destruct Halloc2 as (Hpsp & Hbuf & Hsz).
        intros [= <- <- <-] Hp. cbn [extra_ slabs_ lastSlab_ extraOffset_ slabGeneration_].
        assert (Hl2 : length l2 = length (extra_ m)).
        { replace l2 with (free_extras (<[extraOffset_ m := e]> (extra_ m))
                                       (seq 0 EXTRA_COUNT) w2).1 by (rewrite Hfree; reflexivity).
          rewrite free_extras_length, length_insert. reflexivity. }
        rewrite (MapExtra_scan_unique _ _ _ _ (extraOffset_ m)); [reflexivity | exact Hin | |].
        -- rewrite extra_at_insert.
           destruct (decide (extraOffset_ m = extraOffset_ m
                             /\ (extraOffset_ m < length l2)%nat)) as [_|Hn];
             [|exfalso; apply Hn; split; [reflexivity | lia]].
           destruct e2 as [ep eb es]; simpl in *. subst eb es. apply Matches_fresh; exact Hpsp.
        -- intros j Hj Hne. rewrite extra_at_insert.
           destruct (decide (extraOffset_ m = j
                             /\ (extraOffset_ m < length l2)%nat)) as [[Heq _]|_];
             [congruence|].
           apply Matches_psp0.
           replace l2 with (free_extras (<[extraOffset_ m := e]> (extra_ m))
                                        (seq 0 EXTRA_COUNT) w2).1 by (rewrite Hfree; reflexivity).
           apply free_extras_psp. left; exact Hj.
Qed.

(** ** The extras: round robin *)

Lemma ExtraInfo_Free_spec e w :
  ExtraInfo_Free e w
  = (freed e, mkWorld (if ExtraInfo.psp_pointer_ e =? 0 then heap w
                       else userMemory_Free A (heap w) (ExtraInfo.psp_pointer_ e))
                      (mem w) (free_events [e] ++ trace w) (downcount w)).
Proof.
  unfold ExtraInfo_Free, freed, free_events, Free. simpl.
  destruct (ExtraInfo.psp_pointer_ e =? 0); simpl; [destruct w|]; reflexivity.
Qed.

Lemma free_events_cons e l : free_events (e :: l) = free_events l ++ free_events [e].
Proof.
  unfold free_events. simpl.
  destruct (ExtraInfo.psp_pointer_ e =? 0); simpl; [rewrite app_nil_r|]; reflexivity.
Qed.

Lemma free_extras_trace n : forall k l w,
  (k + n = length l)%nat ->
  trace (free_extras l (seq k n) w).2 = free_events (drop k l) ++ trace w
  /\ mem (free_extras l (seq k n) w).2 = mem w.
Proof.
  induction n as [|n IH]; intros k l w Hk; simpl.
  - rewrite drop_ge by lia. split; reflexivity.
  - rewrite ExtraInfo_Free_spec.
    assert (Hlk : exists x, l !! k = Some x) by (apply lookup_lt_is_Some; lia).
    destruct Hlk as [x Hx].
    specialize (IH (S k) (<[k := freed (extra_at l k)]> l)).
    rewrite length_insert in IH.
    edestruct IH as [IH1 IH2]; [lia|]. rewrite IH1, IH2. simpl.
    split; [|reflexivity].
    rewrite drop_insert_lt by lia.
    rewrite (drop_S l x k Hx), (free_events_cons x (drop (S k) l)), <- app_assoc.
    unfold extra_at. rewrite Hx. reflexivity.
Qed.

Lemma free_events_insert_psp0 (l : list ExtraInfo.t) : forall i e e',
  ExtraInfo.psp_pointer_ e = 0 -> ExtraInfo.psp_pointer_ e' = 0 ->
  free_events (<[i := e]> l) = free_events (<[i := e']> l).
Proof.
  induction l as [|x l IH]; intros i e e' He He'; [reflexivity|].
  destruct i as [|i]; simpl.
  - rewrite (free_events_cons e l), (free_events_cons e' l).
    unfold free_events. simpl. rewrite He, He'. reflexivity.
  - rewrite (free_events_cons x (<[i:=e]> l)), (free_events_cons x (<[i:=e']> l)).
    rewrite (IH i e e' He He'). reflexivity.
Qed.

Lemma ExtraInfo_Alloc_spec (pushbuf_ : list Z) e w bufpos sz :
  exists r w',
    let tr := EvAlloc sz false "Straddle extra" r :: free_events [e] ++ trace w in
    if ptr_valid r then
      ExtraInfo_Alloc pushbuf_ e w bufpos sz = (true, ExtraInfo.mk r bufpos sz, w')
      /\ trace w' = EvMemcpy r (read_bytes pushbuf_ bufpos sz) :: tr
    else
      exists e', ExtraInfo_Alloc pushbuf_ e w bufpos sz = (false, e', w')
                 /\ ExtraInfo.psp_pointer_ e' = 0 /\ trace w' = tr /\ mem w' = mem w.
Proof.
  unfold ExtraInfo_Alloc. rewrite ExtraInfo_Free_spec. unfold Alloc. cbn [heap mem trace downcount].
  destruct (userMemory_Alloc A _ sz false "Straddle extra") as [r h].
  exists (u32 r). unfold ptr_valid.
  destruct (u32 r =? u32 (-1)) eqn:H1.
  - rewrite andb_false_r. simpl. eexists. eexists. repeat split; reflexivity.
  - destruct (u32 r =? 0) eqn:H0; simpl.
    + eexists. eexists. repeat split; reflexivity.
    + eexists. split; reflexivity.
Qed.

(** [extraOffset_] moves at a miss of the extra path and at nothing else:
    no hit, on a slab or on an extra, and no slab miss changes it. *)
Lemma Map_extraOffset (pushbuf_ : list Z) m w (bufpos sz : Z) (flush : World -> World) :
  extraOffset_ (Map pushbuf_ m w bufpos sz flush).1.2
  = if u32 bufpos / SLAB_SIZE =? u32 (bufpos + sz - 1) / SLAB_SIZE then extraOffset_ m
    else match MapExtra_scan (extra_ m) bufpos sz (seq 0 EXTRA_COUNT) with
         | Some _ => extraOffset_ m
         | None => ((extraOffset_ m + 1) mod EXTRA_COUNT)%nat
         end.
Proof.
  unfold Map. destruct (_ =? _).
  - destruct (SlabInfo.Matches _ _).
    + reflexivity.
    + unfold MapSlab. destruct (MapSlab_scan _ _ _ _) as [i | best]; [reflexivity|].
      destruct (SlabInfo_Setup _ _ _ _ _) as [[[ok s] gen] w2].
      destruct ok; reflexivity.
  - unfold MapExtra. destruct (MapExtra_scan _ _ _ _); [reflexivity|].
    destruct (ExtraInfo_Alloc _ _ _ _ _) as [[ok e] w2].
    destruct ok; [reflexivity|].
    destruct (free_extras _ _ _) as [l2 w3].
    match goal with |- context [ExtraInfo_Alloc ?a ?b ?c ?d ?e'] =>
      destruct (ExtraInfo_Alloc a b c d e') as [[ok2 e2] w4] end.
    destruct ok2; reflexivity.
Qed.

(** C4.  A miss of the extra path of [Map]: the slot is [extraOffset_],
    which the call advances by one modulo [EXTRA_COUNT] whatever happens
    next; after the flush the previous content of the slot is freed and the
    range is allocated; on success it is copied and its address returned.
    When the allocation fails, every extra that is still allocated is freed,
    once, and the same slot is tried again; when this fails too, [Map]
    returns 0.  The slabs are not touched. *)
Theorem MapExtra_round_robin (pushbuf_ : list Z) m w (bufpos sz : Z)
    (flush : World -> World) :
  BufMapping_wf m ->
  u32 bufpos / SLAB_SIZE <> u32 (bufpos + sz - 1) / SLAB_SIZE ->
  (forall i, ExtraInfo.Matches (extra_at (extra_ m) i) bufpos sz = false) ->
  let i := extraOffset_ m in
  let data := read_bytes pushbuf_ bufpos sz in
  let '(p, m', w') := Map pushbuf_ m w bufpos sz flush in
  extraOffset_ m' = ((i + 1) mod EXTRA_COUNT)%nat
  /\ slabs_ m' = slabs_ m /\ lastSlab_ m' = lastSlab_ m
  /\ exists r1,
       let tr1 := EvAlloc sz false "Straddle extra" r1
                    :: free_events [extra_at (extra_ m) i] ++ trace (flush w) in
       if ptr_valid r1 then
         p = r1
         /\ extra_ m' = <[i := ExtraInfo.mk r1 bufpos sz]> (extra_ m)
         /\ trace w' = EvMemcpy r1 data :: tr1
       else
         exists r2,
           let tr2 := EvAlloc sz false "Straddle extra" r2
                        :: free_events (<[i := ExtraInfo.init]> (extra_ m)) ++ tr1 in
           (forall j, j <> i -> ExtraInfo.psp_pointer_ (extra_at (extra_ m') j) = 0)
           /\ if ptr_valid r2 then
                p = r2
                /\ extra_at (extra_ m') i = ExtraInfo.mk r2 bufpos sz
                /\ trace w' = EvMemcpy r2 data :: tr2
              else
                p = 0
                /\ ExtraInfo.psp_pointer_ (extra_at (extra_ m') i) = 0
                /\ trace w' = tr2.
Proof.
  intros (Hls & Hle & Hoff) Hstraddle Hmiss i data.
  unfold Map. replace (_ =? _) with false by lia.
  unfold MapExtra.
  destruct (MapExtra_scan (extra_ m) bufpos sz (seq 0 EXTRA_COUNT)) as [j|] eqn:Hscan.
  { apply MapExtra_scan_unique_inv in Hscan. rewrite Hmiss in Hscan. discriminate. }
  fold i.
  destruct (ExtraInfo_Alloc_spec pushbuf_ (extra_at (extra_ m) i) (flush w) bufpos sz)
    as (r1 & w2 & H1).
  destruct (ptr_valid r1) eqn:Hv1.
  - destruct H1 as [-> Htr]. cbn [extra_ slabs_ lastSlab_ extraOffset_].
    split; [reflexivity|]. split; [reflexivity|]. split; [reflexivity|].
    exists r1. rewrite Hv1. split; [|split; [reflexivity | exact Htr]].
    rewrite extra_at_insert.
    destruct (decide (i = i /\ (i < length (extra_ m))%nat)) as [_|Hn]; [reflexivity|].
    exfalso. apply Hn. split; [reflexivity | lia].
  - destruct H1 as (e1 & -> & He1 & Htr & Hmem).
    destruct (free_extras (<[i := e1]> (extra_ m)) (seq 0 EXTRA_COUNT) w2) as [l2 w3] eqn:Hfree.
    assert (Hl2 : l2 = (free_extras (<[i := e1]> (extra_ m)) (seq 0 EXTRA_COUNT) w2).1)
      by (rewrite Hfree; reflexivity).
    assert (Hw3 : w3 = (free_extras (<[i := e1]> (extra_ m)) (seq 0 EXTRA_COUNT) w2).2)
      by (rewrite Hfree; reflexivity).
    assert (Hlen2 : length l2 = EXTRA_COUNT).
    { rewrite Hl2, free_extras_length, length_insert. exact Hle. }
    assert (Hpsp2 : forall j, ExtraInfo.psp_pointer_ (extra_at l2 j) = 0).
    { intros j. destruct (decide (j < EXTRA_COUNT)%nat) as [Hj|Hj].
      - rewrite Hl2. apply free_extras_psp. left. apply in_seq. lia.
      - rewrite extra_at_ge by lia. reflexivity. }
    assert (Htr3 : trace w3 = free_events (<[i := ExtraInfo.init]> (extra_ m)) ++ trace w2).
    { rewrite Hw3.
      destruct (free_extras_trace EXTRA_COUNT 0 (<[i := e1]> (extra_ m)) w2) as [Ht _].
      { rewrite length_insert. lia. }
      rewrite Ht. rewrite drop_0.
      rewrite (free_events_insert_psp0 _ i e1 ExtraInfo.init He1 eq_refl). reflexivity. }
    destruct (ExtraInfo_Alloc_spec pushbuf_ (extra_at l2 i) w3 bufpos sz) as (r2 & w4 & H2).
    assert (Hnofree : free_events [extra_at l2 i] = []).
    { unfold free_events. simpl. rewrite (Hpsp2 i). reflexivity. }
    rewrite Hnofree in H2. cbn [app] in H2.
    destruct (ptr_valid r2) eqn:Hv2.
    + destruct H2 as [-> Htr4]. cbn [extra_ slabs_ lastSlab_ extraOffset_].
      split; [reflexivity|]. split; [reflexivity|]. split; [reflexivity|].
      exists r1. rewrite Hv1. exists r2. rewrite Hv2.
      split.
      { intros j Hj. rewrite extra_at_insert.
        destruct (decide (i = j /\ (i < length l2)%nat)) as [[Heq _]|_]; [congruence|].
        apply Hpsp2. }
      rewrite extra_at_insert.
      destruct (decide (i = i /\ (i < length l2)%nat)) as [_|Hn];
        [|exfalso; apply Hn; split; [reflexivity | lia]].
      split; [reflexivity|]. split; [reflexivity|].
      rewrite Htr4, Htr3, Htr. reflexivity.
    + destruct H2 as (e2 & -> & He2 & Htr4 & _). cbn [extra_ slabs_ lastSlab_ extraOffset_].
      split; [reflexivity|]. split; [reflexivity|]. split; [reflexivity|].
      exists r1. rewrite Hv1. exists r2. rewrite Hv2.
      split.
      { intros j Hj. rewrite extra_at_insert.
        destruct (decide (i = j /\ (i < length l2)%nat)) as [[Heq _]|_]; [congruence|].
        apply Hpsp2. }
      split; [reflexivity|]. split.
      { rewrite extra_at_insert.
        destruct (decide (i = i /\ (i < length l2)%nat)); [exact He2 | apply Hpsp2]. }
      rewrite Htr4, Htr3, Htr. reflexivity.
Qed.

(** ** The handlers that map their payload *)

Lemma map_payload_keeps (pushbuf_ : list Z) d w ptr sz :
  let d1 := (map_payload E pushbuf_ d w ptr sz).1.2 in
  execListQueue d1 = execListQueue d /\ lastBase_ d1 = lastBase_ d.
Proof.
  unfold map_payload.
  destruct (Map pushbuf_ (mapping_ d) w ptr sz (SyncStall E d)) as [[psp m] w1].
  split; reflexivity.
Qed.

(** C8 (as amended).  After a successful [Map], [Vertices] and [Indices]
    queue a base word exactly when the high byte of the address (bits 24 to
    31) differs from [lastBase_], record it, and then queue their address
    word.  [TransferSrc] neither reads nor writes [lastBase_] and queues no
    base word: it stalls, then queues the transfer source width word, which
    carries the high byte, and the TRANSFERSRC address word. *)
Theorem mapped_handlers_words (pushbuf_ : list Z) d w (ptr sz psp : Z) d1 w1 :
  map_payload E pushbuf_ d w ptr sz = (psp, d1, w1) ->
  psp <> 0 ->
  let high := Z.land psp 0xFF000000 in
  let base := if lastBase_ d =? high then [] else [base_word K psp] in
  (let '(d', w') := Vertices E K pushbuf_ d w ptr sz in
   execListQueue d' = execListQueue d ++ base ++ [addr_word (GE_CMD_VADDR K) psp]
   /\ lastBase_ d' = high /\ w' = w1)
  /\ (let '(d', w') := Indices E K pushbuf_ d w ptr sz in
      execListQueue d' = execListQueue d ++ base ++ [addr_word (GE_CMD_IADDR K) psp]
      /\ lastBase_ d' = high /\ w' = w1)
  /\ (let '(d', w') := TransferSrc E K pushbuf_ d w ptr sz in
      let srcw := u32 (Z.lor (Z.land (gstate_transfersrcw E (trace w')) 0xFF00FFFF)
                             (Z.land (Z.shiftr psp 8) 0x00FF0000)) in
      execListQueue d' = execListQueue d ++ [srcw; addr_word (GE_CMD_TRANSFERSRC K) psp]
      /\ lastBase_ d' = lastBase_ d /\ w' = SyncStall E d1 w1).
Proof.
  intros Hmap Hpsp high base.
  pose proof (map_payload_keeps pushbuf_ d w ptr sz) as [Hq Hb].
  rewrite Hmap in Hq, Hb. simpl in Hq, Hb.
  assert (Hz : (psp =? 0) = false) by lia.
  unfold Vertices, Indices, TransferSrc. rewrite Hmap, Hz.
  fold high. rewrite Hb. subst base.
  destruct (lastBase_ d =? high) eqn:Hhigh; cbn [negb];
    repeat split;
    unfold push_back, with_lastBase, with_last, with_execListQueue;
    cbn [execListQueue lastBase_];
    rewrite ?Hq, ?Hb, <- ?app_assoc; cbn [app]; try reflexivity;
    apply Z.eqb_eq in Hhigh; exact Hhigh.
Qed.

(** ** Framebuf: when the pixels are copied *)

Lemma land_2_testbit (x : Z) : (Z.land x 2 =? 0) = negb (Z.testbit x 1).
Proof.
  assert (H : Z.land x 2 = if Z.testbit x 1 then 2 else 0).
  { apply Z.bits_inj'. intros n Hn. rewrite Z.land_spec.
    change 2 with (2 ^ 1) at 1. rewrite Z.pow2_bits_eqb by lia.
    destruct (Z.eqb_spec 1 n) as [<- | Hne].
    - rewrite andb_true_r. destruct (Z.testbit x 1); reflexivity.
    - rewrite andb_false_r. destruct (Z.testbit x 1).
      + change 2 with (2 ^ 1). rewrite Z.pow2_bits_eqb by lia. symmetry. lia.
      + rewrite Z.bits_0. reflexivity. }
  rewrite H. destruct (Z.testbit x 1); reflexivity.
Qed.

Lemma land_1_testbit (x : Z) : (Z.land x 1 =? 0) = negb (Z.testbit x 0).
Proof.
  assert (H : Z.land x 1 = if Z.testbit x 0 then 1 else 0).
  { apply Z.bits_inj'. intros n Hn. rewrite Z.land_spec.
    change 1 with (2 ^ 0) at 1. rewrite Z.pow2_bits_eqb by lia.
    destruct (Z.eqb_spec 0 n) as [<- | Hne].
    - rewrite andb_true_r. destruct (Z.testbit x 0); reflexivity.
    - rewrite andb_false_r. destruct (Z.testbit x 0).
      + change 1 with (2 ^ 0). rewrite Z.pow2_bits_eqb by lia. symmetry. lia.
      + rewrite Z.bits_0. reflexivity. }
  rewrite H. destruct (Z.testbit x 0); reflexivity.
Qed.

(** C2.  [Framebuf] with a record whose flags have bit 1 set ("content
    unchanged") copies nothing and notifies nobody when the format version
    is at least 6: the world is left as it is.  Below version 6 the bit
    plays no part: the pixels behind the header are copied to the recorded
    address, and the write is notified, whenever the destination range is
    valid and the record is not a render target or rendering is not in
    software. *)
Theorem Framebuf_unchanged_flag (pushbuf_ : list Z) (level : nat) d w (ptr sz : Z) :
  let addr := pushbuf_u32 pushbuf_ ptr in
  let flags := pushbuf_u32 pushbuf_ (ptr + 8) in
  let pspSize := u32 (sz - FramebufData_size) in
  let w' := (Framebuf E K pushbuf_ level d w ptr sz).2 in
  (version_ d >= 6 -> Z.testbit flags 1 = true -> w' = w)
  /\ (version_ d < 6 ->
      Memory_IsValidRange E addr pspSize = true ->
      Z.testbit flags 0 = false \/ g_Config_bSoftwareRendering E (trace w) = false ->
      w' = log (EvNotifyMemInfo addr pspSize "ReplayTex")
             (MemcpyUnchecked addr
                (read_bytes pushbuf_ (ptr + FramebufData_size) pspSize) w)).
Proof.
  intros addr flags pspSize w'. subst w'. unfold Framebuf.
  fold addr flags pspSize. rewrite land_2_testbit, land_1_testbit, !negb_involutive.
  split.
  - intros Hv Hbit. replace (version_ d >=? 6) with true by lia. rewrite Hbit.
    cbn [andb negb]. rewrite andb_false_r. reflexivity.
  - intros Hv Hvalid Hguard. replace (version_ d >=? 6) with false by lia.
    rewrite Hvalid. cbn [andb negb].
    destruct Hguard as [-> | ->]; cbn [negb orb]; [reflexivity|].
    rewrite orb_true_r. reflexivity.
Qed.

(** ** The write position of the regenerated list *)

Lemma Registers_list_fields (pushbuf_ : list Z) d w (ptr sz : Z) :
  let e := Registers_ensure_list E K d w in
  e.1.1 = true ->
  let d2 := (Registers_wrap E K e.1.2 e.2 sz).1 in
  let d' := (Registers E K pushbuf_ d w ptr sz).1 in
  execListBuf d' = execListBuf d2
  /\ execListID d' = execListID d2
  /\ execListPos d'
     = u32 (u32 (execListPos d2 + u32 (Z.of_nat (length (execListQueue e.1.2)) * 4)) + sz).
Proof.
  unfold Registers.
  destruct (Registers_ensure_list E K d w) as [[ok d1] w1]. simpl. intros ->. cbn [negb].
  destruct (Registers_wrap E K d1 w1 sz) as [d2 w2]. simpl.
  destruct (fold_left _ _ _) as [[m bufws] base]. simpl. auto.
Qed.

Lemma Registers_ensure_list_active d w :
  execListBuf d <> 0 -> Registers_ensure_list E K d w = (true, d, w).
Proof.
  intros H. unfold Registers_ensure_list. replace (execListBuf d =? 0) with false by lia.
  reflexivity.
Qed.

(** The headroom is kept by a payload that fits: with a list in use (well
    below the top of the address space), the write position inside the
    buffer and at least 8 bytes before its end, and pending words, payload
    and 8 bytes no larger than the buffer, the position after [Registers]
    is again at least 8 bytes before the end. *)
Lemma Registers_headroom (pushbuf_ : list Z) d w (ptr sz : Z) :
  let pending := Z.of_nat (length (execListQueue d)) * 4 in
  0 < execListBuf d ->
  execListBuf d + 2 * LIST_BUF_SIZE <= 2 ^ 32 ->
  execListBuf d <= execListPos d <= execListBuf d + LIST_BUF_SIZE - 8 ->
  0 <= sz -> pending + sz + 8 <= LIST_BUF_SIZE ->
  let d' := (Registers E K pushbuf_ d w ptr sz).1 in
  execListBuf d' = execListBuf d
  /\ execListBuf d <= execListPos d' <= execListBuf d + LIST_BUF_SIZE - 8.
Proof.
  intros pending Hbuf Hend Hpos Hsz Hfit d'.
  pose proof (Registers_list_fields pushbuf_ d w ptr sz) as H.
  rewrite (Registers_ensure_list_active d w) in H by lia. cbn [fst snd] in H.
  specialize (H eq_refl). fold d' in H. destruct H as (Hb & _ & Hp).
  rewrite Hb, Hp. clear Hb Hp d'.
  fold pending. unfold Registers_wrap. fold pending.
  assert (Hlen : 0 <= pending) by (unfold pending; lia).
  unfold LIST_BUF_SIZE in *.
  assert (Hu : forall z, 0 <= z < 2 ^ 32 -> u32 z = z).
  { intros z Hz. unfold u32. apply Z.mod_small. exact Hz. }
  rewrite (Hu pending) by lia.
  rewrite (Hu (pending + sz + 8)) by lia.
  rewrite (Hu (execListBuf d + 256 * 1024)) by lia.
  rewrite (Hu (execListPos d + (pending + sz + 8))) by lia.
  destruct (execListPos d + (pending + sz + 8) >=? execListBuf d + 256 * 1024) eqn:Hwrap;
    cbn [fst execListBuf execListPos with_lastBase with_last with_execListPos with_execList].
  - split; [reflexivity|].
    rewrite (Hu (execListBuf d + pending)) by lia.
    rewrite (Hu (execListBuf d + pending + sz)) by lia. lia.
  - split; [reflexivity|].
    rewrite (Hu (execListPos d + pending)) by lia.
    rewrite (Hu (execListPos d + pending + sz)) by lia. lia.
Qed.

(** The events of list finalization when it is not skipped. *)
Lemma SubmitListEnd_trace d w :
  execListPos d <> 0 ->
  observe_g_cancelled E (trace w) = false ->
  exists evs,
    trace (SubmitListEnd E K d w).2
    = evs ++ [EvWrite_U32 (u32 (Z.shiftl (GE_CMD_END K) 24)) (u32 (execListPos d + 4));
              EvWrite_U32 (u32 (Z.shiftl (GE_CMD_FINISH K) 24)) (execListPos d)]
          ++ trace w
    /\ existsb is_ListSync evs = true.
Proof.
  intros Hpos Hc. unfold SubmitListEnd.
  replace (execListPos d =? 0) with false by lia. rewrite Hc. cbn [orb].
  unfold ExecuteOnMain, SyncStall, ExecuteOnMain, log, Write_U32.
  cbn [execListBuf with_last with_execListPos with_execList trace heap mem downcount
       execListID execListPos].
  destruct (execListBuf d =? 0).
  { eexists [_]. split; reflexivity. }
  cbn [trace].
  destruct (gpu_GetListTicks E _ _ =? -1); [eexists [_; _]; split; reflexivity|].
  destruct (_ >? _); eexists [_; _]; split; reflexivity.
Qed.

(** ** The run loop and an unsupported command *)

Lemma dispatch_supported (pushbuf_ : list Z) d w cmd isLast :
  supported (cmd_type cmd) = true -> is_Some (dispatch E K pushbuf_ d w cmd isLast).
Proof.
  unfold dispatch. destruct (cmd_type cmd); simpl; intros H; try discriminate; eauto.
Qed.

Lemma dispatch_unsupported (pushbuf_ : list Z) d w cmd isLast :
  supported (cmd_type cmd) = false -> dispatch E K pushbuf_ d w cmd isLast = None.
Proof.
  unfold dispatch. destruct (cmd_type cmd); simpl; intros H; try discriminate; reflexivity.
Qed.

(** Without cancellation a stretch of supported commands is run to its end,
    and the loop goes on behind it. *)
Lemma Run_loop_prefix (pushbuf_ : list Z) (size : nat) (pre : list Command) :
  (forall tr, observe_g_cancelled E tr = false) ->
  Forall (fun c => supported (cmd_type c) = true) pre ->
  forall i d w,
  exists d' w',
    Run_loop E K pushbuf_ size i pre d w = (LoopEnd, d', w')
    /\ forall rest,
         Run_loop E K pushbuf_ size i (pre ++ rest) d w
         = Run_loop E K pushbuf_ size (i + length pre) rest d' w'.
Proof.
  intros Hnc Hpre. induction Hpre as [|c pre Hc Hpre IH]; intros i d w.
  - exists d, w. split; [reflexivity|]. intros rest. simpl. rewrite Nat.add_0_r. reflexivity.
  - cbn [Run_loop app]. rewrite Hnc.
    destruct (dispatch_supported pushbuf_ d w c (S i =? size)%nat Hc) as [[d1 w1] Hd].
    rewrite Hd.
    destruct (IH (S i) d1 w1) as (d' & w' & H1 & H2).
    exists d', w'. split; [exact H1|]. intros rest. rewrite H2.
    cbn [length]. rewrite Nat.add_succ_r. reflexivity.
Qed.

(** C1 (as amended).  Without cancellation, [Run] on a command sequence
    whose first unsupported command is [bad] runs the handlers of the
    commands before it, logs the error and returns [Error] at once: the
    executor and the world are those left by the handlers of the preceding
    commands, with the error message as the one event added.  No later
    command is dispatched and [SubmitListEnd] is not reached. *)
Theorem Run_stops_at_unsupported (pushbuf_ : list Z) (pre post : list Command)
    (bad : Command) d w :
  (forall tr, observe_g_cancelled E tr = false) ->
  resumeIndex_ d < 0 ->
  Forall (fun c => supported (cmd_type c) = true) pre ->
  supported (cmd_type bad) = false ->
  let commands_ := pre ++ bad :: post in
  let w0 := if gpu E then log (EvSetAddrTranslation 0x400) w else w in
  exists d' w',
    Run_loop E K pushbuf_ (length commands_) 0 pre d w0 = (LoopEnd, d', w')
    /\ Run E K pushbuf_ commands_ d w
       = (Error, d', log (EvErrorLog "Unsupported GE dump command") w').
Proof.
  intros Hnc Hres Hpre Hbad commands_ w0.
  destruct (Run_loop_prefix pushbuf_ (length commands_) pre Hnc Hpre 0%nat d w0)
    as (d' & w' & H1 & H2).
  exists d', w'. split; [exact H1|].
  unfold Run. replace (resumeIndex_ d >=? 0) with false by lia.
  fold w0. change (Z.to_nat 0) with 0%nat. rewrite drop_0.
  unfold commands_ at 2. rewrite H2. cbn [Run_loop].
  rewrite Hnc, (dispatch_unsupported _ _ _ _ _ Hbad). reflexivity.
Qed.

(** ** The mailbox: cancellation ends the wait *)

(** C9.  For every operation: once it is posted the done flag is false and
    the replay thread waits for [opFinishWait_pred], which is the
    disjunction of the done flag and the cancellation flag.  The wait stays
    blocked exactly as long as cancellation is not set, and after the
    cancelling block of [Replay_Unload] it is over, with the done flag still
    false; [Replay_Unload] itself then always gets past its join. *)
Theorem cancel_ends_finish_wait (op : Operation) (p : Process) :
  let waiting := ExecuteOnMain_post op p in
  g_opDone waiting = false
  /\ opFinishWait_pred waiting = (g_opDone waiting || g_cancelled waiting)
  /\ ExecuteOnMain_wait waiting = (if g_cancelled p then Some 0 else None)
  /\ g_opDone (Replay_Unload_cancel waiting) = false
  /\ ExecuteOnMain_wait (Replay_Unload_cancel waiting) = Some 0
  /\ is_Some (Replay_Unload waiting).
Proof.
  intros waiting. subst waiting.
  unfold ExecuteOnMain_wait, opFinishWait_pred, Replay_Unload_cancel, ExecuteOnMain_post.
  cbn [g_opDone g_cancelled g_retVal with_mailbox with_g_cancelled orb].
  split; [reflexivity|]. split; [reflexivity|].
  split; [destruct (g_cancelled p); reflexivity|].
  split; [reflexivity|]. split; [reflexivity|].
  unfold Replay_Unload, joinable, join, Replay_Unload_cancel.
  cbn [replayThread with_mailbox with_g_cancelled g_cancelled orb].
  destruct (replayThread p); cbn; eauto.
Qed.

(** ** The loader *)

Lemma list_Z_eqb_eq (a b : list Z) : list_Z_eqb a b = true <-> a = b.
Proof.
  revert b. induction a as [|x a IH]; intros [|y b]; simpl; split;
    try discriminate; try reflexivity.
  - intros H. apply andb_true_iff in H as [H1 H2].
    apply Z.eqb_eq in H1. apply IH in H2. congruence.
  - intros [= -> ->]. rewrite Z.eqb_refl. simpl. apply IH. reflexivity.
Qed.

Lemma le32_le32_bytes (x : Z) : 0 <= x < 2 ^ 32 -> le32 (le32_bytes x) = x.
Proof.
  intros Hx. unfold le32, le32_bytes. simpl.
  change (2 ^ 8) with 256. change (2 ^ 16) with (256 * 256).
  change (2 ^ 24) with (256 * 256 * 256). change (2 ^ 32) with (256 * 256 * 256 * 256) in Hx.
  pose proof (Z.div_mod x 256 ltac:(lia)) as H0.
  pose proof (Z.div_mod (x / 256) 256 ltac:(lia)) as H1.
  pose proof (Z.div_mod (x / 256 / 256) 256 ltac:(lia)) as H2.
  rewrite <- !Z.div_div by lia.
  assert (H3 : x / 256 / 256 / 256 < 256).
  { apply Z.div_lt_upper_bound; [lia|]. apply Z.div_lt_upper_bound; [lia|].
    apply Z.div_lt_upper_bound; lia. }
  assert (H4 : 0 <= x / 256 / 256 / 256).
  { apply Z.div_pos; [|lia]. apply Z.div_pos; [|lia]. apply Z.div_pos; lia. }
  rewrite (Z.mod_small (x / 256 / 256 / 256) 256) by lia.
  pose proof (Z.div_mod (x / 256 / 256) 256 ltac:(lia)). lia.
Qed.

Lemma length_le32_bytes (x : Z) : length (le32_bytes x) = 4%nat.
Proof. reflexivity. Qed.

(** A read of bytes that are there. *)
Lemma ReadFile_app (f : File) (n : Z) (a rest : list Z) :
  drop (file_pos f) (file_bytes f) = a ++ rest ->
  Z.to_nat n = length a ->
  ReadFile f n = (a, mkFile (file_bytes f) (file_pos f + length a))
  /\ drop (file_pos f + length a) (file_bytes f) = rest.
Proof.
  intros Hd Hn. unfold ReadFile. rewrite Hd, Hn, take_app_length. split; [reflexivity|].
  rewrite <- drop_drop, Hd, drop_app_length. reflexivity.
Qed.

Lemma ReadCompressed_layout (fp : File) (dest : list Z) (sz v : Z) (stream rest : list Z) :
  drop (file_pos fp) (file_bytes fp)
  = le32_bytes (Z.of_nat (length stream)) ++ stream ++ rest ->
  Z.of_nat (length stream) < 2 ^ 32 ->
  exists dest' fp',
    ReadCompressed C fp dest sz v = (decompressed_size C v stream sz =? sz, dest', fp')
    /\ drop (file_pos fp') (file_bytes fp') = rest.
Proof.
  intros Hd Hlen. unfold ReadCompressed.
  destruct (ReadFile_app fp 4 _ _ Hd eq_refl) as [-> Hd1].
  rewrite length_le32_bytes. cbn [Nat.eqb negb].
  rewrite le32_le32_bytes by lia.
  set (fp1 := mkFile (file_bytes fp) (file_pos fp + 4)).
  destruct (ReadFile_app fp1 (Z.of_nat (length stream)) stream rest Hd1) as [-> Hd2].
  { apply Nat2Z.id. }
  rewrite Z.eqb_refl. cbn [negb]. unfold decompressed_size.
  destruct (if v <? 5 then snappy_uncompress C stream sz else ZSTD_decompress C stream sz)
    as [written real_size].
  eexists. eexists. split; [reflexivity|]. exact Hd2.
Qed.

Lemma drop_length_take (l : list Z) (n : nat) : drop (length (take n l)) l = drop n l.
Proof.
  rewrite length_take. destruct (Nat.le_gt_cases n (length l)) as [H|H].
  - rewrite Nat.min_l by exact H. reflexivity.
  - rewrite Nat.min_r by lia. rewrite !drop_ge by lia. reflexivity.
Qed.

Lemma thread_starts_mlog (e : MainEvent) (p : Process) :
  (forall v, e <> MThreadStart v) ->
  thread_starts (main_trace (mlog e p)) = thread_starts (main_trace p).
Proof. intros H. destruct e; try reflexivity. exfalso. eapply H. reflexivity. Qed.

(** What a load that fails leaves behind: no thread, no thread start. *)
Lemma LoadReplay_rejects (p : Process) (filename : string) :
  let content := file_content M filename in
  let header :=
    Header_of_bytes F (overlay (take (sizeof_Header F) content)
                               (replicate (sizeof_Header F) 0)) in
  let v := version header in
  let body := drop (if v <=? 3 then 12%nat else sizeof_Header F) content in
  magic header <> take (sizeof_magic F) (HEADER_MAGIC F)
  \/ v > VERSION F \/ v < MIN_VERSION F
  \/ (exists sz bufsz cstream pstream,
        capture_streams body sz bufsz cstream pstream
        /\ 0 <= sz < 2 ^ 32 /\ 0 <= bufsz < 2 ^ 32
        /\ Z.of_nat (length cstream) < 2 ^ 32 /\ Z.of_nat (length pstream) < 2 ^ 32
        /\ (decompressed_size C v cstream (sizeof_Command F * sz) <> sizeof_Command F * sz
            \/ decompressed_size C v pstream bufsz <> bufsz)) ->
  exists p',
    LoadReplay F C M p filename = (0, p')
    /\ replayThread p' = replayThread p
    /\ thread_starts (main_trace p') = thread_starts (main_trace p).
Proof.
  intros content header v body Hbad.
  unfold LoadReplay, ReadFile at 1. cbn [file_pos file_bytes].
  rewrite Nat2Z.id. change (drop 0 (file_content M filename)) with content.
  fold header. fold v.
  destruct (negb (list_Z_eqb (magic header) (take (sizeof_magic F) (HEADER_MAGIC F)))
            || (v >? VERSION F) || (v <? MIN_VERSION F)) eqn:Hhdr.
  { eexists. split; [reflexivity|]. split; reflexivity. }
  apply orb_false_iff in Hhdr as [Hhdr Hmin].
  apply orb_false_iff in Hhdr as [Hmagic Hmax].
  apply negb_false_iff, list_Z_eqb_eq in Hmagic.
  destruct Hbad as [Hbad | [Hbad | [Hbad | Hbad]]]; [congruence | lia | lia |].
  destruct Hbad as (sz & bufsz & cstream & pstream & [rest Hlayout] & Hsz & Hbufsz
                    & Hclen & Hplen & Hmismatch).
  set (p0 := with_g_cancelled false p).
  fold content.
  set (fp0 := mkFile content (0 + length (take (sizeof_Header F) content))).
  assert (Hcur : exists fp1 gid,
            (if v <=? 3 then (SeekFile fp0 12, replicate (sizeof_gameID F) 0)
             else (fp0, gameID header)) = (fp1, gid)
            /\ file_bytes fp1 = content /\ drop (file_pos fp1) content = body).
  { unfold body. destruct (v <=? 3).
    - eexists. eexists. split; [reflexivity|]. split; reflexivity.
    - eexists. eexists. split; [reflexivity|]. split; [reflexivity|].
      unfold fp0. cbn [file_pos]. apply drop_length_take. }
  destruct Hcur as (fp1 & gid & -> & Hbytes & Hdrop).
  set (p1 := if negb (strnlen gid (sizeof_gameID F) =? 0)%nat
             then mlog (MSetWindowTitle true)
                    (mlog (MSetDiscID (take (strnlen gid (sizeof_gameID F)) gid)) p0)
             else mlog (MSetWindowTitle false) p0).
  assert (Hp1 : replayThread p1 = replayThread p
                /\ thread_starts (main_trace p1) = thread_starts (main_trace p)).
  { unfold p1. destruct (negb _); split; reflexivity. }
  destruct Hp1 as [Hp1t Hp1s].
  rewrite Hlayout in Hdrop. rewrite <- Hbytes in Hdrop.
  destruct (ReadFile_app fp1 4 _ _ Hdrop eq_refl) as [-> Hd1].
  set (fp2 := mkFile (file_bytes fp1) (file_pos fp1 + length (le32_bytes sz))) in *.
  destruct (ReadFile_app fp2 4 _ _ Hd1 eq_refl) as [-> Hd2].
  set (fp3 := mkFile (file_bytes fp2) (file_pos fp2 + length (le32_bytes bufsz))) in *.
  change (overlay (le32_bytes sz) [0; 0; 0; 0]) with (le32_bytes sz).
  change (overlay (le32_bytes bufsz) [0; 0; 0; 0]) with (le32_bytes bufsz).
  rewrite !le32_le32_bytes by lia.
  destruct (ReadCompressed_layout fp3
              (resize_bytes (sizeof_Command F * sz) (lastExecCommands p1))
              (sizeof_Command F * sz) v cstream _ Hd2 Hclen) as (cmds & fp4 & -> & Hd3).
  destruct (decompressed_size C v cstream (sizeof_Command F * sz) =? sizeof_Command F * sz)
    eqn:Hc1; cbn [negb orb].
  - destruct (ReadCompressed_layout fp4 (resize_bytes bufsz (lastExecPushbuf p1))
                bufsz v pstream rest Hd3 Hplen) as (pbuf & fp5 & -> & _).
    destruct (decompressed_size C v pstream bufsz =? bufsz) eqn:Hc2; cbn [negb].
    + exfalso. destruct Hmismatch; lia.
    + eexists. split; [reflexivity|]. split; [exact Hp1t | exact Hp1s].
  - eexists. split; [reflexivity|]. split; [exact Hp1t | exact Hp1s].
Qed.

(** The status [snappy_uncompress] returns is not looked at: for a legacy
    stream the only thing that counts is the length its last argument holds
    after the call.  A call that leaves it as it was makes the read succeed,
    whatever was written. *)
Lemma ReadCompressed_legacy_length_only (fp : File) (dest : list Z) (sz v : Z)
    (stream rest written : list Z) :
  drop (file_pos fp) (file_bytes fp)
  = le32_bytes (Z.of_nat (length stream)) ++ stream ++ rest ->
  Z.of_nat (length stream) < 2 ^ 32 ->
  v < 5 ->
  snappy_uncompress C stream sz = (written, sz) ->
  (ReadCompressed C fp dest sz v).1.1 = true.
Proof.
  intros Hd Hlen Hv Hsnappy.
  destruct (ReadCompressed_layout fp dest sz v stream rest Hd Hlen) as (dest' & fp' & -> & _).
  unfold decompressed_size. replace (v <? 5) with true by lia.
  rewrite Hsnappy. cbn [fst snd]. apply Z.eqb_refl.
Qed.

(** What the loader does reject.  A capture file whose header has the wrong
    magic or a version outside [MIN_VERSION, VERSION], or for whose command
    stream or pushbuffer stream the decompressor reports a length other
    than the declared one, does not load: [LoadReplay] returns 0 without
    touching the thread.  The entry point, when it has to load the file and
    no replay is in progress, returns [Error] right after, with no thread
    started.  The length reported is the one [ReadCompressed] compares: for
    a legacy stream it is the declared one again whenever the decompressor
    gives up ([ReadCompressed_legacy_length_only]), so such a stream is not
    among the rejected ones. *)
Theorem failed_load_starts_no_thread (w0 : World (A:=A)) (p : Process) (filename : string) :
  let content := file_content M filename in
  let header :=
    Header_of_bytes F (overlay (take (sizeof_Header F) content)
                               (replicate (sizeof_Header F) 0)) in
  let v := version header in
  let body := drop (if v <=? 3 then 12%nat else sizeof_Header F) content in
  magic header <> take (sizeof_magic F) (HEADER_MAGIC F)
  \/ v > VERSION F \/ v < MIN_VERSION F
  \/ (exists sz bufsz cstream pstream,
        capture_streams body sz bufsz cstream pstream
        /\ 0 <= sz < 2 ^ 32 /\ 0 <= bufsz < 2 ^ 32
        /\ Z.of_nat (length cstream) < 2 ^ 32 /\ Z.of_nat (length pstream) < 2 ^ 32
        /\ (decompressed_size C v cstream (sizeof_Command F * sz) <> sizeof_Command F * sz
            \/ decompressed_size C v pstream bufsz <> bufsz)) ->
  ((LoadReplay F C M p filename).1 = 0
   /\ replayThread (LoadReplay F C M p filename).2 = replayThread p
   /\ thread_starts (main_trace (LoadReplay F C M p filename).2)
      = thread_starts (main_trace p))
  /\ (lastExecFilename p <> filename ->
      replayThread p = None ->
      exists p',
        RunMountedReplay E K F C M w0 p filename = Some (Error, p')
        /\ replayThread p' = None
        /\ thread_starts (main_trace p') = thread_starts (main_trace p)).
Proof.
  intros content header v body Hbad.
  destruct (LoadReplay_rejects p filename Hbad) as (p1 & Hload & Hthread & Hstarts).
  split.
  { rewrite Hload. simpl. auto. }
  intros Hname Hidle. unfold RunMountedReplay.
  apply String.eqb_neq in Hname. rewrite Hname. cbn [negb].
  unfold joinable. rewrite Hidle. cbn [mbind option_bind].
  rewrite Hload. cbn [mbind option_bind]. rewrite Z.eqb_refl.
  eexists. split; [reflexivity|]. split.
  - cbn [replayThread mlog]. rewrite Hthread. exact Hidle.
  - rewrite thread_starts_mlog by discriminate. exact Hstarts.
Qed.

(** ** What the executor posts *)

Lemma extends_refl w : extends w w.
Proof. exists []. split; [reflexivity | constructor]. Qed.

Lemma extends_trans w1 w2 w3 : extends w1 w2 -> extends w2 w3 -> extends w1 w3.
Proof.
  intros (e1 & H1 & F1) (e2 & H2 & F2). exists (e2 ++ e1). split.
  - rewrite H2, H1, app_assoc. reflexivity.
  - apply Forall_app. split; assumption.
Qed.

Lemma extends_same w w' : trace w' = trace w -> extends w w'.
Proof. intros H. exists []. split; [exact H | constructor]. Qed.

Lemma extends_one w w' e : trace w' = e :: trace w -> run_event e -> extends w w'.
Proof. intros H He. exists [e]. split; [exact H | constructor; [exact He | constructor]]. Qed.

Lemma extends_log e w : run_event e -> extends w (log e w).
Proof. intros He. apply (extends_one _ _ e); [reflexivity | exact He]. Qed.

Lemma extends_Alloc size fromTop tag w : extends w (Alloc size fromTop tag w).2.
Proof.
  unfold Alloc. destruct (userMemory_Alloc A (heap w) size fromTop tag) as [r h].
  eapply extends_one; [reflexivity | exact I].
Qed.

Lemma extends_Free addr w : extends w (Free addr w).
Proof. eapply extends_one; [reflexivity | exact I]. Qed.

Lemma extends_MemcpyUnchecked dst data w : extends w (MemcpyUnchecked dst data w).
Proof. eapply extends_one; [reflexivity | exact I]. Qed.

Lemma extends_Write_U32 val addr w : extends w (Write_U32 val addr w).
Proof. eapply extends_one; [reflexivity | exact I]. Qed.

Lemma extends_ExecuteOnMain op w : breaks op = true -> extends w (ExecuteOnMain E op w).2.
Proof. intros H. eapply extends_one; [reflexivity | exact H]. Qed.

Lemma extends_SyncStall d w : extends w (SyncStall E d w).
Proof.
  unfold SyncStall. destruct (execListBuf d =? 0); [apply extends_refl|].
  pose proof (extends_ExecuteOnMain (mkOp UpdateStallAddr (execListID d) (execListPos d)) w
                eq_refl) as H.
  destruct (ExecuteOnMain E _ w) as [r w1]. cbn [snd] in H.
  destruct (_ =? -1); [exact H|]. destruct (_ >? _); [|exact H].
  eapply extends_trans; [exact H|]. apply extends_same. reflexivity.
Qed.

Create HintDb ext.
#[local] Hint Resolve extends_refl extends_log extends_Free extends_MemcpyUnchecked
  extends_Write_U32 extends_SyncStall : ext.
#[local] Hint Extern 1 (run_event _) => exact I : ext.

(** The pattern of all the proofs below: name the world a call returns and
    record that it extends the one it was given. *)
Ltac ext_call H :=
  match goal with
  | |- context [Alloc ?s ?f ?t ?w] =>
      pose proof (extends_Alloc s f t w) as H;
      destruct (Alloc s f t w) as [? ?]; cbn [fst snd] in H
  end.

Lemma extends_SlabInfo_Setup (pushbuf_ : list Z) gen s w pos :
  extends w (SlabInfo_Setup pushbuf_ gen s w pos).2.
Proof.
  unfold SlabInfo_Setup, SlabInfo_Alloc.
  destruct (SlabInfo.psp_pointer_ s =? 0).
  - ext_call H. destruct (_ =? 0); cbn [negb fst snd]; [exact H|].
    eapply extends_trans; [exact H | auto with ext].
  - cbn [negb fst snd]. auto with ext.
Qed.

Lemma extends_ExtraInfo_Free e w : extends w (ExtraInfo_Free e w).2.
Proof. unfold ExtraInfo_Free. destruct (_ =? 0); cbn [snd]; auto with ext. Qed.

Lemma extends_ExtraInfo_Alloc (pushbuf_ : list Z) e w bufpos sz :
  extends w (ExtraInfo_Alloc pushbuf_ e w bufpos sz).2.
Proof.
  unfold ExtraInfo_Alloc.
  pose proof (extends_ExtraInfo_Free e w) as H1.
  destruct (ExtraInfo_Free e w) as [e1 w1]. cbn [snd] in H1.
  ext_call H2. destruct (_ =? 0); cbn [snd].
  - eapply extends_trans; eassumption.
  - eapply extends_trans; [exact H1|]. eapply extends_trans; [exact H2 | auto with ext].
Qed.

Lemma extends_free_extras idx : forall l w, extends w (free_extras l idx w).2.
Proof.
  induction idx as [|i idx IH]; intros l w; cbn [free_extras snd]; [apply extends_refl|].
  pose proof (extends_ExtraInfo_Free (extra_at l i) w) as H1.
  destruct (ExtraInfo_Free (extra_at l i) w) as [e1 w1]. cbn [snd] in H1.
  eapply extends_trans; [exact H1 | apply IH].
Qed.

Lemma extends_Map (pushbuf_ : list Z) m w bufpos sz (flush : World -> World) :
  (forall w1, extends w1 (flush w1)) ->
  extends w (Map pushbuf_ m w bufpos sz flush).2.
Proof.
  intros Hflush. unfold Map. destruct (_ =? _).
  - destruct (SlabInfo.Matches _ _).
    + destruct (slab_Ptr m (lastSlab_ m) bufpos). apply extends_refl.
    + unfold MapSlab. destruct (MapSlab_scan _ _ _ _) as [i | best].
      * destruct (slab_Ptr m i bufpos). apply extends_refl.
      * pose proof (extends_SlabInfo_Setup pushbuf_ (slabGeneration_ m) (slab_at m best)
                      (flush w) (u32 (u32 bufpos / SLAB_SIZE * SLAB_SIZE))) as H.
        destruct (SlabInfo_Setup _ _ _ _ _) as [[[ok s] gen] w2]. cbn [snd] in H.
        assert (Hw : extends w w2) by (eapply extends_trans; [apply Hflush | exact H]).
        destruct (negb ok); [exact Hw|].
        destruct (slab_Ptr _ _ _). exact Hw.
  - unfold MapExtra. destruct (MapExtra_scan _ _ _ _); [apply extends_refl|].
    pose proof (extends_ExtraInfo_Alloc pushbuf_ (extra_at (extra_ m) (extraOffset_ m))
                  (flush w) bufpos sz) as H.
    destruct (ExtraInfo_Alloc _ _ _ _ _) as [[ok e] w2]. cbn [snd] in H.
    assert (Hw : extends w w2) by (eapply extends_trans; [apply Hflush | exact H]).
    destruct ok; [exact Hw|].
    pose proof (extends_free_extras (seq 0 EXTRA_COUNT)
                  (<[extraOffset_ m := e]> (extra_ m)) w2) as H3.
    destruct (free_extras _ _ _) as [l2 w3]. cbn [snd] in H3.
    pose proof (extends_ExtraInfo_Alloc pushbuf_ (extra_at l2 (extraOffset_ m)) w3 bufpos sz)
      as H4.
    destruct (ExtraInfo_Alloc _ _ _ _ _) as [[ok2 e2] w4]. cbn [snd] in H4.
    assert (Hw4 : extends w w4).
    { eapply extends_trans; [exact Hw|]. eapply extends_trans; eassumption. }
    destruct ok2; exact Hw4.
Qed.

Lemma extends_map_payload (pushbuf_ : list Z) d w ptr sz :
  extends w (map_payload E pushbuf_ d w ptr sz).2.
Proof.
  unfold map_payload.
  pose proof (extends_Map pushbuf_ (mapping_ d) w ptr sz (SyncStall E d)
                (extends_SyncStall d)) as H.
  destruct (Map _ _ _ _ _ _) as [[psp m] w1]. exact H.
Qed.

Lemma after_log e w w' : run_event e -> extends w w' -> extends w (log e w').
Proof. intros He H. eapply extends_trans; [exact H | apply extends_log; exact He]. Qed.

Lemma after_Write_U32 val addr w w' : extends w w' -> extends w (Write_U32 val addr w').
Proof. intros H. eapply extends_trans; [exact H | apply extends_Write_U32]. Qed.

Lemma after_MemcpyUnchecked dst data w w' :
  extends w w' -> extends w (MemcpyUnchecked dst data w').
Proof. intros H. eapply extends_trans; [exact H | apply extends_MemcpyUnchecked]. Qed.

Lemma after_SyncStall d w w' : extends w w' -> extends w (SyncStall E d w').
Proof. intros H. eapply extends_trans; [exact H | apply extends_SyncStall]. Qed.

Lemma after_Free addr w w' : extends w w' -> extends w (Free addr w').
Proof. intros H. eapply extends_trans; [exact H | apply extends_Free]. Qed.

#[local] Hint Resolve after_log after_Write_U32 after_MemcpyUnchecked after_SyncStall
  after_Free : ext.

(** Name the result of the next [ExecuteOnMain] of an operation that is
    served with [Break]. *)
Ltac ext_post H :=
  match goal with
  | |- context [ExecuteOnMain E ?op ?w'] =>
      assert (H : forall w0, extends w0 w' -> extends w0 (ExecuteOnMain E op w').2)
        by (intros ? ?; eapply extends_trans;
            [eassumption | apply extends_ExecuteOnMain; reflexivity]);
      destruct (ExecuteOnMain E op w') as [? ?]; cbn [snd] in H
  end.

Lemma extends_Registers (pushbuf_ : list Z) d w ptr sz :
  extends w (Registers E K pushbuf_ d w ptr sz).2.
Proof.
  unfold Registers.
  assert (H1 : extends w (Registers_ensure_list E K d w).2).
  { unfold Registers_ensure_list. destruct (execListBuf d =? 0); [|apply extends_refl].
    ext_call H. destruct (_ =? 0); cbn [snd]; [auto with ext|].
    ext_post H2. cbn [snd]. auto 10 with ext. }
  destruct (Registers_ensure_list E K d w) as [[ok d1] w1]. cbn [snd] in H1.
  destruct (negb ok); [exact H1|].
  assert (H2 : extends w (Registers_wrap E K d1 w1 sz).2).
  { unfold Registers_wrap. destruct (_ >=? _); cbn [snd]; auto 10 with ext. }
  destruct (Registers_wrap E K d1 w1 sz) as [d2 w2]. cbn [snd] in H2.
  destruct (fold_left _ _ _) as [[m bufws] base]. cbn [snd].
  match goal with |- extends _ (mkWorld (heap ?x) _ _ _) =>
    apply (extends_trans _ x); [auto with ext | apply extends_same; reflexivity] end.
Qed.

Lemma extends_SubmitListEnd d w : extends w (SubmitListEnd E K d w).2.
Proof.
  unfold SubmitListEnd. destruct (_ || _); [apply extends_refl|].
  ext_post H. cbn [snd]. auto 10 with ext.
Qed.

Ltac ext_payload H :=
  match goal with
  | |- context [map_payload E ?pb ?d ?w ?ptr ?sz] =>
      pose proof (extends_map_payload pb d w ptr sz) as H;
      destruct (map_payload E pb d w ptr sz) as [[? ?] ?]; cbn [snd] in H
  end.

Lemma extends_dispatch (pushbuf_ : list Z) d w cmd isLast d1 w1 :
  dispatch E K pushbuf_ d w cmd isLast = Some (d1, w1) -> extends w w1.
Proof.
  unfold dispatch.
  assert (Htex : forall level,
            extends w (Texture E K pushbuf_ level d w (cmd_ptr cmd) (cmd_sz cmd)).2).
  { intros level. unfold Texture. ext_payload H. destruct (_ =? 0); cbn [snd];
      [auto with ext|]. destruct (negb _); exact H. }
  assert (Hfb : forall level,
            extends w (Framebuf E K pushbuf_ level d w (cmd_ptr cmd) (cmd_sz cmd)).2).
  { intros level. unfold Framebuf. destruct (_ && _); cbn [snd]; auto with ext. }
  intros Hd. change w1 with (d1, w1).2. revert Hd.
  destruct (cmd_type cmd); cbn [texture_level framebuf_level];
    intros Hd; try discriminate Hd; injection Hd as <-;
    try first [apply Htex | apply Hfb].
  - (* Init *) subst w1. cbn [snd]. apply after_log; [reflexivity | auto with ext].
  - apply extends_Registers.
  - (* Vertices *) unfold Vertices. ext_payload H. destruct (_ =? 0); cbn [snd];
      auto with ext.
  - (* Indices *) unfold Indices. ext_payload H. destruct (_ =? 0); cbn [snd];
      auto with ext.
  - (* ClutAddr *) subst w1. apply extends_refl.
  - (* Clut *) unfold Clut. destruct (negb _); cbn [snd].
    + destruct (_ && _); auto with ext.
    + ext_payload H. destruct (_ =? 0); cbn [snd]; auto with ext.
  - (* TransferSrc *) unfold TransferSrc. ext_payload H. destruct (_ =? 0); cbn [snd];
      auto with ext.
  - (* Memset *) unfold Memset. destruct (Memory_IsVRAMAddress E _); cbn [snd];
      auto with ext.
  - (* MemcpyDest *) subst w1. apply extends_refl.
  - (* Memcpy *) unfold Memcpy. destruct (Memory_IsVRAMAddress E _); cbn [snd];
      auto 10 with ext.
  - (* EdramTrans *) unfold EdramTrans. destruct (gpu E); cbn [snd]; auto with ext.
  - (* Display *) unfold Display. destruct isLast; cbn [snd]; auto 10 with ext.
Qed.

Lemma extends_Run_loop (pushbuf_ : list Z) (size : nat) (cmds : list Command) :
  forall i d w, extends w (Run_loop E K pushbuf_ size i cmds d w).2.
Proof.
  induction cmds as [|c cmds IH]; intros i d w; cbn [Run_loop snd]; [apply extends_refl|].
  destruct (observe_g_cancelled E (trace w)); [apply extends_refl|].
  destruct (dispatch E K pushbuf_ d w c (S i =? size)%nat) as [[d1 w1]|] eqn:Hd.
  - eapply extends_trans; [eapply extends_dispatch; exact Hd | apply IH].
  - cbn [snd]. auto with ext.
Qed.

Lemma extends_Run (pushbuf_ : list Z) (commands_ : list Command) d w :
  extends w (Run E K pushbuf_ commands_ d w).2.
Proof.
  unfold Run.
  set (w0 := if gpu E then log (EvSetAddrTranslation 1024) w else w).
  assert (H0 : extends w w0) by (unfold w0; destruct (gpu E); auto with ext).
  set (w1 := if resumeIndex_ d >=? 0 then SyncStall E d w0 else w0).
  assert (H1 : extends w w1) by (unfold w1; destruct (_ >=? 0); auto with ext).
  match goal with |- context [Run_loop E K ?pb ?n ?i ?cs ?d' ?w'] =>
    pose proof (extends_Run_loop pb n cs i d' w') as H2;
    destruct (Run_loop E K pb n i cs d' w') as [[ex d2] w2] end.
  cbn [snd] in H2. assert (H3 : extends w w2) by (eapply extends_trans; eassumption).
  destruct ex; [|exact H3].
  pose proof (extends_SubmitListEnd d2 w2) as H4.
  destruct (SubmitListEnd E K d2 w2) as [d3 w3]. cbn [snd] in *.
  eapply extends_trans; eassumption.
Qed.

(** ** The thread posts [Done] whatever the executor returns *)

Lemma posted_ops_app (evs tr : list Event) :
  posted_ops (evs ++ tr) = posted_ops tr ++ posted_ops evs.
Proof. unfold posted_ops. rewrite rev_app_distr, omap_app. reflexivity. Qed.

Lemma posted_ops_cons (e : Event) (tr : list Event) :
  posted_ops (e :: tr) = posted_ops tr ++ posted_ops [e].
Proof. apply (posted_ops_app [e] tr). Qed.

Lemma posted_ops_frees (evs : list Event) : Forall is_free evs -> posted_ops evs = [].
Proof.
  induction 1 as [|e evs He _ IH]; [reflexivity|].
  rewrite posted_ops_cons, IH. destruct e; try contradiction. reflexivity.
Qed.

Lemma posted_ops_run (evs : list Event) :
  Forall run_event evs -> Forall (fun op => breaks op = true) (posted_ops evs).
Proof.
  induction 1 as [|e evs He _ IH]; [constructor|].
  rewrite posted_ops_cons. apply Forall_app. split; [exact IH|].
  destruct e; try constructor. exact He. constructor.
Qed.

Lemma frees_only_refl w : frees_only w w.
Proof. exists []. split; [reflexivity | constructor]. Qed.

Lemma frees_only_trans w1 w2 w3 : frees_only w1 w2 -> frees_only w2 w3 -> frees_only w1 w3.
Proof.
  intros (e1 & H1 & F1) (e2 & H2 & F2). exists (e2 ++ e1). split.
  - rewrite H2, H1, app_assoc. reflexivity.
  - apply Forall_app. split; assumption.
Qed.

Lemma frees_only_Free addr w : frees_only w (Free addr w).
Proof. exists [EvFree addr]. split; [reflexivity | repeat constructor]. Qed.

Lemma frees_only_free_slabs idx : forall l w, frees_only w (free_slabs l idx w).2.
Proof.
  induction idx as [|i idx IH]; intros l w; cbn [free_slabs snd]; [apply frees_only_refl|].
  unfold SlabInfo_Free. destruct (_ =? 0).
  - apply IH.
  - eapply frees_only_trans; [apply frees_only_Free | apply IH].
Qed.

Lemma frees_only_free_extras idx : forall l w, frees_only w (free_extras l idx w).2.
Proof.
  induction idx as [|i idx IH]; intros l w; cbn [free_extras snd]; [apply frees_only_refl|].
  unfold ExtraInfo_Free. destruct (_ =? 0).
  - apply IH.
  - eapply frees_only_trans; [apply frees_only_Free | apply IH].
Qed.

Lemma frees_only_destroy d w : frees_only w (DumpExecute_destroy d w).2.
Proof.
  unfold DumpExecute_destroy, Reset.
  set (w1 := snd (if negb (execListBuf (with_execMemcpyDest 0 d) =? 0)
                  then (with_execList 0 (execListPos (with_execMemcpyDest 0 d))
                          (execListID (with_execMemcpyDest 0 d)) (with_execMemcpyDest 0 d),
                        Free (execListBuf (with_execMemcpyDest 0 d)) w)
                  else (with_execMemcpyDest 0 d, w))).
  assert (H1 : frees_only w w1).
  { unfold w1. destruct (negb _); cbn [snd];
      [apply frees_only_Free | apply frees_only_refl]. }
  destruct (if negb _ then _ else _) as [d2 w1'] eqn:Hif. cbn [snd] in w1. subst w1.
  cbn [mapping_ with_execListPos with_execList].
  pose proof (frees_only_free_slabs (seq 0 SLAB_COUNT) (slabs_ (mapping_ d2)) w1') as H2.
  destruct (free_slabs _ _ _) as [sl w2]. cbn [snd] in H2.
  pose proof (frees_only_free_extras (seq 0 EXTRA_COUNT) (extra_ (mapping_ d2)) w2) as H3.
  destruct (free_extras _ _ _) as [ex w3]. cbn [snd] in *.
  eapply frees_only_trans; [exact H1|]. eapply frees_only_trans; eassumption.
Qed.

(** The operations the thread posts are those of [Run], then [Done]. *)
Lemma replayThread_body_posts (pushbuf_ : list Z) (commands_ : list Command)
    (version : Z) w :
  posted_ops (trace (replayThread_body E K pushbuf_ commands_ version w))
  = posted_ops (trace (Run E K pushbuf_ commands_ (DumpExecute_new version) w).2)
    ++ [done_op].
Proof.
  unfold replayThread_body.
  destruct (Run E K pushbuf_ commands_ (DumpExecute_new version) w) as [[retval d1] w1].
  unfold ExecuteOnMain. cbn [snd].
  destruct (frees_only_destroy d1 (log (EvExecuteOnMain (mkOp OpDone 0 0)) w1))
    as (evs & -> & Hfrees).
  rewrite posted_ops_app, (posted_ops_frees evs Hfrees), app_nil_r.
  cbn [log trace]. rewrite posted_ops_cons. reflexivity.
Qed.

(** ** The entry point while a replay is cached *)

Lemma OpType_eqb_None_breaks op : breaks op = true -> OpType_eqb (op_type op) OpNone = false.
Proof. unfold breaks. destruct (op_type op); intros H; try discriminate; reflexivity. Qed.

(** One call with the thread running and an operation that is served with
    [Break]: the rest of the thread's operations is still to come. *)
Lemma RunMountedReplay_Break (w0 : World (A:=A)) (p : Process) (filename : string)
    (op : Operation) (rest : list Operation) :
  lastExecFilename p = filename ->
  replayThread p = Some (op :: rest) ->
  breaks op = true ->
  exists p',
    RunMountedReplay E K F C M w0 p filename = Some (Break, p')
    /\ lastExecFilename p' = filename /\ replayThread p' = Some rest.
Proof.
  intros Hname Hthread Hop. unfold RunMountedReplay.
  rewrite Hname, String.eqb_refl. cbn [negb mbind option_bind].
  set (p2 := if negb (OpType_eqb (op_type (g_opToExec p)) OpNone)
             then with_mailbox (mkOp OpNone 0 0) (g_retVal p) true p else p).
  assert (H2 : replayThread p2 = Some (op :: rest) /\ lastExecFilename p2 = filename).
  { unfold p2. destruct (negb _); split; assumption. }
  destruct H2 as [H2t H2n].
  unfold joinable. rewrite H2t. cbn [negb]. rewrite H2t.
  rewrite (OpType_eqb_None_breaks op Hop).
  unfold serve, ExecuteOnMain_post.
  cbn [g_opToExec with_replayThread with_mailbox].
  unfold breaks in Hop.
  destruct (op_type op); try discriminate Hop.
  - destruct (gpu_runList M op); eexists; (split; [reflexivity|]); split;
      solve [exact H2n | reflexivity].
  - destruct (gpu_runList M op); eexists; (split; [reflexivity|]); split;
      solve [exact H2n | reflexivity].
  - eexists. split; [reflexivity|]. split; solve [exact H2n | reflexivity].
  - eexists. split; [reflexivity|]. split; solve [exact H2n | reflexivity].
Qed.

(** The call that consumes the terminal operation. *)
Lemma RunMountedReplay_Done (w0 : World (A:=A)) (p : Process) (filename : string) :
  lastExecFilename p = filename ->
  replayThread p = Some [done_op] ->
  exists p',
    RunMountedReplay E K F C M w0 p filename = Some (Done, p')
    /\ replayThread p' = None.
Proof.
  intros Hname Hthread. unfold RunMountedReplay.
  rewrite Hname, String.eqb_refl. cbn [negb mbind option_bind].
  set (p2 := if negb (OpType_eqb (op_type (g_opToExec p)) OpNone)
             then with_mailbox (mkOp OpNone 0 0) (g_retVal p) true p else p).
  assert (H2 : replayThread p2 = Some [done_op]).
  { unfold p2. destruct (negb _); assumption. }
  unfold joinable. rewrite H2. cbn [negb]. rewrite H2.
  cbn [done_op op_type OpType_eqb].
  unfold serve, ExecuteOnMain_post, join.
  cbn [g_opToExec with_replayThread with_mailbox op_type replayThread g_opDone g_cancelled
       g_retVal andb].
  rewrite orb_true_r. cbn [mbind option_bind].
  eexists. split; reflexivity.
Qed.

Lemma drive_running (w0 : World (A:=A)) (filename : string) (ops : list Operation) :
  Forall (fun op => breaks op = true) ops ->
  forall p,
    lastExecFilename p = filename ->
    replayThread p = Some (ops ++ [done_op]) ->
    exists p',
      drive E K F C M (S (length ops)) w0 p filename = Some (Done, p')
      /\ replayThread p' = None.
Proof.
  induction 1 as [|op ops Hop _ IH]; intros p Hname Hthread.
  - destruct (RunMountedReplay_Done w0 p filename Hname Hthread) as (p' & Hr & Ht).
    exists p'. cbn [drive length]. rewrite Hr. split; [reflexivity | exact Ht].
  - destruct (RunMountedReplay_Break w0 p filename op (ops ++ [done_op]) Hname Hthread Hop)
      as (p1 & Hr & Hn & Ht).
    destruct (IH p1 Hn Ht) as (p' & Hd & Hnone).
    exists p'. split; [|exact Hnone].
    change (length (op :: ops)) with (S (length ops)).
    change (drive E K F C M (S (S (length ops))) w0 p filename)
      with (match RunMountedReplay E K F C M w0 p filename with
            | Some (Break, p') => drive E K F C M (S (length ops)) w0 p' filename
            | r => r
            end).
    rewrite Hr. exact Hd.
Qed.

(** With the capture cached and no thread, the first call starts the thread
    and then goes on as if it had been running. *)
Lemma RunMountedReplay_start (w0 : World (A:=A)) (p : Process) (filename : string) :
  lastExecFilename p = filename ->
  replayThread p = None ->
  exists p3,
    RunMountedReplay E K F C M w0 p filename = RunMountedReplay E K F C M w0 p3 filename
    /\ lastExecFilename p3 = filename
    /\ replayThread p3
       = Some (posted_ops (trace (replayThread_body E K (lastExecPushbuf p)
                                    (decode_commands F (lastExecCommands p))
                                    (lastExecVersion p)
                                    (mkWorld (heap w0) (mem w0) [] (downcount w0))))).
Proof.
  intros Hname Hthread.
  set (p2 := if negb (OpType_eqb (op_type (g_opToExec p)) OpNone)
             then with_mailbox (mkOp OpNone 0 0) (g_retVal p) true p else p).
  assert (H2 : replayThread p2 = None /\ lastExecFilename p2 = filename
               /\ lastExecPushbuf p2 = lastExecPushbuf p
               /\ lastExecCommands p2 = lastExecCommands p).
  { unfold p2. destruct (negb _); repeat split; assumption. }
  destruct H2 as (H2t & H2n & H2p & H2c).
  set (p3 := mlog (MThreadStart (lastExecVersion p))
               (with_replayThread
                  (Some (posted_ops
                           (trace (replayThread_body E K (lastExecPushbuf p2)
                                     (decode_commands F (lastExecCommands p2))
                                     (lastExecVersion p)
                                     (mkWorld (heap w0) (mem w0) [] (downcount w0))))))
                  (with_mailbox (mkOp OpNone 0 0) (g_retVal p2) (g_opDone p2) p2))).
  exists p3. split; [|split].
  - unfold RunMountedReplay at 1.
    rewrite Hname, String.eqb_refl. cbn [negb mbind option_bind]. fold p2.
    assert (H2j : joinable p2 = false) by (unfold joinable; rewrite H2t; reflexivity).
    rewrite H2j. cbn [negb]. fold p3.
    unfold RunMountedReplay.
    assert (H3n : lastExecFilename p3 = filename) by exact H2n.
    rewrite H3n, String.eqb_refl. cbn [negb mbind option_bind].
    assert (H3o : OpType_eqb (op_type (g_opToExec p3)) OpNone = true) by reflexivity.
    rewrite H3o. cbn [negb].
    assert (H3j : joinable p3 = true) by reflexivity.
    rewrite H3j. cbn [negb]. reflexivity.
  - exact H2n.
  - unfold p3. cbn [replayThread mlog with_replayThread]. rewrite H2p, H2c. reflexivity.
Qed.

Lemma RunMountedReplay_cached_no_Error (w0 : World (A:=A)) (p : Process)
    (filename : string) (p' : Process) :
  lastExecFilename p = filename ->
  RunMountedReplay E K F C M w0 p filename <> Some (Error, p').
Proof.
  intros Hname. unfold RunMountedReplay.
  rewrite Hname, String.eqb_refl. cbn [negb mbind option_bind].
  match goal with |- match replayThread ?q with _ => _ end <> _ =>
    destruct (replayThread q) as [[|op rest]|] end; try discriminate.
  destruct (OpType_eqb (op_type op) OpNone); [discriminate|].
  unfold serve.
  match goal with |- match op_type ?o with _ => _ end <> _ => destruct (op_type o) end;
    try discriminate.
  match goal with |- context [join ?q] => destruct (join q) end;
    cbn [mbind option_bind]; discriminate.
Qed.

(** C10.  With the capture cached and no replay in progress, the thread the
    entry point starts posts the operations of [Run] and then [Done],
    whatever [Run] returned: the result is not part of what the thread
    does.  The operations of [Run] are all served with [Break]; this many
    calls later the entry point consumes [Done], joins the thread and
    returns [Done].  No call on a cached capture returns [Error]. *)
Theorem executor_result_is_discarded (w0 : World (A:=A)) (p : Process) (filename : string) :
  lastExecFilename p = filename ->
  replayThread p = None ->
  let pushbuf := lastExecPushbuf p in
  let commands := decode_commands F (lastExecCommands p) in
  let version := lastExecVersion p in
  let start := mkWorld (heap w0) (mem w0) [] (downcount w0) in
  let run := Run E K pushbuf commands (DumpExecute_new version) start in
  let ops := posted_ops (trace run.2) in
  posted_ops (trace (replayThread_body E K pushbuf commands version start))
  = ops ++ [done_op]
  /\ Forall (fun op => breaks op = true) ops
  /\ (exists p',
        drive E K F C M (S (length ops)) w0 p filename = Some (Done, p')
        /\ replayThread p' = None)
  /\ (forall q q', lastExecFilename q = filename ->
        RunMountedReplay E K F C M w0 q filename <> Some (Error, q')).
Proof.
  intros Hname Hidle pushbuf commands version start run ops.
  assert (Hbody : posted_ops (trace (replayThread_body E K pushbuf commands version start))
                  = ops ++ [done_op]) by apply replayThread_body_posts.
  assert (Hops : Forall (fun op => breaks op = true) ops).
  { destruct (extends_Run pushbuf commands (DumpExecute_new version) start)
      as (evs & Htr & Hevs).
    unfold ops, run. rewrite Htr. cbn [trace start]. rewrite app_nil_r.
    apply posted_ops_run. exact Hevs. }
  split; [exact Hbody|]. split; [exact Hops|]. split.
  - destruct (RunMountedReplay_start w0 p filename Hname Hidle) as (p3 & Heq & Hn3 & Ht3).
    fold pushbuf commands version start in Ht3. rewrite Hbody in Ht3.
    destruct (drive_running w0 filename ops Hops p3 Hn3 Ht3) as (p' & Hd & Hnone).
    exists p'. split; [|exact Hnone].
    cbn [drive] in Hd |- *. rewrite Heq. exact Hd.
  - intros q q' Hq. apply RunMountedReplay_cached_no_Error. exact Hq.
Qed.

(** ** Emulated memory: reads after writes *)

Lemma store_bytes_out (data : list Z) : forall addr (m : Zmap Z) a,
  a < addr \/ addr + Z.of_nat (length data) <= a ->
  store_bytes addr data m !! a = m !! a.
Proof.
  induction data as [|b data IH]; intros addr m a Ha; simpl; [reflexivity|].
  rewrite IH by (simpl in Ha; lia).
  apply lookup_insert_ne. simpl in Ha. lia.
Qed.

Lemma store_bytes_in (data : list Z) : forall addr (m : Zmap Z) (k : nat),
  (k < length data)%nat ->
  store_bytes addr data m !! (addr + Z.of_nat k) = data !! k.
Proof.
  induction data as [|b data IH]; intros addr m k Hk; simpl in *; [lia|].
  destruct k as [|k].
  - rewrite store_bytes_out by lia. rewrite Z.add_0_r. apply lookup_insert_eq.
  - replace (addr + Z.of_nat (S k)) with (addr + 1 + Z.of_nat k) by lia.
    apply IH. lia.
Qed.

Lemma load_byte_store_in (data : list Z) addr (m : Zmap Z) (k : nat) :
  (k < length data)%nat ->
  load_byte (store_bytes addr data m) (addr + Z.of_nat k) = default 0 (data !! k).
Proof. intros Hk. unfold load_byte. rewrite store_bytes_in by exact Hk. reflexivity. Qed.

Lemma load_u32_frame (data : list Z) addr (m : Zmap Z) a :
  a + 4 <= addr \/ addr + Z.of_nat (length data) <= a ->
  load_u32 (store_bytes addr data m) a = load_u32 m a.
Proof.
  intros Ha. unfold load_u32, load_byte. rewrite !store_bytes_out by lia. reflexivity.
Qed.

Lemma le32_bytes_sum (v : Z) :
  0 <= v < 2 ^ 32 ->
  v mod 256 + 2 ^ 8 * ((v / 2 ^ 8) mod 256) + 2 ^ 16 * ((v / 2 ^ 16) mod 256)
  + 2 ^ 24 * ((v / 2 ^ 24) mod 256) = v.
Proof. intros Hv. Z.div_mod_to_equations. lia. Qed.

Lemma load_u32_store addr (v : Z) (m : Zmap Z) :
  0 <= v < 2 ^ 32 -> load_u32 (store_bytes addr (le32_bytes v) m) addr = v.
Proof.
  intros Hv. unfold load_u32, load_byte, le32_bytes. simpl.
  replace (addr + 2) with (addr + 1 + 1) by lia.
  replace (addr + 3) with (addr + 1 + 1 + 1) by lia.
  repeat (rewrite lookup_insert_eq || rewrite lookup_insert_ne by lia). simpl.
  apply le32_bytes_sum. exact Hv.
Qed.


(** ** The stub: instruction encoders and field decoders *)

Lemma lor_field (a b k : Z) :
  0 <= k -> 0 <= b < 2 ^ k -> Z.lor (Z.shiftl a k) b = a * 2 ^ k + b.
Proof.
  intros Hk Hb. rewrite Z.shiftl_mul_pow2 by lia.
  symmetry. apply Z.add_nocarry_lor.
  apply Z.bits_inj'. intros n Hn. rewrite Z.land_spec, Z.bits_0.
  destruct (Z.lt_ge_cases n k) as [Hlt|Hge].
  - rewrite Z.mul_pow2_bits_low by lia. reflexivity.
  - destruct (Z.eq_dec b 0) as [->|Hb0]; [rewrite Z.bits_0; apply andb_false_r|].
    rewrite (Z.bits_above_log2 b n); [apply andb_false_r|lia|].
    apply Z.log2_lt_pow2; [lia|].
    apply Z.lt_le_trans with (2 ^ k); [lia|]. apply Z.pow_le_mono_r; lia.
Qed.

(** A field below a word whose low [k] bits are clear is added to it. *)
Lemma lor_low (a b q k : Z) :
  a = q * 2 ^ k -> 0 <= k -> 0 <= b < 2 ^ k -> Z.lor a b = a + b.
Proof.
  intros -> Hk Hb. rewrite <- lor_field by lia.
  rewrite Z.shiftl_mul_pow2 by lia. reflexivity.
Qed.

Lemma get_field (x sh mask width : Z) :
  0 <= sh -> 0 <= width -> mask = 2 ^ width - 1 ->
  Z.land (Z.shiftr x sh) mask = (x / 2 ^ sh) mod 2 ^ width.
Proof.
  intros Hs Hw ->. rewrite Z.shiftr_div_pow2 by lia.
  change (2 ^ width - 1) with (Z.pred (2 ^ width)). rewrite <- Z.ones_equiv.
  apply Z.land_ones. lia.
Qed.

Lemma low16 (x : Z) : Z.land x 0xFFFF = x mod 2 ^ 16.
Proof. change 0xFFFF with (Z.ones 16). apply Z.land_ones. lia. Qed.

Ltac mips_fields :=
  unfold MIPS_GET_OP, MIPS_GET_RS, MIPS_GET_RT;
  rewrite ?(fun x sh => get_field x sh 0x3F 6), ?(fun x sh => get_field x sh 0x1F 5),
          ?low16 by (reflexivity || lia).

Ltac by_division := Z.div_mod_to_equations; lia.

(** X1.  The immediate-type encoders and the field decoders are inverse to
    each other on operands that fit their fields: for register numbers
    below 32 and a 16-bit immediate, the words of [MIPS_MAKE_ORI],
    [MIPS_MAKE_LW], [MIPS_MAKE_ADDIU] and [MIPS_MAKE_LUI] decode to the
    opcodes 13, 35, 9 and 15, to the registers given and to the
    immediate. *)
Theorem MIPS_immediate_encoders_decode (rt rs imm : Z) :
  0 <= rt < 32 -> 0 <= rs < 32 -> 0 <= imm < 2 ^ 16 ->
  (let op := MIPS_MAKE_ORI rt rs imm in
   MIPS_GET_OP op = 13 /\ MIPS_GET_RS op = rs /\ MIPS_GET_RT op = rt
   /\ Z.land op 0xFFFF = imm)
  /\ (let op := MIPS_MAKE_LW rt rs imm in
      MIPS_GET_OP op = 35 /\ MIPS_GET_RS op = rs /\ MIPS_GET_RT op = rt
      /\ Z.land op 0xFFFF = imm)
  /\ (let op := MIPS_MAKE_ADDIU rt rs imm in
      MIPS_GET_OP op = 9 /\ MIPS_GET_RS op = rs /\ MIPS_GET_RT op = rt
      /\ Z.land op 0xFFFF = imm)
  /\ (let op := MIPS_MAKE_LUI rt imm in
      MIPS_GET_OP op = 15 /\ MIPS_GET_RS op = 0 /\ MIPS_GET_RT op = rt
      /\ Z.land op 0xFFFF = imm).
Proof.
  intros Hrt Hrs Himm.
  assert (Hori : MIPS_MAKE_ORI rt rs imm = 13 * 2 ^ 26 + rs * 2 ^ 21 + rt * 2 ^ 16 + imm).
  { unfold MIPS_MAKE_ORI. rewrite !Z.shiftl_mul_pow2 by lia.
    rewrite (lor_low 0x34000000 _ 13 26) by lia.
    rewrite (lor_low _ (rt * 2 ^ 16) (13 * 32 + rs) 21) by lia.
    rewrite (lor_low _ imm (13 * 1024 + rs * 32 + rt) 16) by lia. lia. }
  assert (Hlw : MIPS_MAKE_LW rt rs imm = 35 * 2 ^ 26 + rs * 2 ^ 21 + rt * 2 ^ 16 + imm).
  { unfold MIPS_MAKE_LW. rewrite !Z.shiftl_mul_pow2 by lia.
    rewrite (lor_low 0x8c000000 _ 35 26) by lia.
    rewrite (lor_low _ (rt * 2 ^ 16) (35 * 32 + rs) 21) by lia.
    rewrite (lor_low _ imm (35 * 1024 + rs * 32 + rt) 16) by lia. lia. }
  assert (Haddiu : MIPS_MAKE_ADDIU rt rs imm
                   = 9 * 2 ^ 26 + rs * 2 ^ 21 + rt * 2 ^ 16 + imm).
  { unfold MIPS_MAKE_ADDIU.
    rewrite <- (Z.lor_assoc (Z.shiftl 9 26)), (Z.lor_comm (Z.shiftl rt 16)), Z.lor_assoc.
    rewrite !Z.shiftl_mul_pow2 by lia.
    rewrite (lor_low (9 * 2 ^ 26) _ 9 26) by lia.
    rewrite (lor_low _ (rt * 2 ^ 16) (9 * 32 + rs) 21) by lia.
    rewrite (lor_low _ imm (9 * 1024 + rs * 32 + rt) 16) by lia. lia. }
  assert (Hlui : MIPS_MAKE_LUI rt imm = 15 * 2 ^ 26 + rt * 2 ^ 16 + imm).
  { unfold MIPS_MAKE_LUI. rewrite !Z.shiftl_mul_pow2 by lia.
    rewrite (lor_low 0x3c000000 _ (15 * 32) 21) by lia.
    rewrite (lor_low _ imm (15 * 1024 + rt) 16) by lia. lia. }
  cbv zeta. rewrite Hori, Hlw, Haddiu, Hlui. mips_fields.
  repeat split; by_division.
Qed.

(** The word of [MIPS_MAKE_BNEZ] for a target [k] instructions from the
    delay slot. *)
Lemma MIPS_MAKE_BNEZ_value (pc rs k : Z) :
  0 <= pc < 2 ^ 32 -> 0 <= rs < 32 -> - 2 ^ 15 <= k < 2 ^ 15 ->
  MIPS_MAKE_BNEZ pc (u32 (pc + 4 + 4 * k)) rs = 5 * 2 ^ 26 + rs * 2 ^ 21 + k mod 2 ^ 16.
Proof.
  intros Hpc Hrs Hk.
  assert (Hdist : s32 (u32 (u32 (pc + 4 + 4 * k) - u32 (pc + 4))) = k * 2 ^ 2).
  { unfold s32, u32. by_division. }
  unfold MIPS_MAKE_BNEZ. rewrite Hdist.
  rewrite Z.shiftr_div_pow2, Z.div_mul, low16 by lia.
  assert (Hf : 0 <= k mod 2 ^ 16 < 2 ^ 16) by (apply Z.mod_pos_bound; lia).
  replace (u32 (k mod 2 ^ 16)) with (k mod 2 ^ 16)
    by (unfold u32; symmetry; apply Z.mod_small; lia).
  rewrite Z.shiftl_mul_pow2 by lia.
  rewrite (lor_low 0x14000000 _ 5 26) by lia.
  rewrite (lor_low _ (k mod 2 ^ 16) (5 * 1024 + rs * 32) 16) by lia.
  unfold u32. apply Z.mod_small. lia.
Qed.

Lemma BNEZ_word_fields (rs f : Z) :
  0 <= rs < 32 -> 0 <= f < 2 ^ 16 ->
  let op := 5 * 2 ^ 26 + rs * 2 ^ 21 + f in
  MIPS_GET_OP op = 5 /\ MIPS_GET_RS op = rs /\ MIPS_GET_RT op = 0
  /\ Z.land op 0xFFFF = f.
Proof. intros Hrs Hf. cbv zeta. mips_fields. repeat split; by_division. Qed.

(** X2.  [MIPS_MAKE_BNEZ] encodes a branch to a target [k] instructions away
    from its delay slot, forwards or backwards, for every distance that
    fits sixteen bits and wherever the code lies in the address space
    (wrap-around included): the word is a BNE of register [rs] against
    register 0 whose offset field is the two's complement of [k]. *)
Theorem MIPS_MAKE_BNEZ_decodes (pc rs k : Z) :
  0 <= pc < 2 ^ 32 -> 0 <= rs < 32 -> - 2 ^ 15 <= k < 2 ^ 15 ->
  let op := MIPS_MAKE_BNEZ pc (u32 (pc + 4 + 4 * k)) rs in
  MIPS_GET_OP op = 5 /\ MIPS_GET_RS op = rs /\ MIPS_GET_RT op = 0
  /\ Z.land op 0xFFFF = k mod 2 ^ 16.
Proof.
  intros Hpc Hrs Hk. cbv zeta. rewrite MIPS_MAKE_BNEZ_value by assumption.
  apply BNEZ_word_fields; [exact Hrs|]. apply Z.mod_pos_bound. lia.
Qed.

Lemma MIPS_MAKE_J_value (addr : Z) :
  0 <= addr < 2 ^ 28 -> MIPS_MAKE_J addr = 2 * 2 ^ 26 + addr / 2 ^ 2.
Proof.
  intros Haddr. assert (Hq : 0 <= addr / 2 ^ 2 < 2 ^ 26) by by_division.
  unfold MIPS_MAKE_J. rewrite Z.shiftr_div_pow2 by lia.
  rewrite (lor_low 0x08000000 _ 2 26) by lia. lia.
Qed.

Lemma J_word_fields (opc q : Z) :
  0 <= opc < 64 -> 0 <= q < 2 ^ 26 ->
  let op := opc * 2 ^ 26 + q in
  MIPS_GET_OP op = opc /\ Z.shiftl (Z.land op 0x03FFFFFF) 2 = 4 * q.
Proof.
  intros Hopc Hq. cbv zeta. mips_fields.
  change 0x03FFFFFF with (Z.ones 26). rewrite !Z.land_ones, !Z.shiftl_mul_pow2 by lia.
  split; by_division.
Qed.

(** X3.  [MIPS_MAKE_J] and [MIPS_MAKE_JAL] on an address below 2^28: the
    opcode fields are 2 and 3 and the 26-bit target field, shifted back, is
    the address with its two low bits cleared.  (The macros do not mask
    the address: this is what they rely on.) *)
Theorem MIPS_jump_encoders_decode (addr : Z) :
  0 <= addr < 2 ^ 28 ->
  (let op := MIPS_MAKE_J addr in
   MIPS_GET_OP op = 2 /\ Z.shiftl (Z.land op 0x03FFFFFF) 2 = addr - addr mod 4)
  /\ (let op := MIPS_MAKE_JAL addr in
      MIPS_GET_OP op = 3 /\ Z.shiftl (Z.land op 0x03FFFFFF) 2 = addr - addr mod 4).
Proof.
  intros Haddr.
  assert (Hq : 0 <= addr / 2 ^ 2 < 2 ^ 26) by by_division.
  assert (Hjal : MIPS_MAKE_JAL addr = 3 * 2 ^ 26 + addr / 2 ^ 2).
  { unfold MIPS_MAKE_JAL. rewrite Z.shiftr_div_pow2 by lia.
    rewrite (lor_low 0x0C000000 _ 3 26) by lia. lia. }
  assert (H4 : 4 * (addr / 2 ^ 2) = addr - addr mod 4) by by_division.
  cbv zeta. rewrite MIPS_MAKE_J_value, Hjal by exact Haddr. rewrite <- H4.
  split; apply J_word_fields; lia.
Qed.

(** X29.  The encoders without register operands.  [MIPS_MAKE_B] masks its
    offset: for every offset, negative ones included, the word is a BEQ of
    register 0 against register 0 (opcode 4) whose field holds the low 16
    bits of the offset.  [MIPS_MAKE_BREAK] with a code below 2^20 is a
    SPECIAL instruction (opcode 0) with the function 13 and the code from
    bit 6 on.  [MIPS_MAKE_JR_RA] is the SPECIAL instruction with the
    function 8 and register 31 as [rs]. *)
Theorem MIPS_special_encoders_decode (offs n : Z) :
  0 <= n < 2 ^ 20 ->
  (let op := MIPS_MAKE_B offs in
   MIPS_GET_OP op = 4 /\ MIPS_GET_RS op = 0 /\ MIPS_GET_RT op = 0
   /\ Z.land op 0xFFFF = offs mod 2 ^ 16)
  /\ (let op := MIPS_MAKE_BREAK n in
      MIPS_GET_OP op = 0 /\ MIPS_GET_FUNC op = 13 /\ Z.shiftr op 6 = n)
  /\ (MIPS_GET_OP MIPS_MAKE_JR_RA = 0 /\ MIPS_GET_RS MIPS_MAKE_JR_RA = 31
      /\ MIPS_GET_FUNC MIPS_MAKE_JR_RA = 8).
Proof.
  intros Hn.
  assert (Hf : 0 <= offs mod 2 ^ 16 < 2 ^ 16) by (apply Z.mod_pos_bound; lia).
  assert (Hb : MIPS_MAKE_B offs = 4 * 2 ^ 26 + offs mod 2 ^ 16).
  { unfold MIPS_MAKE_B. rewrite low16. rewrite (lor_low 0x10000000 _ 4 26) by lia. lia. }
  assert (Hk : MIPS_MAKE_BREAK n = n * 2 ^ 6 + 13).
  { unfold MIPS_MAKE_BREAK. apply lor_field; lia. }
  cbv zeta. rewrite Hb, Hk. unfold MIPS_GET_FUNC. mips_fields.
  change 0x3F with (Z.ones 6). rewrite !Z.land_ones, Z.shiftr_div_pow2 by lia.
  repeat split; try reflexivity; by_division.
Qed.

(** ** The stub in memory *)

Lemma write_words_frame (code : list Z) (start : Z) (n : nat) : forall (k : nat) (m : Zmap Z) a,
  0 <= start -> start + 4 * Z.of_nat (k + n) <= 2 ^ 32 ->
  a < start + 4 * Z.of_nat k \/ start + 4 * Z.of_nat (k + n) <= a ->
  fold_left (write_word code start) (seq k n) m !! a = m !! a.
Proof.
  induction n as [|n IH]; intros k m a Hs Hend Ha; simpl; [reflexivity|].
  rewrite IH by lia. unfold write_word, Memory_WriteUnchecked_U32.
  assert (Hi : u32 (start + u32 (Z.of_nat k) * 4) = start + 4 * Z.of_nat k).
  { unfold u32. rewrite (Z.mod_small (Z.of_nat k)) by lia. rewrite Z.mod_small; lia. }
  rewrite Hi. apply store_bytes_out. rewrite length_le32_bytes. lia.
Qed.

Lemma write_words_read (code : list Z) (start : Z) (n : nat) : forall (k : nat) (m : Zmap Z) (i : nat),
  0 <= start -> start + 4 * Z.of_nat (k + n) <= 2 ^ 32 ->
  Forall (fun v => 0 <= v < 2 ^ 32) code ->
  (k <= i < k + n)%nat ->
  load_u32 (fold_left (write_word code start) (seq k n) m) (start + 4 * Z.of_nat i)
  = default 0 (code !! i).
Proof.
  induction n as [|n IH]; intros k m i Hs Hend Hcode Hi; simpl; [lia|].
  destruct (decide (i = k)) as [->|Hne].
  - unfold load_u32, load_byte.
    rewrite !(write_words_frame code start n (S k)) by lia.
    unfold write_word, Memory_WriteUnchecked_U32.
    assert (Hk : u32 (start + u32 (Z.of_nat k) * 4) = start + 4 * Z.of_nat k).
    { unfold u32. rewrite (Z.mod_small (Z.of_nat k)) by lia. rewrite Z.mod_small; lia. }
    rewrite Hk. apply load_u32_store.
    destruct (code !! k) as [v|] eqn:Hv; simpl; [|lia].
    apply (proj1 (Forall_lookup _ _) Hcode _ _ Hv).
  - apply IH; [exact Hs|lia|exact Hcode|lia].
Qed.

Lemma runDumpCode_u32 (Sys : SyscallTable) (R : MIPSGPReg) (codeStart : Z) :
  Forall (fun v => 0 <= v < 2 ^ 32) (runDumpCode Sys R codeStart).
Proof.
  unfold runDumpCode. apply Forall_fmap, Forall_forall. intros v _. simpl.
  unfold u32. apply Z.mod_pos_bound. lia.
Qed.

(** X4.  [WriteRunDumpCode] puts the fourteen words of [runDumpCode] into
    memory, in order and little-endian, from [codeStart] on, and no byte
    outside these 56 is changed. *)
Theorem WriteRunDumpCode_writes_the_array (Sys : SyscallTable) (R : MIPSGPReg)
    (codeStart : Z) (m : Zmap Z) :
  0 <= codeStart -> codeStart + 56 <= 2 ^ 32 ->
  let m' := WriteRunDumpCode Sys R codeStart m in
  (forall i v, runDumpCode Sys R codeStart !! i = Some v ->
     load_u32 m' (codeStart + 4 * Z.of_nat i) = v)
  /\ (forall a, a < codeStart \/ codeStart + 56 <= a -> m' !! a = m !! a).
Proof.
  intros Hs Hend. cbv zeta. unfold WriteRunDumpCode, write_words.
  assert (Hlen : length (runDumpCode Sys R codeStart) = 14%nat) by reflexivity.
  rewrite Hlen. split.
  - intros i v Hi. pose proof (lookup_lt_Some _ _ _ Hi) as Hlt. rewrite Hlen in Hlt.
    rewrite write_words_read; [rewrite Hi; reflexivity|lia|lia|apply runDumpCode_u32|lia].
  - intros a Ha. apply write_words_frame; lia.
Qed.

(** X5.  The stub is a loop around the replay syscall: the word at
    [codeStart + 8] is the syscall [__KernelGPUReplay]; the word at
    [codeStart + 16] is a BNE of [V0] against register 0 whose offset is -3
    instructions from its delay slot, that is back to the syscall, so the
    call is repeated as long as it returns a value other than 0; the word
    at [codeStart + 44] is a jump to the syscall as well; the delay slots of
    the syscall, the branch and the jump hold NOPs. *)
Theorem WriteRunDumpCode_loops_on_V0 (Sys : SyscallTable) (R : MIPSGPReg)
    (codeStart : Z) (m : Zmap Z) :
  0 <= codeStart -> codeStart + 56 <= 2 ^ 28 -> codeStart mod 4 = 0 ->
  0 <= MIPS_REG_V0 R < 32 ->
  let word := fun i => load_u32 (WriteRunDumpCode Sys R codeStart m) (codeStart + 4 * i) in
  word 2 = u32 (MIPS_MAKE_SYSCALL Sys "FakeSysCalls" "__KernelGPUReplay")
  /\ word 3 = MIPS_MAKE_NOP
  /\ (MIPS_GET_OP (word 4) = 5 /\ MIPS_GET_RS (word 4) = MIPS_REG_V0 R
      /\ MIPS_GET_RT (word 4) = 0 /\ Z.land (word 4) 0xFFFF = 2 ^ 16 - 3)
  /\ word 5 = MIPS_MAKE_NOP
  /\ (MIPS_GET_OP (word 11) = 2
      /\ Z.shiftl (Z.land (word 11) 0x03FFFFFF) 2 = codeStart + 8)
  /\ word 12 = MIPS_MAKE_NOP.
Proof.
  intros Hs Hend Halign Hv0. cbv beta zeta.
  assert (Hword : forall i : Z, 0 <= i < 14 ->
            load_u32 (WriteRunDumpCode Sys R codeStart m) (codeStart + 4 * i)
            = default 0 (runDumpCode Sys R codeStart !! Z.to_nat i)).
  { intros i Hi. unfold WriteRunDumpCode, write_words.
    change (length (runDumpCode Sys R codeStart)) with 14%nat.
    rewrite <- (Z2Nat.id i) at 1 by lia.
    apply write_words_read; [lia|lia|apply runDumpCode_u32|lia]. }
  rewrite (Hword 2), (Hword 3), (Hword 4), (Hword 5), (Hword 11), (Hword 12) by lia.
  change (Z.to_nat 2) with 2%nat. change (Z.to_nat 3) with 3%nat.
  change (Z.to_nat 4) with 4%nat. change (Z.to_nat 5) with 5%nat.
  change (Z.to_nat 11) with 11%nat. change (Z.to_nat 12) with 12%nat.
  cbn [runDumpCode fmap list_fmap map lookup list_lookup default]. unfold id.
  assert (Hb : MIPS_MAKE_BNEZ (u32 (codeStart + 4 * 4)) (u32 (codeStart + 8)) (MIPS_REG_V0 R)
               = 5 * 2 ^ 26 + MIPS_REG_V0 R * 2 ^ 21 + (2 ^ 16 - 3)).
  { replace (u32 (codeStart + 8))
      with (u32 (u32 (codeStart + 4 * 4) + 4 + 4 * (-3))) by (unfold u32; by_division).
    rewrite MIPS_MAKE_BNEZ_value; [reflexivity|unfold u32; by_division|exact Hv0|lia]. }
  assert (Hj : MIPS_MAKE_J (u32 (codeStart + 8)) = 2 * 2 ^ 26 + (codeStart + 8) / 2 ^ 2).
  { replace (u32 (codeStart + 8)) with (codeStart + 8) by (unfold u32; by_division).
    apply MIPS_MAKE_J_value. lia. }
  rewrite Hb, Hj.
  replace (u32 (5 * 2 ^ 26 + MIPS_REG_V0 R * 2 ^ 21 + (2 ^ 16 - 3)))
    with (5 * 2 ^ 26 + MIPS_REG_V0 R * 2 ^ 21 + (2 ^ 16 - 3)) by (unfold u32; by_division).
  replace (u32 (2 * 2 ^ 26 + (codeStart + 8) / 2 ^ 2))
    with (2 * 2 ^ 26 + (codeStart + 8) / 2 ^ 2) by (unfold u32; by_division).
  assert (H4 : codeStart + 8 = 4 * ((codeStart + 8) / 2 ^ 2)) by by_division.
  split; [reflexivity|]. split; [reflexivity|].
  split; [apply BNEZ_word_fields; lia|]. split; [reflexivity|].
  split; [|reflexivity].
  pose proof (J_word_fields 2 ((codeStart + 8) / 2 ^ 2)) as HJ. cbv zeta in HJ.
  rewrite <- H4 in HJ. apply HJ; [lia|by_division].
Qed.


(** ** What a mapped window holds *)

Lemma read_bytes_lookup (buf : list Z) (off len : Z) (k : nat) :
  0 <= off -> Z.of_nat k < len -> off + Z.of_nat k < Z.of_nat (length buf) ->
  read_bytes buf off len !! k = buf !! (Z.to_nat off + k)%nat.
Proof.
  intros Hoff Hk Hin. unfold read_bytes.
  rewrite lookup_app_l by (rewrite length_take, length_drop; lia).
  rewrite lookup_take_lt by lia. apply lookup_drop.
Qed.

Lemma length_read_bytes (buf : list Z) (off len : Z) :
  length (read_bytes buf off len) = Z.to_nat len.
Proof.
  unfold read_bytes. rewrite length_app, length_replicate, length_take, length_drop. lia.
Qed.

(** A copy of [len] bytes of a buffer, read back. *)
Lemma store_read_bytes (buf : list Z) (off len dst : Z) (m : Zmap Z) (k : Z) :
  0 <= off -> 0 <= k < len -> off + k < Z.of_nat (length buf) ->
  store_bytes dst (read_bytes buf off len) m !! (dst + k) = buf !! Z.to_nat (off + k).
Proof.
  intros Hoff Hk Hin. rewrite <- (Z2Nat.id k) at 1 by lia.
  rewrite store_bytes_in by (rewrite length_read_bytes; lia).
  rewrite read_bytes_lookup by lia. f_equal. lia.
Qed.

Lemma Alloc_mem (size : Z) (fromTop : bool) (tag : string) (w : World (A:=A)) :
  mem (Alloc size fromTop tag w).2 = mem w.
Proof. unfold Alloc. destruct (userMemory_Alloc A (heap w) size fromTop tag). reflexivity. Qed.

Lemma SlabInfo_Setup_mem (pushbuf_ : list Z) gen s w pos s' gen' w' :
  SlabInfo_Setup pushbuf_ gen s w pos = (true, s', gen', w') ->
  mem w' = store_bytes (SlabInfo.psp_pointer_ s')
             (read_bytes pushbuf_ pos
                (Z.min (u32 SLAB_SIZE) (u32 (u32 (Z.of_nat (length pushbuf_)) - pos))))
             (mem w).
Proof.
  unfold SlabInfo_Setup, SlabInfo_Alloc.
  destruct (SlabInfo.psp_pointer_ s =? 0) eqn:Hp.
  - pose proof (Alloc_mem SLAB_SIZE false "Slab" w) as Hm.
    destruct (Alloc SLAB_SIZE false "Slab" w) as [p w1].
    destruct (negb ((if p =? u32 (-1) then 0 else p) =? 0)) eqn:Hok; simpl.
    + intros [= <- <- <-]. simpl. simpl in Hm. rewrite Hm. reflexivity.
    + intros [= ?].
  - simpl. intros [= <- <- <-]. reflexivity.
Qed.

(** X6.  The window a slab miss returns holds the bytes asked for.  When a
    request inside one slab misses every slab and [Map] returns an address
    [p], the emulated memory at [p], ..., [p + sz - 1] holds the bytes of the
    pushbuffer at [bufpos], ..., [bufpos + sz - 1] (for a request inside the
    pushbuffer and a slab that does not reach past the end of the address
    space). *)
Theorem Map_slab_miss_mirrors_pushbuf (pushbuf_ : list Z) m w (bufpos sz : Z)
    (flush : World -> World) p m' w' :
  length (slabs_ m) = SLAB_COUNT ->
  Z.of_nat (length pushbuf_) < 2 ^ 32 ->
  0 <= bufpos -> 0 < sz -> bufpos + sz <= Z.of_nat (length pushbuf_) ->
  bufpos / SLAB_SIZE = (bufpos + sz - 1) / SLAB_SIZE ->
  (forall i, SlabInfo.Matches (slab_at m i) (bufpos / SLAB_SIZE * SLAB_SIZE) = false) ->
  Map pushbuf_ m w bufpos sz flush = (p, m', w') ->
  p <> 0 ->
  0 <= SlabInfo.psp_pointer_ (slab_at m' (lastSlab_ m')) ->
  SlabInfo.psp_pointer_ (slab_at m' (lastSlab_ m')) + SLAB_SIZE <= 2 ^ 32 ->
  forall k, 0 <= k < sz -> mem w' !! (p + k) = pushbuf_ !! Z.to_nat (bufpos + k).
Proof.
  intros Hlen Hbuf Hpos Hsz Hin Hsingle Hmiss HMap Hp Hlo Hhi k Hk.
  assert (Hu : u32 bufpos = bufpos) by (unfold u32; apply Z.mod_small; lia).
  assert (Hu2 : u32 (bufpos + sz - 1) = bufpos + sz - 1)
    by (unfold u32; apply Z.mod_small; lia).
  set (slab_pos := bufpos / SLAB_SIZE * SLAB_SIZE) in *.
  assert (Hsp : 0 <= slab_pos <= bufpos /\ bufpos + sz <= slab_pos + SLAB_SIZE).
  { unfold slab_pos, SLAB_SIZE in *. by_division. }
  assert (Husp : u32 slab_pos = slab_pos) by (unfold u32; apply Z.mod_small; lia).
  destruct (MapSlab_scan_miss m slab_pos (seq 0 SLAB_COUNT) 0%nat) as [best Hscan].
  { intros i _. apply Hmiss. }
  pose proof (MapSlab_scan_inr _ _ _ _ _ Hscan) as (Hbin & _ & _).
  assert (Hbest : (best < SLAB_COUNT)%nat).
  { destruct Hbin as [-> | Hb]; [unfold SLAB_COUNT; lia|]. apply in_seq in Hb. lia. }
  revert HMap. unfold Map. rewrite Hu, Hu2, Hsingle, Z.eqb_refl.
  rewrite <- Hsingle. fold slab_pos. rewrite Husp, Hmiss.
  unfold MapSlab. rewrite Hu. fold slab_pos. rewrite Husp, Hscan.
  destruct (SlabInfo_Setup pushbuf_ (slabGeneration_ m) (slab_at m best) (flush w) slab_pos)
    as [[[ok s] gen] w2] eqn:Hsetup.
  destruct ok; simpl; [|intros [= <- _ _]; congruence].
  pose proof (SlabInfo_Setup_ok _ _ _ _ _ _ _ _ _ Hsetup) as (Hpsp & Hbp & _).
  apply SlabInfo_Setup_mem in Hsetup.
  unfold slab_Ptr, set_slab, slab_at. simpl.
  rewrite !slab_at_insert.
  destruct (decide (best = best /\ (best < length (slabs_ m))%nat)) as [_|Hn];
    [|exfalso; apply Hn; split; [reflexivity | lia]].
  simpl. intros [= <- <- <-]. unfold slab_at in Hlo, Hhi. simpl in Hlo, Hhi.
  rewrite slab_at_insert, length_insert in Hlo, Hhi.
  destruct (decide (best = best /\ (best < length (slabs_ m))%nat)) as [_|Hn];
    [|exfalso; apply Hn; split; [reflexivity | lia]].
  simpl in Hlo, Hhi. rewrite Hsetup, Hbp.
  assert (Hptr : u32 (SlabInfo.psp_pointer_ s + (bufpos - slab_pos)) + k
                 = SlabInfo.psp_pointer_ s + (bufpos - slab_pos + k)).
  { unfold u32. rewrite Z.mod_small; lia. }
  rewrite Hptr.
  assert (Hcopy : bufpos - slab_pos + k
                  < Z.min (u32 SLAB_SIZE) (u32 (u32 (Z.of_nat (length pushbuf_)) - slab_pos))).
  { unfold u32. rewrite (Z.mod_small SLAB_SIZE) by (unfold SLAB_SIZE; lia).
    rewrite (Z.mod_small (Z.of_nat (length pushbuf_))) by lia.
    rewrite (Z.mod_small (_ - _)) by lia. lia. }
  rewrite store_read_bytes by lia. f_equal. lia.
Qed.


Lemma ExtraInfo_Alloc_success (pushbuf_ : list Z) e w bufpos sz e' w' :
  ExtraInfo_Alloc pushbuf_ e w bufpos sz = (true, e', w') ->
  ExtraInfo.psp_pointer_ e' <> 0
  /\ e' = ExtraInfo.mk (ExtraInfo.psp_pointer_ e') bufpos sz
  /\ exists bytes0, mem w' = store_bytes (ExtraInfo.psp_pointer_ e')
                           (read_bytes pushbuf_ bufpos sz) bytes0.
Proof.
  unfold ExtraInfo_Alloc.
  destruct (ExtraInfo_Free e w) as [e1 w1].
  destruct (Alloc sz false "Straddle extra" w1) as [p w2].
  destruct ((if p =? u32 (-1) then 0 else p) =? 0) eqn:Hp; [intros [= ?]|].
  intros [= <- <-]. simpl. split; [lia|]. split; [reflexivity|].
  eexists. reflexivity.
Qed.

(** A miss of the extra path that returns an address leaves an entry for
    exactly this range, whose memory was just filled from the pushbuffer. *)
Lemma MapExtra_miss_success (pushbuf_ : list Z) m w (bufpos sz : Z)
    (flush : World -> World) p m' w' :
  BufMapping_wf m ->
  MapExtra_scan (extra_ m) bufpos sz (seq 0 EXTRA_COUNT) = None ->
  MapExtra pushbuf_ m w bufpos sz flush = (p, m', w') ->
  p <> 0 ->
  (exists i, (i < EXTRA_COUNT)%nat /\ extra_at (extra_ m') i = ExtraInfo.mk p bufpos sz)
  /\ exists bytes0, mem w' = store_bytes p (read_bytes pushbuf_ bufpos sz) bytes0.
Proof.
  intros (Hls & Hle & Hoff) Hscan. unfold MapExtra. rewrite Hscan.
  set (i := extraOffset_ m) in *.
  destruct (ExtraInfo_Alloc pushbuf_ (extra_at (extra_ m) i) (flush w) bufpos sz)
    as [[ok e] w2] eqn:H1.
  destruct ok.
  - apply ExtraInfo_Alloc_success in H1 as (Hp & He & bytes0 & Hm).
    rewrite extra_at_insert.
    destruct (decide (i = i /\ (i < length (extra_ m))%nat)) as [_|Hn];
      [|exfalso; apply Hn; split; [reflexivity | lia]].
    intros [= <- <- <-] _. cbn [extra_]. split.
    + exists i. split; [lia|]. rewrite extra_at_insert.
      destruct (decide (i = i /\ (i < length (extra_ m))%nat)) as [_|Hn];
        [exact He|exfalso; apply Hn; split; [reflexivity | lia]].
    + exists bytes0. exact Hm.
  - destruct (free_extras (<[i := e]> (extra_ m)) (seq 0 EXTRA_COUNT) w2) as [l2 w3] eqn:Hfree.
    assert (Hlen2 : length l2 = EXTRA_COUNT).
    { replace l2 with (free_extras (<[i := e]> (extra_ m)) (seq 0 EXTRA_COUNT) w2).1
        by (rewrite Hfree; reflexivity).
      rewrite free_extras_length, length_insert. exact Hle. }
    destruct (ExtraInfo_Alloc pushbuf_ (extra_at l2 i) w3 bufpos sz) as [[ok2 e2] w4] eqn:H2.
    destruct ok2; [|intros [= <- _ _] Hp; congruence].
    apply ExtraInfo_Alloc_success in H2 as (Hp & He & bytes0 & Hm).
    rewrite extra_at_insert.
    destruct (decide (i = i /\ (i < length l2)%nat)) as [_|Hn];
      [|exfalso; apply Hn; split; [reflexivity | lia]].
    intros [= <- <- <-] _. cbn [extra_]. split.
    + exists i. split; [lia|]. rewrite extra_at_insert.
      destruct (decide (i = i /\ (i < length l2)%nat)) as [_|Hn];
        [exact He|exfalso; apply Hn; split; [reflexivity | lia]].
    + exists bytes0. exact Hm.
Qed.

Lemma MapExtra_scan_all_miss l bufpos sz idx :
  (forall i, In i idx -> ExtraInfo.Matches (extra_at l i) bufpos sz = false) ->
  MapExtra_scan l bufpos sz idx = None.
Proof.
  induction idx as [|i idx IH]; intros H; simpl; [reflexivity|].
  rewrite (H i) by (left; reflexivity). apply IH. intros j Hj. apply H. right. exact Hj.
Qed.

(** X7.  The window a miss of the extra path returns holds the bytes asked
    for.  When a request that straddles two slabs matches no extra entry
    and [Map] returns an address [p], the emulated memory at [p], ...,
    [p + sz - 1] holds the bytes of the pushbuffer at [bufpos], ...,
    [bufpos + sz - 1], whether the first allocation or the one after
    freeing every extra succeeded. *)
Theorem Map_extra_miss_mirrors_pushbuf (pushbuf_ : list Z) m w (bufpos sz : Z)
    (flush : World -> World) p m' w' :
  BufMapping_wf m ->
  0 <= bufpos -> bufpos + sz <= Z.of_nat (length pushbuf_) ->
  u32 bufpos / SLAB_SIZE <> u32 (bufpos + sz - 1) / SLAB_SIZE ->
  (forall i, ExtraInfo.Matches (extra_at (extra_ m) i) bufpos sz = false) ->
  Map pushbuf_ m w bufpos sz flush = (p, m', w') ->
  p <> 0 ->
  forall k, 0 <= k < sz -> mem w' !! (p + k) = pushbuf_ !! Z.to_nat (bufpos + k).
Proof.
  intros Hwf Hpos Hin Hstraddle Hmiss HMap Hp k Hk.
  unfold Map in HMap. apply Z.eqb_neq in Hstraddle. rewrite Hstraddle in HMap.
  destruct (MapExtra_miss_success pushbuf_ m w bufpos sz flush p m' w' Hwf) as (_ & bytes0 & Hm);
    [|exact HMap|exact Hp|].
  { apply MapExtra_scan_all_miss. intros i _. apply Hmiss. }
  rewrite Hm. apply store_read_bytes; lia.
Qed.


(** ** The slab that serves a request *)

Lemma slab_Ptr_spec m (i : nat) (bufpos pos : Z) :
  SlabInfo.Matches (slab_at m i) pos = true ->
  let m1 := (slab_Ptr m i bufpos).2 in
  SlabInfo.Matches (slab_at m1 i) pos = true
  /\ Age_at m1 i = 0
  /\ (slab_Ptr m i bufpos).1 = u32 (SlabInfo.psp_pointer_ (slab_at m1 i) + (bufpos - pos))
  /\ slabGeneration_ m1 = slabGeneration_ m.
Proof.
  intros Hm. pose proof (Matches_lt_length _ _ _ Hm) as Hi.
  cbv zeta. rewrite slab_Ptr_Matches. split; [exact Hm|].
  unfold SlabInfo.Matches in Hm. apply andb_true_iff in Hm as [Hb Hp].
  apply Z.eqb_eq in Hb. apply negb_true_iff in Hp.
  unfold slab_Ptr, set_slab, Age_at, SlabInfo.Age, SlabInfo.Ptr, slab_at. simpl.
  rewrite slab_at_insert.
  destruct (decide (i = i /\ (i < length (slabs_ m))%nat)) as [_|Hn];
    [|exfalso; apply Hn; split; [reflexivity | lia]].
  simpl. unfold slab_at in Hb, Hp. rewrite Hp, Hb, Z.sub_diag.
  repeat split; reflexivity.
Qed.

(** X8.  The address [Map] returns for a request inside one slab, on a hit
    as on a miss: some slab mirrors the window of the request, the address
    is the slab's address plus the offset of the request in the window, and
    the slab is stamped with the current generation, which makes its age 0:
    it is the most recently used one. *)
Theorem Map_slab_address (pushbuf_ : list Z) m w (bufpos sz : Z)
    (flush : World -> World) p m' w' :
  length (slabs_ m) = SLAB_COUNT ->
  u32 bufpos / SLAB_SIZE = u32 (bufpos + sz - 1) / SLAB_SIZE ->
  Map pushbuf_ m w bufpos sz flush = (p, m', w') ->
  p <> 0 ->
  let slab_pos := u32 (u32 bufpos / SLAB_SIZE * SLAB_SIZE) in
  exists i, (i < SLAB_COUNT)%nat
    /\ SlabInfo.Matches (slab_at m' i) slab_pos = true
    /\ Age_at m' i = 0
    /\ p = u32 (SlabInfo.psp_pointer_ (slab_at m' i) + (bufpos - slab_pos)).
Proof.
  intros Hlen Hsingle HMap Hp slab_pos. revert HMap.
  unfold Map. rewrite Hsingle, Z.eqb_refl. rewrite <- Hsingle. fold slab_pos.
  destruct (SlabInfo.Matches (slab_at m (lastSlab_ m)) slab_pos) eqn:Hlast.
  { pose proof (slab_Ptr_spec m (lastSlab_ m) bufpos slab_pos Hlast) as (H1 & H2 & H3 & _).
    pose proof (Matches_lt_length _ _ _ Hlast) as Hi.
    destruct (slab_Ptr m (lastSlab_ m) bufpos) as [p1 m1]. cbn [fst snd] in H1, H2, H3.
    intros [= <- <- <-]. exists (lastSlab_ m). repeat split; try assumption. lia. }
  unfold MapSlab. fold slab_pos.
  destruct (MapSlab_scan m slab_pos (seq 0 SLAB_COUNT) 0) as [i|best] eqn:Hscan.
  { apply MapSlab_scan_inl in Hscan as [Hin Hm].
    pose proof (slab_Ptr_spec m i bufpos slab_pos Hm) as (H1 & H2 & H3 & _).
    pose proof (Matches_lt_length _ _ _ Hm) as Hi.
    destruct (slab_Ptr m i bufpos) as [p1 m1]. cbn [fst snd] in H1, H2, H3.
    intros [= <- <- <-]. exists i. repeat split; try assumption. lia. }
  pose proof (MapSlab_scan_inr _ _ _ _ _ Hscan) as (Hbin & _ & _).
  assert (Hbest : (best < SLAB_COUNT)%nat).
  { destruct Hbin as [-> | Hb]; [unfold SLAB_COUNT; lia|]. apply in_seq in Hb. lia. }
  destruct (SlabInfo_Setup pushbuf_ (slabGeneration_ m) (slab_at m best) (flush w) slab_pos)
    as [[[ok s] gen] w2] eqn:Hsetup.
  destruct ok; cbn [negb]; [|intros [= <- _ _]; congruence].
  pose proof (SlabInfo_Setup_ok _ _ _ _ _ _ _ _ _ Hsetup) as (Hpsp & Hbp & _).
  cbn [slabs_ extraOffset_ extra_].
  set (m2 := mkBufMapping gen (<[best := s]> (slabs_ m)) best (extraOffset_ m) (extra_ m)).
  assert (Hm2 : SlabInfo.Matches (slab_at m2 best) slab_pos = true).
  { unfold slab_at, m2. simpl. rewrite slab_at_insert.
    destruct (decide (best = best /\ (best < length (slabs_ m))%nat)) as [_|Hn];
      [|exfalso; apply Hn; split; [reflexivity | lia]].
    unfold SlabInfo.Matches. rewrite Hbp, Z.eqb_refl. simpl.
    apply negb_true_iff, Z.eqb_neq. exact Hpsp. }
  pose proof (slab_Ptr_spec m2 best bufpos slab_pos Hm2) as (H1 & H2 & H3 & _).
  destruct (slab_Ptr m2 best bufpos) as [p1 m1]. cbn [fst snd] in H1, H2, H3.
  intros [= <- <- <-]. exists best. repeat split; assumption.
Qed.


(** ** Invariants of the slabs *)

Lemma MapSlab_scan_inr_miss m pos idx : forall b best,
  MapSlab_scan m pos idx b = inr best ->
  forall i, In i idx -> SlabInfo.Matches (slab_at m i) pos = false.
Proof.
  induction idx as [|i0 idx IH]; intros b best Hscan i Hi; [destruct Hi|].
  simpl in Hscan. destruct (SlabInfo.Matches (slab_at m i0) pos) eqn:Hm; [discriminate|].
  destruct Hi as [<-|Hi]; [exact Hm|]. eapply IH; eassumption.
Qed.

Lemma slab_Ptr_pointers m (i : nat) (bufpos : Z) (j : nat) :
  let m1 := (slab_Ptr m i bufpos).2 in
  SlabInfo.psp_pointer_ (slab_at m1 j) = SlabInfo.psp_pointer_ (slab_at m j)
  /\ SlabInfo.buf_pointer_ (slab_at m1 j) = SlabInfo.buf_pointer_ (slab_at m j).
Proof.
  unfold slab_Ptr, set_slab, slab_at, SlabInfo.Ptr. simpl. rewrite slab_at_insert.
  destruct (decide (i = j /\ (i < length (slabs_ m))%nat)) as [[-> _]|_];
    split; reflexivity.
Qed.

Lemma slab_Ptr_stamps m (i : nat) (bufpos : Z) (j : nat) :
  let m1 := (slab_Ptr m i bufpos).2 in
  slabGeneration_ m1 = slabGeneration_ m
  /\ (SlabInfo.last_used_ (slab_at m1 j) = SlabInfo.last_used_ (slab_at m j)
      \/ SlabInfo.last_used_ (slab_at m1 j) = slabGeneration_ m).
Proof.
  unfold slab_Ptr, set_slab, slab_at, SlabInfo.Ptr. simpl. rewrite slab_at_insert.
  destruct (decide (i = j /\ (i < length (slabs_ m))%nat)) as [[-> _]|_];
    split; auto.
Qed.

Lemma MapExtra_slabs (pushbuf_ : list Z) m w (bufpos sz : Z) (flush : World -> World) :
  let m' := (MapExtra pushbuf_ m w bufpos sz flush).1.2 in
  slabs_ m' = slabs_ m /\ slabGeneration_ m' = slabGeneration_ m.
Proof.
  unfold MapExtra.
  destruct (MapExtra_scan (extra_ m) bufpos sz (seq 0 EXTRA_COUNT)); [split; reflexivity|].
  destruct (ExtraInfo_Alloc pushbuf_ (extra_at (extra_ m) (extraOffset_ m)) (flush w) bufpos sz)
    as [[ok e] w2].
  destruct ok; [split; reflexivity|].
  destruct (free_extras _ _ w2) as [l2 w3].
  destruct (ExtraInfo_Alloc pushbuf_ (extra_at l2 (extraOffset_ m)) w3 bufpos sz)
    as [[ok2 e2] w4].
  destruct ok2; split; reflexivity.
Qed.

(** What [Map] does to the slabs, case by case: nothing but a new stamp on
    one slab, or the set-up of a slab for a window no slab mirrors. *)
Lemma Map_slabs_cases (pushbuf_ : list Z) m w (bufpos sz : Z) (flush : World -> World) :
  length (slabs_ m) = SLAB_COUNT ->
  let m' := (Map pushbuf_ m w bufpos sz flush).1.2 in
  let slab_pos := u32 (u32 bufpos / SLAB_SIZE * SLAB_SIZE) in
  (slabGeneration_ m' = slabGeneration_ m
   /\ forall j,
        SlabInfo.psp_pointer_ (slab_at m' j) = SlabInfo.psp_pointer_ (slab_at m j)
        /\ SlabInfo.buf_pointer_ (slab_at m' j) = SlabInfo.buf_pointer_ (slab_at m j)
        /\ (SlabInfo.last_used_ (slab_at m' j) = SlabInfo.last_used_ (slab_at m j)
            \/ SlabInfo.last_used_ (slab_at m' j) = slabGeneration_ m))
  \/ (slabGeneration_ m' = s32 (slabGeneration_ m + 1)
      /\ (forall i, (i < SLAB_COUNT)%nat -> SlabInfo.Matches (slab_at m i) slab_pos = false)
      /\ exists best,
           (forall i, (i < SLAB_COUNT)%nat -> Age_at m i <= Age_at m best)
           /\ SlabInfo.psp_pointer_ (slab_at m' best) <> 0
           /\ SlabInfo.buf_pointer_ (slab_at m' best) = slab_pos
           /\ SlabInfo.last_used_ (slab_at m' best) = slabGeneration_ m'
           /\ forall j, j <> best -> slab_at m' j = slab_at m j).
Proof.
  intros Hlen. cbv zeta. unfold Map.
  destruct (u32 bufpos / SLAB_SIZE =? u32 (bufpos + sz - 1) / SLAB_SIZE) eqn:Hsingle.
  2: { left. destruct (MapExtra_slabs pushbuf_ m w bufpos sz flush) as [Hs Hg].
       split; [exact Hg|]. intros j. unfold slab_at. rewrite Hs. auto. }
  set (slab_pos := u32 (u32 bufpos / SLAB_SIZE * SLAB_SIZE)).
  destruct (SlabInfo.Matches (slab_at m (lastSlab_ m)) slab_pos) eqn:Hlast.
  { left. pose proof (slab_Ptr_stamps m (lastSlab_ m) bufpos) as Hst.
    pose proof (slab_Ptr_pointers m (lastSlab_ m) bufpos) as Hpt.
    destruct (slab_Ptr m (lastSlab_ m) bufpos) as [p1 m1]. cbn [fst snd] in *.
    split; [apply (Hst 0%nat)|]. intros j. destruct (Hpt j) as [? ?].
    destruct (Hst j) as [_ ?]. auto. }
  unfold MapSlab. fold slab_pos.
  destruct (MapSlab_scan m slab_pos (seq 0 SLAB_COUNT) 0) as [i|best] eqn:Hscan.
  { left. pose proof (slab_Ptr_stamps m i bufpos) as Hst.
    pose proof (slab_Ptr_pointers m i bufpos) as Hpt.
    destruct (slab_Ptr m i bufpos) as [p1 m1]. cbn [fst snd] in *.
    split; [apply (Hst 0%nat)|]. intros j. destruct (Hpt j) as [? ?].
    destruct (Hst j) as [_ ?]. auto. }
  pose proof (MapSlab_scan_inr_miss _ _ _ _ _ Hscan) as Hmiss.
  pose proof (MapSlab_scan_inr _ _ _ _ _ Hscan) as (Hbin & _ & Hmax).
  assert (Hbest : (best < SLAB_COUNT)%nat).
  { destruct Hbin as [-> | Hb]; [unfold SLAB_COUNT; lia|]. apply in_seq in Hb. lia. }
  clear Hscan.
  destruct (SlabInfo_Setup pushbuf_ (slabGeneration_ m) (slab_at m best) (flush w) slab_pos)
    as [[[ok s] gen] w2] eqn:Hsetup.
  pose proof Hsetup as Hgen. unfold SlabInfo_Setup in Hgen.
  apply SlabInfo_Setup_ok in Hsetup.
  destruct ok; cbn [negb fst snd].
  - right. destruct Hsetup as (Hpsp & Hbp & Hlu).
    assert (Hg : gen = s32 (slabGeneration_ m + 1)).
    { destruct (SlabInfo.psp_pointer_ (slab_at m best) =? 0).
      - destruct (SlabInfo_Alloc (slab_at m best) (flush w)) as [[ok1 s1] w1].
        destruct ok1; simpl in Hgen; [|discriminate]. congruence.
      - simpl in Hgen. congruence. }
    cbn [slabs_ extraOffset_ extra_].
    unfold slab_Ptr, set_slab, SlabInfo.Ptr, slab_at. cbn [fst snd slabs_ slabGeneration_].
    split; [exact Hg|]. split.
    { intros i Hi. apply Hmiss. apply in_seq. lia. }
    exists best. rewrite !slab_at_insert, ?length_insert.
    destruct (decide (best = best /\ (best < length (slabs_ m))%nat)) as [_|Hn];
      [|exfalso; apply Hn; split; [reflexivity | lia]].
    cbn [SlabInfo.psp_pointer_ SlabInfo.buf_pointer_ SlabInfo.last_used_].
    split; [intros i Hi; apply Hmax, in_seq; lia|].
    split; [exact Hpsp|]. split; [exact Hbp|]. split; [reflexivity|].
    intros j Hj. rewrite !slab_at_insert, ?length_insert.
    destruct (decide (best = j /\ (best < length (slabs_ m))%nat)) as [[? _]|_];
      [congruence|reflexivity].
  - left. destruct Hsetup as (Hpsp & -> & ->). cbn [slabGeneration_ slabs_].
    split; [reflexivity|]. intros j. unfold slab_at. cbn [slabs_]. rewrite slab_at_insert.
    destruct (decide (best = j /\ (best < length (slabs_ m))%nat)) as [[-> _]|_]; auto.
Qed.

(** [Map] keeps the slabs on distinct windows. *)
Lemma Map_slabs_distinct (pushbuf_ : list Z) m w (bufpos sz : Z) (flush : World -> World) :
  length (slabs_ m) = SLAB_COUNT ->
  slabs_distinct m -> slabs_distinct (Map pushbuf_ m w bufpos sz flush).1.2.
Proof.
  intros Hlen Hd.
  destruct (Map_slabs_cases pushbuf_ m w bufpos sz flush Hlen) as [[_ Hsame]|Hnew].
  - intros i j Hij Hi Hj.
    destruct (Hsame i) as (Hpi & Hbi & _). destruct (Hsame j) as (Hpj & Hbj & _).
    rewrite Hbi, Hbj. apply Hd; [exact Hij | rewrite <- Hpi; exact Hi | rewrite <- Hpj; exact Hj].
  - destruct Hnew as (_ & Hmiss & best & _ & Hpsp & Hbp & _ & Hother).
    assert (Hfree : forall j, j <> best ->
              SlabInfo.psp_pointer_ (slab_at m j) <> 0 ->
              SlabInfo.buf_pointer_ (slab_at m j)
              <> u32 (u32 bufpos / SLAB_SIZE * SLAB_SIZE)).
    { intros j Hj Hpj Heq.
      destruct (decide (j < SLAB_COUNT)%nat) as [Hlt|Hge].
      - specialize (Hmiss j Hlt). unfold SlabInfo.Matches in Hmiss.
        rewrite Heq, Z.eqb_refl in Hmiss. simpl in Hmiss.
        apply negb_false_iff, Z.eqb_eq in Hmiss. contradiction.
      - apply Hpj. unfold slab_at. rewrite lookup_ge_None_2 by lia. reflexivity. }
    intros i j Hij Hi Hj.
    destruct (decide (i = best)) as [->|Hib]; destruct (decide (j = best)) as [->|Hjb].
    + congruence.
    + rewrite Hbp, (Hother j Hjb). rewrite (Hother j Hjb) in Hj.
      intros Heq. exact (Hfree j Hjb Hj (eq_sym Heq)).
    + rewrite Hbp, (Hother i Hib). rewrite (Hother i Hib) in Hi.
      exact (Hfree i Hib Hi).
    + rewrite (Hother i Hib), (Hother j Hjb). rewrite (Hother i Hib) in Hi.
      rewrite (Hother j Hjb) in Hj. apply Hd; assumption.
Qed.

(** X9.  In every state the mapper reaches from its initial one, whatever
    the requests, no two allocated slabs mirror the same window of the
    pushbuffer: a window is set up only when no slab mirrors it. *)
Theorem Map_calls_slabs_distinct (pushbuf_ : list Z)
    (flush : World (A:=A) -> World (A:=A)) (calls : list (Z * Z)) (w : World (A:=A)) :
  slabs_distinct (Map_calls pushbuf_ flush calls BufMapping_init w).1.
Proof.
  assert (Hgen : forall m (w : World (A:=A)), BufMapping_wf m -> slabs_distinct m ->
                   slabs_distinct (Map_calls pushbuf_ flush calls m w).1).
  { induction calls as [|[bufpos sz] calls IH]; intros m w0 Hwf Hd; [exact Hd|].
    simpl.
    pose proof (Map_wf pushbuf_ m w0 bufpos sz flush Hwf) as Hwf'.
    pose proof (Map_slabs_distinct pushbuf_ m w0 bufpos sz flush (proj1 Hwf) Hd) as Hd'.
    destruct (Map pushbuf_ m w0 bufpos sz flush) as [[p m1] w1]. apply IH; assumption. }
  apply Hgen; [apply BufMapping_init_wf|].
  intros i j _ Hi. exfalso. apply Hi. unfold slab_at, BufMapping_init. cbn [slabs_].
  destruct (replicate SLAB_COUNT SlabInfo.init !! i) eqn:Hl; [|reflexivity].
  apply lookup_replicate in Hl as [-> _]. reflexivity.
Qed.


Lemma s32_small (z : Z) : - 2 ^ 31 <= z < 2 ^ 31 -> s32 z = z.
Proof. intros Hz. unfold s32. rewrite Z.mod_small; lia. Qed.

(** X10.  The generation counter and the stamps.  As long as the counter
    has not reached [INT_MAX], a call of [Map] leaves it as it is or raises
    it by one, every stamp stays between 0 and the counter, and so the age
    of an allocated slab is never negative and never above the counter. *)
Theorem Map_keeps_stamps (pushbuf_ : list Z) m w (bufpos sz : Z) (flush : World -> World) :
  length (slabs_ m) = SLAB_COUNT ->
  stamps_ok m ->
  slabGeneration_ m < INT_MAX ->
  let m' := (Map pushbuf_ m w bufpos sz flush).1.2 in
  stamps_ok m'
  /\ (slabGeneration_ m' = slabGeneration_ m \/ slabGeneration_ m' = slabGeneration_ m + 1)
  /\ forall i, SlabInfo.psp_pointer_ (slab_at m' i) <> 0 ->
       0 <= Age_at m' i <= slabGeneration_ m'.
Proof.
  intros Hlen [Hg Hst] Hmax. cbv zeta.
  assert (Hages : forall m1, stamps_ok m1 -> slabGeneration_ m1 <= INT_MAX ->
            forall i, SlabInfo.psp_pointer_ (slab_at m1 i) <> 0 ->
              0 <= Age_at m1 i <= slabGeneration_ m1).
  { intros m1 [Hg1 Hst1] Hmax1 i Hi. unfold Age_at, SlabInfo.Age.
    apply Z.eqb_neq in Hi. rewrite Hi. specialize (Hst1 i).
    unfold INT_MAX in *. rewrite s32_small by lia. lia. }
  unfold INT_MAX in Hmax.
  destruct (Map_slabs_cases pushbuf_ m w bufpos sz flush Hlen) as [[Hsame Hj]|Hnew].
  - assert (Hok : stamps_ok (Map pushbuf_ m w bufpos sz flush).1.2).
    { split; [rewrite Hsame; exact Hg|]. intros j. rewrite Hsame.
      destruct (Hj j) as (_ & _ & [-> | ->]); [apply Hst|lia]. }
    split; [exact Hok|]. split; [left; exact Hsame|].
    apply Hages; [exact Hok|]. rewrite Hsame. unfold INT_MAX. lia.
  - destruct Hnew as (Hgen & _ & best & _ & _ & _ & Hlu & Hother).
    rewrite s32_small in Hgen by lia.
    assert (Hok : stamps_ok (Map pushbuf_ m w bufpos sz flush).1.2).
    { split; [rewrite Hgen; lia|]. intros j.
      destruct (decide (j = best)) as [->|Hjb].
      - rewrite Hlu, Hgen. lia.
      - rewrite (Hother j Hjb), Hgen. specialize (Hst j). lia. }
    split; [exact Hok|]. split; [right; exact Hgen|].
    apply Hages; [exact Hok|]. rewrite Hgen. unfold INT_MAX. lia.
Qed.

(** X11.  Nothing is evicted while a slab is free.  With the stamps in
    order and a slab that is not allocated, a call of [Map] leaves every
    allocated slab on its window and at its address: a miss takes a free
    slab, whose age [INT_MAX] is above the age of every allocated one. *)
Theorem Map_takes_a_free_slab_first (pushbuf_ : list Z) m w (bufpos sz : Z)
    (flush : World -> World) (f : nat) :
  length (slabs_ m) = SLAB_COUNT ->
  stamps_ok m ->
  slabGeneration_ m < INT_MAX ->
  (f < SLAB_COUNT)%nat -> SlabInfo.psp_pointer_ (slab_at m f) = 0 ->
  forall j, SlabInfo.psp_pointer_ (slab_at m j) <> 0 ->
    let s' := slab_at (Map pushbuf_ m w bufpos sz flush).1.2 j in
    SlabInfo.psp_pointer_ s' = SlabInfo.psp_pointer_ (slab_at m j)
    /\ SlabInfo.buf_pointer_ s' = SlabInfo.buf_pointer_ (slab_at m j).
Proof.
  intros Hlen [Hg Hst] Hmax Hf Hfree j Hj. cbv zeta.
  destruct (Map_slabs_cases pushbuf_ m w bufpos sz flush Hlen) as [[_ Hsame]|Hnew].
  - destruct (Hsame j) as (? & ? & _). split; assumption.
  - destruct Hnew as (_ & _ & best & Holdest & _ & _ & _ & Hother).
    assert (Hbest : SlabInfo.psp_pointer_ (slab_at m best) = 0).
    { destruct (Z.eq_dec (SlabInfo.psp_pointer_ (slab_at m best)) 0) as [H0|Hn0]; [exact H0|].
      exfalso. specialize (Holdest f Hf). unfold Age_at, SlabInfo.Age in Holdest.
      rewrite Hfree in Holdest. apply Z.eqb_neq in Hn0. rewrite Hn0 in Holdest.
      simpl in Holdest. specialize (Hst best). unfold INT_MAX in *.
      rewrite s32_small in Holdest by lia. lia. }
    assert (Hjb : j <> best) by congruence.
    rewrite (Hother j Hjb). split; reflexivity.
Qed.


(** ** Extra entries are reused for smaller requests *)

Lemma MapExtra_scan_some l bufpos sz idx i :
  In i idx -> ExtraInfo.Matches (extra_at l i) bufpos sz = true ->
  exists j, In j idx /\ MapExtra_scan l bufpos sz idx = Some j.
Proof.
  induction idx as [|i0 idx IH]; intros Hi Hm; [destruct Hi|]. simpl.
  destruct (ExtraInfo.Matches (extra_at l i0) bufpos sz) eqn:H0.
  - exists i0. split; [left; reflexivity|reflexivity].
  - destruct Hi as [->|Hi]; [congruence|].
    destruct (IH Hi Hm) as (j & Hj & Hs). exists j. split; [right; exact Hj|exact Hs].
Qed.

Lemma Matches_smaller e bufpos sz sz2 :
  sz2 <= sz -> ExtraInfo.Matches e bufpos sz = true -> ExtraInfo.Matches e bufpos sz2 = true.
Proof.
  unfold ExtraInfo.Matches. intros Hle H.
  apply andb_true_iff in H as [H Hs]. rewrite H. simpl.
  apply Z.geb_le in Hs. apply Z.geb_le. lia.
Qed.

(** X12.  An extra entry serves every smaller request at its offset.  After
    [Map] has returned an address for a range that straddles two slabs, a
    request at the same offset with a size that is not larger, and that
    still straddles, finds an entry: it returns the address of the first
    matching entry without a flush, an allocation or a copy, and changes
    nothing. *)
Theorem Map_smaller_request_is_a_hit (pushbuf_ : list Z) m w (bufpos sz sz2 : Z)
    (flush flush' : World -> World) p m1 w1 :
  BufMapping_wf m ->
  u32 bufpos / SLAB_SIZE <> u32 (bufpos + sz - 1) / SLAB_SIZE ->
  Map pushbuf_ m w bufpos sz flush = (p, m1, w1) ->
  p <> 0 ->
  sz2 <= sz ->
  u32 bufpos / SLAB_SIZE <> u32 (bufpos + sz2 - 1) / SLAB_SIZE ->
  exists i, (i < EXTRA_COUNT)%nat
    /\ ExtraInfo.Matches (extra_at (extra_ m1) i) bufpos sz2 = true
    /\ Map pushbuf_ m1 w1 bufpos sz2 flush'
       = (ExtraInfo.psp_pointer_ (extra_at (extra_ m1) i), m1, w1).
Proof.
  intros Hwf Hs1 HMap Hp Hle Hs2.
  assert (Hentry : exists i, (i < EXTRA_COUNT)%nat
                    /\ ExtraInfo.Matches (extra_at (extra_ m1) i) bufpos sz = true).
  { unfold Map in HMap. apply Z.eqb_neq in Hs1. rewrite Hs1 in HMap.
    destruct (MapExtra_scan (extra_ m) bufpos sz (seq 0 EXTRA_COUNT)) as [i|] eqn:Hscan.
    - unfold MapExtra in HMap. rewrite Hscan in HMap. injection HMap as _ <- _.
      pose proof (MapExtra_scan_unique_inv _ _ _ _ _ Hscan) as Hm.
      exists i. split; [|exact Hm].
      destruct (decide (i < EXTRA_COUNT)%nat) as [?|Hge]; [assumption|].
      rewrite extra_at_ge in Hm by (destruct Hwf as (_ & -> & _); lia).
      rewrite Matches_psp0 in Hm by reflexivity. discriminate.
    - destruct (MapExtra_miss_success pushbuf_ m w bufpos sz flush p m1 w1 Hwf Hscan HMap Hp)
        as ((i & Hi & He) & _).
      exists i. split; [exact Hi|]. rewrite He. apply Matches_fresh. exact Hp. }
  destruct Hentry as (i & Hi & Hm).
  destruct (MapExtra_scan_some (extra_ m1) bufpos sz2 (seq 0 EXTRA_COUNT) i) as (j & Hj & Hscan).
  { apply in_seq. lia. }
  { eapply Matches_smaller; eassumption. }
  exists j. split; [apply in_seq in Hj; lia|].
  split; [eapply MapExtra_scan_unique_inv; exact Hscan|].
  unfold Map. apply Z.eqb_neq in Hs2. rewrite Hs2.
  unfold MapExtra. rewrite Hscan. reflexivity.
Qed.


(** ** Tearing the executor down *)

Lemma SlabInfo_Free_spec (s : SlabInfo.t) (w : World (A:=A)) :
  SlabInfo.psp_pointer_ (SlabInfo_Free s w).1 = 0
  /\ trace (SlabInfo_Free s w).2 = slab_free_events [s] ++ trace w
  /\ mem (SlabInfo_Free s w).2 = mem w.
Proof.
  unfold SlabInfo_Free, slab_free_events, Free. simpl.
  destruct (SlabInfo.psp_pointer_ s =? 0) eqn:Hp; simpl; repeat split. lia.
Qed.

Lemma slab_free_events_cons s l :
  slab_free_events (s :: l) = slab_free_events l ++ slab_free_events [s].
Proof.
  unfold slab_free_events. simpl.
  destruct (SlabInfo.psp_pointer_ s =? 0); simpl; [rewrite app_nil_r|]; reflexivity.
Qed.

Lemma free_slabs_trace n : forall k (l : list SlabInfo.t) (w : World (A:=A)),
  (k + n = length l)%nat ->
  trace (free_slabs l (seq k n) w).2 = slab_free_events (drop k l) ++ trace w
  /\ mem (free_slabs l (seq k n) w).2 = mem w.
Proof.
  induction n as [|n IH]; intros k l w Hk; simpl.
  - rewrite drop_ge by lia. split; reflexivity.
  - assert (Hlk : exists x, l !! k = Some x) by (apply lookup_lt_is_Some; lia).
    destruct Hlk as [x Hx]. rewrite Hx. cbn [default from_option id].
    destruct (SlabInfo_Free_spec x w) as (_ & Ht & Hm).
    destruct (SlabInfo_Free x w) as [s w1]. cbn [fst snd] in Ht, Hm.
    destruct (IH (S k) (<[k := s]> l) w1) as [IH1 IH2]; [rewrite length_insert; lia|].
    rewrite IH1, IH2, Ht, Hm. split; [|reflexivity].
    rewrite drop_insert_lt by lia.
    rewrite (drop_S l x k Hx), (slab_free_events_cons x (drop (S k) l)), <- app_assoc.
    reflexivity.
Qed.

Lemma free_slabs_psp idx : forall (l : list SlabInfo.t) (w : World (A:=A)) j,
  In j idx \/ SlabInfo.psp_pointer_ (default SlabInfo.init (l !! j)) = 0 ->
  SlabInfo.psp_pointer_ (default SlabInfo.init ((free_slabs l idx w).1 !! j)) = 0.
Proof.
  induction idx as [|i idx IH]; intros l w j H; simpl.
  - destruct H as [[] | H]; exact H.
  - destruct (SlabInfo_Free_spec (default SlabInfo.init (l !! i)) w) as (Hf & _ & _).
    destruct (SlabInfo_Free (default SlabInfo.init (l !! i)) w) as [s w1]. cbn [fst] in Hf.
    apply IH. rewrite slab_at_insert.
    destruct (decide (i = j /\ (i < length l)%nat)) as [[-> Hlt] | Hn]; [right; exact Hf|].
    destruct H as [[-> | H] | H]; [|left; exact H | right; exact H].
    right. rewrite lookup_ge_None_2; [reflexivity|].
    destruct (decide (j < length l)%nat); [|lia]. exfalso. apply Hn. auto.
Qed.

(** X13.  The destructor gives everything back, once.  It frees the list
    buffer if there is one, then every allocated slab, then every allocated
    extra, each with one call of [userMemory.Free] and in this order, and
    calls nothing else; emulated memory is not written.  Afterwards the
    executor holds no address: no list buffer, no write position, no slab
    and no extra is allocated, and the generation and the round-robin
    offset are back at 0. *)
Theorem DumpExecute_destroy_frees_each_once (d : DumpExecute) (w : World (A:=A)) :
  BufMapping_wf (mapping_ d) ->
  let d' := (DumpExecute_destroy d w).1 in
  let w' := (DumpExecute_destroy d w).2 in
  trace w' = free_events (extra_ (mapping_ d)) ++ slab_free_events (slabs_ (mapping_ d))
             ++ (if execListBuf d =? 0 then [] else [EvFree (execListBuf d)]) ++ trace w
  /\ mem w' = mem w
  /\ execListBuf d' = 0 /\ execListPos d' = 0 /\ execMemcpyDest d' = 0
  /\ (forall i, SlabInfo.psp_pointer_ (slab_at (mapping_ d') i) = 0)
  /\ (forall i, ExtraInfo.psp_pointer_ (extra_at (extra_ (mapping_ d')) i) = 0)
  /\ slabGeneration_ (mapping_ d') = 0 /\ extraOffset_ (mapping_ d') = 0%nat.
Proof.
  intros (Hls & Hle & _). cbv zeta. unfold DumpExecute_destroy, Reset.
  set (w1 := if execListBuf d =? 0 then w else Free (execListBuf d) w).
  assert (Hw1 : trace w1 = (if execListBuf d =? 0 then [] else [EvFree (execListBuf d)])
                           ++ trace w /\ mem w1 = mem w).
  { unfold w1. destruct (execListBuf d =? 0); split; reflexivity. }
  destruct Hw1 as [Ht1 Hm1].
  cbn [execListBuf with_execMemcpyDest].
  replace (if negb (execListBuf d =? 0)
           then (with_execList 0 (execListPos (with_execMemcpyDest 0 d))
                   (execListID (with_execMemcpyDest 0 d)) (with_execMemcpyDest 0 d),
                 Free (execListBuf d) w)
           else (with_execMemcpyDest 0 d, w))
    with (with_execList 0 (execListPos d) (execListID d) (with_execMemcpyDest 0 d), w1).
  2: { unfold w1. destruct (execListBuf d =? 0) eqn:H0; [|reflexivity].
       apply Z.eqb_eq in H0. simpl. f_equal. destruct d; simpl in *; subst; reflexivity. }
  cbn [mapping_ with_execListPos with_execList with_execMemcpyDest].
  destruct (free_slabs_trace SLAB_COUNT 0 (slabs_ (mapping_ d)) w1) as [Ht2 Hm2]; [lia|].
  pose proof (fun j => free_slabs_psp (seq 0 SLAB_COUNT) (slabs_ (mapping_ d)) w1 j) as Hp2.
  destruct (free_slabs (slabs_ (mapping_ d)) (seq 0 SLAB_COUNT) w1) as [sl w2].
  cbn [fst snd] in Ht2, Hm2, Hp2.
  destruct (free_extras_trace EXTRA_COUNT 0 (extra_ (mapping_ d)) w2) as [Ht3 Hm3]; [lia|].
  pose proof (fun j => free_extras_psp (seq 0 EXTRA_COUNT) (extra_ (mapping_ d)) w2 j) as Hp3.
  destruct (free_extras (extra_ (mapping_ d)) (seq 0 EXTRA_COUNT) w2) as [ex w3].
  cbn [fst snd] in *. cbn [mapping_ with_mapping execListBuf execListPos execMemcpyDest
                           slabGeneration_ extraOffset_ extra_ slabs_].
  rewrite Ht3, Hm3, Ht2, Hm2, Ht1, Hm1, !drop_0.
  split; [reflexivity|]. split; [reflexivity|]. repeat (split; [reflexivity|]).
  split.
  - intros i. unfold slab_at. cbn [slabs_]. apply Hp2.
    destruct (decide (i < SLAB_COUNT)%nat) as [Hi|Hi]; [left; apply in_seq; lia|].
    right. rewrite lookup_ge_None_2 by lia. reflexivity.
  - split; [|split; reflexivity]. intros i. apply Hp3.
    destruct (decide (i < EXTRA_COUNT)%nat) as [Hi|Hi]; [left; apply in_seq; lia|].
    right. rewrite extra_at_ge by lia. reflexivity.
Qed.


(** ** A payload that fits keeps the end of the list inside the buffer *)

(** X14.  With a list in use, the write position at least 8 bytes before the
    end of the list buffer, and pending words, payload and 8 bytes no
    larger than the buffer, [Registers] leaves the write position inside the
    buffer and at least 8 bytes before its end, so that the two words of
    [SubmitListEnd] (FINISH at the position, END 4 bytes behind it) are
    written inside the buffer, and the position it leaves is at most the
    end of the buffer. *)
Theorem list_end_fits_after_Registers (pushbuf_ : list Z) d w (ptr sz : Z) :
  let pending := Z.of_nat (length (execListQueue d)) * 4 in
  let buf := execListBuf d in
  0 < buf ->
  buf + 2 * LIST_BUF_SIZE <= 2 ^ 32 ->
  buf <= execListPos d <= buf + LIST_BUF_SIZE - 8 ->
  0 <= sz -> pending + sz + 8 <= LIST_BUF_SIZE ->
  let d1 := (Registers E K pushbuf_ d w ptr sz).1 in
  let w1 := (Registers E K pushbuf_ d w ptr sz).2 in
  observe_g_cancelled E (trace w1) = false ->
  execListBuf d1 = buf
  /\ buf <= execListPos d1 /\ execListPos d1 + 8 <= buf + LIST_BUF_SIZE
  /\ (exists evs,
        trace (SubmitListEnd E K d1 w1).2
        = evs ++ [EvWrite_U32 (u32 (Z.shiftl (GE_CMD_END K) 24)) (execListPos d1 + 4);
                  EvWrite_U32 (u32 (Z.shiftl (GE_CMD_FINISH K) 24)) (execListPos d1)]
              ++ trace w1)
  /\ execListPos (SubmitListEnd E K d1 w1).1 = execListPos d1 + 8.
Proof.
  intros pending buf Hbuf Hend Hpos Hsz Hfit d1 w1 Hc.
  destruct (Registers_headroom pushbuf_ d w ptr sz Hbuf Hend Hpos Hsz Hfit) as [Hb Hp].
  fold d1 in Hb, Hp. fold buf in Hb, Hp.
  assert (Hu4 : u32 (execListPos d1 + 4) = execListPos d1 + 4).
  { unfold u32, LIST_BUF_SIZE in *. apply Z.mod_small. lia. }
  assert (Hu8 : u32 (execListPos d1 + 8) = execListPos d1 + 8).
  { unfold u32, LIST_BUF_SIZE in *. apply Z.mod_small. lia. }
  split; [exact Hb|]. split; [lia|]. split; [lia|]. split.
  - destruct (SubmitListEnd_trace d1 w1) as (evs & Htr & _); [lia|exact Hc|].
    exists evs. rewrite Htr, Hu4. reflexivity.
  - unfold SubmitListEnd. replace (execListPos d1 =? 0) with false by lia.
    rewrite Hc. cbn [orb].
    destruct (ExecuteOnMain E _ _) as [r w4]. cbn [fst execListPos with_last with_execListPos
                                                   with_execList].
    exact Hu8.
Qed.


(** ** The words [Registers] rewrites *)

Lemma poke_u32_out (addr v : Z) (mm : Zmap Z) (a : Z) :
  a < addr \/ addr + 4 <= a -> poke_u32 addr v mm !! a = mm !! a.
Proof. intros Ha. unfold poke_u32. apply store_bytes_out. rewrite length_le32_bytes. lia. Qed.

Lemma load_u32_ext (mm mm' : Zmap Z) (a : Z) :
  (forall j, a <= j < a + 4 -> mm !! j = mm' !! j) -> load_u32 mm a = load_u32 mm' a.
Proof.
  intros H. unfold load_u32, load_byte.
  rewrite (H a), (H (a + 1)), (H (a + 2)), (H (a + 3)) by lia. reflexivity.
Qed.

Lemma load_u32_poke (addr v : Z) (mm : Zmap Z) :
  0 <= v < 2 ^ 32 -> load_u32 (poke_u32 addr v mm) addr = v.
Proof. apply load_u32_store. Qed.

Lemma nop_word_u32 : 0 <= nop_word K < 2 ^ 32.
Proof. unfold nop_word, u32. apply Z.mod_pos_bound. lia. Qed.

Lemma Registers_fixup_frame (lastTexHigh : nat -> Z) (writePos : Z)
    (st : Zmap Z * list Z * Z) (i : nat) (a : Z) :
  a < writePos + 4 * Z.of_nat i \/ writePos + 4 * Z.of_nat i + 4 <= a ->
  (Registers_fixup K lastTexHigh writePos st i).1.1 !! a = st.1.1 !! a.
Proof.
  intros Ha. destruct st as [[mm bufws] base]. unfold Registers_fixup.
  destruct (_ && _); destruct (_ && _); cbn [fst];
    rewrite ?poke_u32_out by lia; reflexivity.
Qed.

Lemma Registers_fixup_fold_frame (lastTexHigh : nat -> Z) (writePos : Z) (n : nat) :
  forall (k : nat) (st : Zmap Z * list Z * Z) (a : Z),
  a < writePos + 4 * Z.of_nat k \/ writePos + 4 * Z.of_nat (k + n) <= a ->
  (fold_left (Registers_fixup K lastTexHigh writePos) (seq k n) st).1.1 !! a = st.1.1 !! a.
Proof.
  induction n as [|n IH]; intros k st a Ha; simpl; [reflexivity|].
  rewrite IH by lia. apply Registers_fixup_frame. lia.
Qed.

(** What one round leaves in the word it looks at. *)
Lemma Registers_fixup_word (lastTexHigh : nat -> Z) (writePos : Z)
    (st : Zmap Z * list Z * Z) (i : nat) :
  let addr := writePos + 4 * Z.of_nat i in
  let op := load_u32 st.1.1 addr in
  let cmd := Z.shiftr op 24 in
  let stored := load_u32 (Registers_fixup K lastTexHigh writePos st i).1.1 addr in
  (GE_CMD_TEXADDR0 K <= cmd <= GE_CMD_TEXADDR7 K -> stored = nop_word K)
  /\ (~ GE_CMD_TEXADDR0 K <= cmd <= GE_CMD_TEXADDR7 K ->
      ~ GE_CMD_TEXBUFWIDTH0 K <= cmd <= GE_CMD_TEXBUFWIDTH7 K -> stored = op).
Proof.
  destruct st as [[mm bufws] base]. cbv zeta. unfold Registers_fixup. cbn [fst].
  set (addr := writePos + 4 * Z.of_nat i).
  set (cmd := Z.shiftr (load_u32 mm addr) 24).
  destruct ((GE_CMD_TEXBUFWIDTH0 K <=? cmd) && (cmd <=? GE_CMD_TEXBUFWIDTH7 K)) eqn:Hw;
    destruct ((GE_CMD_TEXADDR0 K <=? cmd) && (cmd <=? GE_CMD_TEXADDR7 K)) eqn:Ha;
    cbn [fst]; (split; [intros Hin | intros Hna Hnw]).
  all: try (apply load_u32_poke, nop_word_u32).
  all: try (exfalso; apply andb_false_iff in Ha; lia).
  all: try (exfalso; apply Hna; apply andb_true_iff in Ha; lia).
  all: try (exfalso; apply Hnw; apply andb_true_iff in Hw; lia).
  reflexivity.
Qed.

Lemma Registers_fixup_fold_word (lastTexHigh : nat -> Z) (writePos : Z) (n : nat) :
  forall (k : nat) (st : Zmap Z * list Z * Z) (i : nat),
  (k <= i < k + n)%nat ->
  let addr := writePos + 4 * Z.of_nat i in
  let op := load_u32 st.1.1 addr in
  let cmd := Z.shiftr op 24 in
  let stored :=
    load_u32 (fold_left (Registers_fixup K lastTexHigh writePos) (seq k n) st).1.1 addr in
  (GE_CMD_TEXADDR0 K <= cmd <= GE_CMD_TEXADDR7 K -> stored = nop_word K)
  /\ (~ GE_CMD_TEXADDR0 K <= cmd <= GE_CMD_TEXADDR7 K ->
      ~ GE_CMD_TEXBUFWIDTH0 K <= cmd <= GE_CMD_TEXBUFWIDTH7 K -> stored = op).
Proof.
  induction n as [|n IH]; intros k st i Hi; [lia|]. cbv zeta. simpl.
  destruct (decide (i = k)) as [->|Hne].
  - rewrite (load_u32_ext (fold_left _ (seq (S k) n) _).1.1
                          (Registers_fixup K lastTexHigh writePos st k).1.1).
    + apply Registers_fixup_word.
    + intros j Hj. apply Registers_fixup_fold_frame. lia.
  - assert (Hsame : load_u32 (Registers_fixup K lastTexHigh writePos st k).1.1
                             (writePos + 4 * Z.of_nat i)
                    = load_u32 st.1.1 (writePos + 4 * Z.of_nat i)).
    { apply load_u32_ext. intros j Hj. apply Registers_fixup_frame. lia. }
    rewrite <- Hsame. apply IH. lia.
Qed.

(** Under the conditions of the headroom: where the wrap leaves the write
    position. *)
Lemma Registers_wrap_room d w (sz : Z) :
  let pending := Z.of_nat (length (execListQueue d)) * 4 in
  0 < execListBuf d ->
  execListBuf d + 2 * LIST_BUF_SIZE <= 2 ^ 32 ->
  execListBuf d <= execListPos d <= execListBuf d + LIST_BUF_SIZE - 8 ->
  0 <= sz -> pending + sz + 8 <= LIST_BUF_SIZE ->
  let d2 := (Registers_wrap E K d w sz).1 in
  execListQueue d2 = execListQueue d
  /\ execListBuf d <= execListPos d2
  /\ execListPos d2 + pending + sz + 8 <= execListBuf d + LIST_BUF_SIZE.
Proof.
  intros pending Hbuf Hend Hpos Hsz Hfit. cbv zeta. unfold Registers_wrap. fold pending.
  assert (Hlen : 0 <= pending) by (unfold pending; lia).
  unfold LIST_BUF_SIZE in *.
  assert (Hu : forall z, 0 <= z < 2 ^ 32 -> u32 z = z).
  { intros z Hz. unfold u32. apply Z.mod_small. exact Hz. }
  rewrite (Hu pending) by lia.
  rewrite (Hu (pending + sz + 8)) by lia.
  rewrite (Hu (execListBuf d + 256 * 1024)) by lia.
  rewrite (Hu (execListPos d + (pending + sz + 8))) by lia.
  destruct (execListPos d + (pending + sz + 8) >=? execListBuf d + 256 * 1024) eqn:Hwrap;
    cbn [fst execListBuf execListPos execListQueue with_lastBase with_last with_execListPos
         with_execList]; (split; [reflexivity|]); lia.
Qed.

(** A payload copied to memory reads back as the words of the pushbuffer. *)
Lemma load_u32_payload (pushbuf_ : list Z) (ptr sz dst : Z) (mm : Zmap Z) (i : Z) :
  0 <= ptr -> ptr + sz <= Z.of_nat (length pushbuf_) -> 0 <= i -> 4 * i + 4 <= sz ->
  load_u32 (store_bytes dst (read_bytes pushbuf_ ptr sz) mm) (dst + 4 * i)
  = pushbuf_u32 pushbuf_ (ptr + 4 * i).
Proof.
  intros Hptr Hin Hi Hsz. unfold load_u32, load_byte, pushbuf_u32.
  replace (dst + 4 * i) with (dst + (4 * i + 0)) at 1 by lia.
  replace (dst + 4 * i + 1) with (dst + (4 * i + 1)) by lia.
  replace (dst + 4 * i + 2) with (dst + (4 * i + 2)) by lia.
  replace (dst + 4 * i + 3) with (dst + (4 * i + 3)) by lia.
  rewrite !store_read_bytes by lia.
  replace (ptr + (4 * i + 0)) with (ptr + 4 * i + 0) by lia.
  replace (ptr + (4 * i + 1)) with (ptr + 4 * i + 1) by lia.
  replace (ptr + (4 * i + 2)) with (ptr + 4 * i + 2) by lia.
  replace (ptr + (4 * i + 3)) with (ptr + 4 * i + 3) by lia.
  reflexivity.
Qed.

(** X15.  What [Registers] leaves in the list for the words of its payload.
    Under the conditions of the headroom and for a payload inside the
    pushbuffer, the payload lies in the list buffer right before the new
    write position, and of its words: every texture address command
    (TEXADDR0 to TEXADDR7) has been replaced by a NOP, and every word that
    is neither a texture address nor a texture buffer width command is the
    word of the pushbuffer, unchanged. *)
Theorem Registers_rewrites_texture_words (pushbuf_ : list Z) d w (ptr sz : Z) :
  let pending := Z.of_nat (length (execListQueue d)) * 4 in
  0 < execListBuf d ->
  execListBuf d + 2 * LIST_BUF_SIZE <= 2 ^ 32 ->
  execListBuf d <= execListPos d <= execListBuf d + LIST_BUF_SIZE - 8 ->
  0 <= sz -> pending + sz + 8 <= LIST_BUF_SIZE ->
  0 <= ptr -> ptr + sz <= Z.of_nat (length pushbuf_) ->
  let d' := (Registers E K pushbuf_ d w ptr sz).1 in
  let w' := (Registers E K pushbuf_ d w ptr sz).2 in
  let writePos := execListPos d' - sz in
  forall i, 0 <= i -> 4 * i + 4 <= sz ->
    let op := pushbuf_u32 pushbuf_ (ptr + 4 * i) in
    let cmd := Z.shiftr op 24 in
    let stored := load_u32 (mem w') (writePos + 4 * i) in
    (GE_CMD_TEXADDR0 K <= cmd <= GE_CMD_TEXADDR7 K -> stored = nop_word K)
    /\ (~ GE_CMD_TEXADDR0 K <= cmd <= GE_CMD_TEXADDR7 K ->
        ~ GE_CMD_TEXBUFWIDTH0 K <= cmd <= GE_CMD_TEXBUFWIDTH7 K -> stored = op).
Proof.
  intros pending Hbuf Hend Hpos Hsz Hfit Hptr Hin. cbv zeta. intros i Hi Hi4.
  pose proof (Registers_wrap_room d w sz Hbuf Hend Hpos Hsz Hfit) as Hroom.
  cbv zeta in Hroom. fold pending in Hroom.
  unfold Registers. rewrite (Registers_ensure_list_active d w) by lia. cbn [negb].
  destruct (Registers_wrap E K d w sz) as [d2 w2]. cbn [fst] in Hroom.
  destruct Hroom as (Hq & Hlo & Hhi).
  assert (Hlen : 0 <= pending) by (unfold pending; lia).
  assert (Hu : forall z, 0 <= z < 2 ^ 32 -> u32 z = z).
  { intros z Hz. unfold u32. apply Z.mod_small. exact Hz. }
  fold pending. unfold LIST_BUF_SIZE in *.
  rewrite (Hu pending) by lia.
  rewrite (Hu (execListPos d2 + pending)) by lia.
  rewrite (Hu (execListPos d2 + pending + sz)) by lia.
  set (writePos := execListPos d2 + pending).
  set (lth := fun i0 : nat =>
                u32 (Z.lor (Z.shiftr (Z.land (at8 (lastTex_ d2) i0) 0xFF000000) 8)
                           (Z.shiftl (GE_CMD_TEXBUFWIDTH0 K + Z.of_nat i0) 24))).
  set (w3 := MemcpyUnchecked writePos (read_bytes pushbuf_ ptr sz)
               (MemcpyUnchecked (execListPos d2) (flat_map le32_bytes (execListQueue d2)) w2)).
  set (st := (mem w3, lastBufw_ d2, lastBase_ d2)).
  assert (Hn : (0 <= Z.to_nat i < 0 + Z.to_nat (sz / 4))%nat).
  { split; [lia|]. simpl. apply Z2Nat.inj_lt; [lia|by_division|by_division]. }
  pose proof (Registers_fixup_fold_word lth writePos (Z.to_nat (sz / 4)) 0 st (Z.to_nat i) Hn)
    as Hword.
  cbv zeta in Hword. rewrite Z2Nat.id in Hword by lia.
  assert (Hop : load_u32 st.1.1 (writePos + 4 * i) = pushbuf_u32 pushbuf_ (ptr + 4 * i)).
  { unfold st, w3. cbn [fst mem MemcpyUnchecked]. apply load_u32_payload; assumption. }
  rewrite Hop in Hword.
  destruct (fold_left (Registers_fixup K lth writePos) (seq 0 (Z.to_nat (sz / 4))) st)
    as [[mm bufws] base] eqn:Hfold.
  cbn [fst snd mem execListPos with_execListQueue with_last with_execListPos with_execList].
  cbn [fst] in Hword.
  replace (writePos + sz - sz) with writePos by lia. exact Hword.
Qed.


(** ** Payloads copied straight into emulated memory *)

(** X16.  [MemcpyDest] and [Memcpy] together.  The address recorded by
    [MemcpyDest] is where the next [Memcpy] copies its payload, and only
    when it is a video memory address: then, after a stall, the bytes of
    the payload are in emulated memory from that address on, and the write
    is notified and handed to the GPU; otherwise [Memcpy] does nothing at
    all.  Neither handler queues a list word. *)
Theorem MemcpyDest_then_Memcpy (pushbuf_ : list Z) d (w : World (A:=A)) (ptr0 sz0 ptr sz : Z) :
  let dest := pushbuf_u32 pushbuf_ ptr0 in
  let d1 := (MemcpyDest pushbuf_ d w ptr0 sz0).1 in
  let d2 := (Memcpy E pushbuf_ d1 w ptr sz).1 in
  let w2 := (Memcpy E pushbuf_ d1 w ptr sz).2 in
  execListQueue d2 = execListQueue d
  /\ (Memory_IsVRAMAddress E dest = false -> w2 = w)
  /\ (Memory_IsVRAMAddress E dest = true ->
      trace w2 = EvPerformWriteColorFromMemory dest sz
                 :: EvNotifyMemInfo dest sz "ReplayMemcpy"
                 :: EvMemcpy dest (read_bytes pushbuf_ ptr sz) :: trace (SyncStall E d w)
      /\ (0 <= ptr -> ptr + sz <= Z.of_nat (length pushbuf_) ->
          forall k, 0 <= k < sz -> mem w2 !! (dest + k) = pushbuf_ !! Z.to_nat (ptr + k))).
Proof.
  cbv zeta. unfold MemcpyDest, Memcpy. cbn [fst snd execMemcpyDest with_execMemcpyDest].
  destruct (Memory_IsVRAMAddress E (pushbuf_u32 pushbuf_ ptr0)) eqn:Hv; cbn [fst snd].
  - split; [reflexivity|]. split; [discriminate|]. intros _.
    assert (Hs : SyncStall E (with_execMemcpyDest (pushbuf_u32 pushbuf_ ptr0) d) w
                 = SyncStall E d w) by reflexivity.
    rewrite Hs. split; [reflexivity|].
    intros Hptr Hin k Hk. cbn [mem log MemcpyUnchecked]. apply store_read_bytes; lia.
  - split; [reflexivity|]. split; [reflexivity|discriminate].
Qed.

(** X17.  [ClutAddr] and [Clut] together.  A palette whose recorded
    address is not 0 goes straight to that address: [Clut] copies its
    payload there when the range is valid and the palette is not a render
    target or rendering is not in software, queues no list word, leaves the
    mapper alone, and forgets the address, so that a [Clut] that follows
    takes the other path.  With the address 0, [Clut] maps its payload and
    queues two words: the upper address bits, then the palette address. *)
Theorem ClutAddr_then_Clut (pushbuf_ : list Z) d (w : World (A:=A)) (ptr0 sz0 ptr sz : Z) :
  let addr := pushbuf_u32 pushbuf_ ptr0 in
  let flags := pushbuf_u32 pushbuf_ (ptr0 + 4) in
  let d1 := (ClutAddr pushbuf_ d w ptr0 sz0).1 in
  let d2 := (Clut E K pushbuf_ d1 w ptr sz).1 in
  let w2 := (Clut E K pushbuf_ d1 w ptr sz).2 in
  execClutAddr d2 = 0
  /\ (addr <> 0 ->
      execListQueue d2 = execListQueue d /\ mapping_ d2 = mapping_ d
      /\ w2 = if Memory_IsValidRange E addr sz
                 && (negb (Z.testbit flags 0)
                     || negb (g_Config_bSoftwareRendering E (trace w)))
              then log (EvNotifyMemInfo addr sz "ReplayClut")
                     (MemcpyUnchecked addr (read_bytes pushbuf_ ptr sz) w)
              else w)
  /\ (addr = 0 ->
      forall psp, (map_payload E pushbuf_ d1 w ptr sz).1.1 = psp -> psp <> 0 ->
        execListQueue d2
        = execListQueue d
          ++ [u32 (Z.lor (Z.shiftl (GE_CMD_CLUTADDRUPPER K) 24)
                         (Z.land (Z.shiftr psp 8) 0x00FF0000));
              addr_word (GE_CMD_CLUTADDR K) psp]).
Proof.
  cbv zeta. unfold ClutAddr, Clut. cbn [fst snd execClutAddr execClutFlags with_execClut].
  set (addr := pushbuf_u32 pushbuf_ ptr0). set (flags := pushbuf_u32 pushbuf_ (ptr0 + 4)).
  set (d1 := with_execClut addr flags d).
  destruct (addr =? 0) eqn:H0; cbn [negb].
  - apply Z.eqb_eq in H0.
    pose proof (map_payload_keeps pushbuf_ d1 w ptr sz) as [Hq _].
    assert (Hc : execClutAddr (map_payload E pushbuf_ d1 w ptr sz).1.2 = 0).
    { unfold map_payload. destruct (Map _ _ _ _ _ _) as [[p0 m0] w0]. cbn [fst snd].
      unfold d1. cbn [execClutAddr with_mapping with_execClut]. exact H0. }
    destruct (map_payload E pushbuf_ d1 w ptr sz) as [[psp d1'] w1]. cbn [fst snd] in *.
    split.
    + destruct (psp =? 0); cbn [fst]; [exact Hc|].
      cbn [execClutAddr push_back with_execListQueue]. exact Hc.
    + split; [intros Hn; congruence|]. intros _ psp' <- Hp.
      replace (psp =? 0) with false by lia. cbn [fst execListQueue push_back with_execListQueue].
      rewrite Hq. unfold d1. cbn [execListQueue with_execClut].
      rewrite <- app_assoc. reflexivity.
  - apply Z.eqb_neq in H0. cbn [fst snd execClutAddr with_execClut].
    split; [reflexivity|]. split; [|intros; congruence]. intros _.
    split; [reflexivity|]. split; [reflexivity|].
    rewrite land_1_testbit, negb_involutive. reflexivity.
Qed.


(** ** Framebuf: the words it queues, and when it queues them again *)

Lemma at8_insert (l : list Z) (level : nat) (x : Z) :
  (level < length l)%nat -> at8 (<[level := x]> l) level = x.
Proof. intros H. unfold at8. rewrite list_lookup_insert_eq by exact H. reflexivity. Qed.

(** X18.  [Framebuf] remembers the address and the buffer width it has
    queued for a texture level, the width cut to 16 bits as [lastBufw_]
    stores it.  The same record again queues nothing when its width fits 16
    bits; a width outside 0..65535 never equals the stored one, and the two
    words are queued again every time. *)
Theorem Framebuf_twice (pushbuf_ : list Z) (level : nat) d (w : World (A:=A)) (ptr sz : Z) :
  (level < 8)%nat ->
  length (lastTex_ d) = 8%nat -> length (lastBufw_ d) = 8%nat ->
  Forall (fun b => 0 <= b < 2 ^ 16) (lastBufw_ d) ->
  let addr := pushbuf_u32 pushbuf_ ptr in
  let bufw := s32 (pushbuf_u32 pushbuf_ (ptr + 4)) in
  let words :=
    [u32 (Z.lor (Z.lor (Z.shiftl (GE_CMD_TEXBUFWIDTH0 K + Z.of_nat level) 24)
                       (Z.land (Z.shiftr addr 8) 0x00FF0000)) bufw);
     addr_word (GE_CMD_TEXADDR0 K + Z.of_nat level) addr] in
  let r1 := Framebuf E K pushbuf_ level d w ptr sz in
  let r2 := Framebuf E K pushbuf_ level r1.1 r1.2 ptr sz in
  at8 (lastTex_ r1.1) level = addr
  /\ at8 (lastBufw_ r1.1) level = u16 bufw
  /\ execListQueue r2.1
     = execListQueue r1.1 ++ (if (0 <=? bufw) && (bufw <? 2 ^ 16) then [] else words).
Proof.
  intros Hlevel Hlt Hlb Hu16. cbv zeta.
  set (addr := pushbuf_u32 pushbuf_ ptr). set (bufw := s32 (pushbuf_u32 pushbuf_ (ptr + 4))).
  assert (Hd : forall d0 (w0 : World (A:=A)),
            (Framebuf E K pushbuf_ level d0 w0 ptr sz).1
            = if negb (at8 (lastTex_ d0) level =? addr) || negb (at8 (lastBufw_ d0) level =? bufw)
              then
                let d' := push_back (addr_word (GE_CMD_TEXADDR0 K + Z.of_nat level) addr)
                            (push_back
                               (u32 (Z.lor (Z.lor (Z.shiftl (GE_CMD_TEXBUFWIDTH0 K
                                                             + Z.of_nat level) 24)
                                                  (Z.land (Z.shiftr addr 8) 0x00FF0000)) bufw))
                               d0) in
                with_last (<[level := u16 bufw]> (lastBufw_ d')) (<[level := addr]> (lastTex_ d'))
                          (lastBase_ d') d'
              else d0).
  { intros d0 w0. unfold Framebuf. fold addr. fold bufw.
    destruct (Memory_IsValidRange E addr _ && _ && _); reflexivity. }
  rewrite !Hd.
  assert (Hold : 0 <= at8 (lastBufw_ d) level < 2 ^ 16).
  { unfold at8. destruct (lastBufw_ d !! level) as [x|] eqn:Hx; simpl; [|lia].
    apply (proj1 (Forall_lookup _ _) Hu16 _ _ Hx). }
  destruct (negb (at8 (lastTex_ d) level =? addr) || negb (at8 (lastBufw_ d) level =? bufw))
    eqn:Hemit.
  - cbv zeta. cbn [lastTex_ lastBufw_ with_last push_back with_execListQueue execListQueue].
    rewrite !at8_insert by lia. rewrite Z.eqb_refl. cbn [negb orb].
    split; [reflexivity|]. split; [reflexivity|].
    destruct ((0 <=? bufw) && (bufw <? 2 ^ 16)) eqn:Hr.
    + replace (u16 bufw =? bufw) with true
        by (symmetry; apply Z.eqb_eq; unfold u16; apply Z.mod_small; lia).
      cbn [negb]. rewrite app_nil_r. reflexivity.
    + assert (Hu : 0 <= u16 bufw < 2 ^ 16) by (unfold u16; apply Z.mod_pos_bound; lia).
      replace (u16 bufw =? bufw) with false by (symmetry; apply Z.eqb_neq; lia).
      cbn [negb lastTex_ lastBufw_ with_last push_back with_execListQueue execListQueue].
      rewrite <- !app_assoc. reflexivity.
  - apply orb_false_iff in Hemit as [Ht Hb].
    apply negb_false_iff, Z.eqb_eq in Ht. apply negb_false_iff, Z.eqb_eq in Hb.
    rewrite Ht, Hb, !Z.eqb_refl. cbn [negb orb].
    split; [reflexivity|]. split; [unfold u16; symmetry; apply Z.mod_small; lia|].
    replace ((0 <=? bufw) && (bufw <? 2 ^ 16)) with true by (symmetry; apply andb_true_iff; lia).
    rewrite app_nil_r. reflexivity.
Qed.


(** ** What [Run] returns *)

Lemma dispatch_None_unsupported (pushbuf_ : list Z) d w cmd isLast :
  dispatch E K pushbuf_ d w cmd isLast = None -> supported (cmd_type cmd) = false.
Proof.
  intros Hd. destruct (supported (cmd_type cmd)) eqn:Hs; [|reflexivity].
  destruct (dispatch_supported pushbuf_ d w cmd isLast Hs) as [r Hr]. congruence.
Qed.

Lemma Run_loop_Error (pushbuf_ : list Z) (size : nat) (cmds : list Command) :
  forall i d w,
  (Run_loop E K pushbuf_ size i cmds d w).1.1 = LoopReturnError ->
  exists c, In c cmds /\ supported (cmd_type c) = false.
Proof.
  induction cmds as [|cmd rest IH]; intros i d w; cbn [Run_loop]; [discriminate|].
  destruct (observe_g_cancelled E (trace w)); [discriminate|].
  destruct (dispatch E K pushbuf_ d w cmd (S i =? size)%nat) as [[d1 w1]|] eqn:Hd.
  - intros H. destruct (IH _ _ _ H) as (c & Hc & Hs). exists c. split; [right; exact Hc|exact Hs].
  - intros _. exists cmd. split; [left; reflexivity|].
    eapply dispatch_None_unsupported. exact Hd.
Qed.

(** X19.  [Run] never returns [Break], and it returns [Error] only when
    the list holds a command of a type it has no case for: a list of
    supported commands always ends in [Done], cancelled or not, whatever
    the handlers met on their way (a failed allocation, an invalid
    range). *)
Theorem Run_returns_Done_or_Error (pushbuf_ : list Z) (commands_ : list Command) d w :
  let r := (Run E K pushbuf_ commands_ d w).1.1 in
  r <> Break
  /\ (r = Error -> exists c, In c commands_ /\ supported (cmd_type c) = false)
  /\ (Forall (fun c => supported (cmd_type c) = true) commands_ -> r = Done).
Proof.
  cbv zeta. unfold Run.
  set (w0 := if gpu E then log (EvSetAddrTranslation 0x400) w else w).
  set (w1 := if resumeIndex_ d >=? 0 then SyncStall E d w0 else w0).
  set (start := Z.to_nat _).
  pose proof (Run_loop_Error pushbuf_ (length commands_) (drop start commands_) start d w1)
    as Herr.
  destruct (Run_loop E K pushbuf_ (length commands_) start (drop start commands_) d w1)
    as [[ex d2] w2]. cbn [fst] in Herr.
  assert (Hsub : forall c, In c (drop start commands_) -> In c commands_).
  { intros c Hc. apply list_elem_of_In. apply list_elem_of_In in Hc.
    apply list_elem_of_lookup in Hc as [j Hj]. rewrite lookup_drop in Hj.
    apply list_elem_of_lookup. eauto. }
  destruct ex.
  - destruct (SubmitListEnd E K d2 w2) as [d3 w3]. cbn [fst].
    split; [discriminate|]. split; [discriminate|reflexivity].
  - cbn [fst]. split; [discriminate|].
    destruct (Herr eq_refl) as (c & Hc & Hs).
    split.
    + intros _. exists c. split; [apply Hsub; exact Hc|exact Hs].
    + intros Hall. exfalso. rewrite Forall_forall in Hall.
      rewrite (Hall c) in Hs; [discriminate|]. apply list_elem_of_In, Hsub, Hc.
Qed.

(** X20.  A run that is cancelled before its first command, or that has no
    command and no list, does nothing but set the address translation: no
    handler runs, nothing is written, allocated or posted, the list is not
    finalized, and the result is [Done] all the same. *)
Theorem Run_without_work (pushbuf_ : list Z) (commands_ : list Command) d w :
  resumeIndex_ d < 0 ->
  let w0 := if gpu E then log (EvSetAddrTranslation 0x400) w else w in
  observe_g_cancelled E (trace w0) = true \/ (commands_ = [] /\ execListPos d = 0) ->
  Run E K pushbuf_ commands_ d w = (Done, d, w0).
Proof.
  intros Hres w0 Hcase. unfold Run. fold w0.
  replace (resumeIndex_ d >=? 0) with false by lia.
  change (Z.to_nat 0) with 0%nat. rewrite drop_0.
  destruct Hcase as [Hc | [-> Hpos]].
  - assert (Hloop : Run_loop E K pushbuf_ (length commands_) 0 commands_ d w0 = (LoopEnd, d, w0)).
    { destruct commands_ as [|c rest]; [reflexivity|]. cbn [Run_loop]. rewrite Hc.
      reflexivity. }
    rewrite Hloop. unfold SubmitListEnd. rewrite Hc, orb_true_r. reflexivity.
  - simpl. unfold SubmitListEnd. rewrite Hpos. reflexivity.
Qed.


(** ** Registers without a list buffer *)

(** X21.  When the list buffer cannot be allocated (the allocator returns 0
    or -1), [Registers] drops its payload: the executor is left as it was,
    still without a list and with its pending words, emulated memory is not
    written, nothing is posted to the main thread, and the only events are
    the failed allocation and the error message. *)
Theorem Registers_without_list_buffer (pushbuf_ : list Z) d (w : World (A:=A)) (ptr sz : Z) :
  execListBuf d = 0 ->
  let r := u32 (userMemory_Alloc A (heap w) LIST_BUF_SIZE true "List buf").1 in
  r = 0 \/ r = u32 (-1) ->
  let d' := (Registers E K pushbuf_ d w ptr sz).1 in
  let w' := (Registers E K pushbuf_ d w ptr sz).2 in
  d' = d
  /\ mem w' = mem w
  /\ trace w' = EvErrorLog "Unable to allocate for display list"
                :: EvAlloc LIST_BUF_SIZE true "List buf" r :: trace w.
Proof.
  intros Hbuf r Hr. cbv zeta. unfold Registers, Registers_ensure_list, Alloc.
  rewrite Hbuf. cbn [Z.eqb].
  fold r. destruct (userMemory_Alloc A (heap w) LIST_BUF_SIZE true "List buf") as [a h].
  cbn [fst] in r. fold r.
  assert (Hz : ((if r =? u32 (-1) then 0 else r) =? 0) = true).
  { destruct Hr as [-> | ->]; reflexivity. }
  rewrite Hz. cbn [negb fst snd mem trace log].
  split; [|split; reflexivity].
  destruct d; simpl in *; subst; reflexivity.
Qed.

(** ** Display: only the last command flips *)

(** X22.  In a run that is not cancelled, a DISPLAY command behind
    supported commands stalls, sets the framebuffer with the sync mode 1,
    and sets it once more with the mode 0 (the flip) exactly when it is the
    last command of the list; the loop then goes on with the commands
    behind it. *)
Theorem only_the_last_DISPLAY_flips (pushbuf_ : list Z) (pre post : list Command)
    (ptr sz : Z) d w :
  (forall tr, observe_g_cancelled E tr = false) ->
  Forall (fun c => supported (cmd_type c) = true) pre ->
  let commands_ := pre ++ mkCommand DISPLAY ptr sz :: post in
  let isLast := match post with [] => true | _ => false end in
  let topaddr := pushbuf_u32 pushbuf_ ptr in
  let linesize := s32 (pushbuf_u32 pushbuf_ (ptr + 4)) in
  let pixelFormat := s32 (pushbuf_u32 pushbuf_ (ptr + 8)) in
  exists d' w' w'',
    Run_loop E K pushbuf_ (length commands_) 0 pre d w = (LoopEnd, d', w')
    /\ Run_loop E K pushbuf_ (length commands_) 0 commands_ d w
       = Run_loop E K pushbuf_ (length commands_) (S (length pre)) post d' w''
    /\ trace w'' = (if isLast then [EvDisplaySetFramebuf topaddr linesize pixelFormat 0]
                    else [])
                   ++ EvDisplaySetFramebuf topaddr linesize pixelFormat 1
                   :: trace (SyncStall E d' w').
Proof.
  intros Hnc Hpre commands_ isLast topaddr linesize pixelFormat.
  destruct (Run_loop_prefix pushbuf_ (length commands_) pre Hnc Hpre 0%nat d w)
    as (d' & w' & Hloop & Hrest).
  exists d', w', (Display E pushbuf_ d' w' ptr sz isLast).2. split; [exact Hloop|].
  unfold commands_ at 2. rewrite Hrest. cbn [Run_loop Nat.add].
  rewrite Hnc. cbn [dispatch cmd_type cmd_ptr cmd_sz].
  assert (Hlast : (S (length pre) =? length commands_)%nat = isLast).
  { unfold commands_, isLast. rewrite length_app. cbn [length].
    destruct post; [apply Nat.eqb_eq | apply Nat.eqb_neq]; simpl; lia. }
  rewrite Hlast. unfold Display. fold topaddr linesize pixelFormat.
  unfold isLast. destruct post; split; reflexivity.
Qed.


(** ** The loader: short files, and what a load leaves in the cache *)

(** X23.  [ReadCompressed] on a file that ends too early.  When fewer than
    4 bytes are left for the compressed length, or fewer bytes follow than
    this length announces, the read fails, the decompressor is not called
    and the destination is left as it was. *)
Theorem ReadCompressed_short_file (fp : File) (dest : list Z) (sz v : Z) :
  let remaining := drop (file_pos fp) (file_bytes fp) in
  (length remaining < 4)%nat
  \/ Z.of_nat (length remaining) - 4 < le32 (take 4 remaining) ->
  (ReadCompressed C fp dest sz v).1.1 = false
  /\ (ReadCompressed C fp dest sz v).1.2 = dest.
Proof.
  intros remaining Hshort.
  assert (H : exists fp', ReadCompressed C fp dest sz v = (false, dest, fp')).
  { unfold ReadCompressed, ReadFile at 1. fold remaining.
    change (Z.to_nat 4) with 4%nat.
    destruct (decide (length remaining < 4)%nat) as [Hlt|Hge].
    - replace (length (take 4 remaining) =? 4)%nat with false
        by (symmetry; apply Nat.eqb_neq; rewrite length_take; lia).
      eexists. reflexivity.
    - destruct Hshort as [Hlt|Hcs]; [lia|].
      assert (Hl4 : length (take 4 remaining) = 4%nat) by (rewrite length_take; lia).
      rewrite Hl4. cbn [Nat.eqb negb]. unfold ReadFile. cbn [file_pos file_bytes].
      set (cs := le32 (take 4 remaining)) in *.
      assert (Hlen : Z.of_nat (length (take (Z.to_nat cs)
                                            (drop (file_pos fp + 4) (file_bytes fp)))) <> cs).
      { rewrite length_take, length_drop. unfold remaining in *.
        rewrite length_drop in Hcs, Hge. lia. }
      apply Z.eqb_neq in Hlen. rewrite Hlen. eexists. reflexivity. }
  destruct H as [fp' ->]. split; reflexivity.
Qed.

Lemma ReadCompressed_layout_data (fp : File) (dest : list Z) (sz v : Z)
    (stream rest : list Z) :
  drop (file_pos fp) (file_bytes fp)
  = le32_bytes (Z.of_nat (length stream)) ++ stream ++ rest ->
  Z.of_nat (length stream) < 2 ^ 32 ->
  exists fp',
    ReadCompressed C fp dest sz v
    = (decompressed_size C v stream sz =? sz, overlay (decompressed C v stream sz) dest, fp')
    /\ drop (file_pos fp') (file_bytes fp') = rest.
Proof.
  intros Hdrop Hlen. unfold ReadCompressed.
  destruct (ReadFile_app fp 4 _ _ Hdrop eq_refl) as [-> Hd1].
  rewrite length_le32_bytes. cbn [Nat.eqb negb].
  rewrite le32_le32_bytes by lia.
  set (fp1 := mkFile (file_bytes fp) (file_pos fp + 4)) in *.
  assert (Hn : Z.to_nat (Z.of_nat (length stream)) = length stream) by lia.
  destruct (ReadFile_app fp1 (Z.of_nat (length stream)) stream rest Hd1 Hn) as [-> Hd2].
  rewrite Z.eqb_refl. cbn [negb]. unfold decompressed_size, decompressed.
  destruct (if v <? 5 then _ else _) as [written real_size]. cbn [fst snd].
  eexists. split; [reflexivity|]. exact Hd2.
Qed.


(** How [LoadReplay] gets to the two streams of a capture whose header is
    accepted: the process before the streams are read, and the file at the
    first stream. *)
Lemma LoadReplay_to_streams (p : Process) (filename : string) (sz bufsz : Z)
    (cstream pstream : list Z) :
  let content := file_content M filename in
  let header :=
    Header_of_bytes F (overlay (take (sizeof_Header F) content)
                               (replicate (sizeof_Header F) 0)) in
  let v := version header in
  let body := drop (if v <=? 3 then 12%nat else sizeof_Header F) content in
  magic header = take (sizeof_magic F) (HEADER_MAGIC F) ->
  MIN_VERSION F <= v <= VERSION F ->
  capture_streams body sz bufsz cstream pstream ->
  0 <= sz < 2 ^ 32 -> 0 <= bufsz < 2 ^ 32 ->
  Z.of_nat (length cstream) < 2 ^ 32 -> Z.of_nat (length pstream) < 2 ^ 32 ->
  exists p1,
    lastExecFilename p1 = lastExecFilename p /\ lastExecVersion p1 = lastExecVersion p
    /\ lastExecCommands p1 = lastExecCommands p /\ lastExecPushbuf p1 = lastExecPushbuf p
    /\ replayThread p1 = replayThread p /\ g_cancelled p1 = false
    /\ let cmds := overlay (decompressed C v cstream (sizeof_Command F * sz))
                     (resize_bytes (sizeof_Command F * sz) (lastExecCommands p)) in
       let pushbuf := resize_bytes bufsz (lastExecPushbuf p) in
       LoadReplay F C M p filename
       = if decompressed_size C v cstream (sizeof_Command F * sz) =? sizeof_Command F * sz
         then
           let pushbuf' := overlay (decompressed C v pstream bufsz) pushbuf in
           if decompressed_size C v pstream bufsz =? bufsz
           then (v, with_lastExec filename v (with_lastExecData cmds pushbuf' p1))
           else (0, mlog (MErrorLog "Truncated GE dump detected - can't replay")
                      (with_lastExecData cmds pushbuf' p1))
         else (0, mlog (MErrorLog "Truncated GE dump detected - can't replay")
                    (with_lastExecData cmds pushbuf p1)).
Proof.
  intros content header v body Hmagic Hver [rest Hlayout] Hsz Hbufsz Hclen Hplen.
  unfold LoadReplay, ReadFile at 1. cbn [file_pos file_bytes].
  rewrite Nat2Z.id. change (drop 0 (file_content M filename)) with content.
  fold header. fold v.
  replace (negb (list_Z_eqb (magic header) (take (sizeof_magic F) (HEADER_MAGIC F)))
           || (v >? VERSION F) || (v <? MIN_VERSION F)) with false.
  2: { symmetry. apply orb_false_iff. split; [apply orb_false_iff; split|]; [|lia|lia].
       apply negb_false_iff, list_Z_eqb_eq. exact Hmagic. }
  set (p0 := with_g_cancelled false p).
  fold content.
  set (fp0 := mkFile content (0 + length (take (sizeof_Header F) content))).
  assert (Hcur : exists fp1 gid,
            (if v <=? 3 then (SeekFile fp0 12, replicate (sizeof_gameID F) 0)
             else (fp0, gameID header)) = (fp1, gid)
            /\ file_bytes fp1 = content /\ drop (file_pos fp1) content = body).
  { unfold body. destruct (v <=? 3).
    - eexists. eexists. split; [reflexivity|]. split; reflexivity.
    - eexists. eexists. split; [reflexivity|]. split; [reflexivity|].
      unfold fp0. cbn [file_pos]. apply drop_length_take. }
  destruct Hcur as (fp1 & gid & -> & Hbytes & Hdrop).
  set (p1 := if negb (strnlen gid (sizeof_gameID F) =? 0)%nat
             then mlog (MSetWindowTitle true)
                    (mlog (MSetDiscID (take (strnlen gid (sizeof_gameID F)) gid)) p0)
             else mlog (MSetWindowTitle false) p0).
  exists p1.
  assert (Hp1 : lastExecFilename p1 = lastExecFilename p /\ lastExecVersion p1 = lastExecVersion p
                /\ lastExecCommands p1 = lastExecCommands p
                /\ lastExecPushbuf p1 = lastExecPushbuf p
                /\ replayThread p1 = replayThread p /\ g_cancelled p1 = false).
  { unfold p1. destruct (negb _); repeat split; reflexivity. }
  destruct Hp1 as (H1 & H2 & H3 & H4 & H5 & H6).
  repeat (split; [assumption|]). cbv zeta.
  rewrite Hlayout in Hdrop. rewrite <- Hbytes in Hdrop.
  destruct (ReadFile_app fp1 4 _ _ Hdrop eq_refl) as [-> Hd1].
  set (fp2 := mkFile (file_bytes fp1) (file_pos fp1 + length (le32_bytes sz))) in *.
  destruct (ReadFile_app fp2 4 _ _ Hd1 eq_refl) as [-> Hd2].
  set (fp3 := mkFile (file_bytes fp2) (file_pos fp2 + length (le32_bytes bufsz))) in *.
  change (overlay (le32_bytes sz) [0; 0; 0; 0]) with (le32_bytes sz).
  change (overlay (le32_bytes bufsz) [0; 0; 0; 0]) with (le32_bytes bufsz).
  rewrite !le32_le32_bytes by lia.
  destruct (ReadCompressed_layout_data fp3
              (resize_bytes (sizeof_Command F * sz) (lastExecCommands p1))
              (sizeof_Command F * sz) v cstream _ Hd2 Hclen) as (fp4 & -> & Hd3).
  rewrite H3, H4.
  destruct (decompressed_size C v cstream (sizeof_Command F * sz) =? sizeof_Command F * sz)
    eqn:Hc1; cbn [negb orb]; [|reflexivity].
  destruct (ReadCompressed_layout_data fp4 (resize_bytes bufsz (lastExecPushbuf p))
              bufsz v pstream rest Hd3 Hplen) as (fp5 & -> & _).
  destruct (decompressed_size C v pstream bufsz =? bufsz) eqn:Hc2; cbn [negb]; reflexivity.
Qed.

(** X24.  A capture that is well formed is loaded and cached under its
    name.  With the magic bytes, a version in range and two streams that
    decompress to the sizes declared, [LoadReplay] returns the version of
    the header, remembers the file name and the version, holds the
    decompressed commands and pushbuffer, and has reset the cancellation
    flag; no thread is started or joined. *)
Theorem LoadReplay_accepts (p : Process) (filename : string) (sz bufsz : Z)
    (cstream pstream : list Z) :
  let content := file_content M filename in
  let header :=
    Header_of_bytes F (overlay (take (sizeof_Header F) content)
                               (replicate (sizeof_Header F) 0)) in
  let v := version header in
  let body := drop (if v <=? 3 then 12%nat else sizeof_Header F) content in
  magic header = take (sizeof_magic F) (HEADER_MAGIC F) ->
  MIN_VERSION F <= v <= VERSION F ->
  capture_streams body sz bufsz cstream pstream ->
  0 <= sz < 2 ^ 32 -> 0 <= bufsz < 2 ^ 32 ->
  Z.of_nat (length cstream) < 2 ^ 32 -> Z.of_nat (length pstream) < 2 ^ 32 ->
  decompressed_size C v cstream (sizeof_Command F * sz) = sizeof_Command F * sz ->
  decompressed_size C v pstream bufsz = bufsz ->
  exists p',
    LoadReplay F C M p filename = (v, p')
    /\ lastExecFilename p' = filename /\ lastExecVersion p' = v
    /\ lastExecCommands p'
       = overlay (decompressed C v cstream (sizeof_Command F * sz))
           (resize_bytes (sizeof_Command F * sz) (lastExecCommands p))
    /\ lastExecPushbuf p'
       = overlay (decompressed C v pstream bufsz) (resize_bytes bufsz (lastExecPushbuf p))
    /\ g_cancelled p' = false
    /\ replayThread p' = replayThread p.
Proof.
  intros content header v body Hmagic Hver Hlayout Hsz Hbufsz Hclen Hplen Hc Hp.
  destruct (LoadReplay_to_streams p filename sz bufsz cstream pstream
              Hmagic Hver Hlayout Hsz Hbufsz Hclen Hplen)
    as (p1 & _ & _ & _ & _ & Ht & Hg & Hload).
  cbv zeta in Hload. fold content header v in Hload.
  rewrite Hc, Hp, !Z.eqb_refl in Hload.
  eexists. split; [exact Hload|].
  cbn [lastExecFilename lastExecVersion lastExecCommands lastExecPushbuf g_cancelled
       replayThread with_lastExec with_lastExecData].
  repeat split; assumption.
Qed.

(** X25.  What a load that fails leaves in the cache.  A header that is
    rejected leaves the cached name, version, commands and pushbuffer as
    they were.  A capture that turns out truncated leaves the cached name
    and version too, but not the data: the two vectors have been resized
    to the sizes the new file declares and overwritten with what was
    decompressed.  In both cases the cancellation flag has been reset. *)
Theorem LoadReplay_failure_and_the_cache (p : Process) (filename : string) :
  let content := file_content M filename in
  let header :=
    Header_of_bytes F (overlay (take (sizeof_Header F) content)
                               (replicate (sizeof_Header F) 0)) in
  let v := version header in
  let body := drop (if v <=? 3 then 12%nat else sizeof_Header F) content in
  let p' := (LoadReplay F C M p filename).2 in
  (magic header <> take (sizeof_magic F) (HEADER_MAGIC F)
   \/ v > VERSION F \/ v < MIN_VERSION F ->
   (LoadReplay F C M p filename).1 = 0
   /\ lastExecFilename p' = lastExecFilename p /\ lastExecVersion p' = lastExecVersion p
   /\ lastExecCommands p' = lastExecCommands p /\ lastExecPushbuf p' = lastExecPushbuf p
   /\ g_cancelled p' = false)
  /\ (forall sz bufsz cstream pstream,
        magic header = take (sizeof_magic F) (HEADER_MAGIC F) ->
        MIN_VERSION F <= v <= VERSION F ->
        capture_streams body sz bufsz cstream pstream ->
        0 <= sz < 2 ^ 32 -> 0 <= bufsz < 2 ^ 32 ->
        Z.of_nat (length cstream) < 2 ^ 32 -> Z.of_nat (length pstream) < 2 ^ 32 ->
        decompressed_size C v cstream (sizeof_Command F * sz) <> sizeof_Command F * sz ->
        (LoadReplay F C M p filename).1 = 0
        /\ lastExecFilename p' = lastExecFilename p /\ lastExecVersion p' = lastExecVersion p
        /\ lastExecCommands p'
           = overlay (decompressed C v cstream (sizeof_Command F * sz))
               (resize_bytes (sizeof_Command F * sz) (lastExecCommands p))
        /\ lastExecPushbuf p' = resize_bytes bufsz (lastExecPushbuf p)
        /\ g_cancelled p' = false).
Proof.
  intros content header v body. cbv zeta. split.
  - intros Hbad.
    assert (Hload : LoadReplay F C M p filename
                    = (0, mlog (MErrorLog "Invalid GE dump or unsupported version")
                            (with_g_cancelled false p))).
    { unfold LoadReplay, ReadFile at 1. cbn [file_pos file_bytes].
      rewrite Nat2Z.id. change (drop 0 (file_content M filename)) with content.
      fold header. fold v.
      replace (negb (list_Z_eqb (magic header) (take (sizeof_magic F) (HEADER_MAGIC F)))
               || (v >? VERSION F) || (v <? MIN_VERSION F)) with true; [reflexivity|].
      symmetry. destruct (list_Z_eqb (magic header) (take (sizeof_magic F) (HEADER_MAGIC F)))
        eqn:Hm; [|reflexivity].
      apply list_Z_eqb_eq in Hm. cbn [negb orb].
      destruct Hbad as [Hbad | [Hbad | Hbad]]; [congruence| |];
        apply orb_true_iff; [left|right]; lia. }
    rewrite Hload. repeat split; reflexivity.
  - intros sz bufsz cstream pstream Hmagic Hver Hlayout Hsz Hbufsz Hclen Hplen Hc.
    destruct (LoadReplay_to_streams p filename sz bufsz cstream pstream
                Hmagic Hver Hlayout Hsz Hbufsz Hclen Hplen)
      as (p1 & H1 & H2 & _ & _ & _ & Hg & Hload).
    cbv zeta in Hload. fold content header v in Hload.
    apply Z.eqb_neq in Hc. rewrite Hc in Hload. rewrite Hload.
    cbn [fst snd lastExecFilename lastExecVersion lastExecCommands lastExecPushbuf g_cancelled
         mlog with_lastExecData].
    repeat split; assumption.
Qed.

(** ** Unloading *)

(** X26.  [Replay_Unload] always returns, and afterwards nothing is cached
    and no thread is left: the name is empty, the version 0, the two
    vectors are empty, the mailbox reads done with the value 0.  A thread
    that was running has been cancelled and joined; the cancellation flag
    stays set in this case (the next [LoadReplay] resets it).  A thread
    stopped before it had posted everything has posted its final [Done] on
    the way out, and this is the operation the mailbox holds afterwards;
    otherwise the operation in the mailbox is left as it was.  No thread is
    started. *)
Theorem Replay_Unload_clears (p : Process) :
  exists p',
    Replay_Unload p = Some p'
    /\ joinable p' = false
    /\ lastExecFilename p' = EmptyString /\ lastExecVersion p' = 0
    /\ lastExecCommands p' = [] /\ lastExecPushbuf p' = []
    /\ g_opDone p' = true /\ g_retVal p' = 0
    /\ g_cancelled p' = (g_cancelled p || joinable p)
    /\ g_opToExec p' = match replayThread p with
                       | Some (_ :: _) => mkOp OpDone 0 0
                       | _ => g_opToExec p
                       end
    /\ thread_starts (main_trace p') = thread_starts (main_trace p).
Proof.
  unfold Replay_Unload, joinable, join, Replay_Unload_cancel.
  destruct (replayThread p) as [pending|] eqn:Ht.
  - cbn [replayThread with_g_cancelled g_cancelled orb]. rewrite Ht. cbn [mbind option_bind].
    eexists. split; [reflexivity|].
    destruct pending as [|op rest]; cbn; rewrite orb_true_r; repeat split; reflexivity.
  - cbn [mbind option_bind]. eexists. split; [reflexivity|].
    cbn. rewrite Ht, orb_false_r. repeat split; reflexivity.
Qed.


(** ** After [Init] nothing is taken as known *)

Lemma high_byte_is_not_the_marker (psp : Z) : Z.land psp 0xFF000000 <> 0xFFFFFFFF.
Proof.
  intros H. apply (f_equal (fun z => Z.testbit z 0)) in H.
  rewrite Z.land_spec in H. simpl in H. rewrite andb_false_r in H. discriminate.
Qed.

(** X27.  [Init] resets what the executor takes as known by the GPU, so
    that the next address is always sent in full: after [Init], [Vertices]
    queues a base word before its address word whatever address the mapper
    returns (the marker 0xFFFFFFFF that [Init] stores in [lastBase_] equals
    no high byte), and [Texture] queues its two words for every level, with
    the buffer width 0. *)
Theorem Init_invalidates_tracking (pushbuf_ : list Z) d (w : World (A:=A))
    (ptr0 sz0 ptr sz : Z) (level : nat) (psp : Z) :
  let d0 := (Init E d w ptr0 sz0).1 in
  let w0 := (Init E d w ptr0 sz0).2 in
  (map_payload E pushbuf_ d0 w0 ptr sz).1.1 = psp ->
  psp <> 0 ->
  (level < 8)%nat ->
  execListQueue (Vertices E K pushbuf_ d0 w0 ptr sz).1
  = execListQueue d ++ [base_word K psp; addr_word (GE_CMD_VADDR K) psp]
  /\ execListQueue (Texture E K pushbuf_ level d0 w0 ptr sz).1
     = execListQueue d
       ++ [u32 (Z.lor (Z.lor (Z.shiftl (GE_CMD_TEXBUFWIDTH0 K + Z.of_nat level) 24)
                             (Z.land (Z.shiftr psp 8) 0x00FF0000)) 0);
           addr_word (GE_CMD_TEXADDR0 K + Z.of_nat level) psp].
Proof.
  cbv zeta. intros Hpsp Hnz Hlevel.
  set (d0 := (Init E d w ptr0 sz0).1) in *. set (w0 := (Init E d w ptr0 sz0).2) in *.
  assert (Hd0 : execListQueue d0 = execListQueue d /\ lastBase_ d0 = 0xFFFFFFFF
                /\ lastTex_ d0 = replicate 8%nat 0 /\ lastBufw_ d0 = replicate 8%nat 0).
  { unfold d0, Init. destruct (ExecuteOnMain E _ _) as [r w2]. repeat split. }
  destruct Hd0 as (Hq & Hb & Ht & Hw).
  assert (Hkeep : forall d1, d1 = (map_payload E pushbuf_ d0 w0 ptr sz).1.2 ->
            execListQueue d1 = execListQueue d /\ lastBase_ d1 = 0xFFFFFFFF
            /\ lastTex_ d1 = replicate 8%nat 0 /\ lastBufw_ d1 = replicate 8%nat 0).
  { intros d1 ->. unfold map_payload. destruct (Map _ _ _ _ _ _) as [[p0 m0] w1].
    cbn [fst snd execListQueue lastBase_ lastTex_ lastBufw_ with_mapping]. auto. }
  unfold Vertices, Texture.
  destruct (map_payload E pushbuf_ d0 w0 ptr sz) as [[psp' d1] w1]. cbn [fst snd] in *.
  subst psp'. destruct (Hkeep d1 eq_refl) as (Hq1 & Hb1 & Ht1 & Hw1).
  replace (psp =? 0) with false by lia. split.
  - rewrite Hb1.
    replace (0xFFFFFFFF =? Z.land psp 0xFF000000) with false.
    2: { symmetry. apply Z.eqb_neq. intros H. symmetry in H.
         exact (high_byte_is_not_the_marker psp H). }
    cbn [negb fst execListQueue push_back with_execListQueue with_lastBase with_last].
    rewrite Hq1, <- app_assoc. reflexivity.
  - assert (Hat : forall l, l = replicate 8%nat 0 -> at8 l level = 0).
    { intros l ->. unfold at8. destruct (replicate 8%nat 0 !! level) eqn:Hl; [|reflexivity].
      apply lookup_replicate in Hl as [-> _]. reflexivity. }
    rewrite (Hat _ Ht1), (Hat _ Hw1).
    replace (0 =? psp) with false by lia.
    cbn [negb fst execListQueue push_back with_execListQueue with_last].
    rewrite Hq1, <- app_assoc. reflexivity.
Qed.


(** ** The first call with a new name *)

(** [LoadReplay] neither starts nor joins a thread. *)
Lemma LoadReplay_thread (p : Process) (filename : string) :
  let p' := (LoadReplay F C M p filename).2 in
  replayThread p' = replayThread p
  /\ thread_starts (main_trace p') = thread_starts (main_trace p).
Proof.
  cbv zeta. unfold LoadReplay.
  destruct (ReadFile _ (Z.of_nat (sizeof_Header F))) as [got fp].
  destruct (negb _ || _ || _); [split; reflexivity|].
  destruct (if version _ <=? 3 then _ else _) as [fp1 gid].
  set (p1 := if negb (strnlen gid (sizeof_gameID F) =? 0)%nat then _ else _).
  assert (Hp1 : replayThread p1 = replayThread p
                /\ thread_starts (main_trace p1) = thread_starts (main_trace p)).
  { unfold p1. destruct (negb _); split; reflexivity. }
  destruct (ReadFile fp1 4) as [got1 fp2]. destruct (ReadFile fp2 4) as [got2 fp3].
  destruct (ReadCompressed C fp3 _ _ _) as [[ok1 cmds] fp4].
  destruct (if negb ok1 then _ else _) as [[ok2 pb] fp5].
  destruct (negb ok1 || negb ok2); exact Hp1.
Qed.

(** A load that returns a version has cached the capture under its name. *)
Lemma LoadReplay_nonzero (p : Process) (filename : string) (v : Z) (p' : Process) :
  LoadReplay F C M p filename = (v, p') -> v <> 0 ->
  lastExecFilename p' = filename /\ lastExecVersion p' = v.
Proof.
  unfold LoadReplay.
  destruct (ReadFile _ (Z.of_nat (sizeof_Header F))) as [got fp].
  destruct (negb _ || _ || _); [intros [= <- _] Hv; congruence|].
  destruct (if version _ <=? 3 then _ else _) as [fp1 gid].
  destruct (ReadFile fp1 4) as [got1 fp2]. destruct (ReadFile fp2 4) as [got2 fp3].
  destruct (ReadCompressed C fp3 _ _ _) as [[ok1 cmds] fp4].
  destruct (if negb ok1 then _ else _) as [[ok2 pb] fp5].
  destruct (negb ok1 || negb ok2); [intros [= <- _] Hv; congruence|].
  intros [= <- <-] _. split; reflexivity.
Qed.

(** X28.  The first call of [RunMountedReplay] with a name that is not the
    cached one, while no thread runs and [LoadReplay] accepts the file: the
    capture is cached under the name, and the call goes on exactly as a
    call on this cache, with the version [LoadReplay] returned. *)
Theorem RunMountedReplay_loads_first (w0 : World (A:=A)) (p : Process) (filename : string)
    (v : Z) (p' : Process) :
  lastExecFilename p <> filename ->
  replayThread p = None ->
  LoadReplay F C M p filename = (v, p') ->
  v <> 0 ->
  lastExecFilename p' = filename /\ lastExecVersion p' = v
  /\ replayThread p' = None
  /\ RunMountedReplay E K F C M w0 p filename = RunMountedReplay E K F C M w0 p' filename.
Proof.
  intros Hname Hidle Hload Hv.
  destruct (LoadReplay_nonzero p filename v p' Hload Hv) as (Hf & Hver).
  pose proof (LoadReplay_thread p filename) as [H1 _].
  rewrite Hload in H1. cbn [snd] in H1. rewrite Hidle in H1.
  split; [exact Hf|]. split; [exact Hver|]. split; [exact H1|].
  apply String.eqb_neq in Hname.
  unfold RunMountedReplay. rewrite Hname, Hf, String.eqb_refl. cbn [negb].
  replace (joinable p) with false by (unfold joinable; rewrite Hidle; reflexivity).
  cbn [mbind option_bind]. rewrite Hload. cbn [mbind option_bind].
  replace (v =? 0) with false by lia. rewrite Hver. reflexivity.
Qed.


(** ** Every block of user memory is given back *)

Section Balance.

Variable a : Z.
Hypothesis a_not_null : a <> 0.
Hypothesis a_not_failure : a <> u32 (-1).

Lemma is_addr_null : is_addr a 0 = 0.
Proof. unfold is_addr. destruct (0 =? a) eqn:H; [apply Z.eqb_eq in H; congruence | reflexivity]. Qed.

Lemma is_addr_failed (r : Z) : (if r =? u32 (-1) then 0 else r) = 0 -> is_addr a r = 0.
Proof.
  unfold is_addr. destruct (r =? u32 (-1)) eqn:H1; intros H.
  - apply Z.eqb_eq in H1. destruct (r =? a) eqn:H2; [apply Z.eqb_eq in H2; congruence | reflexivity].
  - subst r. apply is_addr_null.
Qed.

Lemma is_addr_valid (r : Z) :
  (r =? u32 (-1)) = false -> is_addr a (if r =? u32 (-1) then 0 else r) = is_addr a r.
Proof. intros ->. reflexivity. Qed.

Lemma slabs_at_insert (l : list SlabInfo.t) : forall (i : nat) (s : SlabInfo.t),
  (i < length l)%nat ->
  slabs_at a (<[i := s]> l)
  = slabs_at a l - is_addr a (SlabInfo.psp_pointer_ (default SlabInfo.init (l !! i)))
    + is_addr a (SlabInfo.psp_pointer_ s).
Proof.
  induction l as [|x l IH]; intros i s Hi; simpl in Hi; [lia|].
  destruct i as [|i]; simpl.
  - lia.
  - rewrite IH by lia. lia.
Qed.

Lemma extras_at_insert (l : list ExtraInfo.t) : forall (i : nat) (e : ExtraInfo.t),
  (i < length l)%nat ->
  extras_at a (<[i := e]> l)
  = extras_at a l - is_addr a (ExtraInfo.psp_pointer_ (extra_at l i))
    + is_addr a (ExtraInfo.psp_pointer_ e).
Proof.
  induction l as [|x l IH]; intros i e Hi; simpl in Hi; [lia|].
  destruct i as [|i]; simpl.
  - unfold extra_at. simpl. lia.
  - rewrite IH by lia. unfold extra_at. simpl. lia.
Qed.

Lemma slabs_at_none (l : list SlabInfo.t) :
  (forall i, SlabInfo.psp_pointer_ (default SlabInfo.init (l !! i)) = 0) -> slabs_at a l = 0.
Proof.
  induction l as [|x l IH]; intros H; simpl; [reflexivity|].
  rewrite IH by (intros i; apply (H (S i))).
  pose proof (H 0%nat) as H0. simpl in H0. rewrite H0, is_addr_null. reflexivity.
Qed.

Lemma extras_at_none (l : list ExtraInfo.t) :
  (forall i, ExtraInfo.psp_pointer_ (extra_at l i) = 0) -> extras_at a l = 0.
Proof.
  induction l as [|x l IH]; intros H; simpl; [reflexivity|].
  rewrite IH by (intros i; apply (H (S i))).
  pose proof (H 0%nat) as H0. unfold extra_at in H0. simpl in H0.
  rewrite H0, is_addr_null. reflexivity.
Qed.

Lemma SyncStall_outstanding d w :
  outstanding a (trace (SyncStall E d w)) = outstanding a (trace w).
Proof.
  unfold SyncStall, ExecuteOnMain, log.
  destruct (execListBuf d =? 0); [reflexivity|]. cbn [trace].
  destruct (_ =? -1); [reflexivity|].
  destruct (_ >? _); reflexivity.
Qed.

Lemma SyncStall_n_alloc d w : n_alloc a (trace (SyncStall E d w)) = n_alloc a (trace w).
Proof.
  unfold SyncStall, ExecuteOnMain, log.
  destruct (execListBuf d =? 0); [reflexivity|]. cbn [trace].
  destruct (_ =? -1); [reflexivity|].
  destruct (_ >? _); reflexivity.
Qed.

Lemma SyncStall_n_free d w : n_free a (trace (SyncStall E d w)) = n_free a (trace w).
Proof.
  unfold SyncStall, ExecuteOnMain, log.
  destruct (execListBuf d =? 0); [reflexivity|]. cbn [trace].
  destruct (_ =? -1); [reflexivity|].
  destruct (_ >? _); reflexivity.
Qed.

Lemma SlabInfo_Setup_outstanding (pushbuf_ : list Z) (gen : Z) (s : SlabInfo.t) w (bufpos : Z) :
  let r := SlabInfo_Setup pushbuf_ gen s w bufpos in
  outstanding a (trace r.2) - is_addr a (SlabInfo.psp_pointer_ r.1.1.2)
  = outstanding a (trace w) - is_addr a (SlabInfo.psp_pointer_ s).
Proof.
  cbv zeta. unfold SlabInfo_Setup, SlabInfo_Alloc, Alloc.
  destruct (SlabInfo.psp_pointer_ s =? 0) eqn:Hs.
  - apply Z.eqb_eq in Hs. rewrite Hs, is_addr_null.
    destruct (userMemory_Alloc A (heap w) SLAB_SIZE false "Slab") as [p h].
    destruct ((if u32 p =? u32 (-1) then 0 else u32 p) =? 0) eqn:Hp;
      cbn [negb fst snd trace SlabInfo.psp_pointer_].
    + apply Z.eqb_eq in Hp. rewrite Hp, is_addr_null.
      unfold outstanding. cbn [n_alloc n_free]. rewrite (is_addr_failed _ Hp). lia.
    + cbn [SlabInfo.psp_pointer_ MemcpyUnchecked trace].
      destruct (u32 p =? u32 (-1)) eqn:Hm; [discriminate|].
      unfold outstanding. cbn [n_alloc n_free]. lia.
  - cbn [negb fst snd SlabInfo.psp_pointer_ MemcpyUnchecked trace].
    unfold outstanding. cbn [n_alloc n_free]. lia.
Qed.

Lemma ExtraInfo_Free_outstanding (e : ExtraInfo.t) w :
  let r := ExtraInfo_Free e w in
  outstanding a (trace r.2) - is_addr a (ExtraInfo.psp_pointer_ r.1)
  = outstanding a (trace w) - is_addr a (ExtraInfo.psp_pointer_ e)
  /\ ExtraInfo.psp_pointer_ r.1 = 0.
Proof.
  cbv zeta. unfold ExtraInfo_Free.
  destruct (ExtraInfo.psp_pointer_ e =? 0) eqn:He; cbn [fst snd].
  - apply Z.eqb_eq in He. auto.
  - cbn [ExtraInfo.psp_pointer_ Free trace]. rewrite is_addr_null.
    unfold outstanding. cbn [n_alloc n_free]. split; [lia | reflexivity].
Qed.

Lemma SlabInfo_Free_outstanding (s : SlabInfo.t) w :
  let r := SlabInfo_Free s w in
  outstanding a (trace r.2) - is_addr a (SlabInfo.psp_pointer_ r.1)
  = outstanding a (trace w) - is_addr a (SlabInfo.psp_pointer_ s).
Proof.
  cbv zeta. unfold SlabInfo_Free.
  destruct (SlabInfo.psp_pointer_ s =? 0) eqn:He; cbn [fst snd].
  - reflexivity.
  - cbn [SlabInfo.psp_pointer_ Free trace]. rewrite is_addr_null.
    unfold outstanding. cbn [n_alloc n_free]. lia.
Qed.

Lemma ExtraInfo_Alloc_outstanding (pushbuf_ : list Z) (e : ExtraInfo.t) w (bufpos sz : Z) :
  let r := ExtraInfo_Alloc pushbuf_ e w bufpos sz in
  outstanding a (trace r.2) - is_addr a (ExtraInfo.psp_pointer_ r.1.2)
  = outstanding a (trace w) - is_addr a (ExtraInfo.psp_pointer_ e).
Proof.
  cbv zeta. unfold ExtraInfo_Alloc.
  destruct (ExtraInfo_Free_outstanding e w) as [Hf Hz].
  destruct (ExtraInfo_Free e w) as [e1 w1]. cbn [fst snd] in Hf, Hz.
  rewrite Hz, is_addr_null in Hf. unfold Alloc.
  destruct (userMemory_Alloc A (heap w1) sz false "Straddle extra") as [p h].
  destruct ((if u32 p =? u32 (-1) then 0 else u32 p) =? 0) eqn:Hp; cbn [fst snd trace].
  - apply Z.eqb_eq in Hp. cbn [ExtraInfo.psp_pointer_]. rewrite is_addr_null.
    unfold outstanding in *. cbn [n_alloc n_free]. rewrite (is_addr_failed _ Hp). lia.
  - cbn [ExtraInfo.psp_pointer_ MemcpyUnchecked trace].
    destruct (u32 p =? u32 (-1)) eqn:Hm; [discriminate|].
    unfold outstanding in *. cbn [n_alloc n_free]. lia.
Qed.

Lemma free_extras_outstanding idx : forall (l : list ExtraInfo.t) w,
  Forall (fun i => (i < length l)%nat) idx ->
  let r := free_extras l idx w in
  outstanding a (trace r.2) - extras_at a r.1 = outstanding a (trace w) - extras_at a l.
Proof.
  induction idx as [|i idx IH]; intros l w Hidx; cbv zeta; simpl; [reflexivity|].
  inversion Hidx as [|? ? Hi Hrest]; subst.
  destruct (ExtraInfo_Free_outstanding (extra_at l i) w) as [Hf _].
  destruct (ExtraInfo_Free (extra_at l i) w) as [e w1]. cbn [fst snd] in Hf.
  specialize (IH (<[i := e]> l) w1). cbv zeta in IH. rewrite IH.
  - rewrite extras_at_insert by exact Hi. lia.
  - rewrite length_insert. exact Hrest.
Qed.

Lemma free_slabs_outstanding idx : forall (l : list SlabInfo.t) w,
  Forall (fun i => (i < length l)%nat) idx ->
  let r := free_slabs l idx w in
  outstanding a (trace r.2) - slabs_at a r.1 = outstanding a (trace w) - slabs_at a l.
Proof.
  induction idx as [|i idx IH]; intros l w Hidx; cbv zeta; simpl; [reflexivity|].
  inversion Hidx as [|? ? Hi Hrest]; subst.
  pose proof (SlabInfo_Free_outstanding (default SlabInfo.init (l !! i)) w) as Hf.
  destruct (SlabInfo_Free (default SlabInfo.init (l !! i)) w) as [s w1]. cbn [fst snd] in Hf.
  specialize (IH (<[i := s]> l) w1). cbv zeta in IH. rewrite IH.
  - rewrite slabs_at_insert by exact Hi. lia.
  - rewrite length_insert. exact Hrest.
Qed.

Lemma seq_in_range (n : nat) : Forall (fun i => (i < n)%nat) (seq 0 n).
Proof. apply Forall_forall. intros i Hi. apply list_elem_of_In, in_seq in Hi. lia. Qed.

Lemma slab_Ptr_n_mapped m (i : nat) (bufpos : Z) :
  n_mapped a (slab_Ptr m i bufpos).2 = n_mapped a m.
Proof.
  unfold slab_Ptr, set_slab, SlabInfo.Ptr, n_mapped. cbn [fst snd slabs_ extra_].
  destruct (decide (i < length (slabs_ m))%nat) as [Hi|Hi].
  - rewrite slabs_at_insert by exact Hi. unfold slab_at. cbn [SlabInfo.psp_pointer_]. lia.
  - rewrite list_insert_ge by lia. reflexivity.
Qed.

Lemma MapSlab_outstanding (pushbuf_ : list Z) m w (bufpos : Z) (flush : World -> World) :
  BufMapping_wf m ->
  (forall w0, outstanding a (trace (flush w0)) = outstanding a (trace w0)) ->
  let r := MapSlab pushbuf_ m w bufpos flush in
  outstanding a (trace r.2) - n_mapped a r.1.2 = outstanding a (trace w) - n_mapped a m.
Proof.
  intros (Hls & _ & _) Hflush. cbv zeta. unfold MapSlab.
  destruct (MapSlab_scan m _ (seq 0 SLAB_COUNT) 0) as [i|best] eqn:Hscan.
  - pose proof (slab_Ptr_n_mapped m i bufpos) as HP.
    destruct (slab_Ptr m i bufpos) as [p m1]. cbn [fst snd] in *. lia.
  - apply MapSlab_scan_inr in Hscan as (Hb & _ & _).
    assert (Hbest : (best < length (slabs_ m))%nat).
    { rewrite Hls. destruct Hb as [-> | Hin]; [unfold SLAB_COUNT; lia | apply in_seq in Hin; lia]. }
    match goal with |- context [SlabInfo_Setup ?pb ?g ?s ?w0 ?pos] =>
      pose proof (SlabInfo_Setup_outstanding pb g s w0 pos) as HS;
      destruct (SlabInfo_Setup pb g s w0 pos) as [[[ok s1] gen] w2] end.
    cbv zeta in HS. cbn [fst snd] in HS. rewrite Hflush in HS.
    assert (Hm1 : n_mapped a (mkBufMapping gen (<[best := s1]> (slabs_ m)) best
                                (extraOffset_ m) (extra_ m))
                  = n_mapped a m - is_addr a (SlabInfo.psp_pointer_ (slab_at m best))
                    + is_addr a (SlabInfo.psp_pointer_ s1)).
    { unfold n_mapped. cbn [slabs_ extra_]. rewrite slabs_at_insert by exact Hbest.
      unfold slab_at. lia. }
    destruct ok; cbn [negb slabs_ extra_ extraOffset_].
    + match goal with |- context [slab_Ptr ?m2 best bufpos] =>
        pose proof (slab_Ptr_n_mapped m2 best bufpos) as HP;
        destruct (slab_Ptr m2 best bufpos) as [p m3] end.
      cbn [fst snd] in *. lia.
    + cbn [fst snd]. unfold n_mapped in *. cbn [slabs_ extra_] in *. lia.
Qed.

Lemma MapExtra_outstanding (pushbuf_ : list Z) m w (bufpos sz : Z) (flush : World -> World) :
  BufMapping_wf m ->
  (forall w0, outstanding a (trace (flush w0)) = outstanding a (trace w0)) ->
  let r := MapExtra pushbuf_ m w bufpos sz flush in
  outstanding a (trace r.2) - n_mapped a r.1.2 = outstanding a (trace w) - n_mapped a m.
Proof.
  intros (_ & Hle & Hoff) Hflush. cbv zeta. unfold MapExtra.
  destruct (MapExtra_scan _ _ _ _); [reflexivity|].
  pose proof (ExtraInfo_Alloc_outstanding pushbuf_ (extra_at (extra_ m) (extraOffset_ m))
                (flush w) bufpos sz) as H1.
  destruct (ExtraInfo_Alloc pushbuf_ (extra_at (extra_ m) (extraOffset_ m)) (flush w) bufpos sz)
    as [[ok e] w2].
  cbv zeta in H1. cbn [fst snd] in H1. rewrite Hflush in H1.
  assert (Hl1 : extras_at a (<[extraOffset_ m := e]> (extra_ m))
                = extras_at a (extra_ m)
                  - is_addr a (ExtraInfo.psp_pointer_ (extra_at (extra_ m) (extraOffset_ m)))
                  + is_addr a (ExtraInfo.psp_pointer_ e)).
  { apply extras_at_insert. lia. }
  destruct ok.
  { cbn [fst snd]. unfold n_mapped. cbn [slabs_ extra_]. lia. }
  assert (Hin : Forall (fun i => (i < length (<[extraOffset_ m := e]> (extra_ m)))%nat)
                       (seq 0 EXTRA_COUNT)).
  { rewrite length_insert, Hle. apply seq_in_range. }
  pose proof (free_extras_outstanding (seq 0 EXTRA_COUNT)
                (<[extraOffset_ m := e]> (extra_ m)) w2 Hin) as H2.
  pose proof (free_extras_length (seq 0 EXTRA_COUNT)
                (<[extraOffset_ m := e]> (extra_ m)) w2) as Hlen.
  destruct (free_extras (<[extraOffset_ m := e]> (extra_ m)) (seq 0 EXTRA_COUNT) w2) as [l2 w3].
  cbv zeta in H2. cbn [fst snd] in H2, Hlen. rewrite length_insert in Hlen.
  pose proof (ExtraInfo_Alloc_outstanding pushbuf_ (extra_at l2 (extraOffset_ m))
                w3 bufpos sz) as H3.
  destruct (ExtraInfo_Alloc pushbuf_ (extra_at l2 (extraOffset_ m)) w3 bufpos sz)
    as [[ok2 e2] w4].
  cbv zeta in H3. cbn [fst snd] in H3.
  assert (Hl3 : extras_at a (<[extraOffset_ m := e2]> l2)
                = extras_at a l2
                  - is_addr a (ExtraInfo.psp_pointer_ (extra_at l2 (extraOffset_ m)))
                  + is_addr a (ExtraInfo.psp_pointer_ e2)).
  { apply extras_at_insert. lia. }
  destruct ok2; cbn [fst snd]; unfold n_mapped; cbn [slabs_ extra_]; lia.
Qed.

Lemma Map_outstanding (pushbuf_ : list Z) m w (bufpos sz : Z) (flush : World -> World) :
  BufMapping_wf m ->
  (forall w0, outstanding a (trace (flush w0)) = outstanding a (trace w0)) ->
  let r := Map pushbuf_ m w bufpos sz flush in
  outstanding a (trace r.2) - n_mapped a r.1.2 = outstanding a (trace w) - n_mapped a m.
Proof.
  intros Hwf Hflush. cbv zeta. unfold Map.
  destruct (_ =? _).
  - destruct (SlabInfo.Matches _ _).
    + pose proof (slab_Ptr_n_mapped m (lastSlab_ m) bufpos) as HP.
      destruct (slab_Ptr m (lastSlab_ m) bufpos) as [p m1]. cbn [fst snd] in *. lia.
    + apply MapSlab_outstanding; assumption.
  - apply MapExtra_outstanding; assumption.
Qed.


Ltac held :=
  unfold keeps_balance, n_held;
  cbn [fst snd execListBuf mapping_ push_back with_execListQueue with_last with_lastBase
       with_execClut with_execMemcpyDest with_mapping with_execListPos with_execList].

Ltac events :=
  unfold outstanding, log, Write_U32, MemcpyUnchecked, ExecuteOnMain in *;
  cbn [fst snd trace n_alloc n_free] in *.

Lemma map_payload_balance (pushbuf_ : list Z) d w (ptr sz : Z) :
  BufMapping_wf (mapping_ d) ->
  let r := map_payload E pushbuf_ d w ptr sz in
  keeps_balance a d w (r.1.2, r.2).
Proof.
  intros Hwf. cbv zeta. unfold map_payload.
  pose proof (Map_wf pushbuf_ (mapping_ d) w ptr sz (SyncStall E d) Hwf) as H1.
  pose proof (Map_outstanding pushbuf_ (mapping_ d) w ptr sz (SyncStall E d) Hwf
                (SyncStall_outstanding d)) as H2.
  destruct (Map pushbuf_ (mapping_ d) w ptr sz (SyncStall E d)) as [[psp m1] w1].
  cbv zeta in H2. cbn [fst snd] in H1, H2. held. split; [exact H1 | lia].
Qed.

Lemma keeps_balance_same d w d' w' :
  BufMapping_wf (mapping_ d) ->
  mapping_ d' = mapping_ d -> execListBuf d' = execListBuf d ->
  outstanding a (trace w') = outstanding a (trace w) ->
  keeps_balance a d w (d', w').
Proof.
  intros Hwf Hm Hb Ht. unfold keeps_balance, n_held. cbn [fst snd].
  rewrite Hm, Hb, Ht. auto.
Qed.

Lemma keeps_balance_after d w d1 w1 d' w' :
  keeps_balance a d w (d1, w1) ->
  mapping_ d' = mapping_ d1 -> execListBuf d' = execListBuf d1 ->
  outstanding a (trace w') = outstanding a (trace w1) ->
  keeps_balance a d w (d', w').
Proof.
  unfold keeps_balance, n_held. cbn [fst snd]. intros [Hwf Hb] Hm Hl Ht.
  rewrite Hm, Hl, Ht. auto.
Qed.

Lemma Registers_balance (pushbuf_ : list Z) d w (ptr sz : Z) :
  BufMapping_wf (mapping_ d) -> keeps_balance a d w (Registers E K pushbuf_ d w ptr sz).
Proof.
  intros Hwf. unfold Registers.
  assert (H1 : keeps_balance a d w ((Registers_ensure_list E K d w).1.2,
                                    (Registers_ensure_list E K d w).2)).
  { unfold Registers_ensure_list, Alloc.
    destruct (execListBuf d =? 0) eqn:Hb; [|apply keeps_balance_same; auto].
    apply Z.eqb_eq in Hb.
    destruct (userMemory_Alloc A (heap w) LIST_BUF_SIZE true "List buf") as [p h].
    destruct ((if u32 p =? u32 (-1) then 0 else u32 p) =? 0) eqn:Hp.
    - apply Z.eqb_eq in Hp. held. rewrite Hb. events. rewrite (is_addr_failed _ Hp).
      split; [exact Hwf | lia].
    - destruct (u32 p =? u32 (-1)) eqn:Hm; [discriminate|]. unfold ExecuteOnMain. held.
      rewrite Hb, is_addr_null. events. split; [exact Hwf | lia]. }
  destruct (Registers_ensure_list E K d w) as [[ok d1] w1]. cbn [fst snd] in H1.
  destruct ok; cbn [negb]; [|exact H1].
  assert (H2 : keeps_balance a d w (Registers_wrap E K d1 w1 sz)).
  { unfold Registers_wrap. destruct (_ >=? _); [|exact H1].
    eapply keeps_balance_after; [exact H1 | reflexivity | reflexivity |].
    events. rewrite SyncStall_n_alloc, SyncStall_n_free. events. reflexivity. }
  destruct (Registers_wrap E K d1 w1 sz) as [d2 w2].
  destruct (fold_left _ _ _) as [[mm bufws] base].
  eapply keeps_balance_after; [exact H2 | reflexivity | reflexivity |].
  events. reflexivity.
Qed.

Lemma mapped_handler_balance (pushbuf_ : list Z) d w (ptr sz : Z)
    (k : Z -> DumpExecute -> World (A:=A) -> DumpExecute * World (A:=A)) :
  BufMapping_wf (mapping_ d) ->
  (forall psp d1 w1, mapping_ (k psp d1 w1).1 = mapping_ d1
                     /\ execListBuf (k psp d1 w1).1 = execListBuf d1
                     /\ outstanding a (trace (k psp d1 w1).2) = outstanding a (trace w1)) ->
  keeps_balance a d w
    (let '(psp, d1, w1) := map_payload E pushbuf_ d w ptr sz in k psp d1 w1).
Proof.
  intros Hwf Hk. pose proof (map_payload_balance pushbuf_ d w ptr sz Hwf) as H.
  destruct (map_payload E pushbuf_ d w ptr sz) as [[psp d1] w1]. cbv zeta in H. cbn [fst snd] in H.
  destruct (Hk psp d1 w1) as (Hm & Hb & Ht).
  destruct (k psp d1 w1) as [d' w']. cbn [fst snd] in *.
  eapply keeps_balance_after; eauto.
Qed.

Lemma Vertices_balance (pushbuf_ : list Z) d w (ptr sz : Z) :
  BufMapping_wf (mapping_ d) -> keeps_balance a d w (Vertices E K pushbuf_ d w ptr sz).
Proof.
  intros Hwf. unfold Vertices.
  apply (mapped_handler_balance pushbuf_ d w ptr sz
           (fun psp d1 w1 => if psp =? 0 then _ else _) Hwf).
  intros psp d1 w1. destruct (psp =? 0); [|destruct (negb _)]; repeat split.
Qed.

Lemma Indices_balance (pushbuf_ : list Z) d w (ptr sz : Z) :
  BufMapping_wf (mapping_ d) -> keeps_balance a d w (Indices E K pushbuf_ d w ptr sz).
Proof.
  intros Hwf. unfold Indices.
  apply (mapped_handler_balance pushbuf_ d w ptr sz
           (fun psp d1 w1 => if psp =? 0 then _ else _) Hwf).
  intros psp d1 w1. destruct (psp =? 0); [|destruct (negb _)]; repeat split.
Qed.

Lemma Clut_balance (pushbuf_ : list Z) d w (ptr sz : Z) :
  BufMapping_wf (mapping_ d) -> keeps_balance a d w (Clut E K pushbuf_ d w ptr sz).
Proof.
  intros Hwf. unfold Clut. destruct (negb _).
  - apply keeps_balance_same; auto. destruct (_ && _); reflexivity.
  - apply (mapped_handler_balance pushbuf_ d w ptr sz
             (fun psp d1 w1 => if psp =? 0 then _ else _) Hwf).
    intros psp d1 w1. destruct (psp =? 0); repeat split.
Qed.

Lemma TransferSrc_balance (pushbuf_ : list Z) d w (ptr sz : Z) :
  BufMapping_wf (mapping_ d) -> keeps_balance a d w (TransferSrc E K pushbuf_ d w ptr sz).
Proof.
  intros Hwf. unfold TransferSrc.
  apply (mapped_handler_balance pushbuf_ d w ptr sz
           (fun psp d1 w1 => if psp =? 0 then _ else _) Hwf).
  intros psp d1 w1. destruct (psp =? 0); repeat split.
  cbn [snd]. apply SyncStall_outstanding.
Qed.

Lemma Texture_balance (pushbuf_ : list Z) (level : nat) d w (ptr sz : Z) :
  BufMapping_wf (mapping_ d) -> keeps_balance a d w (Texture E K pushbuf_ level d w ptr sz).
Proof.
  intros Hwf. unfold Texture.
  apply (mapped_handler_balance pushbuf_ d w ptr sz
           (fun psp d1 w1 => if psp =? 0 then _ else _) Hwf).
  intros psp d1 w1. destruct (psp =? 0); [|destruct (negb _)]; repeat split.
Qed.

Lemma dispatch_balance (pushbuf_ : list Z) d w (cmd : Command) (isLast : bool) d1 w1 :
  BufMapping_wf (mapping_ d) ->
  dispatch E K pushbuf_ d w cmd isLast = Some (d1, w1) ->
  keeps_balance a d w (d1, w1).
Proof.
  intros Hwf. unfold dispatch.
  destruct (cmd_type cmd); cbn [texture_level framebuf_level]; intros H;
    try discriminate H; apply (inj Some) in H; rewrite <- H; clear H.
  all: try (first
      [ apply Registers_balance | apply Vertices_balance | apply Indices_balance
      | apply Clut_balance | apply TransferSrc_balance | apply Texture_balance ];
      exact Hwf).
  all: unfold Init, ClutAddr, Memset, MemcpyDest, Memcpy, EdramTrans, Display, Framebuf,
         ExecuteOnMain.
  all: cbv beta iota zeta.
  all: repeat match goal with |- context [if ?c then _ else _] => destruct c end.
  all: apply keeps_balance_same; [exact Hwf | reflexivity | reflexivity |].
  all: events; rewrite ?SyncStall_n_alloc, ?SyncStall_n_free; reflexivity.
Qed.


Lemma Run_loop_balance (pushbuf_ : list Z) (size : nat) (cmds : list Command) :
  forall (i : nat) d w,
  BufMapping_wf (mapping_ d) ->
  let r := Run_loop E K pushbuf_ size i cmds d w in
  keeps_balance a d w (r.1.2, r.2).
Proof.
  induction cmds as [|cmd rest IH]; intros i d w Hwf; cbv zeta; cbn [Run_loop].
  - apply keeps_balance_same; auto.
  - destruct (observe_g_cancelled E (trace w)); [apply keeps_balance_same; auto|].
    destruct (dispatch E K pushbuf_ d w cmd (S i =? size)%nat) as [[d1 w1]|] eqn:Hd.
    + destruct (dispatch_balance pushbuf_ d w cmd _ d1 w1 Hwf Hd) as [Hwf1 H1].
      cbn [fst snd] in Hwf1, H1.
      destruct (IH (S i) d1 w1 Hwf1) as [Hwf2 H2]. split; [exact Hwf2 | lia].
    + apply keeps_balance_same; auto.
Qed.

Lemma SubmitListEnd_balance d w :
  BufMapping_wf (mapping_ d) -> keeps_balance a d w (SubmitListEnd E K d w).
Proof.
  intros Hwf. unfold SubmitListEnd, ExecuteOnMain.
  destruct (_ || _); apply keeps_balance_same; auto.
  events. rewrite SyncStall_n_alloc, SyncStall_n_free. events. reflexivity.
Qed.

Lemma Run_balance (pushbuf_ : list Z) (commands_ : list Command) d w :
  BufMapping_wf (mapping_ d) ->
  let r := Run E K pushbuf_ commands_ d w in
  keeps_balance a d w (r.1.2, r.2).
Proof.
  intros Hwf. cbv zeta. unfold Run.
  set (w0 := if gpu E then log (EvSetAddrTranslation 0x400) w else w).
  set (w1 := if resumeIndex_ d >=? 0 then SyncStall E d w0 else w0).
  assert (H1 : outstanding a (trace w1) = outstanding a (trace w)).
  { unfold w1, w0. destruct (resumeIndex_ d >=? 0); rewrite ?SyncStall_outstanding;
      destruct (gpu E); reflexivity. }
  match goal with |- context [Run_loop E K ?pb ?n ?i ?cs d w1] =>
    destruct (Run_loop_balance pb n cs i d w1 Hwf) as [Hwf2 H2];
    destruct (Run_loop E K pb n i cs d w1) as [[ex d2] w2] end.
  cbn [fst snd] in Hwf2, H2.
  destruct ex; cbn [fst snd].
  - destruct (SubmitListEnd_balance d2 w2 Hwf2) as [Hwf3 H3].
    destruct (SubmitListEnd E K d2 w2) as [d3 w3]. unfold keeps_balance. cbn [fst snd] in *.
    split; [exact Hwf3 | lia].
  - unfold keeps_balance. cbn [fst snd]. split; [exact Hwf2 | lia].
Qed.

Lemma DumpExecute_destroy_outstanding d w :
  BufMapping_wf (mapping_ d) ->
  outstanding a (trace (DumpExecute_destroy d w).2) = outstanding a (trace w) - n_held a d.
Proof.
  intros (Hls & Hle & _). unfold DumpExecute_destroy, Reset.
  set (w1 := if execListBuf d =? 0 then w else Free (execListBuf d) w).
  assert (Hw1 : outstanding a (trace w1) = outstanding a (trace w) - is_addr a (execListBuf d)).
  { unfold w1. destruct (execListBuf d =? 0) eqn:H0.
    - apply Z.eqb_eq in H0. rewrite H0, is_addr_null. lia.
    - unfold outstanding, Free. cbn [trace n_alloc n_free]. lia. }
  cbn [execListBuf with_execMemcpyDest].
  replace (if negb (execListBuf d =? 0)
           then (with_execList 0 (execListPos (with_execMemcpyDest 0 d))
                   (execListID (with_execMemcpyDest 0 d)) (with_execMemcpyDest 0 d),
                 Free (execListBuf d) w)
           else (with_execMemcpyDest 0 d, w))
    with (with_execList 0 (execListPos d) (execListID d) (with_execMemcpyDest 0 d), w1).
  2: { unfold w1. destruct (execListBuf d =? 0) eqn:H0; [|reflexivity].
       apply Z.eqb_eq in H0. simpl. f_equal. destruct d; simpl in *; subst; reflexivity. }
  cbn [mapping_ with_execListPos with_execList with_execMemcpyDest].
  assert (Hs : Forall (fun i => (i < length (slabs_ (mapping_ d)))%nat) (seq 0 SLAB_COUNT))
    by (rewrite Hls; apply seq_in_range).
  pose proof (free_slabs_outstanding (seq 0 SLAB_COUNT) (slabs_ (mapping_ d)) w1 Hs) as H2.
  pose proof (fun j => free_slabs_psp (seq 0 SLAB_COUNT) (slabs_ (mapping_ d)) w1 j) as Hp2.
  destruct (free_slabs (slabs_ (mapping_ d)) (seq 0 SLAB_COUNT) w1) as [sl w2].
  cbv zeta in H2. cbn [fst snd] in H2, Hp2.
  assert (Hsl : slabs_at a sl = 0).
  { apply slabs_at_none. intros i. apply Hp2.
    destruct (decide (i < SLAB_COUNT)%nat) as [Hi|Hi]; [left; apply in_seq; lia|].
    right. rewrite lookup_ge_None_2 by lia. reflexivity. }
  assert (He : Forall (fun i => (i < length (extra_ (mapping_ d)))%nat) (seq 0 EXTRA_COUNT))
    by (rewrite Hle; apply seq_in_range).
  pose proof (free_extras_outstanding (seq 0 EXTRA_COUNT) (extra_ (mapping_ d)) w2 He) as H3.
  pose proof (fun j => free_extras_psp (seq 0 EXTRA_COUNT) (extra_ (mapping_ d)) w2 j) as Hp3.
  destruct (free_extras (extra_ (mapping_ d)) (seq 0 EXTRA_COUNT) w2) as [ex w3].
  cbv zeta in H3. cbn [fst snd] in H3, Hp3.
  assert (Hex : extras_at a ex = 0).
  { apply extras_at_none. intros i. apply Hp3.
    destruct (decide (i < EXTRA_COUNT)%nat) as [Hi|Hi]; [left; apply in_seq; lia|].
    right. rewrite extra_at_ge by lia. reflexivity. }
  cbn [snd]. unfold n_held, n_mapped. lia.
Qed.


(** X30.  The replay thread gives back every block of user memory it took.
    For every address other than 0 and the failure value -1: after [Run]
    on a fresh executor, the calls of [userMemory.Alloc] that returned the
    address exceed the calls of [userMemory.Free] on it by the number of
    places where the executor holds it (list buffer, slabs, extras); and
    over the whole thread body, which ends with the destructor, the address
    is freed as often as it was returned, whatever the commands are and
    whether [Run] ends with [Done] or [Error]. *)
Theorem replay_thread_frees_what_it_allocates (pushbuf : list Z) (commands : list Command)
    (version : Z) w :
  let r := Run E K pushbuf commands (DumpExecute_new version) w in
  let w' := replayThread_body E K pushbuf commands version w in
  n_alloc a (trace r.2) - n_alloc a (trace w)
  = n_free a (trace r.2) - n_free a (trace w) + n_held a r.1.2
  /\ n_alloc a (trace w') - n_alloc a (trace w) = n_free a (trace w') - n_free a (trace w).
Proof.
  cbv zeta. unfold replayThread_body.
  assert (Hnew : n_held a (DumpExecute_new version) = 0).
  { unfold n_held, n_mapped, DumpExecute_new, BufMapping_init.
    cbn [execListBuf mapping_ slabs_ extra_]. rewrite is_addr_null.
    rewrite slabs_at_none, extras_at_none; [reflexivity | |].
    - intros i. unfold extra_at. destruct (replicate EXTRA_COUNT ExtraInfo.init !! i) eqn:Hi;
        [apply lookup_replicate in Hi as [-> _]|]; reflexivity.
    - intros i. destruct (replicate SLAB_COUNT SlabInfo.init !! i) eqn:Hi;
        [apply lookup_replicate in Hi as [-> _]|]; reflexivity. }
  destruct (Run_balance pushbuf commands (DumpExecute_new version) w BufMapping_init_wf)
    as [Hwf H1].
  destruct (Run E K pushbuf commands (DumpExecute_new version) w) as [[retval d1] w1].
  cbn [fst snd] in *. rewrite Hnew in H1.
  pose proof (DumpExecute_destroy_outstanding d1
                (ExecuteOnMain E (mkOp OpDone 0 0) w1).2 Hwf) as H2.
  unfold ExecuteOnMain in *. cbn [fst snd] in *.
  unfold outstanding, log in *. cbn [trace n_alloc n_free] in *. lia.
Qed.


End Balance.


End Properties.

(** * The theorems at concrete inputs *)

Lemma no_slab_of_init_matches pos i :
  SlabInfo.Matches (slab_at BufMapping_init i) pos = false.
Proof.
  unfold SlabInfo.Matches, slab_at.
  do 10 (destruct i as [|i]; [simpl; apply andb_false_r|]).
  simpl. apply andb_false_r.
Qed.

Lemma no_extra_of_init_matches bufpos sz i :
  ExtraInfo.Matches (extra_at (replicate EXTRA_COUNT ExtraInfo.init) i) bufpos sz = false.
Proof.
  apply Matches_psp0. unfold extra_at.
  do 10 (destruct i as [|i]; [reflexivity|]). reflexivity.
Qed.


(** A range of 16 bytes across the first window boundary, nothing cached. *)
Lemma MapExtra_round_robin_witness :
  BufMapping_wf BufMapping_init
  /\ u32 (SLAB_SIZE - 8) / SLAB_SIZE <> u32 (SLAB_SIZE - 8 + 16 - 1) / SLAB_SIZE
  /\ let i := extraOffset_ BufMapping_init in
     let data := read_bytes pushbuf_11MB (SLAB_SIZE - 8) 16 in
     let '(p, m', w') := Map pushbuf_11MB BufMapping_init world0 (SLAB_SIZE - 8) 16 id in
     extraOffset_ m' = ((i + 1) mod EXTRA_COUNT)%nat
     /\ slabs_ m' = slabs_ BufMapping_init /\ lastSlab_ m' = lastSlab_ BufMapping_init
     /\ exists r1,
          let tr1 := EvAlloc 16 false "Straddle extra" r1
                       :: free_events [extra_at (extra_ BufMapping_init) i]
                       ++ trace (id world0) in
          if ptr_valid r1 then
            p = r1
            /\ extra_ m' = <[i := ExtraInfo.mk r1 (SLAB_SIZE - 8) 16]> (extra_ BufMapping_init)
            /\ trace w' = EvMemcpy r1 data :: tr1
          else
            exists r2,
              let tr2 := EvAlloc 16 false "Straddle extra" r2
                           :: free_events (<[i := ExtraInfo.init]> (extra_ BufMapping_init))
                           ++ tr1 in
              (forall j, j <> i -> ExtraInfo.psp_pointer_ (extra_at (extra_ m') j) = 0)
              /\ if ptr_valid r2 then
                   p = r2
                   /\ extra_at (extra_ m') i = ExtraInfo.mk r2 (SLAB_SIZE - 8) 16
                   /\ trace w' = EvMemcpy r2 data :: tr2
                 else
                   p = 0
                   /\ ExtraInfo.psp_pointer_ (extra_at (extra_ m') i) = 0
                   /\ trace w' = tr2.
Proof.
  assert (Hwf : BufMapping_wf BufMapping_init).
  { unfold BufMapping_wf. simpl. unfold EXTRA_COUNT. repeat split; lia. }
  assert (Hstraddle : u32 (SLAB_SIZE - 8) / SLAB_SIZE
                      <> u32 (SLAB_SIZE - 8 + 16 - 1) / SLAB_SIZE).
  { vm_compute. discriminate. }
  split; [exact Hwf|]. split; [exact Hstraddle|].
  apply (MapExtra_round_robin (A:=user_memory) pushbuf_11MB BufMapping_init world0
           (SLAB_SIZE - 8) 16 id Hwf Hstraddle).
  intros i. apply no_extra_of_init_matches.
Defined.

(** A first call that sets up a slab, and the same call again. *)
Lemma Map_again_is_a_hit_witness :
  let r := Map pushbuf64 BufMapping_init world0 0 16 id in
  BufMapping_wf BufMapping_init
  /\ Map pushbuf64 BufMapping_init world0 0 16 id = (r.1.1, r.1.2, r.2)
  /\ r.1.1 <> 0
  /\ Map pushbuf64 r.1.2 r.2 0 16 id = (r.1.1, r.1.2, r.2).
Proof.
  intros r.
  assert (Hwf : BufMapping_wf BufMapping_init).
  { unfold BufMapping_wf. simpl. unfold EXTRA_COUNT. repeat split; lia. }
  assert (Hr : Map pushbuf64 BufMapping_init world0 0 16 id = (r.1.1, r.1.2, r.2)).
  { vm_compute. reflexivity. }
  assert (Hp : r.1.1 <> 0).
  { vm_compute. discriminate. }
  split; [exact Hwf|]. split; [exact Hr|]. split; [exact Hp|].
  exact (Map_again_is_a_hit (A:=user_memory) pushbuf64 BufMapping_init world0 0 16 id id
           r.1.1 r.1.2 r.2 Hwf Hr Hp).
Defined.

(** C5 as stated fails when the first call fails: with user memory used up
    the first [Map] returns 0, and the second one hits nothing: it asks the
    allocator again. *)
Lemma Map_again_counterexample :
  let '(p1, m1, w1) := Map pushbuf64 BufMapping_init world_exhausted 0 16 id in
  let '(p2, m2, w2) := Map pushbuf64 m1 w1 0 16 id in
  p1 = 0 /\ p2 = 0
  /\ trace w2 = EvAlloc SLAB_SIZE false "Slab" (u32 (-1)) :: trace w1.
Proof. vm_compute. repeat split; reflexivity. Qed.

(** A record flagged "unchanged" (flags = 2), replayed as version 6 and as
    version 5. *)
Lemma Framebuf_unchanged_flag_witness :
  (version_ (DumpExecute_new 6) >= 6
   /\ Z.testbit (pushbuf_u32 (framebuf_record 2) (0 + 8)) 1 = true
   /\ (Framebuf quiet_env psp_ge (framebuf_record 2) 0 (DumpExecute_new 6) world0 0 32).2
      = world0)
  /\ (version_ (DumpExecute_new 5) < 6
      /\ Memory_IsValidRange quiet_env (pushbuf_u32 (framebuf_record 2) 0)
           (u32 (32 - FramebufData_size)) = true
      /\ (Framebuf quiet_env psp_ge (framebuf_record 2) 0 (DumpExecute_new 5) world0 0 32).2
         = log (EvNotifyMemInfo (pushbuf_u32 (framebuf_record 2) 0)
                  (u32 (32 - FramebufData_size)) "ReplayTex")
             (MemcpyUnchecked (pushbuf_u32 (framebuf_record 2) 0)
                (read_bytes (framebuf_record 2) (0 + FramebufData_size)
                   (u32 (32 - FramebufData_size))) world0)).
Proof.
  assert (H6 : version_ (DumpExecute_new 6) >= 6) by (simpl; lia).
  assert (Hbit : Z.testbit (pushbuf_u32 (framebuf_record 2) (0 + 8)) 1 = true)
    by reflexivity.
  assert (H5 : version_ (DumpExecute_new 5) < 6) by (simpl; lia).
  assert (Hvalid : Memory_IsValidRange quiet_env (pushbuf_u32 (framebuf_record 2) 0)
                     (u32 (32 - FramebufData_size)) = true) by reflexivity.
  split.
  - split; [exact H6|]. split; [exact Hbit|].
    exact (proj1 (Framebuf_unchanged_flag (A:=user_memory) quiet_env psp_ge
                    (framebuf_record 2) 0 (DumpExecute_new 6) world0 0 32) H6 Hbit).
  - split; [exact H5|]. split; [exact Hvalid|].
    exact (proj2 (Framebuf_unchanged_flag (A:=user_memory) quiet_env psp_ge
                    (framebuf_record 2) 0 (DumpExecute_new 5) world0 0 32) H5 Hvalid
                 (or_introl eq_refl)).
Defined.

(** The first mapped access of a fresh executor. *)
Lemma mapped_handlers_words_witness :
  let d := DumpExecute_new 6 in
  let r := map_payload quiet_env pushbuf64 d world0 0 16 in
  let psp := r.1.1 in
  map_payload quiet_env pushbuf64 d world0 0 16 = (psp, r.1.2, r.2)
  /\ psp <> 0
  /\ let high := Z.land psp 0xFF000000 in
     let base := if lastBase_ d =? high then [] else [base_word psp_ge psp] in
     (let '(d', w') := Vertices quiet_env psp_ge pushbuf64 d world0 0 16 in
      execListQueue d' = execListQueue d ++ base ++ [addr_word (GE_CMD_VADDR psp_ge) psp]
      /\ lastBase_ d' = high /\ w' = r.2)
     /\ (let '(d', w') := Indices quiet_env psp_ge pushbuf64 d world0 0 16 in
         execListQueue d' = execListQueue d ++ base ++ [addr_word (GE_CMD_IADDR psp_ge) psp]
         /\ lastBase_ d' = high /\ w' = r.2)
     /\ (let '(d', w') := TransferSrc quiet_env psp_ge pushbuf64 d world0 0 16 in
         let srcw := u32 (Z.lor (Z.land (gstate_transfersrcw quiet_env (trace w')) 0xFF00FFFF)
                                (Z.land (Z.shiftr psp 8) 0x00FF0000)) in
         execListQueue d'
         = execListQueue d ++ [srcw; addr_word (GE_CMD_TRANSFERSRC psp_ge) psp]
         /\ lastBase_ d' = lastBase_ d /\ w' = SyncStall quiet_env r.1.2 r.2).
Proof.
  intros d r psp.
  assert (Hr : map_payload quiet_env pushbuf64 d world0 0 16 = (psp, r.1.2, r.2)).
  { vm_compute. reflexivity. }
  assert (Hp : psp <> 0).
  { vm_compute. discriminate. }
  split; [exact Hr|]. split; [exact Hp|].
  exact (mapped_handlers_words (A:=user_memory) quiet_env psp_ge pushbuf64 d world0 0 16
           psp r.1.2 r.2 Hr Hp).
Defined.

(** C8 as stated fails for [TransferSrc].  With [lastBase_] = 0 and the
    payload mapped at 0x08800000 the high byte differs, yet no base word
    (0x10080000) is queued and [lastBase_] stays 0: the two words queued are
    the transfer source width word and the TRANSFERSRC address word. *)
Lemma TransferSrc_counterexample :
  let d := DumpExecute_new 6 in
  let '(psp, _, _) := map_payload quiet_env pushbuf64 d world0 0 16 in
  let '(d', _) := TransferSrc quiet_env psp_ge pushbuf64 d world0 0 16 in
  psp = 0x08800000
  /\ lastBase_ d <> Z.land psp 0xFF000000
  /\ base_word psp_ge psp = 0x10080000
  /\ execListQueue d' = [0xB3080200; 0xB2800000]
  /\ lastBase_ d' = 0.
Proof. vm_compute. repeat split; try reflexivity. discriminate. Qed.

(** A register payload, then a command of a type [Run] has no case for. *)
Lemma Run_stops_at_unsupported_witness :
  let pre := [mkCommand REGISTERS 0 16] in
  let bad := mkCommand (CommandType_other 99) 0 0 in
  let post := [mkCommand DISPLAY 16 12] in
  let d := DumpExecute_new 6 in
  (forall tr, observe_g_cancelled quiet_env tr = false)
  /\ resumeIndex_ d < 0
  /\ Forall (fun c => supported (cmd_type c) = true) pre
  /\ supported (cmd_type bad) = false
  /\ exists d' w',
       Run_loop quiet_env psp_ge pushbuf64 (length (pre ++ bad :: post)) 0 pre d
         (if gpu quiet_env then log (EvSetAddrTranslation 0x400) world0 else world0)
       = (LoopEnd, d', w')
       /\ Run quiet_env psp_ge pushbuf64 (pre ++ bad :: post) d world0
          = (Error, d', log (EvErrorLog "Unsupported GE dump command") w').
Proof.
  intros pre bad post d.
  assert (Hnc : forall tr, observe_g_cancelled quiet_env tr = false) by reflexivity.
  assert (Hres : resumeIndex_ d < 0) by (simpl; lia).
  assert (Hpre : Forall (fun c => supported (cmd_type c) = true) pre).
  { repeat constructor. }
  assert (Hbad : supported (cmd_type bad) = false) by reflexivity.
  split; [exact Hnc|]. split; [exact Hres|]. split; [exact Hpre|]. split; [exact Hbad|].
  exact (Run_stops_at_unsupported (A:=user_memory) quiet_env psp_ge pushbuf64 pre post bad
           d world0 Hnc Hres Hpre Hbad).
Defined.

(** C1 as stated fails in its second half.  A list is in progress when the
    unsupported command is met, [Run] returns [Error], and no finish word
    (0x0F000000), no end word (0x0C000000) and no request to sync the list
    has been issued. *)
Lemma Run_unsupported_counterexample :
  let '(r, d, w) :=
    Run quiet_env psp_ge pushbuf64
      [mkCommand REGISTERS 0 16; mkCommand (CommandType_other 99) 0 0]
      (DumpExecute_new 6) world0 in
  r = Error
  /\ execListPos d <> 0
  /\ existsb is_ListSync (trace w) = false
  /\ existsb (writes_word 0x0F000000) (trace w) = false
  /\ existsb (writes_word 0x0C000000) (trace w) = false.
Proof. vm_compute. repeat split; try reflexivity. discriminate. Qed.

(** C7 fails on the code.  One [Registers] command whose payload is as
    large as the list buffer: the write position wraps to the start of the
    buffer and the payload fills it to the last byte, so no byte is left
    where the source reserves eight, and list finalization writes its
    finish and end words behind the end of the buffer. *)
Theorem Registers_payload_fills_the_buffer :
  let d := (Registers quiet_env psp_ge pushbuf_256K (DumpExecute_new 6) world0
              0 LIST_BUF_SIZE).1 in
  execListBuf d = 0x08800000
  /\ execListPos d = execListBuf d + LIST_BUF_SIZE
  /\ forall w : World (A:=user_memory),
       exists evs,
         trace (SubmitListEnd quiet_env psp_ge d w).2
         = evs ++ [EvWrite_U32 0x0C000000 (execListBuf d + LIST_BUF_SIZE + 4);
                   EvWrite_U32 0x0F000000 (execListBuf d + LIST_BUF_SIZE)]
               ++ trace w.
Proof.
  intros d.
  destruct (Registers_list_fields (A:=user_memory) quiet_env psp_ge pushbuf_256K
              (DumpExecute_new 6) world0 0 LIST_BUF_SIZE eq_refl) as (Hb & _ & Hp).
  fold d in Hb, Hp.
  assert (Hbuf : execListBuf d = 0x08800000) by (rewrite Hb; vm_compute; reflexivity).
  assert (Hpos : execListPos d = 0x08800000 + LIST_BUF_SIZE)
    by (rewrite Hp; vm_compute; reflexivity).
  split; [exact Hbuf|]. split; [rewrite Hpos, Hbuf; reflexivity|].
  intros w.
  destruct (SubmitListEnd_trace quiet_env psp_ge d w) as (evs & Ht & _).
  { rewrite Hpos. vm_compute. discriminate. }
  { reflexivity. }
  exists evs. rewrite Ht, Hpos, Hbuf. reflexivity.
Qed.

(** The truncated capture, asked for when nothing is loaded. *)
Lemma failed_load_starts_no_thread_witness :
  let p := Process_init in
  let filename := "truncated.ppdmp"%string in
  let content := file_content example_main filename in
  let header :=
    Header_of_bytes example_format
      (overlay (take (sizeof_Header example_format) content)
               (replicate (sizeof_Header example_format) 0)) in
  let v := version header in
  let body := drop (if v <=? 3 then 12%nat else sizeof_Header example_format) content in
  (magic header <> take (sizeof_magic example_format) (HEADER_MAGIC example_format)
   \/ v > VERSION example_format \/ v < MIN_VERSION example_format
   \/ (exists sz bufsz cstream pstream,
         capture_streams body sz bufsz cstream pstream
         /\ 0 <= sz < 2 ^ 32 /\ 0 <= bufsz < 2 ^ 32
         /\ Z.of_nat (length cstream) < 2 ^ 32 /\ Z.of_nat (length pstream) < 2 ^ 32
         /\ (decompressed_size stored_codecs v cstream (sizeof_Command example_format * sz)
             <> sizeof_Command example_format * sz
             \/ decompressed_size stored_codecs v pstream bufsz <> bufsz)))
  /\ lastExecFilename p <> filename
  /\ replayThread p = None
  /\ ((LoadReplay example_format stored_codecs example_main p filename).1 = 0
      /\ replayThread (LoadReplay example_format stored_codecs example_main p filename).2
         = replayThread p
      /\ thread_starts
           (main_trace (LoadReplay example_format stored_codecs example_main p filename).2)
         = thread_starts (main_trace p))
  /\ exists p',
       RunMountedReplay quiet_env psp_ge example_format stored_codecs example_main
         world0 p filename = Some (Error, p')
       /\ replayThread p' = None
       /\ thread_starts (main_trace p') = thread_starts (main_trace p).
Proof.
  intros p filename content header v body.
  assert (Hbad :
    magic header <> take (sizeof_magic example_format) (HEADER_MAGIC example_format)
    \/ v > VERSION example_format \/ v < MIN_VERSION example_format
    \/ (exists sz bufsz cstream pstream,
          capture_streams body sz bufsz cstream pstream
          /\ 0 <= sz < 2 ^ 32 /\ 0 <= bufsz < 2 ^ 32
          /\ Z.of_nat (length cstream) < 2 ^ 32 /\ Z.of_nat (length pstream) < 2 ^ 32
          /\ (decompressed_size stored_codecs v cstream (sizeof_Command example_format * sz)
              <> sizeof_Command example_format * sz
              \/ decompressed_size stored_codecs v pstream bufsz <> bufsz))).
  { right. right. right.
    exists 1, 4, [1; 0; 0; 0; 0; 0; 0; 0], [0; 0; 0; 0].
    split; [exists []; reflexivity|].
    split; [lia|]. split; [lia|]. split; [simpl; lia|]. split; [simpl; lia|].
    left. vm_compute. discriminate. }
  assert (Hname : lastExecFilename p <> filename) by discriminate.
  assert (Hidle : replayThread p = None) by reflexivity.
  split; [exact Hbad|]. split; [exact Hname|]. split; [exact Hidle|].
  destruct (failed_load_starts_no_thread (A:=user_memory) quiet_env psp_ge example_format
              stored_codecs example_main world0 p filename Hbad) as [Hload Hrun].
  split; [exact Hload|]. exact (Hrun Hname Hidle).
Defined.

(** C6.  A capture of version 4 whose command stream is longer than the
    header data declares is loaded all the same.  The magic and the version
    are good, the command stream holds 16 bytes where 12 are declared, and
    the legacy decompressor, which cannot store them, leaves the length it
    was given in place; its status is not looked at, so the length test of
    [ReadCompressed] passes: [LoadReplay] returns the version, the commands
    are the twelve zero bytes of the resized vector, and the entry point
    starts a thread and returns [Break].  The same bytes as a capture of
    version 6 are rejected, and the entry point returns [Error] with no
    thread. *)
Lemma legacy_length_mismatch_is_accepted :
  let content := file_content overlong_files "legacy.ppdmp" in
  let header := Header_of_bytes example_format (take (sizeof_Header example_format) content) in
  let cstream := [1; 0; 0; 0; 0; 0; 0; 0; 4; 0; 0; 0; 0; 0; 0; 0] in
  let loaded := LoadReplay example_format stored_codecs overlong_files Process_init
                  "legacy.ppdmp" in
  magic header = HEADER_MAGIC example_format
  /\ version header = 4
  /\ MIN_VERSION example_format <= version header <= VERSION example_format
  /\ capture_streams (drop (sizeof_Header example_format) content) 1 4 cstream [0; 0; 0; 0]
  /\ Z.of_nat (length cstream) <> sizeof_Command example_format * 1
  /\ snappy_uncompress stored_codecs cstream (sizeof_Command example_format * 1)
     = ([], sizeof_Command example_format * 1)
  /\ loaded.1 = 4
  /\ lastExecFilename loaded.2 = "legacy.ppdmp"%string
  /\ lastExecCommands loaded.2 = replicate 12%nat 0
  /\ (exists p',
        RunMountedReplay quiet_env psp_ge example_format stored_codecs overlong_files
          world0 Process_init "legacy.ppdmp" = Some (Break, p')
        /\ joinable p' = true
        /\ thread_starts (main_trace p') = 1%nat)
  /\ (LoadReplay example_format stored_codecs overlong_files Process_init "current.ppdmp").1 = 0
  /\ (exists p',
        RunMountedReplay quiet_env psp_ge example_format stored_codecs overlong_files
          world0 Process_init "current.ppdmp" = Some (Error, p')
        /\ joinable p' = false
        /\ thread_starts (main_trace p') = 0%nat).
Proof.
  intros content header cstream loaded.
  split; [reflexivity|]. split; [reflexivity|]. split; [vm_compute; split; discriminate|].
  split; [exists []; reflexivity|]. split; [vm_compute; discriminate|].
  split; [reflexivity|]. split; [vm_compute; reflexivity|]. split; [vm_compute; reflexivity|].
  split; [vm_compute; reflexivity|]. split.
  - eexists. split; [vm_compute; reflexivity|]. split; reflexivity.
  - split; [vm_compute; reflexivity|].
    eexists. split; [vm_compute; reflexivity|]. split; reflexivity.
Qed.

(** The cached capture with the unsupported command: [Run] returns [Error]
    after posting the list, and the entry point returns [Break], then
    [Done]. *)
Lemma executor_result_is_discarded_witness :
  let p := process_unsupported in
  let filename := "unsupported.ppdmp"%string in
  let pushbuf := lastExecPushbuf p in
  let commands := decode_commands example_format (lastExecCommands p) in
  let version := lastExecVersion p in
  let start := mkWorld (heap world0) (mem world0) [] (downcount world0) in
  let run := Run quiet_env psp_ge pushbuf commands (DumpExecute_new version) start in
  let ops := posted_ops (trace run.2) in
  lastExecFilename p = filename
  /\ replayThread p = None
  /\ run.1.1 = Error
  /\ ops = [mkOp EnqueueList 0x08800000 0x08800004]
  /\ posted_ops (trace (replayThread_body quiet_env psp_ge pushbuf commands version start))
     = ops ++ [done_op]
  /\ Forall (fun op => breaks op = true) ops
  /\ (exists p',
        drive quiet_env psp_ge example_format stored_codecs example_main
          (S (length ops)) world0 p filename = Some (Done, p')
        /\ replayThread p' = None)
  /\ (forall q q', lastExecFilename q = filename ->
        RunMountedReplay quiet_env psp_ge example_format stored_codecs example_main
          world0 q filename <> Some (Error, q')).
Proof.
  intros p filename pushbuf commands version start run ops.
  assert (Hname : lastExecFilename p = filename) by reflexivity.
  assert (Hidle : replayThread p = None) by reflexivity.
  split; [exact Hname|]. split; [exact Hidle|].
  split; [vm_compute; reflexivity|]. split; [vm_compute; reflexivity|].
  exact (executor_result_is_discarded (A:=user_memory) quiet_env psp_ge example_format
           stored_codecs example_main world0 p filename Hname Hidle).
Defined.

(** * Further properties at concrete inputs *)

(** [ori s0, a0, 0x1234] and its relatives. *)
Lemma MIPS_immediate_encoders_decode_witness :
  0 <= 16 < 32 /\ 0 <= 4 < 32 /\ 0 <= 0x1234 < 2 ^ 16
  /\ (let op := MIPS_MAKE_ORI 16 4 0x1234 in
      MIPS_GET_OP op = 13 /\ MIPS_GET_RS op = 4 /\ MIPS_GET_RT op = 16
      /\ Z.land op 0xFFFF = 0x1234)
  /\ (let op := MIPS_MAKE_LW 16 4 0x1234 in
      MIPS_GET_OP op = 35 /\ MIPS_GET_RS op = 4 /\ MIPS_GET_RT op = 16
      /\ Z.land op 0xFFFF = 0x1234)
  /\ (let op := MIPS_MAKE_ADDIU 16 4 0x1234 in
      MIPS_GET_OP op = 9 /\ MIPS_GET_RS op = 4 /\ MIPS_GET_RT op = 16
      /\ Z.land op 0xFFFF = 0x1234)
  /\ (let op := MIPS_MAKE_LUI 16 0x1234 in
      MIPS_GET_OP op = 15 /\ MIPS_GET_RS op = 0 /\ MIPS_GET_RT op = 16
      /\ Z.land op 0xFFFF = 0x1234).
Proof.
  assert (Hrt : 0 <= 16 < 32) by lia.
  assert (Hrs : 0 <= 4 < 32) by lia.
  assert (Himm : 0 <= 0x1234 < 2 ^ 16) by lia.
  split; [exact Hrt|]. split; [exact Hrs|]. split; [exact Himm|].
  exact (MIPS_immediate_encoders_decode 16 4 0x1234 Hrt Hrs Himm).
Defined.

(** A branch on v0 three instructions back from the delay slot. *)
Lemma MIPS_MAKE_BNEZ_decodes_witness :
  0 <= 0x08800010 < 2 ^ 32 /\ 0 <= 2 < 32 /\ - 2 ^ 15 <= -3 < 2 ^ 15
  /\ (let op := MIPS_MAKE_BNEZ 0x08800010 (u32 (0x08800010 + 4 + 4 * -3)) 2 in
      MIPS_GET_OP op = 5 /\ MIPS_GET_RS op = 2 /\ MIPS_GET_RT op = 0
      /\ Z.land op 0xFFFF = -3 mod 2 ^ 16).
Proof.
  assert (Hpc : 0 <= 0x08800010 < 2 ^ 32) by lia.
  assert (Hrs : 0 <= 2 < 32) by lia.
  assert (Hk : - 2 ^ 15 <= -3 < 2 ^ 15) by lia.
  split; [exact Hpc|]. split; [exact Hrs|]. split; [exact Hk|].
  exact (MIPS_MAKE_BNEZ_decodes 0x08800010 2 (-3) Hpc Hrs Hk).
Defined.

(** A jump into user memory. *)
Lemma MIPS_jump_encoders_decode_witness :
  0 <= 0x08800008 < 2 ^ 28
  /\ (let op := MIPS_MAKE_J 0x08800008 in
      MIPS_GET_OP op = 2
      /\ Z.shiftl (Z.land op 0x03FFFFFF) 2 = 0x08800008 - 0x08800008 mod 4)
  /\ (let op := MIPS_MAKE_JAL 0x08800008 in
      MIPS_GET_OP op = 3
      /\ Z.shiftl (Z.land op 0x03FFFFFF) 2 = 0x08800008 - 0x08800008 mod 4).
Proof.
  assert (Haddr : 0 <= 0x08800008 < 2 ^ 28) by lia.
  split; [exact Haddr|].
  exact (MIPS_jump_encoders_decode 0x08800008 Haddr).
Defined.

(** The stub at the start of user memory. *)
Lemma WriteRunDumpCode_writes_the_array_witness :
  0 <= 0x08800000 /\ 0x08800000 + 56 <= 2 ^ 32
  /\ (let m' := WriteRunDumpCode example_syscalls mips_regs 0x08800000 ∅ in
      (forall i v, runDumpCode example_syscalls mips_regs 0x08800000 !! i = Some v ->
         load_u32 m' (0x08800000 + 4 * Z.of_nat i) = v)
      /\ (forall a, a < 0x08800000 \/ 0x08800000 + 56 <= a -> m' !! a = (∅ : Zmap Z) !! a)).
Proof.
  assert (H0 : 0 <= 0x08800000) by lia.
  assert (H1 : 0x08800000 + 56 <= 2 ^ 32) by lia.
  split; [exact H0|]. split; [exact H1|].
  exact (WriteRunDumpCode_writes_the_array example_syscalls mips_regs 0x08800000 ∅ H0 H1).
Defined.

Lemma WriteRunDumpCode_loops_on_V0_witness :
  0 <= 0x08800000 /\ 0x08800000 + 56 <= 2 ^ 28 /\ 0x08800000 mod 4 = 0
  /\ 0 <= MIPS_REG_V0 mips_regs < 32
  /\ (let word := fun i =>
        load_u32 (WriteRunDumpCode example_syscalls mips_regs 0x08800000 ∅)
                 (0x08800000 + 4 * i) in
      word 2 = u32 (MIPS_MAKE_SYSCALL example_syscalls "FakeSysCalls" "__KernelGPUReplay")
      /\ word 3 = MIPS_MAKE_NOP
      /\ (MIPS_GET_OP (word 4) = 5 /\ MIPS_GET_RS (word 4) = MIPS_REG_V0 mips_regs
          /\ MIPS_GET_RT (word 4) = 0 /\ Z.land (word 4) 0xFFFF = 2 ^ 16 - 3)
      /\ word 5 = MIPS_MAKE_NOP
      /\ (MIPS_GET_OP (word 11) = 2
          /\ Z.shiftl (Z.land (word 11) 0x03FFFFFF) 2 = 0x08800000 + 8)
      /\ word 12 = MIPS_MAKE_NOP).
Proof.
  assert (H0 : 0 <= 0x08800000) by lia.
  assert (H1 : 0x08800000 + 56 <= 2 ^ 28) by lia.
  assert (H2 : 0x08800000 mod 4 = 0) by reflexivity.
  assert (H3 : 0 <= MIPS_REG_V0 mips_regs < 32) by (simpl; lia).
  split; [exact H0|]. split; [exact H1|]. split; [exact H2|]. split; [exact H3|].
  exact (WriteRunDumpCode_loops_on_V0 example_syscalls mips_regs 0x08800000 ∅ H0 H1 H2 H3).
Defined.

(** The first request of a fresh mapper, inside the first window. *)
Lemma Map_slab_miss_mirrors_pushbuf_witness :
  let r := Map pushbuf64 BufMapping_init world0 0 16 id in
  length (slabs_ BufMapping_init) = SLAB_COUNT
  /\ Z.of_nat (length pushbuf64) < 2 ^ 32
  /\ 0 <= 0 /\ 0 < 16 /\ 0 + 16 <= Z.of_nat (length pushbuf64)
  /\ 0 / SLAB_SIZE = (0 + 16 - 1) / SLAB_SIZE
  /\ (forall i, SlabInfo.Matches (slab_at BufMapping_init i) (0 / SLAB_SIZE * SLAB_SIZE)
                = false)
  /\ r.1.1 <> 0
  /\ 0 <= SlabInfo.psp_pointer_ (slab_at r.1.2 (lastSlab_ r.1.2))
  /\ SlabInfo.psp_pointer_ (slab_at r.1.2 (lastSlab_ r.1.2)) + SLAB_SIZE <= 2 ^ 32
  /\ forall k, 0 <= k < 16 -> mem r.2 !! (r.1.1 + k) = pushbuf64 !! Z.to_nat (0 + k).
Proof.
  intros r.
  assert (H1 : length (slabs_ BufMapping_init) = SLAB_COUNT) by reflexivity.
  assert (H2 : Z.of_nat (length pushbuf64) < 2 ^ 32) by reflexivity.
  assert (H3 : 0 <= 0) by lia.
  assert (H4 : 0 < 16) by lia.
  assert (H5 : 0 + 16 <= Z.of_nat (length pushbuf64)) by (vm_compute; discriminate).
  assert (H6 : 0 / SLAB_SIZE = (0 + 16 - 1) / SLAB_SIZE) by reflexivity.
  assert (H7 : forall i, SlabInfo.Matches (slab_at BufMapping_init i)
                           (0 / SLAB_SIZE * SLAB_SIZE) = false)
    by (intros i; apply no_slab_of_init_matches).
  assert (H8 : Map pushbuf64 BufMapping_init world0 0 16 id = (r.1.1, r.1.2, r.2))
    by (unfold r; destruct (Map _ _ _ _ _ _) as [[? ?] ?]; reflexivity).
  assert (H9 : r.1.1 <> 0) by (vm_compute; discriminate).
  assert (H10 : 0 <= SlabInfo.psp_pointer_ (slab_at r.1.2 (lastSlab_ r.1.2)))
    by (vm_compute; discriminate).
  assert (H11 : SlabInfo.psp_pointer_ (slab_at r.1.2 (lastSlab_ r.1.2)) + SLAB_SIZE <= 2 ^ 32)
    by (vm_compute; discriminate).
  repeat (split; [assumption|]).
  exact (Map_slab_miss_mirrors_pushbuf (A:=user_memory) pushbuf64 BufMapping_init world0 0 16 id
           r.1.1 r.1.2 r.2 H1 H2 H3 H4 H5 H6 H7 H8 H9 H10 H11).
Defined.

(** Eight bytes across the first window boundary, nothing cached. *)
Lemma Map_extra_miss_mirrors_pushbuf_witness :
  let bufpos := SLAB_SIZE - 4 in
  let r := Map pushbuf_straddle BufMapping_init world0 bufpos 8 id in
  BufMapping_wf BufMapping_init
  /\ 0 <= bufpos /\ bufpos + 8 <= Z.of_nat (length pushbuf_straddle)
  /\ u32 bufpos / SLAB_SIZE <> u32 (bufpos + 8 - 1) / SLAB_SIZE
  /\ (forall i, ExtraInfo.Matches (extra_at (extra_ BufMapping_init) i) bufpos 8 = false)
  /\ r.1.1 <> 0
  /\ forall k, 0 <= k < 8 ->
       mem r.2 !! (r.1.1 + k) = pushbuf_straddle !! Z.to_nat (bufpos + k).
Proof.
  intros bufpos r.
  assert (H1 : BufMapping_wf BufMapping_init) by apply BufMapping_init_wf.
  assert (H2 : 0 <= bufpos) by (unfold bufpos, SLAB_SIZE; lia).
  assert (H3 : bufpos + 8 <= Z.of_nat (length pushbuf_straddle)).
  { unfold pushbuf_straddle, bufpos, SLAB_SIZE. rewrite length_replicate, Z2Nat.id; lia. }
  assert (H4 : u32 bufpos / SLAB_SIZE <> u32 (bufpos + 8 - 1) / SLAB_SIZE)
    by (vm_compute; discriminate).
  assert (H5 : forall i, ExtraInfo.Matches (extra_at (extra_ BufMapping_init) i) bufpos 8
                         = false)
    by (intros i; apply no_extra_of_init_matches).
  assert (H6 : Map pushbuf_straddle BufMapping_init world0 bufpos 8 id = (r.1.1, r.1.2, r.2))
    by (unfold r; destruct (Map _ _ _ _ _ _) as [[? ?] ?]; reflexivity).
  assert (H7 : r.1.1 <> 0) by (vm_compute; discriminate).
  repeat (split; [assumption|]).
  exact (Map_extra_miss_mirrors_pushbuf (A:=user_memory) pushbuf_straddle BufMapping_init world0
           bufpos 8 id r.1.1 r.1.2 r.2 H1 H2 H3 H4 H5 H6 H7).
Defined.

(** The first request of a fresh mapper again: where its address lies. *)
Lemma Map_slab_address_witness :
  let r := Map pushbuf64 BufMapping_init world0 20 16 id in
  length (slabs_ BufMapping_init) = SLAB_COUNT
  /\ u32 20 / SLAB_SIZE = u32 (20 + 16 - 1) / SLAB_SIZE
  /\ r.1.1 <> 0
  /\ (let slab_pos := u32 (u32 20 / SLAB_SIZE * SLAB_SIZE) in
      exists i, (i < SLAB_COUNT)%nat
        /\ SlabInfo.Matches (slab_at r.1.2 i) slab_pos = true
        /\ Age_at r.1.2 i = 0
        /\ r.1.1 = u32 (SlabInfo.psp_pointer_ (slab_at r.1.2 i) + (20 - slab_pos))).
Proof.
  intros r.
  assert (H1 : length (slabs_ BufMapping_init) = SLAB_COUNT) by reflexivity.
  assert (H2 : u32 20 / SLAB_SIZE = u32 (20 + 16 - 1) / SLAB_SIZE) by reflexivity.
  assert (H3 : Map pushbuf64 BufMapping_init world0 20 16 id = (r.1.1, r.1.2, r.2))
    by (unfold r; destruct (Map _ _ _ _ _ _) as [[? ?] ?]; reflexivity).
  assert (H4 : r.1.1 <> 0) by (vm_compute; discriminate).
  repeat (split; [assumption|]).
  exact (Map_slab_address (A:=user_memory) pushbuf64 BufMapping_init world0 20 16 id
           r.1.1 r.1.2 r.2 H1 H2 H3 H4).
Defined.

Lemma one_slab_stamps_ok : stamps_ok one_slab.
Proof.
  split; [simpl; lia|]. intros i. unfold slab_at.
  do 10 (destruct i as [|i]; [simpl; lia|]). simpl. lia.
Qed.

(** A request in the second window, with the first window cached. *)
Lemma Map_keeps_stamps_witness :
  let m' := (Map pushbuf64 one_slab world0 SLAB_SIZE 16 id).1.2 in
  length (slabs_ one_slab) = SLAB_COUNT
  /\ stamps_ok one_slab
  /\ slabGeneration_ one_slab < INT_MAX
  /\ stamps_ok m'
  /\ (slabGeneration_ m' = slabGeneration_ one_slab
      \/ slabGeneration_ m' = slabGeneration_ one_slab + 1)
  /\ forall i, SlabInfo.psp_pointer_ (slab_at m' i) <> 0 ->
       0 <= Age_at m' i <= slabGeneration_ m'.
Proof.
  intros m'.
  assert (H1 : length (slabs_ one_slab) = SLAB_COUNT) by reflexivity.
  assert (H2 : slabGeneration_ one_slab < INT_MAX) by reflexivity.
  split; [exact H1|]. split; [exact one_slab_stamps_ok|]. split; [exact H2|].
  exact (Map_keeps_stamps (A:=user_memory) pushbuf64 one_slab world0 SLAB_SIZE 16 id
           H1 one_slab_stamps_ok H2).
Defined.

Lemma Map_takes_a_free_slab_first_witness :
  let s' := slab_at (Map pushbuf64 one_slab world0 SLAB_SIZE 16 id).1.2 0 in
  length (slabs_ one_slab) = SLAB_COUNT
  /\ stamps_ok one_slab
  /\ slabGeneration_ one_slab < INT_MAX
  /\ (1 < SLAB_COUNT)%nat /\ SlabInfo.psp_pointer_ (slab_at one_slab 1) = 0
  /\ SlabInfo.psp_pointer_ (slab_at one_slab 0) <> 0
  /\ SlabInfo.psp_pointer_ s' = SlabInfo.psp_pointer_ (slab_at one_slab 0)
  /\ SlabInfo.buf_pointer_ s' = SlabInfo.buf_pointer_ (slab_at one_slab 0).
Proof.
  intros s'.
  assert (H1 : length (slabs_ one_slab) = SLAB_COUNT) by reflexivity.
  assert (H2 : slabGeneration_ one_slab < INT_MAX) by reflexivity.
  assert (H3 : (1 < SLAB_COUNT)%nat) by (unfold SLAB_COUNT; lia).
  assert (H4 : SlabInfo.psp_pointer_ (slab_at one_slab 1) = 0) by reflexivity.
  assert (H5 : SlabInfo.psp_pointer_ (slab_at one_slab 0) <> 0) by (simpl; lia).
  split; [exact H1|]. split; [exact one_slab_stamps_ok|]. split; [exact H2|].
  split; [exact H3|]. split; [exact H4|]. split; [exact H5|].
  exact (Map_takes_a_free_slab_first (A:=user_memory) pushbuf64 one_slab world0 SLAB_SIZE 16 id
           1%nat H1 one_slab_stamps_ok H2 H3 H4 0%nat H5).
Defined.

(** Sixteen bytes across the first window boundary, then the first eight of
    them. *)
Lemma Map_smaller_request_is_a_hit_witness :
  let bufpos := SLAB_SIZE - 4 in
  let r := Map pushbuf64 BufMapping_init world0 bufpos 16 id in
  BufMapping_wf BufMapping_init
  /\ u32 bufpos / SLAB_SIZE <> u32 (bufpos + 16 - 1) / SLAB_SIZE
  /\ r.1.1 <> 0
  /\ 8 <= 16
  /\ u32 bufpos / SLAB_SIZE <> u32 (bufpos + 8 - 1) / SLAB_SIZE
  /\ exists i, (i < EXTRA_COUNT)%nat
       /\ ExtraInfo.Matches (extra_at (extra_ r.1.2) i) bufpos 8 = true
       /\ Map pushbuf64 r.1.2 r.2 bufpos 8 id
          = (ExtraInfo.psp_pointer_ (extra_at (extra_ r.1.2) i), r.1.2, r.2).
Proof.
  intros bufpos r.
  assert (H1 : BufMapping_wf BufMapping_init) by apply BufMapping_init_wf.
  assert (H2 : u32 bufpos / SLAB_SIZE <> u32 (bufpos + 16 - 1) / SLAB_SIZE)
    by (vm_compute; discriminate).
  assert (H3 : Map pushbuf64 BufMapping_init world0 bufpos 16 id = (r.1.1, r.1.2, r.2))
    by (unfold r; destruct (Map _ _ _ _ _ _) as [[? ?] ?]; reflexivity).
  assert (H4 : r.1.1 <> 0) by (vm_compute; discriminate).
  assert (H5 : 8 <= 16) by lia.
  assert (H6 : u32 bufpos / SLAB_SIZE <> u32 (bufpos + 8 - 1) / SLAB_SIZE)
    by (vm_compute; discriminate).
  split; [exact H1|]. split; [exact H2|]. split; [exact H4|]. split; [exact H5|].
  split; [exact H6|].
  exact (Map_smaller_request_is_a_hit (A:=user_memory) pushbuf64 BufMapping_init world0
           bufpos 16 8 id id r.1.1 r.1.2 r.2 H1 H2 H3 H4 H5 H6).
Defined.

(** An executor with a list buffer and one slab is destroyed. *)
Lemma DumpExecute_destroy_frees_each_once_witness :
  let d := with_mapping one_slab executor_with_list in
  let d' := (DumpExecute_destroy d world0).1 in
  let w' := (DumpExecute_destroy d world0).2 in
  BufMapping_wf (mapping_ d)
  /\ trace w' = [EvFree 0x08800000; EvFree 0x08800000]
  /\ trace w' = free_events (extra_ (mapping_ d)) ++ slab_free_events (slabs_ (mapping_ d))
                ++ (if execListBuf d =? 0 then [] else [EvFree (execListBuf d)]) ++ trace world0
  /\ mem w' = mem world0
  /\ execListBuf d' = 0 /\ execListPos d' = 0 /\ execMemcpyDest d' = 0
  /\ (forall i, SlabInfo.psp_pointer_ (slab_at (mapping_ d') i) = 0)
  /\ (forall i, ExtraInfo.psp_pointer_ (extra_at (extra_ (mapping_ d')) i) = 0)
  /\ slabGeneration_ (mapping_ d') = 0 /\ extraOffset_ (mapping_ d') = 0%nat.
Proof.
  intros d d' w'.
  assert (H1 : BufMapping_wf (mapping_ d)).
  { repeat split; simpl; unfold EXTRA_COUNT; lia. }
  split; [exact H1|]. split; [reflexivity|].
  exact (DumpExecute_destroy_frees_each_once (A:=user_memory) d world0 H1).
Defined.

(** Four register words into a list that holds one word. *)
Lemma list_end_fits_after_Registers_witness :
  let d := executor_with_list in
  let pending := Z.of_nat (length (execListQueue d)) * 4 in
  let buf := execListBuf d in
  let d1 := (Registers quiet_env psp_ge pushbuf_words d world0 0 16).1 in
  let w1 := (Registers quiet_env psp_ge pushbuf_words d world0 0 16).2 in
  0 < buf /\ buf + 2 * LIST_BUF_SIZE <= 2 ^ 32
  /\ buf <= execListPos d <= buf + LIST_BUF_SIZE - 8
  /\ 0 <= 16 /\ pending + 16 + 8 <= LIST_BUF_SIZE
  /\ observe_g_cancelled quiet_env (trace w1) = false
  /\ execListPos d1 = 0x08800014
  /\ execListBuf d1 = buf
  /\ buf <= execListPos d1 /\ execListPos d1 + 8 <= buf + LIST_BUF_SIZE
  /\ (exists evs,
        trace (SubmitListEnd quiet_env psp_ge d1 w1).2
        = evs ++ [EvWrite_U32 (u32 (Z.shiftl (GE_CMD_END psp_ge) 24)) (execListPos d1 + 4);
                  EvWrite_U32 (u32 (Z.shiftl (GE_CMD_FINISH psp_ge) 24)) (execListPos d1)]
              ++ trace w1)
  /\ execListPos (SubmitListEnd quiet_env psp_ge d1 w1).1 = execListPos d1 + 8.
Proof.
  intros d pending buf d1 w1.
  assert (H1 : 0 < buf) by reflexivity.
  assert (H2 : buf + 2 * LIST_BUF_SIZE <= 2 ^ 32) by (vm_compute; discriminate).
  assert (H3 : buf <= execListPos d <= buf + LIST_BUF_SIZE - 8)
    by (split; vm_compute; discriminate).
  assert (H4 : 0 <= 16) by lia.
  assert (H5 : pending + 16 + 8 <= LIST_BUF_SIZE) by (vm_compute; discriminate).
  assert (H6 : observe_g_cancelled quiet_env (trace w1) = false) by reflexivity.
  repeat (split; [assumption|]). split; [vm_compute; reflexivity|].
  exact (list_end_fits_after_Registers (A:=user_memory) quiet_env psp_ge pushbuf_words d world0
           0 16 H1 H2 H3 H4 H5 H6).
Defined.

(** The same four words: the texture address is gone, the vertex type and
    the NOP are as recorded. *)
Lemma Registers_rewrites_texture_words_witness :
  let d := executor_with_list in
  let pending := Z.of_nat (length (execListQueue d)) * 4 in
  let w' := (Registers quiet_env psp_ge pushbuf_words d world0 0 16).2 in
  0 < execListBuf d /\ execListBuf d + 2 * LIST_BUF_SIZE <= 2 ^ 32
  /\ execListBuf d <= execListPos d <= execListBuf d + LIST_BUF_SIZE - 8
  /\ 0 <= 16 /\ pending + 16 + 8 <= LIST_BUF_SIZE
  /\ 0 <= 0 /\ 0 + 16 <= Z.of_nat (length pushbuf_words)
  /\ load_u32 (mem w') 0x08800004 = nop_word psp_ge
  /\ load_u32 (mem w') 0x08800008 = 0x12000007
  /\ forall i, 0 <= i -> 4 * i + 4 <= 16 ->
       let writePos :=
         execListPos (Registers quiet_env psp_ge pushbuf_words d world0 0 16).1 - 16 in
       let op := pushbuf_u32 pushbuf_words (0 + 4 * i) in
       let cmd := Z.shiftr op 24 in
       let stored := load_u32 (mem w') (writePos + 4 * i) in
       (GE_CMD_TEXADDR0 psp_ge <= cmd <= GE_CMD_TEXADDR7 psp_ge -> stored = nop_word psp_ge)
       /\ (~ GE_CMD_TEXADDR0 psp_ge <= cmd <= GE_CMD_TEXADDR7 psp_ge ->
           ~ GE_CMD_TEXBUFWIDTH0 psp_ge <= cmd <= GE_CMD_TEXBUFWIDTH7 psp_ge -> stored = op).
Proof.
  intros d pending w'.
  assert (H1 : 0 < execListBuf d) by reflexivity.
  assert (H2 : execListBuf d + 2 * LIST_BUF_SIZE <= 2 ^ 32) by (vm_compute; discriminate).
  assert (H3 : execListBuf d <= execListPos d <= execListBuf d + LIST_BUF_SIZE - 8)
    by (split; vm_compute; discriminate).
  assert (H4 : 0 <= 16) by lia.
  assert (H5 : pending + 16 + 8 <= LIST_BUF_SIZE) by (vm_compute; discriminate).
  assert (H6 : 0 <= 0) by lia.
  assert (H7 : 0 + 16 <= Z.of_nat (length pushbuf_words)) by (vm_compute; discriminate).
  repeat (split; [assumption|]).
  split; [vm_compute; reflexivity|]. split; [vm_compute; reflexivity|].
  exact (Registers_rewrites_texture_words (A:=user_memory) quiet_env psp_ge pushbuf_words d
           world0 0 16 H1 H2 H3 H4 H5 H6 H7).
Defined.

(** A framebuffer record of width 512, twice. *)
Lemma Framebuf_twice_witness :
  let d := DumpExecute_new 6 in
  let r1 := Framebuf quiet_env psp_ge (framebuf_record 0) 0 d world0 0 32 in
  let r2 := Framebuf quiet_env psp_ge (framebuf_record 0) 0 r1.1 r1.2 0 32 in
  (0 < 8)%nat /\ length (lastTex_ d) = 8%nat /\ length (lastBufw_ d) = 8%nat
  /\ Forall (fun b => 0 <= b < 2 ^ 16) (lastBufw_ d)
  /\ length (execListQueue r1.1) = 2%nat
  /\ execListQueue r2.1 = execListQueue r1.1.
Proof.
  intros d r1 r2.
  assert (H1 : (0 < 8)%nat) by lia.
  assert (H2 : length (lastTex_ d) = 8%nat) by reflexivity.
  assert (H3 : length (lastBufw_ d) = 8%nat) by reflexivity.
  assert (H4 : Forall (fun b => 0 <= b < 2 ^ 16) (lastBufw_ d)).
  { simpl. repeat constructor; lia. }
  repeat (split; [assumption|]). split; [reflexivity|].
  pose proof (Framebuf_twice (A:=user_memory) quiet_env psp_ge (framebuf_record 0) 0%nat d
                world0 0 32 H1 H2 H3 H4) as (_ & _ & H).
  fold r1 r2 in H. rewrite H. apply app_nil_r.
Defined.

(** A capture without commands. *)
Lemma Run_without_work_witness :
  let d := DumpExecute_new 6 in
  let w0 := if gpu quiet_env then log (EvSetAddrTranslation 0x400) world0 else world0 in
  resumeIndex_ d < 0
  /\ ([] = ([] : list Command) /\ execListPos d = 0)
  /\ Run quiet_env psp_ge pushbuf64 [] d world0 = (Done, d, w0).
Proof.
  intros d w0.
  assert (H1 : resumeIndex_ d < 0) by reflexivity.
  assert (H2 : [] = ([] : list Command) /\ execListPos d = 0) by (split; reflexivity).
  split; [exact H1|]. split; [exact H2|].
  exact (Run_without_work (A:=user_memory) quiet_env psp_ge pushbuf64 [] d world0 H1
           (or_intror H2)).
Defined.

(** Register words when user memory is used up. *)
Lemma Registers_without_list_buffer_witness :
  let d := DumpExecute_new 6 in
  let r := u32 (userMemory_Alloc user_memory (heap world_exhausted) LIST_BUF_SIZE true
                  "List buf").1 in
  let d' := (Registers quiet_env psp_ge pushbuf_words d world_exhausted 0 16).1 in
  let w' := (Registers quiet_env psp_ge pushbuf_words d world_exhausted 0 16).2 in
  execListBuf d = 0
  /\ r = u32 (-1)
  /\ d' = d
  /\ mem w' = mem world_exhausted
  /\ trace w' = EvErrorLog "Unable to allocate for display list"
                :: EvAlloc LIST_BUF_SIZE true "List buf" r :: trace world_exhausted.
Proof.
  intros d r d' w'.
  assert (H1 : execListBuf d = 0) by reflexivity.
  assert (H2 : r = u32 (-1)) by reflexivity.
  split; [exact H1|]. split; [exact H2|].
  exact (Registers_without_list_buffer (A:=user_memory) quiet_env psp_ge pushbuf_words d
           world_exhausted 0 16 H1 (or_intror H2)).
Defined.

(** Register words, then a DISPLAY record as the last command. *)
Lemma only_the_last_DISPLAY_flips_witness :
  let pre := [mkCommand REGISTERS 0 16] in
  let d := DumpExecute_new 6 in
  let commands_ := pre ++ [mkCommand DISPLAY 16 12] in
  (forall tr, observe_g_cancelled quiet_env tr = false)
  /\ Forall (fun c => supported (cmd_type c) = true) pre
  /\ exists d' w' w'',
       Run_loop quiet_env psp_ge pushbuf64 (length commands_) 0 pre d world0 = (LoopEnd, d', w')
       /\ Run_loop quiet_env psp_ge pushbuf64 (length commands_) 0 commands_ d world0
          = Run_loop quiet_env psp_ge pushbuf64 (length commands_) (S (length pre)) [] d' w''
       /\ trace w''
          = [EvDisplaySetFramebuf (pushbuf_u32 pushbuf64 16) (s32 (pushbuf_u32 pushbuf64 (16 + 4)))
               (s32 (pushbuf_u32 pushbuf64 (16 + 8))) 0]
            ++ EvDisplaySetFramebuf (pushbuf_u32 pushbuf64 16)
                 (s32 (pushbuf_u32 pushbuf64 (16 + 4)))
                 (s32 (pushbuf_u32 pushbuf64 (16 + 8))) 1
            :: trace (SyncStall quiet_env d' w').
Proof.
  intros pre d commands_.
  assert (H1 : forall tr, observe_g_cancelled quiet_env tr = false) by reflexivity.
  assert (H2 : Forall (fun c => supported (cmd_type c) = true) pre) by (repeat constructor).
  split; [exact H1|]. split; [exact H2|].
  exact (only_the_last_DISPLAY_flips (A:=user_memory) quiet_env psp_ge pushbuf64 pre [] 16 12
           d world0 H1 H2).
Defined.

(** A file with two bytes left where a stream should start. *)
Lemma ReadCompressed_short_file_witness :
  let fp := mkFile [1; 0] 0 in
  let remaining := drop (file_pos fp) (file_bytes fp) in
  (length remaining < 4)%nat
  /\ (ReadCompressed stored_codecs fp [9; 9] 2 6).1.1 = false
  /\ (ReadCompressed stored_codecs fp [9; 9] 2 6).1.2 = [9; 9].
Proof.
  intros fp remaining.
  assert (H1 : (length remaining < 4)%nat) by (simpl; lia).
  split; [exact H1|].
  exact (ReadCompressed_short_file stored_codecs fp [9; 9] 2 6 (or_introl H1)).
Defined.

(** The complete capture is loaded into a fresh process. *)
Lemma LoadReplay_accepts_witness :
  let filename := "frame.ppdmp"%string in
  let cstream := [1; 0; 0; 0; 0; 0; 0; 0; 4; 0; 0; 0] in
  let pstream := [0; 0; 0; 0] in
  let content := file_content capture_files filename in
  let header :=
    Header_of_bytes example_format
      (overlay (take (sizeof_Header example_format) content)
               (replicate (sizeof_Header example_format) 0)) in
  let v := version header in
  let body := drop (if v <=? 3 then 12%nat else sizeof_Header example_format) content in
  magic header = take (sizeof_magic example_format) (HEADER_MAGIC example_format)
  /\ MIN_VERSION example_format <= v <= VERSION example_format
  /\ capture_streams body 1 4 cstream pstream
  /\ decompressed_size stored_codecs v cstream (sizeof_Command example_format * 1)
     = sizeof_Command example_format * 1
  /\ decompressed_size stored_codecs v pstream 4 = 4
  /\ exists p',
       LoadReplay example_format stored_codecs capture_files Process_init filename = (v, p')
       /\ lastExecFilename p' = filename /\ lastExecVersion p' = v
       /\ lastExecCommands p'
          = overlay (decompressed stored_codecs v cstream (sizeof_Command example_format * 1))
              (resize_bytes (sizeof_Command example_format * 1) (lastExecCommands Process_init))
       /\ lastExecPushbuf p'
          = overlay (decompressed stored_codecs v pstream 4)
              (resize_bytes 4 (lastExecPushbuf Process_init))
       /\ g_cancelled p' = false
       /\ replayThread p' = replayThread Process_init.
Proof.
  intros filename cstream pstream content header v body.
  assert (H1 : magic header
               = take (sizeof_magic example_format) (HEADER_MAGIC example_format))
    by reflexivity.
  assert (H2 : MIN_VERSION example_format <= v <= VERSION example_format)
    by (split; vm_compute; discriminate).
  assert (H3 : capture_streams body 1 4 cstream pstream) by (exists []; reflexivity).
  assert (H4 : 0 <= 1 < 2 ^ 32) by lia.
  assert (H5 : 0 <= 4 < 2 ^ 32) by lia.
  assert (H6 : Z.of_nat (length cstream) < 2 ^ 32) by reflexivity.
  assert (H7 : Z.of_nat (length pstream) < 2 ^ 32) by reflexivity.
  assert (H8 : decompressed_size stored_codecs v cstream (sizeof_Command example_format * 1)
               = sizeof_Command example_format * 1) by reflexivity.
  assert (H9 : decompressed_size stored_codecs v pstream 4 = 4) by reflexivity.
  split; [exact H1|]. split; [exact H2|]. split; [exact H3|]. split; [exact H8|].
  split; [exact H9|].
  exact (LoadReplay_accepts example_format stored_codecs capture_files Process_init filename
           1 4 cstream pstream H1 H2 H3 H4 H5 H6 H7 H8 H9).
Defined.

(** Vertices and a texture right after [Init]. *)
Lemma Init_invalidates_tracking_witness :
  let d := DumpExecute_new 6 in
  let d0 := (Init quiet_env d world0 0 0).1 in
  let w0 := (Init quiet_env d world0 0 0).2 in
  let psp := (map_payload quiet_env pushbuf64 d0 w0 0 16).1.1 in
  psp = 0x08800000
  /\ psp <> 0
  /\ (0 < 8)%nat
  /\ execListQueue (Vertices quiet_env psp_ge pushbuf64 d0 w0 0 16).1
     = execListQueue d ++ [base_word psp_ge psp; addr_word (GE_CMD_VADDR psp_ge) psp]
  /\ execListQueue (Texture quiet_env psp_ge pushbuf64 0 d0 w0 0 16).1
     = execListQueue d
       ++ [u32 (Z.lor (Z.lor (Z.shiftl (GE_CMD_TEXBUFWIDTH0 psp_ge + Z.of_nat 0) 24)
                             (Z.land (Z.shiftr psp 8) 0x00FF0000)) 0);
           addr_word (GE_CMD_TEXADDR0 psp_ge + Z.of_nat 0) psp].
Proof.
  intros d d0 w0 psp.
  assert (H0 : psp = 0x08800000) by (vm_compute; reflexivity).
  assert (H1 : (map_payload quiet_env pushbuf64 d0 w0 0 16).1.1 = psp) by reflexivity.
  assert (H2 : psp <> 0) by (rewrite H0; discriminate).
  assert (H3 : (0 < 8)%nat) by lia.
  split; [exact H0|]. split; [exact H2|]. split; [exact H3|].
  exact (Init_invalidates_tracking (A:=user_memory) quiet_env psp_ge pushbuf64 d world0 0 0 0 16
           0%nat psp H1 H2 H3).
Defined.

(** The complete capture, asked for by a fresh process. *)
Lemma RunMountedReplay_loads_first_witness :
  let filename := "frame.ppdmp"%string in
  let r := LoadReplay example_format stored_codecs capture_files Process_init filename in
  lastExecFilename Process_init <> filename
  /\ replayThread Process_init = None
  /\ r.1 = 6
  /\ r.1 <> 0
  /\ lastExecFilename r.2 = filename /\ lastExecVersion r.2 = r.1
  /\ replayThread r.2 = None
  /\ RunMountedReplay quiet_env psp_ge example_format stored_codecs capture_files
       world0 Process_init filename
     = RunMountedReplay quiet_env psp_ge example_format stored_codecs capture_files
         world0 r.2 filename.
Proof.
  intros filename r.
  assert (H1 : lastExecFilename Process_init <> filename) by discriminate.
  assert (H2 : replayThread Process_init = None) by reflexivity.
  assert (H3 : LoadReplay example_format stored_codecs capture_files Process_init filename
               = (r.1, r.2)) by (unfold r; destruct (LoadReplay _ _ _ _ _); reflexivity).
  assert (H4 : r.1 = 6) by (vm_compute; reflexivity).
  assert (H5 : r.1 <> 0) by (rewrite H4; discriminate).
  split; [exact H1|]. split; [exact H2|]. split; [exact H4|]. split; [exact H5|].
  exact (RunMountedReplay_loads_first (A:=user_memory) quiet_env psp_ge example_format
           stored_codecs capture_files world0 Process_init filename r.1 r.2 H1 H2 H3 H5).
Defined.

(** A branch 5 instructions back, and the break that ends the stub. *)
Lemma MIPS_special_encoders_decode_witness :
  0 <= 0 < 2 ^ 20
  /\ (let op := MIPS_MAKE_B (-5) in
      MIPS_GET_OP op = 4 /\ MIPS_GET_RS op = 0 /\ MIPS_GET_RT op = 0
      /\ Z.land op 0xFFFF = -5 mod 2 ^ 16)
  /\ (let op := MIPS_MAKE_BREAK 0 in
      MIPS_GET_OP op = 0 /\ MIPS_GET_FUNC op = 13 /\ Z.shiftr op 6 = 0)
  /\ (MIPS_GET_OP MIPS_MAKE_JR_RA = 0 /\ MIPS_GET_RS MIPS_MAKE_JR_RA = 31
      /\ MIPS_GET_FUNC MIPS_MAKE_JR_RA = 8).
Proof.
  assert (Hn : 0 <= 0 < 2 ^ 20) by lia.
  split; [exact Hn|].
  exact (MIPS_special_encoders_decode (-5) 0 Hn).
Defined.

(** A list and a vertex payload: the thread takes the list buffer at
    0x08800000 and one slab behind it, and frees both when it ends. *)
Lemma replay_thread_frees_what_it_allocates_witness :
  let a := 0x08800000 in
  let commands := [mkCommand REGISTERS 0 16; mkCommand VERTICES 0 16] in
  let r := Run quiet_env psp_ge pushbuf_words commands (DumpExecute_new 6) world0 in
  let w' := replayThread_body quiet_env psp_ge pushbuf_words commands 6 world0 in
  a <> 0 /\ a <> u32 (-1)
  /\ n_alloc a (trace w') = 1
  /\ n_alloc a (trace r.2) - n_alloc a (trace world0)
     = n_free a (trace r.2) - n_free a (trace world0) + n_held a r.1.2
  /\ n_alloc a (trace w') - n_alloc a (trace world0)
     = n_free a (trace w') - n_free a (trace world0).
Proof.
  intros a commands r w'.
  assert (H1 : a <> 0) by (vm_compute; discriminate).
  assert (H2 : a <> u32 (-1)) by (vm_compute; discriminate).
  split; [exact H1|]. split; [exact H2|]. split; [vm_compute; reflexivity|].
  exact (replay_thread_frees_what_it_allocates (A:=user_memory) quiet_env psp_ge a H1 H2
           pushbuf_words commands 6 world0).
Defined.
